(** * The TPU rewrite pass ([tpu_rewrite_pass.cc]) as a shallow embedding

    The pass rewrites every [tf_device.launch_func] operation that carries a
    [_tpu_replicate] attribute into the TPU runtime operations that compile
    and execute the launched function.  The development follows the source
    file top-down: the IR data model the pass manipulates, the diagnostics it
    emits, the closure extractor [EncapsulateFuncAndSerialize], the
    [SetMetadataProto*] descriptor builders, the node builders, [Rewrite] and
    finally [runOnModule]. *)

From Stdlib Require Import List String Ascii ZArith Lia Bool Arith PeanoNat.
From Stdlib Require Import DecimalString.
Import ListNotations.
Local Open Scope string_scope.
Local Open Scope list_scope.
Local Open Scope nat_scope.

Set Warnings "-register-all".

(** ** IR data model *)

(** An MLIR type, as far as the pass looks at one: it asks whether a type is
    a [RankedTensorType] (and then for its shape, a dynamic dimension being
    [-1]) and otherwise hands the type to [ConvertToDataType]. *)
Inductive mlirType : Type :=
| RankedTensorType (shape : list Z) (elementType : string)
| UnrankedTensorType (elementType : string)
| OpaqueType (name : string).

Inductive Attribute : Type :=
| StringAttr (value : string)
| IntegerAttr (value : Z)
| FlatSymbolRefAttr (value : string)
| ArrayAttr (elements : list Attribute)
| DictionaryAttr (entries : list (string * Attribute)).

Definition NamedAttribute : Type := (string * Attribute)%type.

(** An SSA value is the result of an operation, named by the identity of its
    owner, or a block argument; either carries its type. *)
Inductive Value : Type :=
| OpResult (owner : nat) (resultNumber : nat) (type : mlirType)
| BlockArgument (argNumber : nat) (type : mlirType).

(** An operation.  [opId] stands for the identity (address) of the operation,
    through which [OpResult] values refer to it.  Every region holds a single
    block, given as the list of its operations. *)
Inductive Operation : Type := mkOperation {
  opId : nat;
  opName : string;
  getOperands : list Value;
  getResultTypes : list mlirType;
  getAttrs : list NamedAttribute;
  getRegions : list (list Operation)
}.

Definition ModuleOp : Type := Operation.
Definition FuncOp : Type := Operation.

Lemma mlirType_eq_dec (a b : mlirType) : {a = b} + {a <> b}.
Proof.
  decide equality; try apply string_dec; apply (list_eq_dec Z.eq_dec).
Defined.

Lemma Value_eq_dec (a b : Value) : {a = b} + {a <> b}.
Proof.
  decide equality; try apply mlirType_eq_dec; apply Nat.eq_dec.
Defined.

Definition Value_getType (v : Value) : mlirType :=
  match v with
  | OpResult _ _ t => t
  | BlockArgument _ t => t
  end.

Definition getNumOperands (op : Operation) : nat := List.length (getOperands op).
Definition getNumResults (op : Operation) : nat := List.length (getResultTypes op).
Definition getOperandTypes (op : Operation) : list mlirType :=
  map Value_getType (getOperands op).

(** [op->getResults()]: result [i] of [op] with its type. *)
Fixpoint resultsFrom (owner : nat) (i : nat) (types : list mlirType) : list Value :=
  match types with
  | [] => []
  | t :: types' => OpResult owner i t :: resultsFrom owner (S i) types'
  end.

Definition getResults (op : Operation) : list Value :=
  resultsFrom (opId op) 0 (getResultTypes op).

(** [op->getResult(idx)]; there is no such value when [idx] is not below
    [getNumResults]. *)
Definition getResult (op : Operation) (idx : nat) : option Value :=
  nth_error (getResults op) idx.

(** *** Attributes *)

Fixpoint lookupAttr (name : string) (attrs : list NamedAttribute) : option Attribute :=
  match attrs with
  | [] => None
  | (n, a) :: attrs' => if String.eqb n name then Some a else lookupAttr name attrs'
  end.

Definition getAttr (op : Operation) (name : string) : option Attribute :=
  lookupAttr name (getAttrs op).

Definition dyn_cast_StringAttr (a : Attribute) : option string :=
  match a with StringAttr s => Some s | _ => None end.
Definition dyn_cast_IntegerAttr (a : Attribute) : option Z :=
  match a with IntegerAttr z => Some z | _ => None end.
Definition dyn_cast_ArrayAttr (a : Attribute) : option (list Attribute) :=
  match a with ArrayAttr l => Some l | _ => None end.
Definition dyn_cast_FlatSymbolRefAttr (a : Attribute) : option string :=
  match a with FlatSymbolRefAttr s => Some s | _ => None end.

(** [op.getAttrOfType<T>(name)]: null when the attribute is absent or is not
    a [T]. *)
Definition getAttrOfType {T : Type} (cast : Attribute -> option T)
           (op : Operation) (name : string) : option T :=
  match getAttr op name with
  | Some a => cast a
  | None => None
  end.

Fixpoint removeAttr (name : string) (attrs : list NamedAttribute) : list NamedAttribute :=
  match attrs with
  | [] => []
  | (n, a) :: attrs' =>
      if String.eqb n name then removeAttr name attrs' else (n, a) :: removeAttr name attrs'
  end.

(** [op->setAttr(name, value)]. *)
Definition setAttr (op : Operation) (name : string) (value : Attribute) : Operation :=
  mkOperation (opId op) (opName op) (getOperands op) (getResultTypes op)
              ((name, value) :: removeAttr name (getAttrs op)) (getRegions op).

(** *** Operation names *)

Definition kModuleOp := "module".
Definition kFuncOp := "func".
Definition kLaunchFuncOp := "tf_device.launch_func".
Definition kLaunchOp := "tf_device.launch".
Definition kReturnOp := "tf_device.return".
Definition kReplicateOp := "tf_device.replicate".
Definition kParallelExecuteOp := "tf_device.parallel_execute".
Definition kShapeOp := "tf.Shape".
Definition kTPUCompileMlirOp := "tf._TPUCompileMlir".
Definition kTPUCompileSucceededAssertOp := "tf.TPUCompileSucceededAssert".
Definition kTPUExecuteOp := "tf.TPUExecute".
Definition kTPUCompilationResultOp := "tf.TPUCompilationResult".

Definition isa (name : string) (op : Operation) : bool := String.eqb (opName op) name.

(** *** Attribute names of the pass *)

Definition kNumReplicasAttr := "num_replicas".
Definition kNumCoresPerReplicaAttr := "num_cores_per_replica".
Definition kStepMarkerLocationAttr := "step_marker_location".
Definition kPaddingMapAttr := "padding_map".
Definition kDeviceAttr := "device".
Definition kDevicesAttr := "devices".
Definition kVersionsAttr := "tf.versions".
Definition kTPUReplicateAttr := "_tpu_replicate".
Definition kSymNameAttr := "sym_name".

(** ** Diagnostics *)

(** A message is kept as the [llvm::formatv] template with its arguments. *)
Inductive FormatArg : Type :=
| ArgStr (s : string)
| ArgNat (n : nat).

Inductive Message : Type :=
| formatv (format : string) (arguments : list FormatArg).

Definition kBadStringArrayElementMsg := "bad '{0}' attribute at index {1}, not a string".
Definition kBadArrayElementMsg :=
  "bad '{0}' attribute at index {1} with value '{2}': failed to parse to {3}".
Definition kBadArrayAttrLengthMsg :=
  "bad '{0}' attribute, expected array attribute of size {1}, got size {2}".

Definition CreateMissingAttributeMsg (attribute : string) : Message :=
  formatv "requires attribute '{0}'" [ArgStr attribute].

(** A diagnostic is attached to the operation it is emitted on. *)
Inductive Diagnostic : Type :=
| emitOpError (op : nat) (message : Message)
| emitError (op : nat) (message : Message).

(** [LogicalResult]; a failure carries the diagnostic that was emitted. *)
Inductive LogicalResult : Type :=
| success
| failure (d : Diagnostic).

Definition failed (r : LogicalResult) : bool :=
  match r with success => false | failure _ => true end.

(** ** Symbols and symbol tables *)

(** The symbol name of an operation, if it defines a symbol. *)
Definition symbolName (op : Operation) : option string :=
  getAttrOfType dyn_cast_StringAttr op kSymNameAttr.

(** [func.getName()] and [func.setName(name)]. *)
Definition getName (func : FuncOp) : string :=
  match symbolName func with
  | Some name => name
  | None => ""
  end.

Definition setName (func : FuncOp) (name : string) : FuncOp :=
  setAttr func kSymNameAttr (StringAttr name).

(** The single block of the body region of a module. *)
Definition getBody (module : ModuleOp) : list Operation := hd [] (getRegions module).

(** [SymbolTable(module).lookup<FuncOp>(name)]: the operation of the module
    body that defines [name], when it is a function. *)
Definition lookupSymbolIn (body : list Operation) (name : string) : option Operation :=
  find (fun op => match symbolName op with
                  | Some n => String.eqb n name
                  | None => false
                  end) body.

Definition lookupFunc (body : list Operation) (name : string) : option FuncOp :=
  match lookupSymbolIn body name with
  | Some op => if isa kFuncOp op then Some op else None
  | None => None
  end.

(** The symbol references held by an attribute. *)
Fixpoint attrSymbolRefs (a : Attribute) : list string :=
  match a with
  | FlatSymbolRefAttr s => [s]
  | ArrayAttr elements => flat_map attrSymbolRefs elements
  | DictionaryAttr entries => flat_map (fun e => attrSymbolRefs (snd e)) entries
  | _ => []
  end.

(** [SymbolTable::getSymbolUses(op)]: the symbol references in the attributes
    of [op] and of every operation nested in it. *)
Fixpoint getSymbolUses (op : Operation) : list string :=
  flat_map (fun na => attrSymbolRefs (snd na)) (getAttrs op)
  ++ flat_map (flat_map getSymbolUses) (getRegions op).

(** The symbol table of the module under construction: the operations
    inserted so far, in order, and the counter [SymbolTable::insert] draws
    suffixes from. *)
Record SymbolTable : Type := mkSymbolTable {
  symbols : list Operation;
  uniquingCounter : nat
}.

Definition hasSymbol (table : list Operation) (name : string) : bool :=
  existsb (fun op => String.eqb (getName op) name) table.

Definition to_string (n : nat) : string := NilEmpty.string_of_uint (Nat.to_uint n).

(** The suffix search of [SymbolTable::insert]: [base_k] for the first
    counter value [k] whose name is free.  After as many taken candidates as
    the table has entries the next one is free, so [tries] starts at the size
    of the table. *)
Fixpoint uniqueName (taken : string -> bool) (base : string) (tries counter : nat)
  : string * nat :=
  let candidate := (base ++ "_" ++ to_string counter)%string in
  match tries with
  | 0 => (candidate, S counter)
  | S tries' =>
      if taken candidate then uniqueName taken base tries' (S counter)
      else (candidate, S counter)
  end.

(** [symbol_table.insert(symbol)]: appended to the module body; renamed
    first when its name is already taken. *)
Definition SymbolTable_insert (table : SymbolTable) (symbol : Operation) : SymbolTable :=
  if hasSymbol (symbols table) (getName symbol) then
    let (name, counter) :=
      uniqueName (hasSymbol (symbols table)) (getName symbol)
                 (List.length (symbols table)) (uniquingCounter table) in
    mkSymbolTable (symbols table ++ [setName symbol name]) counter
  else
    mkSymbolTable (symbols table ++ [symbol]) (uniquingCounter table).

(** [symbol_table.lookup<FuncOp>(name)] on the table under construction. *)
Definition SymbolTable_lookupFunc (table : SymbolTable) (name : string) : option FuncOp :=
  lookupFunc (symbols table) name.

(** ** [EncapsulateFuncAndSerialize] *)

(** The inner loop over the symbol uses of [func]: every use that maps to a
    function of the entry module is put at the back of [referenced].  The
    work list is kept with its back at the head of the list. *)
Definition pushReferenced (entry_module_table : list Operation) (uses : list string)
           (referenced : list FuncOp) : list FuncOp :=
  fold_left (fun referenced use =>
               match lookupFunc entry_module_table use with
               | Some referenced_func => referenced_func :: referenced
               | None => referenced
               end) uses referenced.

(** [func.clone()] followed by the renaming of the clone of the entry. *)
Definition cloneFor (entry_func func : FuncOp) : FuncOp :=
  let clone := func in
  if String.eqb (getName clone) (getName entry_func) then setName clone "main" else clone.

(** The [while (!referenced.empty())] loop; one unit of [fuel] per test of
    its condition. *)
Fixpoint encapsulateLoop (fuel : nat) (entry_module_table : list Operation)
         (entry_func : FuncOp) (referenced : list FuncOp) (symbol_table : SymbolTable)
  : option SymbolTable :=
  match fuel with
  | 0 => None
  | S fuel' =>
      match referenced with
      | [] => Some symbol_table
      | func :: referenced =>
          match SymbolTable_lookupFunc symbol_table (getName func) with
          | Some _ => encapsulateLoop fuel' entry_module_table entry_func referenced symbol_table
          | None =>
              let referenced :=
                pushReferenced entry_module_table (getSymbolUses func) referenced in
              encapsulateLoop fuel' entry_module_table entry_func referenced
                              (SymbolTable_insert symbol_table (cloneFor entry_func func))
          end
      end
  end.

(** [ModuleOp::create] with the versions attribute set. *)
Definition newModule (versions_attr : Attribute) (body : list Operation) : ModuleOp :=
  mkOperation 0 kModuleOp [] [] [(kVersionsAttr, versions_attr)] [body].

(** The extractor up to the printing of the new module.  It is given the
    module that holds [entry_func] and returns that module as it leaves it,
    together with the diagnostic or the module built for the function;
    [None] when [fuel] does not suffice. *)
Definition EncapsulateFunc (fuel : nat) (module : ModuleOp) (entry_func : FuncOp)
  : option (ModuleOp * (Diagnostic + ModuleOp)) :=
  match getAttr module kVersionsAttr with
  | None =>
      Some (module, inl (emitError (opId module) (CreateMissingAttributeMsg kVersionsAttr)))
  | Some versions_attr =>
      match encapsulateLoop fuel (getBody module) entry_func [entry_func]
                            (mkSymbolTable [] 0) with
      | None => None
      | Some symbol_table =>
          Some (module, inr (newModule versions_attr (symbols symbol_table)))
      end
  end.

(** The functions reachable from [entry] through symbol uses that resolve to
    functions of the module body. *)
Inductive reachable (body : list Operation) (entry : FuncOp) : FuncOp -> Prop :=
| reachable_entry : reachable body entry entry
| reachable_use (g h : FuncOp) (s : string) :
    reachable body entry g ->
    In s (getSymbolUses g) ->
    lookupFunc body s = Some h ->
    reachable body entry h.

(** ** Collaborators

    What the pass calls but does not define: the conversions of the
    TensorFlow utilities, the protocol-buffer parsers and serializers, the
    device-assignment resolver, the per-core input extractor, the printer of
    the IR, and the constants declared in the headers of those utilities. *)
Class Collaborators : Type := {
  (** [tensorflow::DataType] with its [DT_RESOURCE] member *)
  DataType : Type;
  DT_RESOURCE : DataType;
  DataType_eq_dec : forall a b : DataType, {a = b} + {a <> b};
  (** [tensorflow::ConvertToDataType]: the data type, or the error message
      of a status that is not ok *)
  ConvertToDataType : mlirType -> string + DataType;
  (** [xla::DebugOptions::StepMarkerLocation] and its generated parser *)
  StepMarkerLocation : Type;
  STEP_MARK_AT_ENTRY : StepMarkerLocation;
  StepMarkerLocation_Parse : string -> option StepMarkerLocation;
  (** [tpu::PaddingMap], [xla::OpSharding] and [ParseFromString] on them *)
  PaddingMap : Type;
  PaddingMap_ParseFromString : string -> option PaddingMap;
  OpSharding : Type;
  OpSharding_ParseFromString : string -> option OpSharding;
  (** [xla::DeviceAssignmentProto] *)
  DeviceAssignmentProto : Type;
  (** [tensorflow::kInputShardingAttr] and [tensorflow::kOutputShardingAttr] *)
  kInputShardingAttr : string;
  kOutputShardingAttr : string;
  (** [tensorflow::DeviceNameUtils::ParsedName] and [GetDevicesFromOp] *)
  ParsedName : Type;
  GetDevicesFromOp : ModuleOp -> option (list ParsedName);
  (** [tensorflow::GetTPUCompilationAndExecutionDevices]: the compilation
      device, the execution devices by replica and logical core and the
      optional device assignment, or the error message of the status *)
  GetTPUCompilationAndExecutionDevices :
    list ParsedName -> Z -> Z -> string -> list Z ->
    string + (string * list (list string) * option DeviceAssignmentProto);
  (** [tensorflow::ExtractInputsForLogicalDevices] *)
  ExtractInputsForLogicalDevices : Z -> Operation -> list (list Value);
  (** [tensorflow::GetDeviceAliasForLogicalCore] *)
  GetDeviceAliasForLogicalCore : Z -> string;
  (** the command-line flag [tpu_compile_metadata_debug] *)
  tpu_compile_metadata_debug : bool
}.

(** ** The compile descriptor, [TPUCompileMetadataProto] *)

Record TensorShapeProto : Type := mkTensorShapeProto {
  dim : list Z;
  unknown_rank : bool
}.

(** [TPUCompileMetadataProto::Arg::Kind] *)
Inductive ArgKind : Type := INVALID | PARAMETER | VARIABLE | GUARANTEED_CONSTANT.

Section Descriptor.
Context {C : Collaborators}.

Record Arg : Type := mkArg {
  arg_dtype : DataType;
  arg_kind : ArgKind;
  arg_shape : TensorShapeProto;
  arg_sharding : OpSharding
}.

Record Retval : Type := mkRetval {
  retval_sharding : OpSharding
}.

Record TPUCompileMetadataProto : Type := mkMetadata {
  num_replicas : Z;
  num_cores_per_replica : Z;
  step_marker_location : StepMarkerLocation;
  padding_maps : list PaddingMap;
  device_assignment : option DeviceAssignmentProto;
  args : list Arg;
  retvals : list Retval
}.

(** A freshly constructed message. *)
Definition emptyMetadata : TPUCompileMetadataProto :=
  mkMetadata 0 0 STEP_MARK_AT_ENTRY [] None [] [].

Definition set_num_replicas (m : TPUCompileMetadataProto) (n : Z) :=
  mkMetadata n (num_cores_per_replica m) (step_marker_location m) (padding_maps m)
             (device_assignment m) (args m) (retvals m).
Definition set_num_cores_per_replica (m : TPUCompileMetadataProto) (n : Z) :=
  mkMetadata (num_replicas m) n (step_marker_location m) (padding_maps m)
             (device_assignment m) (args m) (retvals m).
Definition set_step_marker_location (m : TPUCompileMetadataProto) (l : StepMarkerLocation) :=
  mkMetadata (num_replicas m) (num_cores_per_replica m) l (padding_maps m)
             (device_assignment m) (args m) (retvals m).
Definition add_padding_maps (m : TPUCompileMetadataProto) (p : PaddingMap) :=
  mkMetadata (num_replicas m) (num_cores_per_replica m) (step_marker_location m)
             (padding_maps m ++ [p]) (device_assignment m) (args m) (retvals m).
Definition set_device_assignment (m : TPUCompileMetadataProto) (d : DeviceAssignmentProto) :=
  mkMetadata (num_replicas m) (num_cores_per_replica m) (step_marker_location m)
             (padding_maps m) (Some d) (args m) (retvals m).
Definition add_args (m : TPUCompileMetadataProto) (a : Arg) :=
  mkMetadata (num_replicas m) (num_cores_per_replica m) (step_marker_location m)
             (padding_maps m) (device_assignment m) (args m ++ [a]) (retvals m).
Definition add_retvals (m : TPUCompileMetadataProto) (r : Retval) :=
  mkMetadata (num_replicas m) (num_cores_per_replica m) (step_marker_location m)
             (padding_maps m) (device_assignment m) (args m) (retvals m ++ [r]).

(** [ConvertToTensorShapeProto]: one [dim] per dimension of the shape. *)
Definition ConvertToTensorShapeProto (shape : list Z) : TensorShapeProto :=
  mkTensorShapeProto shape false.

(** [PartialTensorShape(proto).IsFullyDefined()]: the rank is known and no
    dimension is unknown (negative). *)
Definition IsFullyDefined (shape : TensorShapeProto) : bool :=
  negb (unknown_rank shape) && forallb (fun d => (0 <=? d)%Z) (dim shape).

(** A fallible step of the descriptor build: the diagnostic it emitted, or
    the descriptor as populated so far. *)
Definition Populated : Type := (Diagnostic + TPUCompileMetadataProto)%type.

(** *** [SetMetadataProtoStepMarkerLocation] *)
Definition SetMetadataProtoStepMarkerLocation
           (op : Operation) (metadata : TPUCompileMetadataProto) : Populated :=
  match getAttrOfType dyn_cast_StringAttr op kStepMarkerLocationAttr with
  | None => inl (emitOpError (opId op) (CreateMissingAttributeMsg kStepMarkerLocationAttr))
  | Some value =>
      if String.eqb value "" then
        inr (set_step_marker_location metadata STEP_MARK_AT_ENTRY)
      else
        match StepMarkerLocation_Parse value with
        | None =>
            inl (emitOpError (opId op)
                   (formatv "bad '{0}' attribute with value '{1}'"
                            [ArgStr kStepMarkerLocationAttr; ArgStr value]))
        | Some location => inr (set_step_marker_location metadata location)
        end
  end.

(** *** [SetMetadataProtoPaddingMap] *)
Fixpoint paddingMapLoop (op : Operation) (padding_map : list Attribute) (index : nat)
         (metadata : TPUCompileMetadataProto) : Populated :=
  match padding_map with
  | [] => inr metadata
  | padding_attr :: rest =>
      match dyn_cast_StringAttr padding_attr with
      | None =>
          inl (emitOpError (opId op)
                 (formatv kBadStringArrayElementMsg [ArgStr kPaddingMapAttr; ArgNat index]))
      | Some padding_attr_str =>
          match PaddingMap_ParseFromString padding_attr_str with
          | None =>
              inl (emitOpError (opId op)
                     (formatv kBadArrayElementMsg
                              [ArgStr kPaddingMapAttr; ArgNat index;
                               ArgStr padding_attr_str; ArgStr "tpu::PaddingMap"]))
          | Some padding => paddingMapLoop op rest (S index) (add_padding_maps metadata padding)
          end
      end
  end.

Definition SetMetadataProtoPaddingMap
           (op : Operation) (metadata : TPUCompileMetadataProto) : Populated :=
  match getAttrOfType dyn_cast_ArrayAttr op kPaddingMapAttr with
  | None => inl (emitOpError (opId op) (CreateMissingAttributeMsg kPaddingMapAttr))
  | Some padding_map => paddingMapLoop op padding_map 0 metadata
  end.

(** *** [SetOpSharding] *)
Definition SetOpSharding (op : Operation) (attr : Attribute) (name : string) (index : nat)
  : Diagnostic + OpSharding :=
  match dyn_cast_StringAttr attr with
  | None => inl (emitOpError (opId op)
                   (formatv kBadStringArrayElementMsg [ArgStr name; ArgNat index]))
  | Some sharding_str =>
      match OpSharding_ParseFromString sharding_str with
      | None => inl (emitOpError (opId op)
                       (formatv kBadArrayElementMsg
                                [ArgStr name; ArgNat index; ArgStr sharding_str;
                                 ArgStr "xla::OpSharding"]))
      | Some sharding => inr sharding
      end
  end.

(** *** [SetMetadataProtoArgs] *)

(** The kind and the shape recorded for an operand of type [operand_type]
    whose data type is [dtype]. *)
Definition argKind (dtype : DataType) : ArgKind :=
  if DataType_eq_dec dtype DT_RESOURCE then VARIABLE else PARAMETER.

Definition argShape (operand_type : mlirType) : TensorShapeProto :=
  match operand_type with
  | RankedTensorType shape _ => ConvertToTensorShapeProto shape
  | _ => mkTensorShapeProto [] true
  end.

(** The loop over [llvm::enumerate(op.getOperandTypes())].  The sharding of
    operand [index] is [input_shardings.getValue()[index]], which the size
    check of the caller keeps in range. *)
Fixpoint argsLoop (op : Operation) (input_shardings : list Attribute)
         (operand_types : list mlirType) (index : nat)
         (metadata : TPUCompileMetadataProto) : Populated :=
  match operand_types with
  | [] => inr metadata
  | operand_type :: rest =>
      match ConvertToDataType operand_type with
      | inl error_message =>
          inl (emitOpError (opId op)
                 (formatv "failed to determine operand type at index {0}: {1}"
                          [ArgNat index; ArgStr error_message]))
      | inr dtype =>
          match SetOpSharding op (nth index input_shardings (ArrayAttr []))
                              kInputShardingAttr index with
          | inl d => inl d
          | inr sharding =>
              argsLoop op input_shardings rest (S index)
                       (add_args metadata
                                 (mkArg dtype (argKind dtype) (argShape operand_type) sharding))
          end
      end
  end.

Definition SetMetadataProtoArgs
           (op : Operation) (metadata : TPUCompileMetadataProto) : Populated :=
  match getAttrOfType dyn_cast_ArrayAttr op kInputShardingAttr with
  | None => inl (emitOpError (opId op) (CreateMissingAttributeMsg kInputShardingAttr))
  | Some input_shardings =>
      if negb (List.length input_shardings =? getNumOperands op) then
        inl (emitOpError (opId op)
               (formatv kBadArrayAttrLengthMsg
                        [ArgStr kInputShardingAttr; ArgNat (getNumOperands op);
                         ArgNat (List.length input_shardings)]))
      else argsLoop op input_shardings (getOperandTypes op) 0 metadata
  end.

(** *** [SetMetadataProtoRetvals] *)
Fixpoint retvalsLoop (op : Operation) (output_shardings : list Attribute) (index : nat)
         (metadata : TPUCompileMetadataProto) : Populated :=
  match output_shardings with
  | [] => inr metadata
  | output_sharding :: rest =>
      match SetOpSharding op output_sharding kOutputShardingAttr index with
      | inl d => inl d
      | inr sharding => retvalsLoop op rest (S index) (add_retvals metadata (mkRetval sharding))
      end
  end.

Definition SetMetadataProtoRetvals
           (op : Operation) (metadata : TPUCompileMetadataProto) : Populated :=
  match getAttrOfType dyn_cast_ArrayAttr op kOutputShardingAttr with
  | None => inl (emitOpError (opId op) (CreateMissingAttributeMsg kOutputShardingAttr))
  | Some output_shardings =>
      if negb (List.length output_shardings =? getNumResults op) then
        inl (emitOpError (opId op)
               (formatv kBadArrayAttrLengthMsg
                        [ArgStr kOutputShardingAttr; ArgNat (getNumResults op);
                         ArgNat (List.length output_shardings)]))
      else retvalsLoop op output_shardings 0 metadata
  end.

(** *** [SetMetadataProtoFromLaunchFuncOp] *)

(** Sequencing of the fallible steps: the first failure ends the build. *)
Definition andThen (r : Populated) (k : TPUCompileMetadataProto -> Populated) : Populated :=
  match r with
  | inl d => inl d
  | inr m => k m
  end.

Definition SetMetadataProtoFromLaunchFuncOp
           (op : Operation) (num_replicas num_cores_per_replica : Z)
           (xla_device_assignment : option DeviceAssignmentProto)
           (metadata : TPUCompileMetadataProto) : Populated :=
  let metadata := set_num_replicas metadata num_replicas in
  let metadata := set_num_cores_per_replica metadata num_cores_per_replica in
  andThen (SetMetadataProtoStepMarkerLocation op metadata) (fun metadata =>
  andThen (SetMetadataProtoPaddingMap op metadata) (fun metadata =>
  let metadata := match xla_device_assignment with
                  | Some d => set_device_assignment metadata d
                  | None => metadata
                  end in
  andThen (SetMetadataProtoArgs op metadata) (fun metadata =>
  SetMetadataProtoRetvals op metadata))).

End Descriptor.

(** The serializers of the descriptor and the printer of a module. *)
Class Serializers {C : Collaborators} : Type := {
  DebugString : TPUCompileMetadataProto -> string;
  SerializeToString : TPUCompileMetadataProto -> string;
  printModule : ModuleOp -> string
}.

(** ** The builder and the use lists *)

(** An [OpBuilder]: the next fresh operation identity and the operations of
    the block of the insertion point that precede the insertion point, in
    order.  A created operation goes after them. *)
Record OpBuilder : Type := mkBuilder {
  nextId : nat;
  insertionBlock : list Operation
}.

Definition createOperation (builder : OpBuilder) (name : string) (operands : list Value)
           (types : list mlirType) (attributes : list NamedAttribute)
           (regions : list (list Operation)) : Operation * OpBuilder :=
  let op := mkOperation (nextId builder) name operands types attributes regions in
  (op, mkBuilder (S (nextId builder)) (insertionBlock builder ++ [op])).

(** Unlinking an operation from the block it is in. *)
Definition removeOp (id : nat) (block : list Operation) : list Operation :=
  filter (fun op => negb (opId op =? id)) block.

(** [value.replaceAllUsesWith(to)] rewrites every operand that is [from]. *)
Definition replaceValue (from to v : Value) : Value :=
  if Value_eq_dec v from then to else v.

Fixpoint mapOperands (f : Value -> Value) (op : Operation) : Operation :=
  mkOperation (opId op) (opName op) (map f (getOperands op)) (getResultTypes op)
              (getAttrs op) (map (map (mapOperands f)) (getRegions op)).

(** The block a rewrite works in: the operations before the focused one
    (where the builder inserts), the focused operation while it is still in
    the block, the operations after it, and the operation whose region holds
    the block, if any.  The region itself is what the focus holds; of
    [parentOp] the name and the attributes are current. *)
Record BlockFocus : Type := mkFocus {
  freshId : nat;
  parentOp : option Operation;
  opsBefore : list Operation;
  focused : option Operation;
  opsAfter : list Operation
}.

Definition blockOps (focus : BlockFocus) : list Operation :=
  opsBefore focus
  ++ match focused focus with Some op => [op] | None => [] end
  ++ opsAfter focus.

Definition builderAt (focus : BlockFocus) : OpBuilder :=
  mkBuilder (freshId focus) (opsBefore focus).

Definition withBuilder (focus : BlockFocus) (builder : OpBuilder) : BlockFocus :=
  mkFocus (nextId builder) (parentOp focus) (insertionBlock builder)
          (focused focus) (opsAfter focus).

(** Values defined in the block are used in the block and in the regions
    nested in its operations. *)
Definition replaceAllUsesWith (from to : Value) (focus : BlockFocus) : BlockFocus :=
  let f := mapOperands (replaceValue from to) in
  mkFocus (freshId focus) (parentOp focus) (map f (opsBefore focus))
          (option_map f (focused focus)) (map f (opsAfter focus)).

Definition replaceAllUsesWithAll (pairs : list (Value * Value)) (focus : BlockFocus)
  : BlockFocus :=
  fold_left (fun focus p => replaceAllUsesWith (fst p) (snd p) focus) pairs focus.

(** [int] from a wider integer. *)
Definition to_int (z : Z) : Z := ((z + 2 ^ 31) mod 2 ^ 32 - 2 ^ 31)%Z.

Section Builders.
Context {C : Collaborators} {P : Serializers}.

Definition EncapsulateFuncAndSerialize (fuel : nat) (module : ModuleOp) (entry_func : FuncOp)
  : option (ModuleOp * (Diagnostic + string)) :=
  match EncapsulateFunc fuel module entry_func with
  | None => None
  | Some (module, inl d) => Some (module, inl d)
  | Some (module, inr module_for_func) => Some (module, inr (printModule module_for_func))
  end.

(** *** [WrapOpInLaunch] *)
Definition WrapOpInLaunch (builder : OpBuilder) (op : Operation) (device : string)
  : Operation * OpBuilder :=
  let launch_id := nextId builder in
  let return_op := mkOperation (S launch_id) kReturnOp (getResults op) [] [] [] in
  let launch :=
    mkOperation launch_id kLaunchOp [] (getResultTypes op)
                [(kDeviceAttr, StringAttr device)] [[op; return_op]] in
  (launch, mkBuilder (S (S launch_id))
                     (removeOp (opId op) (insertionBlock builder) ++ [launch])).

(** *** [BuildCompileOp] *)

(** The loop that builds a shape op for each operand whose recorded shape is
    not fully defined. *)
Fixpoint shapeOpsLoop (operands : list Value) (index : nat)
         (metadata : TPUCompileMetadataProto) (builder : OpBuilder)
         (compile_op_operands : list Value) : option (list Value * OpBuilder) :=
  match operands with
  | [] => Some (compile_op_operands, builder)
  | operand :: rest =>
      match nth_error (args metadata) index with
      | None => None
      | Some arg =>
          if IsFullyDefined (arg_shape arg) then
            shapeOpsLoop rest (S index) metadata builder compile_op_operands
          else
            let (shape_op, builder) :=
              createOperation builder kShapeOp [operand]
                              [RankedTensorType [(-1)%Z] "i64"] [] [] in
            shapeOpsLoop rest (S index) metadata builder
                         (compile_op_operands ++ getResults shape_op)
      end
  end.

Definition stringTensor : mlirType := RankedTensorType [] "!tf.string".

(** [parentModule] gives the module around the launch from the operations
    that precede the launch in its block. *)
Definition BuildCompileOp (fuel : nat) (parentModule : list Operation -> ModuleOp)
           (launch_func : Operation) (num_replicas num_cores_per_replica : Z)
           (compilation_device : string)
           (xla_device_assignment : option DeviceAssignmentProto)
           (builder : OpBuilder) : option ((Diagnostic + Operation) * OpBuilder) :=
  match SetMetadataProtoFromLaunchFuncOp launch_func num_replicas num_cores_per_replica
                                         xla_device_assignment emptyMetadata with
  | inl d => Some (inl d, builder)
  | inr metadata =>
      let txt_metadata :=
        if tpu_compile_metadata_debug then DebugString metadata
        else SerializeToString metadata in
      match shapeOpsLoop (getOperands launch_func) 0 metadata builder [] with
      | None => None
      | Some (compile_op_operands, builder) =>
          match getAttrOfType dyn_cast_FlatSymbolRefAttr launch_func "func" with
          | None =>
              Some (inl (emitOpError (opId launch_func)
                           (formatv "does not have `func` attribute" [])), builder)
          | Some func_attr =>
              let module := parentModule (insertionBlock builder) in
              match lookupFunc (getBody module) func_attr with
              | None => None
              | Some func =>
                  match EncapsulateFuncAndSerialize fuel module func with
                  | None => None
                  | Some (_, inl d) => Some (inl d, builder)
                  | Some (_, inr txt_module) =>
                      let (compile_op, builder) :=
                        createOperation builder kTPUCompileMlirOp compile_op_operands
                          [stringTensor; stringTensor]
                          [("metadata", StringAttr txt_metadata);
                           ("NumDynamicShapes",
                            IntegerAttr (Z.of_nat (List.length compile_op_operands)));
                           ("mlir_module", StringAttr txt_module)] [] in
                      let (launch, builder) :=
                        WrapOpInLaunch builder compile_op compilation_device in
                      Some (inr launch, builder)
                  end
              end
          end
      end
  end.

(** *** [BuildExecuteOp] *)
Definition BuildExecuteOp (inputs : list Value) (launch_func : Operation)
           (builder : OpBuilder) : Operation * OpBuilder :=
  createOperation builder kTPUExecuteOp inputs (getResultTypes launch_func) [] [].

(** *** [BuildParallelExecuteOp] *)

(** The loop over the logical cores; region [core_id] is built at the end
    of its own block. *)
Fixpoint parallelRegionsLoop (remaining core_id : nat) (compile_op launch_func : Operation)
         (input_list : list (list Value)) (next : nat) (regions : list (list Operation))
  : option (list (list Operation) * nat) :=
  match remaining with
  | 0 => Some (regions, next)
  | S remaining' =>
      match nth_error input_list core_id, getResult compile_op (1 + core_id) with
      | Some execute_inputs, Some program =>
          let region := mkBuilder next [] in
          let (execute, region) :=
            BuildExecuteOp (execute_inputs ++ [program]) launch_func region in
          let (region_launch_op, region) := WrapOpInLaunch region execute "" in
          let (_, region) :=
            createOperation region kReturnOp (getResults region_launch_op) [] [] [] in
          parallelRegionsLoop remaining' (S core_id) compile_op launch_func input_list
                              (nextId region) (regions ++ [insertionBlock region])
      | _, _ => None
      end
  end.

Definition BuildParallelExecuteOp (num_logical_cores : Z) (compile_op launch_func : Operation)
           (builder : OpBuilder) : option (Operation * OpBuilder) :=
  let cores := Z.to_nat num_logical_cores in
  let concatenated_output_types := List.concat (repeat (getResultTypes launch_func) cores) in
  let id := nextId builder in
  let input_list := ExtractInputsForLogicalDevices num_logical_cores launch_func in
  if negb (List.length input_list =? cores) then None
  else
    match parallelRegionsLoop cores 0 compile_op launch_func input_list (S id) [] with
    | None => None
    | Some (regions, next) =>
        let parallel_execute_op :=
          mkOperation id kParallelExecuteOp [] concatenated_output_types [] regions in
        Some (parallel_execute_op,
              mkBuilder next (insertionBlock builder ++ [parallel_execute_op]))
    end.

(** *** [RemapOutputsOfParallelExecute] *)
Definition RemapOutputsOfParallelExecute (launch_func op : Operation) (focus : BlockFocus)
  : BlockFocus :=
  replaceAllUsesWithAll (combine (getResults launch_func) (getResults op)) focus.

(** *** [AssignDevicesToReplicatedExecute] *)

(** [front()] of every row; there is none for an empty row. *)
Fixpoint fronts (execution_devices : list (list string)) : option (list string) :=
  match execution_devices with
  | [] => Some []
  | replica_execution_devices :: rest =>
      match hd_error replica_execution_devices, fronts rest with
      | Some device, Some devices => Some (device :: devices)
      | _, _ => None
      end
  end.

Definition AssignDevicesToReplicatedExecute (execution_devices : list (list string))
           (replicate : option Operation) (execute_op : Operation) (builder : OpBuilder)
  : option (Operation * option Operation * OpBuilder) :=
  match replicate with
  | Some replicate =>
      match fronts execution_devices with
      | None => None
      | Some replicate_execution_devices =>
          let device := GetDeviceAliasForLogicalCore 0 in
          let device_attr :=
            (device, ArrayAttr (map StringAttr replicate_execution_devices)) in
          let replicate := setAttr replicate kDevicesAttr (DictionaryAttr [device_attr]) in
          let (launch, builder) := WrapOpInLaunch builder execute_op device in
          Some (launch, Some replicate, builder)
      end
  | None =>
      match hd_error execution_devices with
      | None => None
      | Some row =>
          match hd_error row with
          | None => None
          | Some device =>
              let (launch, builder) := WrapOpInLaunch builder execute_op device in
              Some (launch, None, builder)
          end
      end
  end.

(** *** [BuildTPUCompileSucceededAssertOp] *)
Definition BuildTPUCompileSucceededAssertOp (compile_op : Operation)
           (compilation_device : string) (builder : OpBuilder) : option OpBuilder :=
  match getResult compile_op 0 with
  | None => None
  | Some status =>
      let (assert_op, builder) :=
        createOperation builder kTPUCompileSucceededAssertOp [status] [] [] [] in
      Some (snd (WrapOpInLaunch builder assert_op compilation_device))
  end.

End Builders.

(** ** [Rewrite] *)

Definition withRegions (op : Operation) (regions : list (list Operation)) : Operation :=
  mkOperation (opId op) (opName op) (getOperands op) (getResultTypes op) (getAttrs op) regions.

Definition withBefore (focus : BlockFocus) (before : list Operation) : BlockFocus :=
  mkFocus (freshId focus) (parentOp focus) before (focused focus) (opsAfter focus).

Definition withParent (focus : BlockFocus) (parent : option Operation) : BlockFocus :=
  mkFocus (freshId focus) parent (opsBefore focus) (focused focus) (opsAfter focus).

(** [op.erase()] on the focused operation. *)
Definition eraseFocused (focus : BlockFocus) : BlockFocus :=
  mkFocus (freshId focus) (parentOp focus) (opsBefore focus) None (opsAfter focus).

(** [dyn_cast_or_null<tf_device::ReplicateOp>(launch_func.getParentOp())]. *)
Definition asReplicate (parent : option Operation) : option Operation :=
  match parent with
  | Some p => if isa kReplicateOp p then Some p else None
  | None => None
  end.

(** [num_replicas]: [replicate.n()] when there is a replicate, else 1. *)
Definition numReplicasOf (replicate : option Operation) : option Z :=
  match replicate with
  | Some replicate => option_map to_int (getAttrOfType dyn_cast_IntegerAttr replicate "n")
  | None => Some 1%Z
  end.

(** The loop over [block->getOps<TF::TPUCompilationResultOp>()]. *)
Fixpoint resolveCompilationResults (ops : list Operation) (compile_op : Operation)
         (focus : BlockFocus) : option BlockFocus :=
  match ops with
  | [] => Some focus
  | op :: rest =>
      if isa kTPUCompilationResultOp op then
        match getResult op 0, getResult compile_op 0 with
        | Some output, Some status =>
            resolveCompilationResults rest compile_op (replaceAllUsesWith output status focus)
        | _, _ => None
        end
      else resolveCompilationResults rest compile_op focus
  end.

Section Pass.
Context {C : Collaborators} {P : Serializers}.

(** [Rewrite] on the operation in focus.  [up] gives the enclosing module
    from the state of the block.  The result is [None] when an access has no
    defined outcome or [fuel] does not suffice for the closure extraction. *)
Definition Rewrite (fuel : nat) (up : BlockFocus -> ModuleOp) (devices : list ParsedName)
           (focus : BlockFocus) : option (LogicalResult * BlockFocus) :=
  match focused focus with
  | None => None
  | Some launch_func =>
  match getAttrOfType dyn_cast_StringAttr launch_func kTPUReplicateAttr with
  | None => Some (success, focus)
  | Some replicate_attr =>
  let replicate := asReplicate (parentOp focus) in
  match numReplicasOf replicate with
  | None => None
  | Some num_replicas =>
  match getAttrOfType dyn_cast_IntegerAttr launch_func kNumCoresPerReplicaAttr with
  | None =>
      Some (failure (emitOpError (opId launch_func)
                       (CreateMissingAttributeMsg kNumCoresPerReplicaAttr)), focus)
  | Some num_cores_per_replica_attr =>
  let num_cores_per_replica := to_int num_cores_per_replica_attr in
  match GetTPUCompilationAndExecutionDevices devices num_replicas num_cores_per_replica
                                             "" [] with
  | inl error_message =>
      Some (failure (emitError (opId launch_func)
                       (formatv "error in fetching TPU compilation/execution devices: {0}"
                                [ArgStr error_message])), focus)
  | inr (compilation_device, execution_devices, xla_device_assignment) =>
  match BuildCompileOp fuel (fun before => up (withBefore focus before)) launch_func
                       num_replicas num_cores_per_replica compilation_device
                       xla_device_assignment (builderAt focus) with
  | None => None
  | Some (inl d, builder) => Some (failure d, withBuilder focus builder)
  | Some (inr compile_op, builder) =>
  let focus := withBuilder focus builder in
  match resolveCompilationResults (blockOps focus) compile_op focus with
  | None => None
  | Some focus =>
  match BuildTPUCompileSucceededAssertOp compile_op compilation_device (builderAt focus) with
  | None => None
  | Some builder =>
  let focus := withBuilder focus builder in
  match focused focus with
  | None => None
  | Some launch_func =>
      if (1 <? num_cores_per_replica)%Z then
        match BuildParallelExecuteOp num_cores_per_replica compile_op launch_func
                                     (builderAt focus) with
        | None => None
        | Some (execute_op, builder) =>
            let focus :=
              RemapOutputsOfParallelExecute launch_func execute_op
                                            (withBuilder focus builder) in
            Some (success, eraseFocused focus)
        end
      else
        match getResult compile_op 1 with
        | None => None
        | Some program =>
            let (execute_op, builder) :=
              BuildExecuteOp (getOperands launch_func ++ [program]) launch_func
                             (builderAt focus) in
            match AssignDevicesToReplicatedExecute execution_devices replicate
                                                   execute_op builder with
            | None => None
            | Some (launch_op, replicate, builder) =>
                let focus := withBuilder focus builder in
                let focus := match replicate with
                             | Some _ => withParent focus replicate
                             | None => focus
                             end in
                let focus :=
                  replaceAllUsesWithAll
                    (combine (getResults launch_func) (getResults launch_op)) focus in
                Some (success, eraseFocused focus)
            end
        end
  end end end end end end end end end.

(** ** [TPURewritePass::runOnModule] *)

Inductive WalkResult : Type :=
| advance
| interrupt (d : Diagnostic).

(** Moving past the operation in focus, if it is still there. *)
Definition advancePast (focus : BlockFocus) : BlockFocus :=
  mkFocus (freshId focus) (parentOp focus)
          (opsBefore focus ++ match focused focus with Some op => [op] | None => [] end)
          None (opsAfter focus).

Definition parentOr (op : Operation) (focus : BlockFocus) : Operation :=
  match parentOp focus with
  | Some p => p
  | None => op
  end.

(** [walk] with the callback on [tf_device::LaunchFuncOp]: the operations of
    a block in order, the operations nested in one before the operation
    itself.  [walkBlock] visits what follows the focus in its block;
    [walkNested] visits the regions of an operation.  [up] rebuilds the
    module around what is being walked. *)
Fixpoint walkBlock (fuel : nat) (up : BlockFocus -> ModuleOp) (devices : list ParsedName)
         (focus : BlockFocus) {struct fuel} : option (WalkResult * BlockFocus) :=
  match fuel with
  | 0 => None
  | S fuel' =>
      match opsAfter focus with
      | [] => Some (advance, focus)
      | op :: rest =>
          let around (fresh : nat) (op : Operation) :=
            mkFocus fresh (parentOp focus) (opsBefore focus) (Some op) rest in
          match walkNested fuel' (fun fresh op => up (around fresh op)) devices
                           op (freshId focus) with
          | None => None
          | Some (interrupt d, op, fresh) => Some (interrupt d, around fresh op)
          | Some (advance, op, fresh) =>
              if isa kLaunchFuncOp op then
                match Rewrite fuel' up devices (around fresh op) with
                | None => None
                | Some (failure d, focus) => Some (interrupt d, focus)
                | Some (success, focus) => walkBlock fuel' up devices (advancePast focus)
                end
              else walkBlock fuel' up devices (advancePast (around fresh op))
          end
      end
  end
with walkNested (fuel : nat) (up : nat -> Operation -> ModuleOp) (devices : list ParsedName)
                (op : Operation) (fresh : nat) {struct fuel}
  : option (WalkResult * Operation * nat) :=
  match fuel with
  | 0 => None
  | S fuel' =>
      (fix regionsLoop (done todo : list (list Operation)) (op : Operation) (fresh : nat)
         : option (WalkResult * Operation * nat) :=
         match todo with
         | [] => Some (advance, withRegions op done, fresh)
         | block :: todo' =>
             let regionsWith (inner : BlockFocus) :=
               withRegions (parentOr op inner) (done ++ [blockOps inner] ++ todo') in
             match walkBlock fuel' (fun inner => up (freshId inner) (regionsWith inner))
                             devices (mkFocus fresh (Some op) [] None block) with
             | None => None
             | Some (interrupt d, inner) =>
                 Some (interrupt d, regionsWith inner, freshId inner)
             | Some (advance, inner) =>
                 regionsLoop (done ++ [blockOps inner]) todo' (parentOr op inner)
                             (freshId inner)
             end
         end) [] (getRegions op) op fresh
  end.

(** The second walk: [op.erase()] on every [TF::TPUCompilationResultOp]. *)
Definition eraseBlock (erase : Operation -> Operation) (block : list Operation)
  : list Operation :=
  flat_map (fun op => if isa kTPUCompilationResultOp op then [] else [erase op]) block.

Fixpoint eraseCompilationResults (op : Operation) : Operation :=
  withRegions op (map (eraseBlock eraseCompilationResults) (getRegions op)).

(** An operation identity above all those in use under [op]. *)
Fixpoint maxOpId (op : Operation) : nat :=
  Nat.max (opId op) (fold_right (fun block m => Nat.max (fold_right (fun o m => Nat.max (maxOpId o) m) 0 block) m) 0 (getRegions op)).

Inductive PassResult : Type :=
| passSucceeded
| signalPassFailure.

Definition runOnModule (fuel : nat) (module : ModuleOp) : option (PassResult * ModuleOp) :=
  match GetDevicesFromOp module with
  | None => Some (signalPassFailure, module)
  | Some devices =>
      match walkNested fuel (fun _ module => module) devices module (S (maxOpId module)) with
      | None => None
      | Some (interrupt _, module, _) => Some (signalPassFailure, module)
      | Some (advance, module, _) => Some (passSucceeded, eraseCompilationResults module)
      end
  end.

End Pass.

(** ** A concrete environment

    Collaborators to run the pass with: data types by their enumeration
    numbers, shardings and padding maps kept as their serialized text (["?"]
    does not parse), and a resolver that hands out one device per replica and
    logical core. *)
Module Example.

Definition execution_devices (replicas cores : nat) : list (list string) :=
  map (fun r => map (fun c => ("/TPU:" ++ to_string r ++ ":" ++ to_string c)%string)
                    (seq 0 cores))
      (seq 0 replicas).

Definition collaborators : Collaborators := {|
  DataType := Z;
  DT_RESOURCE := 20%Z;
  DataType_eq_dec := Z.eq_dec;
  ConvertToDataType := fun t =>
    match t with
    | RankedTensorType _ e | UnrankedTensorType e =>
        if String.eqb e "i1" then inr 10%Z
        else if String.eqb e "f32" then inr 1%Z
        else if String.eqb e "!tf.resource" then inr 20%Z
        else inl "unsupported element type"
    | OpaqueType _ => inl "not a tensor type"
    end;
  StepMarkerLocation := Z;
  STEP_MARK_AT_ENTRY := 0%Z;
  StepMarkerLocation_Parse := fun s =>
    if String.eqb s "STEP_MARK_AT_ENTRY" then Some 0%Z
    else if String.eqb s "STEP_MARK_AT_TOP_LEVEL_WHILE_LOOP" then Some 1%Z
    else if String.eqb s "STEP_MARK_NONE" then Some 2%Z
    else if String.eqb s "STEP_MARK_AT_SECOND_LEVEL_WHILE_LOOP" then Some 3%Z
    else None;
  PaddingMap := string;
  PaddingMap_ParseFromString := fun s => if String.eqb s "?" then None else Some s;
  OpSharding := string;
  OpSharding_ParseFromString := fun s => if String.eqb s "?" then None else Some s;
  DeviceAssignmentProto := unit;
  kInputShardingAttr := "input_sharding_configuration";
  kOutputShardingAttr := "output_sharding_configuration";
  ParsedName := string;
  GetDevicesFromOp := fun _ => Some ["/CPU:0"; "/TPU:0"];
  GetTPUCompilationAndExecutionDevices := fun _ replicas cores _ _ =>
    if (replicas <=? 0)%Z then inl "no replicas"
    else inr ("/CPU:0", execution_devices (Z.to_nat replicas) (Z.to_nat cores), None);
  ExtractInputsForLogicalDevices := fun cores op => repeat (getOperands op) (Z.to_nat cores);
  GetDeviceAliasForLogicalCore := fun core =>
    ("TPU_REPLICATED_CORE_" ++ to_string (Z.to_nat core))%string;
  tpu_compile_metadata_debug := false
|}.

Definition serializers : @Serializers collaborators := {|
  DebugString := fun _ => "metadata (debug)";
  SerializeToString := fun _ => "metadata";
  printModule := fun m => String.concat "," (map getName (getBody m))
|}.

Definition i1 : mlirType := RankedTensorType [] "i1".
Definition dynamic : mlirType := RankedTensorType [(-1)%Z] "f32".

Definition func (id : nat) (name : string) (body : list Operation) : FuncOp :=
  mkOperation id kFuncOp [] [] [(kSymNameAttr, StringAttr name)] [body].

Definition call (id : nat) (callee : string) : Operation :=
  mkOperation id "tf.Call" [] [] [("f", FlatSymbolRefAttr callee)] [].

(** A launch of [callee] with every attribute the rewrite reads. *)
Definition launch_func (id : nat) (operands : list Value) (types : list mlirType)
           (step_marker : string) (cores : Z) (callee : string)
           (input_shardings output_shardings : list Attribute) : Operation :=
  mkOperation id kLaunchFuncOp operands types
    [(kTPUReplicateAttr, StringAttr "cluster0");
     (kNumCoresPerReplicaAttr, IntegerAttr cores);
     (kStepMarkerLocationAttr, StringAttr step_marker);
     (kPaddingMapAttr, ArrayAttr []);
     (@kInputShardingAttr collaborators, ArrayAttr input_shardings);
     (@kOutputShardingAttr collaborators, ArrayAttr output_shardings);
     ("func", FlatSymbolRefAttr callee)] [].

Definition operands2 : list Value := [BlockArgument 0 i1; BlockArgument 1 dynamic].
Definition operands3 : list Value :=
  [BlockArgument 0 i1; BlockArgument 1 dynamic; BlockArgument 2 (OpaqueType "index")].

(** One core, two operands (the second of dynamic shape), one result. *)
Definition launch1 : Operation :=
  launch_func 4 operands2 [i1] "" 1 "tpu_func" [StringAttr "a"; StringAttr "b"]
              [StringAttr "c"].

(** The same launch on two logical cores. *)
Definition launch2 : Operation :=
  launch_func 4 operands2 [i1] "" 2 "tpu_func" [StringAttr "a"; StringAttr "b"]
              [StringAttr "c"].

(** Three operands, two input shardings. *)
Definition launch_short_sharding : Operation :=
  launch_func 4 operands3 [i1] "" 1 "tpu_func" [StringAttr "a"; StringAttr "b"]
              [StringAttr "c"].

(** Three operands with their shardings; the third operand has a type
    without a data type. *)
Definition launch_opaque : Operation :=
  launch_func 4 operands3 [i1] "" 1 "tpu_func"
              [StringAttr "a"; StringAttr "b"; StringAttr "c"] [StringAttr "c"].

(** Launches with a step marker location that parses and one that does not. *)
Definition launch_marker_none : Operation :=
  launch_func 4 operands2 [i1] "STEP_MARK_NONE" 1 "tpu_func"
              [StringAttr "a"; StringAttr "b"] [StringAttr "c"].
Definition launch_marker_bad : Operation :=
  launch_func 4 operands2 [i1] "STEP_MARK_SOMEWHERE" 1 "tpu_func"
              [StringAttr "a"; StringAttr "b"] [StringAttr "c"].

(** A launch without the [_tpu_replicate] attribute. *)
Definition launch_unmarked : Operation :=
  mkOperation 4 kLaunchFuncOp operands2 [i1] [("func", FlatSymbolRefAttr "tpu_func")] [].

Definition compilation_result (id : nat) (cluster : string) : Operation :=
  mkOperation id kTPUCompilationResultOp [] [stringTensor]
              [(kTPUReplicateAttr, StringAttr cluster)] [].

Definition some_op (id : nat) (operands : list Value) : Operation :=
  mkOperation id "tf.SomeOp" operands [] [] [].

(** [tpu_func] calls [helper], which calls itself. *)
Definition callees : list Operation :=
  [func 6 "tpu_func" [call 7 "helper"]; func 8 "helper" [call 9 "helper"]].

Definition module_of (main_body : list Operation) : ModuleOp :=
  mkOperation 1 kModuleOp [] [] [(kVersionsAttr, StringAttr "v")]
              [func 2 "main" main_body :: callees].

(** The block around a launch: a compilation result of another cluster
    before it, a user of both after it. *)
Definition before_launch : list Operation := [compilation_result 3 "other"].
Definition after_launch : list Operation :=
  [some_op 5 [OpResult 4 0 i1; OpResult 3 0 stringTensor]].

Definition focus_on (parent : option Operation) (launch : Operation) : BlockFocus :=
  mkFocus 20 parent before_launch (Some launch) after_launch.

Definition up (focus : BlockFocus) : ModuleOp := module_of (blockOps focus).

(** The entry [f] refers to a function named "main". *)
Definition main_taken_entry : FuncOp := func 2 "f" [call 3 "main"].
Definition main_taken_other : FuncOp := func 4 "main" [some_op 5 []].
Definition main_taken : ModuleOp :=
  mkOperation 1 kModuleOp [] [] [(kVersionsAttr, StringAttr "v")]
              [[main_taken_entry; main_taken_other]].

(** The entry [f] calls itself. *)
Definition recursive_entry : FuncOp := func 2 "f" [call 3 "f"].
Definition recursive : ModuleOp :=
  mkOperation 1 kModuleOp [] [] [(kVersionsAttr, StringAttr "v")] [[recursive_entry]].

Definition replicate2 : Operation :=
  mkOperation 10 kReplicateOp [] [] [("n", IntegerAttr 2)] [].

Definition devices : list string := ["/CPU:0"; "/TPU:0"].

End Example.

(** * Properties *)

(** ** The descriptor builders *)

Section DescriptorFacts.
Context {C : Collaborators}.

(** The diagnostic of an array attribute [name] of size [actual] where
    [expected] elements are needed. *)
Definition lengthMismatch (op : Operation) (name : string) (expected actual : nat)
  : Diagnostic :=
  emitOpError (opId op)
              (formatv kBadArrayAttrLengthMsg [ArgStr name; ArgNat expected; ArgNat actual]).

(** What [SetMetadataProtoArgs] records for an operand of type [t]. *)
Definition describes (t : mlirType) (a : Arg) : Prop :=
  ConvertToDataType t = inr (arg_dtype a)
  /\ (arg_kind a = VARIABLE <-> arg_dtype a = DT_RESOURCE)
  /\ (arg_kind a = PARAMETER <-> arg_dtype a <> DT_RESOURCE)
  /\ (forall shape e, t = RankedTensorType shape e ->
                      arg_shape a = mkTensorShapeProto shape false)
  /\ ((forall shape e, t <> RankedTensorType shape e) ->
      arg_shape a = mkTensorShapeProto [] true)
  /\ arg_shape a = argShape t.

Lemma argKind_variable (dtype : DataType) : argKind dtype = VARIABLE <-> dtype = DT_RESOURCE.
Proof.
  unfold argKind. destruct (DataType_eq_dec dtype DT_RESOURCE); split; congruence.
Qed.

Lemma argKind_parameter (dtype : DataType) : argKind dtype = PARAMETER <-> dtype <> DT_RESOURCE.
Proof.
  unfold argKind. destruct (DataType_eq_dec dtype DT_RESOURCE); split; congruence.
Qed.

Lemma describes_mkArg (t : mlirType) (dtype : DataType) (sharding : OpSharding) :
  ConvertToDataType t = inr dtype ->
  describes t (mkArg dtype (argKind dtype) (argShape t) sharding).
Proof.
  intros Hc. unfold describes. simpl.
  repeat split; try (apply argKind_variable); try (apply argKind_parameter); auto.
  - intros shape e ->. reflexivity.
  - intros Hn. destruct t; simpl; auto. exfalso. eapply Hn. reflexivity.
Qed.

(** The steps before the arguments leave [args] and [retvals] alone. *)
Lemma paddingMapLoop_frame (op : Operation) (padding_map : list Attribute) :
  forall index metadata metadata',
    paddingMapLoop op padding_map index metadata = inr metadata' ->
    args metadata' = args metadata /\ retvals metadata' = retvals metadata.
Proof.
  induction padding_map as [|a rest IH]; simpl; intros index metadata metadata' H.
  - inversion H. auto.
  - destruct (dyn_cast_StringAttr a) as [s|]; [|discriminate].
    destruct (PaddingMap_ParseFromString s) as [p|]; [|discriminate].
    apply IH in H. simpl in H. exact H.
Qed.

Lemma StepMarkerLocation_frame (op : Operation) (metadata metadata' : TPUCompileMetadataProto) :
  SetMetadataProtoStepMarkerLocation op metadata = inr metadata' ->
  args metadata' = args metadata /\ retvals metadata' = retvals metadata.
Proof.
  unfold SetMetadataProtoStepMarkerLocation.
  destruct (getAttrOfType dyn_cast_StringAttr op kStepMarkerLocationAttr) as [v|];
    [|discriminate].
  destruct (String.eqb v "").
  - intros H. inversion H. auto.
  - destruct (StepMarkerLocation_Parse v); [|discriminate].
    intros H. inversion H. auto.
Qed.

Lemma PaddingMap_frame (op : Operation) (metadata metadata' : TPUCompileMetadataProto) :
  SetMetadataProtoPaddingMap op metadata = inr metadata' ->
  args metadata' = args metadata /\ retvals metadata' = retvals metadata.
Proof.
  unfold SetMetadataProtoPaddingMap.
  destruct (getAttrOfType dyn_cast_ArrayAttr op kPaddingMapAttr); [|discriminate].
  apply paddingMapLoop_frame.
Qed.

(** A successful run of the loop over the operand types appends one
    descriptor per type, each describing its operand. *)
Lemma argsLoop_success (op : Operation) (input_shardings : list Attribute)
      (operand_types : list mlirType) :
  forall index metadata metadata',
    argsLoop op input_shardings operand_types index metadata = inr metadata' ->
    exists added,
      args metadata' = args metadata ++ added
      /\ Forall2 describes operand_types added
      /\ retvals metadata' = retvals metadata.
Proof.
  induction operand_types as [|t rest IH]; simpl; intros index metadata metadata' H.
  - inversion H. exists []. rewrite app_nil_r. auto.
  - destruct (ConvertToDataType t) as [msg|dtype] eqn:Hc; [discriminate|].
    destruct (SetOpSharding op (nth index input_shardings (ArrayAttr []))
                            kInputShardingAttr index) as [d|sharding]; [discriminate|].
    apply IH in H. destruct H as (added & Ha & Hd & Hr). simpl in Ha, Hr.
    exists (mkArg dtype (argKind dtype) (argShape t) sharding :: added).
    rewrite Ha, <- app_assoc. simpl. repeat split; auto.
    constructor; auto. apply describes_mkArg. exact Hc.
Qed.

(** The loop fails on the first operand whose type does not convert, with
    the index of that operand. *)
Lemma argsLoop_unconvertible (op : Operation) (input_shardings : list Attribute) :
  forall (operand_types : list mlirType) index metadata i t message,
    nth_error operand_types i = Some t ->
    ConvertToDataType t = inl message ->
    (forall j u, j < i -> nth_error operand_types j = Some u ->
                 (exists dtype, ConvertToDataType u = inr dtype)
                 /\ exists sharding,
                     SetOpSharding op (nth (index + j) input_shardings (ArrayAttr []))
                                   kInputShardingAttr (index + j) = inr sharding) ->
    argsLoop op input_shardings operand_types index metadata
    = inl (emitOpError (opId op)
             (formatv "failed to determine operand type at index {0}: {1}"
                      [ArgNat (index + i); ArgStr message])).
Proof.
  induction operand_types as [|u rest IH]; intros index metadata i t message Hn Hc Hbefore.
  - destruct i; discriminate.
  - destruct i as [|i]; simpl in Hn.
    + inversion Hn; subst u. simpl. rewrite Hc. rewrite Nat.add_0_r. reflexivity.
    + simpl.
      destruct (Hbefore 0 u) as ((dtype & Hd) & (sharding & Hs)); [lia|reflexivity|].
      rewrite Nat.add_0_r in Hs. rewrite Hd, Hs.
      rewrite (IH (S index) _ i t message Hn Hc).
      * replace (S index + i) with (index + S i) by lia. reflexivity.
      * intros j v Hj Hv.
        replace (S index + j) with (index + S j) by lia.
        apply (Hbefore (S j) v); [lia|exact Hv].
Qed.

Lemma retvalsLoop_success (op : Operation) (output_shardings : list Attribute) :
  forall index metadata metadata',
    retvalsLoop op output_shardings index metadata = inr metadata' ->
    args metadata' = args metadata
    /\ List.length (retvals metadata')
       = List.length (retvals metadata) + List.length output_shardings.
Proof.
  induction output_shardings as [|a rest IH]; simpl; intros index metadata metadata' H.
  - inversion H. split; [reflexivity|lia].
  - destruct (SetOpSharding op a kOutputShardingAttr index) as [d|sharding]; [discriminate|].
    apply IH in H. destruct H as (Ha & Hl). simpl in Ha, Hl.
    split; [exact Ha|]. rewrite Hl, length_app. simpl. lia.
Qed.

Lemma SetMetadataProtoArgs_success (op : Operation)
      (metadata metadata' : TPUCompileMetadataProto) :
  SetMetadataProtoArgs op metadata = inr metadata' ->
  exists added,
    args metadata' = args metadata ++ added
    /\ Forall2 describes (getOperandTypes op) added
    /\ retvals metadata' = retvals metadata.
Proof.
  unfold SetMetadataProtoArgs.
  destruct (getAttrOfType dyn_cast_ArrayAttr op kInputShardingAttr) as [sh|]; [|discriminate].
  destruct (negb (List.length sh =? getNumOperands op)); [discriminate|].
  apply argsLoop_success.
Qed.

Lemma SetMetadataProtoRetvals_success (op : Operation)
      (metadata metadata' : TPUCompileMetadataProto) :
  SetMetadataProtoRetvals op metadata = inr metadata' ->
  args metadata' = args metadata
  /\ List.length (retvals metadata') = List.length (retvals metadata) + getNumResults op.
Proof.
  unfold SetMetadataProtoRetvals.
  destruct (getAttrOfType dyn_cast_ArrayAttr op kOutputShardingAttr) as [sh|]; [|discriminate].
  destruct (List.length sh =? getNumResults op) eqn:E; simpl; [|discriminate].
  apply Nat.eqb_eq in E. intros H. apply retvalsLoop_success in H. rewrite <- E. exact H.
Qed.

(** A built descriptor holds one argument descriptor for each operand, each
    describing its operand, and one result descriptor for each result. *)
Lemma SetMetadataProtoFromLaunchFuncOp_success (op : Operation)
      (replicas cores : Z) (xla : option DeviceAssignmentProto)
      (metadata : TPUCompileMetadataProto) :
  SetMetadataProtoFromLaunchFuncOp op replicas cores xla emptyMetadata = inr metadata ->
  Forall2 describes (getOperandTypes op) (args metadata)
  /\ List.length (retvals metadata) = getNumResults op.
Proof.
  unfold SetMetadataProtoFromLaunchFuncOp, andThen.
  destruct (SetMetadataProtoStepMarkerLocation op _) as [d|m1] eqn:H1; [discriminate|].
  destruct (SetMetadataProtoPaddingMap op m1) as [d|m2] eqn:H2; [discriminate|].
  apply StepMarkerLocation_frame in H1. apply PaddingMap_frame in H2.
  simpl in H1. destruct H1 as (A1 & R1). destruct H2 as (A2 & R2).
  set (m3 := match xla with Some d => set_device_assignment m2 d | None => m2 end).
  assert (A3 : args m3 = [] /\ retvals m3 = []).
  { unfold m3. destruct xla; simpl; rewrite A2, R2, A1, R1; auto. }
  destruct (SetMetadataProtoArgs op m3) as [d|m4] eqn:H4; [discriminate|].
  apply SetMetadataProtoArgs_success in H4. destruct H4 as (added & Ha & Hd & Hr).
  intros H5. apply SetMetadataProtoRetvals_success in H5. destruct H5 as (A5 & L5).
  destruct A3 as (A3 & R3). rewrite A3 in Ha. simpl in Ha.
  rewrite A5, Ha. split; [exact Hd|]. rewrite L5, Hr, R3. reflexivity.
Qed.

(** C8 (confirmed).  [SetMetadataProtoStepMarkerLocation]: without a string
    attribute [step_marker_location] the build fails with the
    missing-attribute message; an empty value records [STEP_MARK_AT_ENTRY];
    a value that is not empty and does not parse fails with the message that
    names the attribute and the value; a value that parses is recorded. *)
Theorem step_marker_location_policy (op : Operation) (metadata : TPUCompileMetadataProto) :
  (getAttrOfType dyn_cast_StringAttr op kStepMarkerLocationAttr = None ->
   SetMetadataProtoStepMarkerLocation op metadata
   = inl (emitOpError (opId op) (CreateMissingAttributeMsg kStepMarkerLocationAttr)))
  /\ (getAttrOfType dyn_cast_StringAttr op kStepMarkerLocationAttr = Some "" ->
      SetMetadataProtoStepMarkerLocation op metadata
      = inr (set_step_marker_location metadata STEP_MARK_AT_ENTRY))
  /\ (forall value,
         getAttrOfType dyn_cast_StringAttr op kStepMarkerLocationAttr = Some value ->
         value <> "" ->
         StepMarkerLocation_Parse value = None ->
         SetMetadataProtoStepMarkerLocation op metadata
         = inl (emitOpError (opId op)
                  (formatv "bad '{0}' attribute with value '{1}'"
                           [ArgStr kStepMarkerLocationAttr; ArgStr value])))
  /\ (forall value location,
         getAttrOfType dyn_cast_StringAttr op kStepMarkerLocationAttr = Some value ->
         value <> "" ->
         StepMarkerLocation_Parse value = Some location ->
         SetMetadataProtoStepMarkerLocation op metadata
         = inr (set_step_marker_location metadata location)
         /\ step_marker_location (set_step_marker_location metadata location) = location).
Proof.
  unfold SetMetadataProtoStepMarkerLocation. split; [|split; [|split]].
  - intros ->. reflexivity.
  - intros ->. reflexivity.
  - intros value -> Hne Hp. apply String.eqb_neq in Hne. rewrite Hne, Hp. reflexivity.
  - intros value location -> Hne Hp. apply String.eqb_neq in Hne. rewrite Hne, Hp.
    split; reflexivity.
Qed.

(** C6 (confirmed).  [SetMetadataProtoArgs], operand by operand: the first
    operand whose type has no data type fails the build with the message that
    names its index; a build that succeeds has appended one argument
    descriptor per operand, of kind [VARIABLE] exactly when the data type is
    [DT_RESOURCE] and [PARAMETER] otherwise, with the shape of a ranked type
    and [unknown_rank] for any other; and the descriptor built from a launch
    has one argument descriptor per operand and one result descriptor per
    result. *)
Theorem argument_descriptors (op : Operation) :
  (forall metadata input_shardings i t message,
      getAttrOfType dyn_cast_ArrayAttr op kInputShardingAttr = Some input_shardings ->
      List.length input_shardings = getNumOperands op ->
      nth_error (getOperandTypes op) i = Some t ->
      ConvertToDataType t = inl message ->
      (forall j u, j < i -> nth_error (getOperandTypes op) j = Some u ->
                   (exists dtype, ConvertToDataType u = inr dtype)
                   /\ exists sharding,
                       SetOpSharding op (nth j input_shardings (ArrayAttr []))
                                     kInputShardingAttr j = inr sharding) ->
      SetMetadataProtoArgs op metadata
      = inl (emitOpError (opId op)
               (formatv "failed to determine operand type at index {0}: {1}"
                        [ArgNat i; ArgStr message])))
  /\ (forall metadata metadata',
         SetMetadataProtoArgs op metadata = inr metadata' ->
         exists added,
           args metadata' = args metadata ++ added
           /\ Forall2 describes (getOperandTypes op) added)
  /\ (forall replicas cores xla metadata,
         SetMetadataProtoFromLaunchFuncOp op replicas cores xla emptyMetadata
         = inr metadata ->
         List.length (args metadata) = getNumOperands op
         /\ List.length (retvals metadata) = getNumResults op
         /\ Forall2 describes (getOperandTypes op) (args metadata)).
Proof.
  split; [|split].
  - intros metadata input_shardings i t message Ha Hl Hn Hc Hbefore.
    unfold SetMetadataProtoArgs. rewrite Ha, Hl, Nat.eqb_refl. simpl.
    apply (argsLoop_unconvertible op input_shardings (getOperandTypes op) 0 metadata
                                  i t message Hn Hc Hbefore).
  - intros metadata metadata' H.
    destruct (SetMetadataProtoArgs_success _ _ _ H) as (added & Ha & Hd & _).
    exists added. auto.
  - intros replicas cores xla metadata H.
    destruct (SetMetadataProtoFromLaunchFuncOp_success _ _ _ _ _ H) as (Hd & Hr).
    repeat split; auto.
    rewrite <- (Forall2_length Hd). unfold getOperandTypes, getNumOperands.
    apply length_map.
Qed.

End DescriptorFacts.

Section DescriptorWitnesses.
#[local] Existing Instance Example.collaborators.

Lemma step_marker_location_policy_witness :
  SetMetadataProtoStepMarkerLocation Example.launch_unmarked emptyMetadata
  = inl (emitOpError 4 (CreateMissingAttributeMsg kStepMarkerLocationAttr))
  /\ SetMetadataProtoStepMarkerLocation Example.launch1 emptyMetadata
     = inr (set_step_marker_location emptyMetadata 0%Z)
  /\ SetMetadataProtoStepMarkerLocation Example.launch_marker_bad emptyMetadata
     = inl (emitOpError 4 (formatv "bad '{0}' attribute with value '{1}'"
                                   [ArgStr kStepMarkerLocationAttr;
                                    ArgStr "STEP_MARK_SOMEWHERE"]))
  /\ SetMetadataProtoStepMarkerLocation Example.launch_marker_none emptyMetadata
     = inr (set_step_marker_location emptyMetadata 2%Z).
Proof.
  split; [|split; [|split]].
  - exact (proj1 (step_marker_location_policy Example.launch_unmarked emptyMetadata)
                 eq_refl).
  - exact (proj1 (proj2 (step_marker_location_policy Example.launch1 emptyMetadata))
                 eq_refl).
  - refine (proj1 (proj2 (proj2 (step_marker_location_policy Example.launch_marker_bad
                                                               emptyMetadata)))
                  "STEP_MARK_SOMEWHERE" eq_refl _ eq_refl).
    discriminate.
  - refine (proj1 (proj2 (proj2 (proj2 (step_marker_location_policy
                                          Example.launch_marker_none emptyMetadata)))
                         "STEP_MARK_NONE" 2%Z eq_refl _ eq_refl)).
    discriminate.
Defined.

Lemma argument_descriptors_witness :
  SetMetadataProtoArgs Example.launch_opaque emptyMetadata
  = inl (emitOpError 4 (formatv "failed to determine operand type at index {0}: {1}"
                                [ArgNat 2; ArgStr "not a tensor type"]))
  /\ (exists metadata,
         SetMetadataProtoFromLaunchFuncOp Example.launch1 1 1 None
                                           emptyMetadata = inr metadata
         /\ List.length (args metadata) = 2
         /\ List.length (retvals metadata) = 1
         /\ Forall2 describes (getOperandTypes Example.launch1) (args metadata)).
Proof.
  split.
  - apply (proj1 (argument_descriptors Example.launch_opaque)
             emptyMetadata
             [StringAttr "a"; StringAttr "b"; StringAttr "c"] 2
             (OpaqueType "index") "not a tensor type");
      try reflexivity.
    intros j u Hj Hu.
    destruct j as [|[|j]]; [| |lia]; inversion Hu; subst u;
      (split; [eexists; reflexivity | eexists; reflexivity]).
  - eexists. split; [reflexivity|].
    apply (proj2 (proj2 (argument_descriptors Example.launch1))
             1%Z 1%Z None).
    reflexivity.
Defined.

End DescriptorWitnesses.

(** ** The closure extractor *)

Section ClosureFacts.

(** The name a function has once cloned for [entry]. *)
Definition cloneName (entry func : FuncOp) : string :=
  if String.eqb (getName func) (getName entry) then "main" else getName func.

(** A function with a symbol name. *)
Definition namedFunc (op : Operation) : Prop :=
  isa kFuncOp op = true /\ symbolName op = Some (getName op).

Lemma lookupFunc_Some (body : list Operation) (s : string) (h : FuncOp) :
  lookupFunc body s = Some h -> In h body /\ getName h = s /\ namedFunc h.
Proof.
  unfold lookupFunc, lookupSymbolIn. intros H.
  destruct (find _ body) as [op|] eqn:F; [|discriminate].
  destruct (isa kFuncOp op) eqn:I; [|discriminate]. inversion H; subst op.
  apply find_some in F. destruct F as (Hin & Hs). unfold namedFunc, getName.
  destruct (symbolName h) as [n|]; [|discriminate]. apply String.eqb_eq in Hs.
  subst n. auto.
Qed.

Lemma setName_getName (func : FuncOp) (name : string) : getName (setName func name) = name.
Proof. reflexivity. Qed.

Lemma setName_namedFunc (func : FuncOp) (name : string) :
  isa kFuncOp func = true -> namedFunc (setName func name).
Proof. intros H. split; [exact H|reflexivity]. Qed.

Lemma cloneFor_getName (entry func : FuncOp) :
  getName (cloneFor entry func) = cloneName entry func.
Proof.
  unfold cloneFor, cloneName. destruct (String.eqb (getName func) (getName entry)); reflexivity.
Qed.

Lemma cloneFor_namedFunc (entry func : FuncOp) :
  namedFunc func -> namedFunc (cloneFor entry func).
Proof.
  intros H. unfold cloneFor. destruct (String.eqb (getName func) (getName entry)); [|exact H].
  apply setName_namedFunc. apply H.
Qed.

(** Looking a name up among named functions. *)
Lemma lookupFunc_None (table : list Operation) (name : string) :
  Forall namedFunc table ->
  (lookupFunc table name = None <-> forall x, In x table -> getName x <> name).
Proof.
  intros Hall. induction Hall as [|x table (Hf & Hs) _ IH].
  - split; [intros _ x []|reflexivity].
  - unfold lookupFunc, lookupSymbolIn in *. simpl. rewrite Hs.
    destruct (String.eqb (getName x) name) eqn:E.
    + rewrite Hf. apply String.eqb_eq in E. split; [discriminate|].
      intros H. exfalso. apply (H x); auto.
    + apply String.eqb_neq in E. rewrite IH. split.
      * intros H y [<-|Hy]; auto.
      * intros H y Hy. apply H. auto.
Qed.

Lemma hasSymbol_false (table : list Operation) (name : string) :
  hasSymbol table name = false <-> forall x, In x table -> getName x <> name.
Proof.
  unfold hasSymbol. induction table as [|x table IH]; simpl.
  - split; [intros _ x []|reflexivity].
  - rewrite orb_false_iff, IH. split.
    + intros (E & H) y [<-|Hy]; [apply String.eqb_neq; exact E|auto].
    + intros H. split; [apply String.eqb_neq; apply H; auto|]. intros y Hy. apply H. auto.
Qed.

Lemma SymbolTable_insert_fresh (table : SymbolTable) (symbol : Operation) :
  (forall x, In x (symbols table) -> getName x <> getName symbol) ->
  symbols (SymbolTable_insert table symbol) = symbols table ++ [symbol].
Proof.
  intros H. apply hasSymbol_false in H. unfold SymbolTable_insert. rewrite H. reflexivity.
Qed.

Lemma pushReferenced_In (body : list Operation) (uses : list string) :
  forall referenced h,
    In h (pushReferenced body uses referenced)
    <-> In h referenced \/ exists s, In s uses /\ lookupFunc body s = Some h.
Proof.
  unfold pushReferenced. induction uses as [|u uses IH]; simpl; intros referenced h.
  - split; [auto|]. intros [H|(s & [] & _)]. exact H.
  - rewrite IH. destruct (lookupFunc body u) as [f|] eqn:L; simpl; split.
    + intros [[<-|H]|(s & Hs & Hl)]; eauto.
    + intros [H|(s & [<-|Hs] & Hl)]; eauto.
      rewrite L in Hl. inversion Hl. auto.
    + intros [H|(s & Hs & Hl)]; eauto.
    + intros [H|(s & [<-|Hs] & Hl)]; eauto. congruence.
Qed.

Variable body : list Operation.
Variable entry : FuncOp.
Hypothesis entry_in_module : lookupFunc body (getName entry) = Some entry.

(** The entry keeps its name, or no function it reaches refers to it or is
    named "main". *)
Definition renamingIsSafe : Prop :=
  getName entry = "main"
  \/ ((forall g, reachable body entry g -> ~ In (getName entry) (getSymbolUses g))
      /\ (forall g, reachable body entry g -> getName g <> "main")).

Hypothesis safe : renamingIsSafe.

Lemma reachable_lookup (g : FuncOp) :
  reachable body entry g -> lookupFunc body (getName g) = Some g.
Proof.
  intros H. destruct H as [|g h s _ _ L]; [exact entry_in_module|].
  destruct (lookupFunc_Some _ _ _ L) as (_ & <- & _). exact L.
Qed.

Lemma reachable_namedFunc (g : FuncOp) : reachable body entry g -> namedFunc g.
Proof. intros H. apply reachable_lookup in H. apply lookupFunc_Some in H. apply H. Qed.

Lemma reachable_in_body (g : FuncOp) : reachable body entry g -> In g body.
Proof. intros H. apply reachable_lookup in H. apply lookupFunc_Some in H. apply H. Qed.

Lemma reachable_name_inj (g h : FuncOp) :
  reachable body entry g -> reachable body entry h -> getName g = getName h -> g = h.
Proof.
  intros Hg Hh E. apply reachable_lookup in Hg. apply reachable_lookup in Hh.
  rewrite E in Hg. congruence.
Qed.

(** No clone takes the name of another reachable function. *)
Lemma clone_name_exact (g h : FuncOp) :
  reachable body entry g -> reachable body entry h ->
  getName g = cloneName entry h -> g = h.
Proof.
  intros Hg Hh E. unfold cloneName in E.
  destruct (String.eqb (getName h) (getName entry)) eqn:N.
  - apply String.eqb_eq in N. destruct safe as [A|(_ & B)].
    + apply reachable_name_inj; auto. congruence.
    + exfalso. apply (B g Hg). exact E.
  - apply reachable_name_inj; auto.
Qed.

(** A function that is referred to keeps its name when cloned. *)
Lemma referenced_keeps_name (g h : FuncOp) (s : string) :
  reachable body entry g -> In s (getSymbolUses g) -> lookupFunc body s = Some h ->
  cloneName entry h = getName h.
Proof.
  intros Hg Hs L. unfold cloneName.
  destruct (String.eqb (getName h) (getName entry)) eqn:N; [|reflexivity].
  apply String.eqb_eq in N. destruct safe as [A|(B & _)].
  - congruence.
  - exfalso. apply (B g Hg). destruct (lookupFunc_Some _ _ _ L) as (_ & E & _). congruence.
Qed.

(** The invariant of the work-list loop: [cloned] are the functions cloned
    so far, in order, and [referenced] is the work list. *)
Record loopInvariant (cloned referenced : list FuncOp) (table : SymbolTable) : Prop := {
  inv_table : symbols table = map (cloneFor entry) cloned;
  inv_reachable : forall g, In g cloned \/ In g referenced -> reachable body entry g;
  inv_nodup : NoDup cloned;
  inv_closed : forall g s h, In g cloned -> In s (getSymbolUses g) ->
                             lookupFunc body s = Some h -> In h cloned \/ In h referenced;
  inv_entry : In entry cloned \/ In entry referenced;
  inv_names : (cloned = [] /\ referenced = [entry])
              \/ (forall w, In w referenced -> cloneName entry w = getName w);
  inv_distinct : NoDup (map getName (symbols table))
}.

Arguments inv_table {cloned referenced table}.
Arguments inv_reachable {cloned referenced table}.
Arguments inv_nodup {cloned referenced table}.
Arguments inv_closed {cloned referenced table}.
Arguments inv_entry {cloned referenced table}.
Arguments inv_names {cloned referenced table}.
Arguments inv_distinct {cloned referenced table}.

Lemma loopInvariant_initial : loopInvariant [] [entry] (mkSymbolTable [] 0).
Proof.
  constructor; simpl; auto; try constructor.
  intros g [[]|[<-|[]]]. constructor.
Qed.

Lemma table_names (cloned referenced : list FuncOp) (table : SymbolTable) :
  loopInvariant cloned referenced table ->
  Forall namedFunc (symbols table)
  /\ forall name, (exists x, In x (symbols table) /\ getName x = name)
                  <-> exists p, In p cloned /\ cloneName entry p = name.
Proof.
  intros I. rewrite (inv_table I). split.
  - apply Forall_forall. intros x Hx. apply in_map_iff in Hx. destruct Hx as (p & <- & Hp).
    apply cloneFor_namedFunc. apply reachable_namedFunc. apply (inv_reachable I). auto.
  - intros name. split.
    + intros (x & Hx & E). apply in_map_iff in Hx. destruct Hx as (p & <- & Hp).
      exists p. rewrite <- cloneFor_getName. auto.
    + intros (p & Hp & E). exists (cloneFor entry p). rewrite cloneFor_getName.
      split; [apply in_map; exact Hp|exact E].
Qed.

(** A function found in the table under its own name has been cloned. *)
Lemma found_is_cloned (cloned referenced : list FuncOp) (table : SymbolTable) (w x : FuncOp) :
  loopInvariant cloned (w :: referenced) table ->
  SymbolTable_lookupFunc table (getName w) = Some x ->
  In w cloned.
Proof.
  intros I L. destruct (table_names _ _ _ I) as (Hall & Hnames).
  assert (N : lookupFunc (symbols table) (getName w) <> None)
    by (unfold SymbolTable_lookupFunc in L; congruence).
  rewrite (lookupFunc_None _ _ Hall) in N.
  assert (E : exists p, In p cloned /\ cloneName entry p = getName w).
  { apply Hnames. destruct (lookupFunc_Some _ _ _ L) as (Hin & Hn & _). eauto. }
  destruct E as (p & Hp & E).
  assert (w = p); [|subst; exact Hp].
  apply clone_name_exact; auto; apply (inv_reachable I); simpl; auto.
Qed.

(** A function not found in the table has not been cloned, and the name of
    its clone is free. *)
Lemma missing_is_new (cloned referenced : list FuncOp) (table : SymbolTable) (w : FuncOp) :
  loopInvariant cloned (w :: referenced) table ->
  SymbolTable_lookupFunc table (getName w) = None ->
  ~ In w cloned
  /\ forall x, In x (symbols table) -> getName x <> getName (cloneFor entry w).
Proof.
  intros I L. destruct (table_names _ _ _ I) as (Hall & Hnames).
  unfold SymbolTable_lookupFunc in L. rewrite (lookupFunc_None _ _ Hall) in L.
  destruct (inv_names I) as [(E & _)|K].
  - subst cloned. split; [intros []|]. rewrite (inv_table I). intros x [].
  - assert (Kw : cloneName entry w = getName w) by (apply K; simpl; auto).
    split.
    + intros Hw. apply (L (cloneFor entry w)).
      * rewrite (inv_table I). apply in_map. exact Hw.
      * rewrite cloneFor_getName. exact Kw.
    + intros x Hx. rewrite cloneFor_getName, Kw. apply L. exact Hx.
Qed.

Lemma loopInvariant_skip (cloned referenced : list FuncOp) (table : SymbolTable) (w : FuncOp) :
  loopInvariant cloned (w :: referenced) table ->
  In w cloned ->
  loopInvariant cloned referenced table.
Proof.
  intros I Hw. constructor.
  - apply (inv_table I).
  - intros g [H|H]; apply (inv_reachable I); simpl; auto.
  - apply (inv_nodup I).
  - intros g s h Hg Hs L. destruct (inv_closed I g s h Hg Hs L) as [H|[<-|H]]; auto.
  - destruct (inv_entry I) as [H|[<-|H]]; auto.
  - destruct (inv_names I) as [(E & _)|K].
    + subst cloned. destruct Hw.
    + right. intros x Hx. apply K. simpl. auto.
  - apply (inv_distinct I).
Qed.

Lemma loopInvariant_clone (cloned referenced : list FuncOp) (table : SymbolTable) (w : FuncOp) :
  loopInvariant cloned (w :: referenced) table ->
  SymbolTable_lookupFunc table (getName w) = None ->
  loopInvariant (cloned ++ [w]) (pushReferenced body (getSymbolUses w) referenced)
                (SymbolTable_insert table (cloneFor entry w)).
Proof.
  intros I L. destruct (missing_is_new _ _ _ _ I L) as (Hnew & Hfree).
  assert (Rw : reachable body entry w) by (apply (inv_reachable I); simpl; auto).
  constructor.
  - rewrite (SymbolTable_insert_fresh _ _ Hfree), (inv_table I), map_app. reflexivity.
  - intros g [H|H].
    + apply in_app_or in H. destruct H as [H|[<-|[]]]; auto.
      apply (inv_reachable I). auto.
    + apply pushReferenced_In in H. destruct H as [H|(s & Hs & Hl)].
      * apply (inv_reachable I). simpl. auto.
      * eapply reachable_use; eauto.
  - apply NoDup_app; [apply (inv_nodup I)|repeat constructor; intros []|].
    intros x Hx [<-|[]]. contradiction.
  - intros g s h Hg Hs Hl. rewrite pushReferenced_In, in_app_iff.
    apply in_app_or in Hg. destruct Hg as [Hg|[<-|[]]].
    + destruct (inv_closed I g s h Hg Hs Hl) as [H|[<-|H]]; simpl; auto.
    + right. right. eauto.
  - rewrite in_app_iff, pushReferenced_In.
    destruct (inv_entry I) as [H|[<-|H]]; simpl; auto.
  - right. intros x Hx. apply pushReferenced_In in Hx.
    destruct Hx as [Hx|(s & Hs & Hl)].
    + destruct (inv_names I) as [(_ & E)|K].
      * inversion E; subst. destruct Hx.
      * apply K. simpl. auto.
    + eapply referenced_keeps_name; eauto.
  - rewrite (SymbolTable_insert_fresh _ _ Hfree), map_app.
    apply NoDup_app; [apply (inv_distinct I)|repeat constructor; intros []|].
    intros n Hn [<-|[]]. apply in_map_iff in Hn. destruct Hn as (x & E & Hx).
    apply (Hfree x Hx E).
Qed.

(** The loop ends: every clone adds a function of the module body to
    [cloned], which has no repetition. *)
Lemma encapsulateLoop_terminates :
  forall k cloned table referenced,
    loopInvariant cloned referenced table ->
    List.length body - List.length cloned <= k ->
    exists fuel cloned' table',
      encapsulateLoop fuel body entry referenced table = Some table'
      /\ loopInvariant cloned' [] table'.
Proof.
  induction k as [|k IHk]; intros cloned table referenced;
    induction referenced as [|w referenced IHr]; intros I Hk.
  - exists 1, cloned, table. auto.
  - destruct (SymbolTable_lookupFunc table (getName w)) as [x|] eqn:L.
    + destruct (IHr (loopInvariant_skip _ _ _ _ I (found_is_cloned _ _ _ _ _ I L)) Hk)
        as (fuel & c' & t' & Hrun & I').
      exists (S fuel), c', t'. simpl. rewrite L. auto.
    + exfalso. pose proof (loopInvariant_clone _ _ _ _ I L) as I'.
      assert (Hincl : incl (cloned ++ [w]) body).
      { intros g Hg. apply reachable_in_body. apply (inv_reachable I'). auto. }
      pose proof (NoDup_incl_length (inv_nodup I') Hincl) as Hlen.
      rewrite length_app in Hlen. simpl in Hlen. unfold FuncOp in *. lia.
  - exists 1, cloned, table. auto.
  - destruct (SymbolTable_lookupFunc table (getName w)) as [x|] eqn:L.
    + destruct (IHr (loopInvariant_skip _ _ _ _ I (found_is_cloned _ _ _ _ _ I L)) Hk)
        as (fuel & c' & t' & Hrun & I').
      exists (S fuel), c', t'. simpl. rewrite L. auto.
    + pose proof (loopInvariant_clone _ _ _ _ I L) as I'.
      assert (Hincl : incl (cloned ++ [w]) body).
      { intros g Hg. apply reachable_in_body. apply (inv_reachable I'). auto. }
      pose proof (NoDup_incl_length (inv_nodup I') Hincl) as Hlen.
      rewrite length_app in Hlen. simpl in Hlen.
      destruct (IHk _ _ _ I') as (fuel & c' & t' & Hrun & I'').
      { rewrite length_app. simpl. unfold FuncOp in *. lia. }
      exists (S fuel), c', t'. simpl. rewrite L. auto.
Qed.

(** When the work list is empty, the cloned functions are the reachable
    ones. *)
Lemma cloned_all_reachable (cloned : list FuncOp) (table : SymbolTable) :
  loopInvariant cloned [] table ->
  forall h, In h cloned <-> reachable body entry h.
Proof.
  intros I h. split.
  - intros H. apply (inv_reachable I). auto.
  - intros H. induction H as [|g h s Hg IH Hs Hl].
    + destruct (inv_entry I) as [H|[]]. exact H.
    + destruct (inv_closed I g s h IH Hs Hl) as [H|[]]. exact H.
Qed.

(** The loop from the entry: with enough fuel it returns a table that holds
    the clone of every reachable function once, and nothing else. *)
Lemma encapsulateLoop_closure :
  exists fuel cloned table,
    encapsulateLoop fuel body entry [entry] (mkSymbolTable [] 0) = Some table
    /\ symbols table = map (cloneFor entry) cloned
    /\ NoDup cloned
    /\ (forall h, In h cloned <-> reachable body entry h)
    /\ NoDup (map getName (map (cloneFor entry) cloned)).
Proof.
  destruct (encapsulateLoop_terminates (List.length body) [] (mkSymbolTable [] 0) [entry]
                                       loopInvariant_initial)
    as (fuel & cloned & table & Hrun & I); [simpl; lia|].
  exists fuel, cloned, table. repeat split.
  - exact Hrun.
  - apply (inv_table I).
  - apply (inv_nodup I).
  - apply (cloned_all_reachable _ _ I).
  - apply (cloned_all_reachable _ _ I).
  - rewrite <- (inv_table I). apply (inv_distinct I).
Qed.

End ClosureFacts.

(** C4 (corrected).  For an entry function of the module that is named
    "main", or that no function reachable from it refers to while none of
    them is named "main", [EncapsulateFuncAndSerialize] returns, with enough
    fuel, the module that holds exactly the clones of the functions
    reachable from the entry, each once and under a name of its own, for
    any call graph among them, cyclic ones included; the clone of a
    function with the name of the entry is named "main", every other clone
    is the function as it is; and the source module is returned as it was
    given. *)
Theorem closure_of_entry (module : ModuleOp) (entry : FuncOp) (versions : Attribute) :
  getAttr module kVersionsAttr = Some versions ->
  lookupFunc (getBody module) (getName entry) = Some entry ->
  renamingIsSafe (getBody module) entry ->
  exists fuel cloned,
    EncapsulateFunc fuel module entry
    = Some (module, inr (newModule versions (map (cloneFor entry) cloned)))
    /\ NoDup cloned
    /\ (forall h, In h cloned <-> reachable (getBody module) entry h)
    /\ NoDup (map getName (map (cloneFor entry) cloned))
    /\ (forall h, getName h = getName entry -> getName (cloneFor entry h) = "main")
    /\ (forall h, getName h <> getName entry -> cloneFor entry h = h).
Proof.
  intros Hv He Hs.
  destruct (encapsulateLoop_closure (getBody module) entry He Hs)
    as (fuel & cloned & table & Hrun & Ht & Hn & Hr & Hd).
  exists fuel, cloned. unfold EncapsulateFunc. rewrite Hv, Hrun, Ht.
  repeat split; auto; try (apply Hr).
  - intros h E. unfold cloneFor. apply String.eqb_eq in E. rewrite E. reflexivity.
  - intros h E. unfold cloneFor. apply String.eqb_neq in E. rewrite E. reflexivity.
Qed.

Section ClosureExamples.

Lemma lookupSymbolIn_app (table : list Operation) (x : Operation) (name : string) :
  lookupSymbolIn (table ++ [x]) name
  = match lookupSymbolIn table name with
    | Some y => Some y
    | None => lookupSymbolIn [x] name
    end.
Proof.
  unfold lookupSymbolIn. induction table as [|y table IH]; simpl; [reflexivity|].
  destruct (match symbolName y with Some n => String.eqb n name | None => false end);
    [reflexivity|exact IH].
Qed.

Lemma uniqueName_suffix (taken : string -> bool) (base : string) :
  forall tries counter,
  exists k, fst (uniqueName taken base tries counter) = (base ++ "_" ++ to_string k)%string.
Proof.
  induction tries as [|tries IH]; intros counter; simpl.
  - exists counter. reflexivity.
  - destruct (taken _); [apply IH|exists counter; reflexivity].
Qed.

(** Whatever has been inserted, the table never holds the name [f] once
    the only clones are those of the entry, renamed. *)
Lemma recursive_entry_never_found :
  forall fuel table,
    lookupSymbolIn (symbols table) "f" = None ->
    encapsulateLoop fuel (getBody Example.recursive) Example.recursive_entry
                    [Example.recursive_entry] table = None.
Proof.
  induction fuel as [|fuel IH]; intros table H; [reflexivity|].
  cbn [encapsulateLoop]. unfold SymbolTable_lookupFunc, lookupFunc.
  change (getName Example.recursive_entry) with "f". rewrite H.
  change (pushReferenced (getBody Example.recursive)
                         (getSymbolUses Example.recursive_entry) [])
    with [Example.recursive_entry].
  apply IH. unfold SymbolTable_insert.
  change (getName (cloneFor Example.recursive_entry Example.recursive_entry)) with "main".
  destruct (hasSymbol (symbols table) "main").
  - destruct (uniqueName_suffix (hasSymbol (symbols table)) "main"
                                (List.length (symbols table)) (uniquingCounter table))
      as (k & Hk).
    destruct (uniqueName _ _ _ _) as [name counter]. simpl in Hk. subst name.
    cbn [symbols]. rewrite lookupSymbolIn_app, H. reflexivity.
  - cbn [symbols]. rewrite lookupSymbolIn_app, H. reflexivity.
Qed.

(** C4, what the claim as stated misses.  (1) An entry [f] that refers to
    another function named "main": the extractor returns a module with the
    clone of [f] alone, and the reachable function "main" is not in it.
    (2) An entry [f] that calls itself: the loop never ends, whatever the
    fuel. *)
Lemma closure_of_entry_counterexample :
  (reachable (getBody Example.main_taken) Example.main_taken_entry Example.main_taken_other
   /\ EncapsulateFunc 3 Example.main_taken Example.main_taken_entry
      = Some (Example.main_taken,
              inr (newModule (StringAttr "v") [setName Example.main_taken_entry "main"]))
   /\ forall fuel out,
       EncapsulateFunc fuel Example.main_taken Example.main_taken_entry
       = Some (Example.main_taken, inr out) ->
       getBody out = [setName Example.main_taken_entry "main"]
       /\ ~ In Example.main_taken_other (getBody out))
  /\ (reachable (getBody Example.recursive) Example.recursive_entry Example.recursive_entry
      /\ forall fuel, EncapsulateFunc fuel Example.recursive Example.recursive_entry = None).
Proof.
  split; [split; [|split]|split].
  - apply (reachable_use _ _ Example.main_taken_entry Example.main_taken_other "main");
      [constructor|simpl; auto|reflexivity].
  - reflexivity.
  - intros fuel out H. destruct fuel as [|[|[|fuel]]]; try discriminate.
    vm_compute in H. inversion H; subst out. split; [reflexivity|].
    intros [E|[]]. discriminate.
  - constructor.
  - intros fuel. unfold EncapsulateFunc.
    change (getAttr Example.recursive kVersionsAttr) with (Some (StringAttr "v")).
    rewrite recursive_entry_never_found; reflexivity.
Qed.

Lemma example_reachable (main_body : list Operation) (g : FuncOp) :
  reachable (getBody (Example.module_of main_body))
            (Example.func 6 "tpu_func" [Example.call 7 "helper"]) g ->
  g = Example.func 6 "tpu_func" [Example.call 7 "helper"]
  \/ g = Example.func 8 "helper" [Example.call 9 "helper"].
Proof.
  intros H. induction H as [|g h s Hg IH Hs Hl]; [auto|].
  right. destruct IH as [-> | ->]; simpl in Hs; destruct Hs as [<-|[]];
    vm_compute in Hl; inversion Hl; reflexivity.
Qed.

Lemma example_renamingIsSafe (main_body : list Operation) :
  renamingIsSafe (getBody (Example.module_of main_body))
                 (Example.func 6 "tpu_func" [Example.call 7 "helper"]).
Proof.
  right. split; intros g Hg; destruct (example_reachable main_body g Hg) as [-> | ->]; simpl.
  - intros [E|[]]. discriminate.
  - intros [E|[]]. discriminate.
  - discriminate.
  - discriminate.
Qed.

Lemma closure_of_entry_witness :
  exists fuel cloned,
    EncapsulateFunc fuel (Example.module_of [])
                    (Example.func 6 "tpu_func" [Example.call 7 "helper"])
    = Some (Example.module_of [],
            inr (newModule (StringAttr "v")
                   (map (cloneFor (Example.func 6 "tpu_func" [Example.call 7 "helper"]))
                        cloned)))
    /\ NoDup cloned
    /\ (forall h, In h cloned
                  <-> reachable (getBody (Example.module_of []))
                                (Example.func 6 "tpu_func" [Example.call 7 "helper"]) h)
    /\ NoDup (map getName
                  (map (cloneFor (Example.func 6 "tpu_func" [Example.call 7 "helper"]))
                       cloned))
    /\ (forall h, getName h = "tpu_func" ->
                  getName (cloneFor (Example.func 6 "tpu_func" [Example.call 7 "helper"]) h)
                  = "main")
    /\ (forall h, getName h <> "tpu_func" ->
                  cloneFor (Example.func 6 "tpu_func" [Example.call 7 "helper"]) h = h).
Proof.
  apply (closure_of_entry (Example.module_of [])
                          (Example.func 6 "tpu_func" [Example.call 7 "helper"])
                          (StringAttr "v")).
  - reflexivity.
  - reflexivity.
  - apply example_renamingIsSafe.
Defined.

End ClosureExamples.

(** ** [Rewrite]: nodes it leaves alone *)

Section RewriteRefusals.
Context {C : Collaborators} {P : Serializers}.

Lemma withBuilder_builderAt (focus : BlockFocus) : withBuilder focus (builderAt focus) = focus.
Proof. destruct focus. reflexivity. Qed.

(** C9 (confirmed).  On a launch without a string attribute
    [_tpu_replicate], in particular on one that lacks the attribute,
    [Rewrite] returns success and leaves the launch, its block and the
    parent operation as they are. *)
Theorem rewrite_skips_unmarked (fuel : nat) (up : BlockFocus -> ModuleOp)
        (devices : list ParsedName) (focus : BlockFocus) (launch_func : Operation) :
  focused focus = Some launch_func ->
  getAttr launch_func kTPUReplicateAttr = None
  \/ getAttrOfType dyn_cast_StringAttr launch_func kTPUReplicateAttr = None ->
  Rewrite fuel up devices focus = Some (success, focus).
Proof.
  intros Hf Hm.
  assert (H : getAttrOfType dyn_cast_StringAttr launch_func kTPUReplicateAttr = None).
  { destruct Hm as [Hm|Hm]; [|exact Hm]. unfold getAttrOfType. rewrite Hm. reflexivity. }
  unfold Rewrite. rewrite Hf, H. reflexivity.
Qed.

(** The build of the descriptor stops at the arguments when the input
    shardings are not one per operand. *)
Lemma SetMetadataProtoArgs_mismatch (op : Operation) (input_shardings : list Attribute)
      (metadata : TPUCompileMetadataProto) :
  getAttrOfType dyn_cast_ArrayAttr op kInputShardingAttr = Some input_shardings ->
  List.length input_shardings <> getNumOperands op ->
  SetMetadataProtoArgs op metadata
  = inl (lengthMismatch op kInputShardingAttr (getNumOperands op)
                        (List.length input_shardings)).
Proof.
  intros Ha Hl. unfold SetMetadataProtoArgs. rewrite Ha.
  apply Nat.eqb_neq in Hl. rewrite Hl. reflexivity.
Qed.

Lemma SetMetadataProtoFromLaunchFuncOp_mismatch (op : Operation)
      (input_shardings : list Attribute) (replicas cores : Z)
      (xla : option DeviceAssignmentProto) (metadata : TPUCompileMetadataProto) :
  getAttrOfType dyn_cast_ArrayAttr op kInputShardingAttr = Some input_shardings ->
  List.length input_shardings <> getNumOperands op ->
  exists d,
    SetMetadataProtoFromLaunchFuncOp op replicas cores xla metadata = inl d
    /\ ((exists m1 m2,
            SetMetadataProtoStepMarkerLocation
              op (set_num_cores_per_replica (set_num_replicas metadata replicas) cores)
            = inr m1
            /\ SetMetadataProtoPaddingMap op m1 = inr m2) ->
        d = lengthMismatch op kInputShardingAttr (getNumOperands op)
                           (List.length input_shardings)).
Proof.
  intros Ha Hl. unfold SetMetadataProtoFromLaunchFuncOp, andThen.
  destruct (SetMetadataProtoStepMarkerLocation op _) as [d1|m1] eqn:H1.
  - exists d1. split; [reflexivity|]. intros (x & y & Hx & _). discriminate.
  - destruct (SetMetadataProtoPaddingMap op m1) as [d2|m2] eqn:H2.
    + exists d2. split; [reflexivity|]. intros (x & y & Hx & Hy).
      inversion Hx; subst x. rewrite H2 in Hy. discriminate.
    + rewrite (SetMetadataProtoArgs_mismatch op input_shardings _ Ha Hl).
      eexists. split; [reflexivity|auto].
Qed.

(** C5 (confirmed).  A launch whose input-sharding array is not of the
    length of its operand list: [SetMetadataProtoArgs] fails with the
    length-mismatch message that names the attribute, the operand count and
    the size of the array; the build of the descriptor fails, with that
    message once the step marker and the padding map have been accepted;
    and [Rewrite] returns with the launch still in focus and the block
    untouched, and with a failure when the launch carries [_tpu_replicate]. *)
Theorem input_sharding_length_mismatch (op : Operation) (input_shardings : list Attribute) :
  getAttrOfType dyn_cast_ArrayAttr op kInputShardingAttr = Some input_shardings ->
  List.length input_shardings <> getNumOperands op ->
  (forall metadata,
      SetMetadataProtoArgs op metadata
      = inl (emitOpError (opId op)
               (formatv kBadArrayAttrLengthMsg
                        [ArgStr kInputShardingAttr; ArgNat (getNumOperands op);
                         ArgNat (List.length input_shardings)])))
  /\ (forall replicas cores xla metadata,
         exists d,
           SetMetadataProtoFromLaunchFuncOp op replicas cores xla metadata = inl d
           /\ ((exists m1 m2,
                   SetMetadataProtoStepMarkerLocation
                     op (set_num_cores_per_replica (set_num_replicas metadata replicas) cores)
                   = inr m1
                   /\ SetMetadataProtoPaddingMap op m1 = inr m2) ->
               d = lengthMismatch op kInputShardingAttr (getNumOperands op)
                                  (List.length input_shardings)))
  /\ (forall fuel up devices focus,
         focused focus = Some op ->
         numReplicasOf (asReplicate (parentOp focus)) <> None ->
         exists r,
           Rewrite fuel up devices focus = Some (r, focus)
           /\ (getAttrOfType dyn_cast_StringAttr op kTPUReplicateAttr <> None ->
               failed r = true)).
Proof.
  intros Ha Hl. split; [|split].
  - intros metadata. apply (SetMetadataProtoArgs_mismatch op input_shardings metadata Ha Hl).
  - intros replicas cores xla metadata.
    apply (SetMetadataProtoFromLaunchFuncOp_mismatch op input_shardings _ _ _ _ Ha Hl).
  - intros fuel up devices focus Hf Hn. unfold Rewrite. rewrite Hf.
    destruct (getAttrOfType dyn_cast_StringAttr op kTPUReplicateAttr) as [marker|].
    2:{ exists success. split; [reflexivity|]. intros H. contradiction. }
    destruct (numReplicasOf (asReplicate (parentOp focus))) as [replicas|];
      [|contradiction].
    destruct (getAttrOfType dyn_cast_IntegerAttr op kNumCoresPerReplicaAttr) as [cores|].
    2:{ eexists. split; [reflexivity|]. reflexivity. }
    destruct (GetTPUCompilationAndExecutionDevices devices replicas (to_int cores) "" [])
      as [message|[[compilation_device execution_devices] xla]].
    { eexists. split; [reflexivity|]. reflexivity. }
    unfold BuildCompileOp.
    destruct (SetMetadataProtoFromLaunchFuncOp_mismatch
                op input_shardings replicas (to_int cores) xla emptyMetadata Ha Hl)
      as (d & Hd & _).
    rewrite Hd, withBuilder_builderAt. eexists. split; reflexivity.
Qed.

End RewriteRefusals.

Section RefusalWitnesses.
#[local] Existing Instance Example.collaborators.
#[local] Existing Instance Example.serializers.

Lemma rewrite_skips_unmarked_witness :
  Rewrite 0 Example.up Example.devices (Example.focus_on None Example.launch_unmarked)
  = Some (success, Example.focus_on None Example.launch_unmarked).
Proof.
  exact (rewrite_skips_unmarked 0 Example.up Example.devices
           (Example.focus_on None Example.launch_unmarked) Example.launch_unmarked
           eq_refl (or_introl eq_refl)).
Defined.

Lemma input_sharding_length_mismatch_witness :
  SetMetadataProtoArgs Example.launch_short_sharding emptyMetadata
  = inl (emitOpError 4
           (formatv kBadArrayAttrLengthMsg
                    [ArgStr "input_sharding_configuration"; ArgNat 3; ArgNat 2]))
  /\ Rewrite 0 Example.up Example.devices
             (Example.focus_on None Example.launch_short_sharding)
     = Some (failure (emitOpError 4
                        (formatv kBadArrayAttrLengthMsg
                                 [ArgStr "input_sharding_configuration"; ArgNat 3;
                                  ArgNat 2])),
             Example.focus_on None Example.launch_short_sharding).
Proof.
  assert (Hl : List.length [StringAttr "a"; StringAttr "b"]
               <> getNumOperands Example.launch_short_sharding)
    by (vm_compute; discriminate).
  pose proof (input_sharding_length_mismatch
                Example.launch_short_sharding [StringAttr "a"; StringAttr "b"]
                eq_refl Hl) as (Hargs & _ & Hrewrite).
  split.
  - exact (Hargs emptyMetadata).
  - destruct (Hrewrite 0 Example.up Example.devices
                       (Example.focus_on None Example.launch_short_sharding) eq_refl)
      as (r & Hr & _); [discriminate|].
    rewrite Hr. vm_compute in Hr. inversion Hr. reflexivity.
Defined.

End RefusalWitnesses.

(** ** Operations, operand maps and counts *)

Section OperationInduction.
Variable Q : Operation -> Prop.
Hypothesis step :
  forall id name operands types attrs regions,
    Forall (Forall Q) regions -> Q (mkOperation id name operands types attrs regions).

(** Induction on an operation with the hypothesis for every operation of
    every region. *)
Fixpoint Operation_nested_ind (op : Operation) : Q op :=
  match op with
  | mkOperation id name operands types attrs regions =>
      step id name operands types attrs regions
           ((fix inRegions (rs : list (list Operation)) : Forall (Forall Q) rs :=
               match rs with
               | [] => Forall_nil _
               | block :: rs' =>
                   Forall_cons block
                     ((fix inBlock (ops : list Operation) : Forall Q ops :=
                         match ops with
                         | [] => Forall_nil _
                         | o :: ops' => Forall_cons o (Operation_nested_ind o) (inBlock ops')
                         end) block)
                     (inRegions rs')
               end) regions)
  end.
End OperationInduction.

(** The number of operations named [name] in [op] and under it. *)
Fixpoint countOps (name : string) (op : Operation) : nat :=
  (if isa name op then 1 else 0)
  + list_sum (map (fun block => list_sum (map (countOps name) block)) (getRegions op)).

Definition countIn (name : string) (block : list Operation) : nat :=
  list_sum (map (countOps name) block).

Lemma countIn_app (name : string) (a b : list Operation) :
  countIn name (a ++ b) = countIn name a + countIn name b.
Proof. unfold countIn. rewrite map_app, list_sum_app. reflexivity. Qed.

Lemma mapOperands_compose (f g : Value -> Value) (op : Operation) :
  mapOperands g (mapOperands f op) = mapOperands (fun v => g (f v)) op.
Proof.
  induction op as [id name operands types attrs regions IH] using Operation_nested_ind.
  simpl. f_equal; [apply map_map|].
  rewrite map_map. apply map_ext_Forall.
  eapply Forall_impl; [|exact IH]. intros block Hb. simpl in Hb.
  rewrite map_map. apply map_ext_Forall. exact Hb.
Qed.

Lemma countOps_mapOperands (name : string) (f : Value -> Value) (op : Operation) :
  countOps name (mapOperands f op) = countOps name op.
Proof.
  induction op as [id n operands types attrs regions IH] using Operation_nested_ind.
  simpl. f_equal. rewrite map_map. f_equal. apply map_ext_Forall.
  eapply Forall_impl; [|exact IH]. intros block Hb. simpl in Hb.
  rewrite map_map. f_equal. apply map_ext_Forall. exact Hb.
Qed.

Lemma countIn_mapOperands (name : string) (f : Value -> Value) (block : list Operation) :
  countIn name (map (mapOperands f) block) = countIn name block.
Proof.
  unfold countIn. rewrite map_map. f_equal. apply map_ext. intros op.
  apply countOps_mapOperands.
Qed.

Lemma mapOperands_opId (f : Value -> Value) (op : Operation) : opId (mapOperands f op) = opId op.
Proof. destruct op. reflexivity. Qed.

Lemma mapOperands_opName (f : Value -> Value) (op : Operation) :
  opName (mapOperands f op) = opName op.
Proof. destruct op. reflexivity. Qed.

Lemma mapOperands_getResults (f : Value -> Value) (op : Operation) :
  getResults (mapOperands f op) = getResults op.
Proof. destruct op. reflexivity. Qed.

Lemma mapOperands_getAttrs (f : Value -> Value) (op : Operation) :
  getAttrs (mapOperands f op) = getAttrs op.
Proof. destruct op. reflexivity. Qed.

(** The operands of an operation and of the operations nested in it. *)
Fixpoint operandsOf (op : Operation) : list Value :=
  getOperands op ++ flat_map (flat_map operandsOf) (getRegions op).

Definition usesIn (block : list Operation) : list Value := flat_map operandsOf block.

Lemma flat_map_map_Forall (A B : Type) (f : A -> A) (g : A -> list B) (h : B -> B)
      (l : list A) :
  Forall (fun a => g (f a) = map h (g a)) l ->
  flat_map g (map f l) = map h (flat_map g l).
Proof.
  induction 1 as [|a l Ha _ IH]; simpl; [reflexivity|].
  rewrite map_app, Ha, IH. reflexivity.
Qed.

Lemma operandsOf_mapOperands (f : Value -> Value) (op : Operation) :
  operandsOf (mapOperands f op) = map f (operandsOf op).
Proof.
  induction op as [id name operands types attrs regions IH] using Operation_nested_ind.
  simpl. rewrite map_app. f_equal.
  apply (flat_map_map_Forall _ _ (map (mapOperands f)) (flat_map operandsOf) f).
  eapply Forall_impl; [|exact IH]. intros block Hb. simpl in Hb.
  apply (flat_map_map_Forall _ _ (mapOperands f) operandsOf f). exact Hb.
Qed.

Lemma usesIn_map (f : Value -> Value) (block : list Operation) :
  usesIn (map (mapOperands f) block) = map f (usesIn block).
Proof.
  unfold usesIn. apply flat_map_map_Forall. apply Forall_forall. intros op _.
  apply operandsOf_mapOperands.
Qed.

Lemma usesIn_app (a b : list Operation) : usesIn (a ++ b) = usesIn a ++ usesIn b.
Proof. unfold usesIn. apply flat_map_app. Qed.

(** A substitution applied to the whole block in focus. *)
Definition substFocus (f : Value -> Value) (focus : BlockFocus) : BlockFocus :=
  mkFocus (freshId focus) (parentOp focus) (map (mapOperands f) (opsBefore focus))
          (option_map (mapOperands f) (focused focus)) (map (mapOperands f) (opsAfter focus)).

Lemma substFocus_compose (f g : Value -> Value) (focus : BlockFocus) :
  substFocus g (substFocus f focus) = substFocus (fun v => g (f v)) focus.
Proof.
  unfold substFocus. simpl. f_equal.
  - rewrite map_map. apply map_ext. apply mapOperands_compose.
  - destruct (focused focus); simpl; [|reflexivity]. f_equal. apply mapOperands_compose.
  - rewrite map_map. apply map_ext. apply mapOperands_compose.
Qed.

(** The substitution a sequence of [replaceAllUsesWith] amounts to. *)
Fixpoint replaceValues (pairs : list (Value * Value)) (v : Value) : Value :=
  match pairs with
  | [] => v
  | (from, to) :: rest => replaceValues rest (replaceValue from to v)
  end.

Lemma mapOperands_id (op : Operation) : mapOperands (fun v => v) op = op.
Proof.
  induction op as [id name operands types attrs regions IH] using Operation_nested_ind.
  simpl. f_equal; [apply map_id|].
  rewrite <- (map_id regions) at 2. apply map_ext_Forall.
  eapply Forall_impl; [|exact IH]. intros block Hb. simpl in Hb.
  rewrite <- (map_id block) at 2. apply map_ext_Forall. exact Hb.
Qed.

Lemma substFocus_id (focus : BlockFocus) : substFocus (fun v => v) focus = focus.
Proof.
  destruct focus as [fresh parent before current after]. unfold substFocus. simpl. f_equal.
  - rewrite <- (map_id before) at 2. apply map_ext. apply mapOperands_id.
  - destruct current; simpl; [|reflexivity]. f_equal. apply mapOperands_id.
  - rewrite <- (map_id after) at 2. apply map_ext. apply mapOperands_id.
Qed.

Lemma replaceAllUsesWithAll_subst (pairs : list (Value * Value)) :
  forall focus, replaceAllUsesWithAll pairs focus = substFocus (replaceValues pairs) focus.
Proof.
  unfold replaceAllUsesWithAll.
  induction pairs as [|[from to] rest IH]; intros focus; simpl.
  - symmetry. apply substFocus_id.
  - rewrite IH. change (replaceAllUsesWith from to focus)
      with (substFocus (replaceValue from to) focus).
    apply substFocus_compose.
Qed.

(** *** The operands a block holds *)

(** [block'] is [block] with every operand replaced by its image under [f]:
    the same operations in the same order, each with the operands, its own
    and those of the operations nested in it, that [f] gives. *)
Definition operandsReplaced (f : Value -> Value) (block block' : list Operation) : Prop :=
  Forall2 (fun op op' => opId op' = opId op
                         /\ opName op' = opName op
                         /\ getResultTypes op' = getResultTypes op
                         /\ getOperands op' = map f (getOperands op)
                         /\ operandsOf op' = map f (operandsOf op))
          block block'.

Lemma operandsReplaced_map (f : Value -> Value) (block : list Operation) :
  operandsReplaced f block (map (mapOperands f) block).
Proof.
  unfold operandsReplaced. induction block as [|op block IH]; simpl; constructor; [|exact IH].
  split; [apply mapOperands_opId|]. split; [apply mapOperands_opName|].
  split; [destruct op; reflexivity|]. split; [destruct op; reflexivity|].
  apply operandsOf_mapOperands.
Qed.

Lemma operandsReplaced_uses (f : Value -> Value) (block block' : list Operation) :
  operandsReplaced f block block' -> usesIn block' = map f (usesIn block).
Proof.
  unfold operandsReplaced, usesIn.
  induction 1 as [|op op' block block' (_ & _ & _ & _ & H) _ IH]; simpl; [reflexivity|].
  rewrite map_app, H, IH. reflexivity.
Qed.

Lemma blockOps_substFocus (f : Value -> Value) (focus : BlockFocus) :
  blockOps (substFocus f focus) = map (mapOperands f) (blockOps focus).
Proof.
  unfold blockOps, substFocus. cbn [opsBefore focused opsAfter].
  rewrite !map_app. destruct (focused focus); reflexivity.
Qed.

(** ** The node builders *)

Section BuilderFacts.
Context {C : Collaborators} {P : Serializers}.

(** Every operation of the block is older than the next fresh identity. *)
Definition idsBelow (n : nat) (block : list Operation) : Prop :=
  Forall (fun op => opId op < n) block.

Lemma removeOp_absent (id : nat) (block : list Operation) :
  Forall (fun op => opId op <> id) block -> removeOp id block = block.
Proof.
  unfold removeOp. induction 1 as [|op block Hop _ IH]; simpl; [reflexivity|].
  apply Nat.eqb_neq in Hop. rewrite Hop. simpl. f_equal. exact IH.
Qed.

(** Moving the operation just created out of the block it was created in. *)
Lemma removeOp_last (block : list Operation) (op : Operation) :
  idsBelow (opId op) block -> removeOp (opId op) (block ++ [op]) = block.
Proof.
  intros H. unfold removeOp. rewrite filter_app. simpl. rewrite Nat.eqb_refl. simpl.
  rewrite app_nil_r. apply removeOp_absent.
  eapply Forall_impl; [|exact H]. simpl. intros o Ho. lia.
Qed.

Lemma idsBelow_weaken (n m : nat) (block : list Operation) :
  n <= m -> idsBelow n block -> idsBelow m block.
Proof. intros Hnm H. eapply Forall_impl; [|exact H]. simpl. intros o Ho. lia. Qed.

Lemma idsBelow_map (n : nat) (f : Value -> Value) (block : list Operation) :
  idsBelow n block -> idsBelow n (map (mapOperands f) block).
Proof.
  intros H. apply Forall_map. eapply Forall_impl; [|exact H]. simpl.
  intros o Ho. rewrite mapOperands_opId. exact Ho.
Qed.

(** The wrapper [WrapOpInLaunch] builds around [op]. *)
Definition launchAround (id : nat) (op : Operation) (device : string) : Operation :=
  mkOperation id kLaunchOp [] (getResultTypes op) [(kDeviceAttr, StringAttr device)]
              [[op; mkOperation (S id) kReturnOp (getResults op) [] [] []]].

Lemma WrapOpInLaunch_created (builder : OpBuilder) (op : Operation) (device : string) :
  WrapOpInLaunch builder op device
  = (launchAround (nextId builder) op device,
     mkBuilder (S (S (nextId builder)))
               (removeOp (opId op) (insertionBlock builder)
                ++ [launchAround (nextId builder) op device])).
Proof. reflexivity. Qed.

(** *** The dynamic-shape probes *)

(** An operand whose recorded shape is not fully defined. *)
Definition dynamicShape (v : Value) : bool :=
  negb (IsFullyDefined (argShape (Value_getType v))).

Lemma forallb_false_witness (A : Type) (f : A -> bool) (l : list A) :
  forallb f l = false -> exists x, In x l /\ f x = false.
Proof.
  induction l as [|a l IH]; simpl; [discriminate|].
  destruct (f a) eqn:E; simpl.
  - intros H. destruct (IH H) as (x & Hx & Hf). eauto.
  - intros _. eauto.
Qed.

(** Not fully defined: the type is not ranked, or a dimension is dynamic. *)
Lemma dynamicShape_cases (v : Value) :
  dynamicShape v = true
  <-> (forall shape e, Value_getType v <> RankedTensorType shape e)
      \/ exists shape e d,
          Value_getType v = RankedTensorType shape e /\ In d shape /\ (d < 0)%Z.
Proof.
  unfold dynamicShape, IsFullyDefined. destruct (Value_getType v) as [shape e|e|n]; simpl.
  - rewrite negb_true_iff. split.
    + intros H. right. destruct (forallb_false_witness _ _ _ H) as (d & Hd & Hn).
      exists shape, e, d. repeat split; auto. apply Z.leb_nle in Hn. lia.
    + intros [H|(s & e' & d & E & Hd & Hn)]; [exfalso; eapply H; reflexivity|].
      inversion E; subst s e'. destruct (forallb _ shape) eqn:F; [|reflexivity].
      rewrite forallb_forall in F. specialize (F d Hd). apply Z.leb_le in F. lia.
  - split; [|reflexivity]. intros _. left. intros shape e' E. discriminate.
  - split; [|reflexivity]. intros _. left. intros shape e' E. discriminate.
Qed.

(** The shape ops created from [next] on for the operands given. *)
Fixpoint shapeProbes (next : nat) (operands : list Value) : list Operation :=
  match operands with
  | [] => []
  | operand :: rest =>
      mkOperation next kShapeOp [operand] [RankedTensorType [(-1)%Z] "i64"] [] []
      :: shapeProbes (S next) rest
  end.

Lemma shapeProbes_length (next : nat) (operands : list Value) :
  List.length (shapeProbes next operands) = List.length operands.
Proof. revert next. induction operands; simpl; intros; [reflexivity|]. f_equal. apply IHoperands. Qed.

Lemma shapeProbes_ids (operands : list Value) :
  forall next op, In op (shapeProbes next operands) ->
                  next <= opId op < next + List.length operands.
Proof.
  induction operands as [|v rest IH]; simpl; intros next op H; [destruct H|].
  destruct H as [<-|H]; simpl; [lia|]. apply IH in H. lia.
Qed.

Lemma shapeProbes_name (operands : list Value) :
  forall next op, In op (shapeProbes next operands) -> opName op = kShapeOp.
Proof.
  induction operands as [|v rest IH]; simpl; intros next op H; [destruct H|].
  destruct H as [<-|H]; [reflexivity|]. eapply IH. exact H.
Qed.

Lemma shapeProbes_results (operands : list Value) :
  forall next,
    List.length (flat_map getResults (shapeProbes next operands)) = List.length operands.
Proof.
  induction operands as [|v rest IH]; simpl; intros next; [reflexivity|].
  f_equal. apply IH.
Qed.

(** Each probe is a [tf.Shape] of its operand. *)
Lemma shapeProbes_probe (operands : list Value) :
  forall next,
    Forall2 (fun operand probe =>
               opName probe = kShapeOp /\ getOperands probe = [operand]
               /\ getResults probe = [OpResult (opId probe) 0 (RankedTensorType [(-1)%Z] "i64")])
            operands (shapeProbes next operands).
Proof.
  induction operands as [|v rest IH]; simpl; intros next; constructor; auto.
Qed.

Lemma shapeOpsLoop_run (metadata : TPUCompileMetadataProto) :
  forall operands index builder compile_op_operands,
    (forall i v, nth_error operands i = Some v ->
                 exists a, nth_error (args metadata) (index + i) = Some a
                           /\ arg_shape a = argShape (Value_getType v)) ->
    shapeOpsLoop operands index metadata builder compile_op_operands
    = Some (compile_op_operands
            ++ flat_map getResults
                        (shapeProbes (nextId builder) (filter dynamicShape operands)),
            mkBuilder (nextId builder + List.length (filter dynamicShape operands))
                      (insertionBlock builder
                       ++ shapeProbes (nextId builder) (filter dynamicShape operands))).
Proof.
  induction operands as [|v rest IH]; intros index builder acc H; simpl.
  - rewrite !app_nil_r, Nat.add_0_r. destruct builder. reflexivity.
  - destruct (H 0 v eq_refl) as (a & Ha & Hs). rewrite Nat.add_0_r in Ha. rewrite Ha.
    assert (H' : forall i w, nth_error rest i = Some w ->
                             exists a, nth_error (args metadata) (S index + i) = Some a
                                       /\ arg_shape a = argShape (Value_getType w)).
    { intros i w Hw. replace (S index + i) with (index + S i) by lia. apply H. exact Hw. }
    rewrite Hs.
    assert (D : dynamicShape v = negb (IsFullyDefined (argShape (Value_getType v))))
      by reflexivity.
    destruct (IsFullyDefined (argShape (Value_getType v))); simpl in D; rewrite D; simpl.
    + apply IH. exact H'.
    + rewrite (IH (S index) _ _ H'). simpl. rewrite <- !app_assoc. simpl.
      replace (S (nextId builder + List.length (filter dynamicShape rest)))
        with (nextId builder + S (List.length (filter dynamicShape rest))) by lia.
      reflexivity.
Qed.

Lemma Forall2_describes_nth (types : list mlirType) (descriptors : list Arg) :
  Forall2 describes types descriptors ->
  forall i t, nth_error types i = Some t ->
              exists a, nth_error descriptors i = Some a /\ arg_shape a = argShape t.
Proof.
  induction 1 as [|t a types descriptors Hd _ IH]; intros i u Hu.
  - destruct i; discriminate.
  - destruct i as [|i]; simpl in *.
    + inversion Hu; subst u. exists a. split; [reflexivity|apply Hd].
    + apply IH. exact Hu.
Qed.

(** *** The compile node *)

Definition compileOperation (id : nat) (operands : list Value) (txt_metadata txt_module : string)
  : Operation :=
  mkOperation id kTPUCompileMlirOp operands [stringTensor; stringTensor]
              [("metadata", StringAttr txt_metadata);
               ("NumDynamicShapes", IntegerAttr (Z.of_nat (List.length operands)));
               ("mlir_module", StringAttr txt_module)] [].

Definition serialized (metadata : TPUCompileMetadataProto) : string :=
  if tpu_compile_metadata_debug then DebugString metadata else SerializeToString metadata.

(** What a successful [BuildCompileOp] has built: the probes, the compile
    node on their results, and the wrapper on the compilation device. *)
Lemma BuildCompileOp_built (fuel : nat) (parentModule : list Operation -> ModuleOp)
      (launch_func : Operation) (replicas cores : Z) (compilation_device : string)
      (xla : option DeviceAssignmentProto) (builder builder' : OpBuilder)
      (launch : Operation) :
  BuildCompileOp fuel parentModule launch_func replicas cores compilation_device xla builder
  = Some (inr launch, builder') ->
  exists metadata txt_module,
    SetMetadataProtoFromLaunchFuncOp launch_func replicas cores xla emptyMetadata
    = inr metadata
    /\ let probes :=
         shapeProbes (nextId builder) (filter dynamicShape (getOperands launch_func)) in
       let compile_op :=
         compileOperation (nextId builder + List.length probes)
                          (flat_map getResults probes) (serialized metadata) txt_module in
       launch = launchAround (S (opId compile_op)) compile_op compilation_device
       /\ builder'
          = mkBuilder (S (S (S (opId compile_op))))
                      (removeOp (opId compile_op)
                                (insertionBlock builder ++ probes ++ [compile_op])
                       ++ [launch]).
Proof.
  unfold BuildCompileOp.
  destruct (SetMetadataProtoFromLaunchFuncOp launch_func replicas cores xla emptyMetadata)
    as [d|metadata] eqn:Hm; [discriminate|].
  destruct (SetMetadataProtoFromLaunchFuncOp_success _ _ _ _ _ Hm) as (Hd & _).
  rewrite shapeOpsLoop_run.
  2:{ intros i v Hv. simpl. apply (Forall2_describes_nth _ _ Hd).
      unfold getOperandTypes. rewrite nth_error_map, Hv. reflexivity. }
  destruct (getAttrOfType dyn_cast_FlatSymbolRefAttr launch_func "func") as [func_attr|];
    [|discriminate].
  cbn [insertionBlock nextId].
  destruct (lookupFunc _ func_attr) as [func|]; [|discriminate].
  destruct (EncapsulateFuncAndSerialize fuel _ func) as [[m [d|txt_module]]|];
    try discriminate.
  intros H. exists metadata, txt_module. split; [reflexivity|].
  cbv zeta. rewrite shapeProbes_length.
  unfold createOperation, WrapOpInLaunch in H. cbn [insertionBlock nextId fst snd] in H.
  inversion H. unfold compileOperation, launchAround, serialized. cbn [opId].
  rewrite <- !app_assoc. split; reflexivity.
Qed.

End BuilderFacts.

(** ** [Rewrite] on a launch with [_tpu_replicate] *)

Section RewriteFacts.
Context {C : Collaborators} {P : Serializers}.

(** The pairs the loop over the compilation results replaces: the output of
    every [TF::TPUCompilationResultOp] of the block, by [status]. *)
Definition compilationResultPairs (ops : list Operation) (status : Value)
  : list (Value * Value) :=
  flat_map (fun op => if isa kTPUCompilationResultOp op
                      then match getResult op 0 with
                           | Some output => [(output, status)]
                           | None => []
                           end
                      else []) ops.

Lemma replaceValues_app (a b : list (Value * Value)) (v : Value) :
  replaceValues (a ++ b) v = replaceValues b (replaceValues a v).
Proof.
  revert v. induction a as [|[from to] a IH]; intros v; simpl; [reflexivity|]. apply IH.
Qed.

Lemma resolveCompilationResults_subst (compile_op : Operation) (status : Value) :
  getResult compile_op 0 = Some status ->
  forall ops focus focus',
    resolveCompilationResults ops compile_op focus = Some focus' ->
    focus' = substFocus (replaceValues (compilationResultPairs ops status)) focus.
Proof.
  intros Hs. induction ops as [|op ops IH]; intros focus focus' H; simpl in *.
  - inversion H. symmetry. apply substFocus_id.
  - destruct (isa kTPUCompilationResultOp op).
    + destruct (getResult op 0) as [output|]; [|discriminate]. rewrite Hs in H.
      apply IH in H. subst focus'.
      change (replaceAllUsesWith output status focus)
        with (substFocus (replaceValue output status) focus).
      rewrite substFocus_compose. reflexivity.
    + simpl. apply IH. exact H.
Qed.

(** A value that is not the output of a compilation result is left alone;
    the output of one becomes [status]. *)
Lemma replaceValues_other (pairs : list (Value * Value)) (v : Value) :
  (forall p, In p pairs -> fst p <> v) -> replaceValues pairs v = v.
Proof.
  induction pairs as [|[from to] rest IH]; simpl; intros H; [reflexivity|].
  unfold replaceValue. destruct (Value_eq_dec v from) as [E|E].
  - exfalso. apply (H (from, to)); auto.
  - apply IH. intros p Hp. apply H. auto.
Qed.

Lemma replaceValues_to (pairs : list (Value * Value)) (status : Value) :
  (forall p, In p pairs -> snd p = status) ->
  replaceValues pairs status = status
  /\ forall v, (exists p, In p pairs /\ fst p = v) -> replaceValues pairs v = status.
Proof.
  induction pairs as [|[from to] rest IH]; simpl; intros H.
  - split; [reflexivity|]. intros v (p & [] & _).
  - assert (Hto : to = status) by (apply (H (from, to)); auto). subst to.
    destruct IH as (IH1 & IH2); [intros p Hp; apply H; auto|].
    split.
    + unfold replaceValue. destruct (Value_eq_dec status from); exact IH1.
    + intros v (p & [<-|Hp] & E); simpl in E.
      * subst v. unfold replaceValue. destruct (Value_eq_dec from from); [exact IH1|].
        congruence.
      * unfold replaceValue. destruct (Value_eq_dec v from); [exact IH1|].
        apply IH2. eauto.
Qed.

(** A value becomes [status] or is no left side of a pair and stays. *)
Lemma replaceValues_status_or_same (pairs : list (Value * Value)) (status v : Value) :
  (forall p, In p pairs -> snd p = status) ->
  replaceValues pairs v = status
  \/ (replaceValues pairs v = v /\ forall p, In p pairs -> fst p <> v).
Proof.
  revert v. induction pairs as [|[from to] rest IH]; simpl; intros v H.
  - right. split; [reflexivity|]. intros p [].
  - assert (Hto : to = status) by (apply (H (from, to)); auto). subst to.
    assert (Hrest : forall p, In p rest -> snd p = status) by (intros p Hp; apply H; auto).
    unfold replaceValue. destruct (Value_eq_dec v from) as [E|E].
    + left. apply (proj1 (replaceValues_to rest status Hrest)).
    + destruct (IH v Hrest) as [L|(R1 & R2)]; [left; exact L|].
      right. split; [exact R1|]. intros p [<-|Hp]; simpl; [congruence|]. apply R2. exact Hp.
Qed.

Lemma compilationResultPairs_snd (ops : list Operation) (status : Value) :
  forall p, In p (compilationResultPairs ops status) -> snd p = status.
Proof.
  unfold compilationResultPairs. intros p Hp. apply in_flat_map in Hp.
  destruct Hp as (op & _ & Hp). destruct (isa kTPUCompilationResultOp op); [|destruct Hp].
  destruct (getResult op 0); [|destruct Hp]. destruct Hp as [<-|[]]. reflexivity.
Qed.

Lemma compilationResultPairs_fst (ops : list Operation) (status : Value) (v : Value) :
  (exists p, In p (compilationResultPairs ops status) /\ fst p = v)
  <-> exists op, In op ops /\ isa kTPUCompilationResultOp op = true
                 /\ getResult op 0 = Some v.
Proof.
  unfold compilationResultPairs. split.
  - intros (p & Hp & E). apply in_flat_map in Hp. destruct Hp as (op & Hop & Hp).
    exists op. destruct (isa kTPUCompilationResultOp op); [|destruct Hp].
    destruct (getResult op 0) as [output|]; [|destruct Hp].
    destruct Hp as [<-|[]]. simpl in E. subst. auto.
  - intros (op & Hop & Hi & Hr). exists (v, status). split; [|reflexivity].
    apply in_flat_map. exists op. rewrite Hi, Hr. simpl. auto.
Qed.

(** The results of an operation. *)
Lemma resultsFrom_spec (owner : nat) (types : list mlirType) :
  forall start i,
    nth_error (resultsFrom owner start types) i
    = option_map (OpResult owner (start + i)) (nth_error types i).
Proof.
  induction types as [|t types IH]; intros start i; simpl.
  - destruct i; reflexivity.
  - destruct i as [|i]; simpl; [rewrite Nat.add_0_r; reflexivity|].
    rewrite IH. replace (S start + i) with (start + S i) by lia. reflexivity.
Qed.

Lemma getResult_spec (op : Operation) (i : nat) :
  getResult op i = option_map (OpResult (opId op) i) (nth_error (getResultTypes op) i).
Proof. unfold getResult, getResults. rewrite resultsFrom_spec. reflexivity. Qed.

Lemma getResult_owner (op : Operation) (i : nat) (v : Value) :
  getResult op i = Some v -> exists t, v = OpResult (opId op) i t.
Proof.
  rewrite getResult_spec. destruct (nth_error (getResultTypes op) i) as [t|]; [|discriminate].
  simpl. intros H. inversion H. eauto.
Qed.

(** [BuildParallelExecuteOp] reads result [1 + core_id] of the compile
    wrapper for every core; the wrapper has the two results of the compile
    node, so there is no such result from the second core on. *)
Lemma parallelRegionsLoop_undefined (compile_op launch_func : Operation)
      (input_list : list (list Value)) :
  forall remaining core_id next regions,
    0 < remaining ->
    getNumResults compile_op <= core_id + remaining ->
    parallelRegionsLoop remaining core_id compile_op launch_func input_list next regions
    = None.
Proof.
  induction remaining as [|remaining IH]; intros core_id next regions Hpos Hn; [lia|].
  cbn [parallelRegionsLoop].
  destruct (nth_error input_list core_id) as [inputs|]; [|reflexivity].
  destruct (getResult compile_op (1 + core_id)) as [program|] eqn:Hr; [|reflexivity].
  rewrite getResult_spec in Hr.
  destruct (nth_error (getResultTypes compile_op) (1 + core_id)) eqn:Ht; [|discriminate].
  assert (Hlt : 1 + core_id < getNumResults compile_op).
  { apply nth_error_Some. unfold getNumResults. congruence. }
  unfold BuildExecuteOp, createOperation, WrapOpInLaunch. cbn [nextId insertionBlock].
  apply IH; lia.
Qed.

Lemma BuildParallelExecuteOp_undefined (cores : Z) (compile_op launch_func : Operation)
      (builder : OpBuilder) :
  (1 < cores)%Z ->
  getNumResults compile_op = 2 ->
  BuildParallelExecuteOp cores compile_op launch_func builder = None.
Proof.
  intros Hc Hn. unfold BuildParallelExecuteOp.
  destruct (negb _); [reflexivity|].
  rewrite parallelRegionsLoop_undefined; [reflexivity|lia|lia].
Qed.

End RewriteFacts.

Section RewriteSingle.
Context {C : Collaborators} {P : Serializers}.

(** The block a successful [Rewrite] leaves, for a launch on one logical
    core: the probes, the wrapped compile node, the wrapped assert and the
    wrapped execute node follow the operations that preceded the launch;
    the uses of the compilation results and of the results of the launch
    are rewritten throughout; the launch is gone. *)
Definition rewritten (focus : BlockFocus) (launch_func : Operation)
           (compilation_device txt_metadata txt_module device : string)
           (parent : option Operation) : BlockFocus :=
  let probes :=
    shapeProbes (freshId focus) (filter dynamicShape (getOperands launch_func)) in
  let c := freshId focus + List.length probes in
  let compile_op :=
    compileOperation c (flat_map getResults probes) txt_metadata txt_module in
  let compile_launch := launchAround (S c) compile_op compilation_device in
  let status := OpResult (S c) 0 stringTensor in
  let program := OpResult (S c) 1 stringTensor in
  let before := (opsBefore focus ++ probes) ++ [compile_launch] in
  let s1 :=
    replaceValues
      (compilationResultPairs (before ++ [launch_func] ++ opsAfter focus) status) in
  let assert_op :=
    mkOperation (S (S (S c))) kTPUCompileSucceededAssertOp [status] [] [] [] in
  let assert_launch := launchAround (S (S (S (S c)))) assert_op compilation_device in
  let execute_op :=
    mkOperation (S (S (S (S (S (S c)))))) kTPUExecuteOp
                (map s1 (getOperands launch_func) ++ [program])
                (getResultTypes launch_func) [] [] in
  let execute_launch := launchAround (S (S (S (S (S (S (S c))))))) execute_op device in
  let s2 := replaceValues (combine (getResults launch_func) (getResults execute_launch)) in
  mkFocus (S (S (S (S (S (S (S (S (S c)))))))))
          parent
          (map (mapOperands s2)
               (map (mapOperands s1) before ++ [assert_launch; execute_launch]))
          None
          (map (mapOperands s2) (map (mapOperands s1) (opsAfter focus))).

(** The device of the execute wrapper and the parent operation, as
    [AssignDevicesToReplicatedExecute] leaves them. *)
Definition assigned (execution_devices : list (list string)) (parent : option Operation)
           (device : string) (parent' : option Operation) : Prop :=
  match asReplicate parent with
  | Some replicate =>
      exists devices,
        fronts execution_devices = Some devices
        /\ device = GetDeviceAliasForLogicalCore 0
        /\ parent' = Some (setAttr replicate kDevicesAttr
                                   (DictionaryAttr
                                      [(device, ArrayAttr (map StringAttr devices))]))
  | None =>
      exists row,
        hd_error execution_devices = Some row
        /\ hd_error row = Some device
        /\ parent' = parent
  end.

Lemma idsBelow_before (focus : BlockFocus) (operands : list Value) (op : Operation) :
  idsBelow (freshId focus) (opsBefore focus) ->
  opId op = freshId focus + List.length operands ->
  idsBelow (opId op) (opsBefore focus ++ shapeProbes (freshId focus) operands).
Proof.
  intros H E. apply Forall_app. split.
  - eapply idsBelow_weaken; [|exact H]. lia.
  - apply Forall_forall. intros o Ho. apply shapeProbes_ids in Ho. lia.
Qed.

(** A successful [Rewrite] of a launch that carries [_tpu_replicate] went
    through the single-core branch, and leaves [rewritten]. *)
Lemma Rewrite_success (fuel : nat) (up : BlockFocus -> ModuleOp) (devices : list ParsedName)
      (focus focus' : BlockFocus) (launch_func : Operation) :
  focused focus = Some launch_func ->
  getAttrOfType dyn_cast_StringAttr launch_func kTPUReplicateAttr <> None ->
  idsBelow (freshId focus) (opsBefore focus) ->
  Rewrite fuel up devices focus = Some (success, focus') ->
  exists replicas cores compilation_device execution_devices xla metadata txt_module
         device parent',
    numReplicasOf (asReplicate (parentOp focus)) = Some replicas
    /\ getAttrOfType dyn_cast_IntegerAttr launch_func kNumCoresPerReplicaAttr = Some cores
    /\ (to_int cores <= 1)%Z
    /\ GetTPUCompilationAndExecutionDevices devices replicas (to_int cores) "" []
       = inr (compilation_device, execution_devices, xla)
    /\ SetMetadataProtoFromLaunchFuncOp launch_func replicas (to_int cores) xla emptyMetadata
       = inr metadata
    /\ assigned execution_devices (parentOp focus) device parent'
    /\ focus' = rewritten focus launch_func compilation_device (serialized metadata)
                          txt_module device parent'.
Proof.
  intros Hf Hm Hfresh. unfold Rewrite. rewrite Hf.
  destruct (getAttrOfType dyn_cast_StringAttr launch_func kTPUReplicateAttr) as [marker|];
    [clear Hm|contradiction].
  destruct (numReplicasOf (asReplicate (parentOp focus))) as [replicas|] eqn:Hreplicas;
    [|discriminate].
  destruct (getAttrOfType dyn_cast_IntegerAttr launch_func kNumCoresPerReplicaAttr)
    as [cores|] eqn:Hattr; [|discriminate].
  destruct (GetTPUCompilationAndExecutionDevices devices replicas (to_int cores) "" [])
    as [message|[[compilation_device execution_devices] xla]] eqn:Hassignment;
    [discriminate|].
  destruct (BuildCompileOp _ _ _ _ _ _ _ _) as [[[d|compile_launch] builder1]|] eqn:Hb;
    try discriminate.
  apply BuildCompileOp_built in Hb. destruct Hb as (metadata & txt_module & Hmeta & Hb).
  cbv zeta in Hb. destruct Hb as (Hcl & Hb1).
  cbn [builderAt nextId insertionBlock] in Hcl, Hb1.
  set (probes := shapeProbes (freshId focus) (filter dynamicShape (getOperands launch_func)))
    in *.
  set (c := freshId focus + List.length probes) in *.
  set (compile_op := compileOperation c (flat_map getResults probes) (serialized metadata)
                                      txt_module) in *.
  change (opId compile_op) with c in Hcl, Hb1. subst compile_launch.
  set (compile_launch := launchAround (S c) compile_op compilation_device) in *.
  assert (Hrm : removeOp c (opsBefore focus ++ probes ++ [compile_op])
                = opsBefore focus ++ probes).
  { rewrite app_assoc. apply (removeOp_last _ compile_op). apply idsBelow_before; auto.
    unfold compile_op, c, probes. simpl. rewrite shapeProbes_length. reflexivity. }
  rewrite Hrm in Hb1. clear Hrm. subst builder1.
  assert (Hstatus : getResult compile_launch 0 = Some (OpResult (S c) 0 stringTensor))
    by reflexivity.
  assert (Hprogram : getResult compile_launch 1 = Some (OpResult (S c) 1 stringTensor))
    by reflexivity.
  destruct (resolveCompilationResults _ compile_launch _) as [focus2|] eqn:Hres;
    [|discriminate].
  apply (resolveCompilationResults_subst _ _ Hstatus) in Hres. subst focus2.
  unfold BuildTPUCompileSucceededAssertOp, blockOps, substFocus, withBuilder, builderAt,
    createOperation.
  cbn [opsBefore focused opsAfter insertionBlock nextId freshId parentOp fst snd].
  rewrite Hstatus, Hf. cbn [option_map]. rewrite WrapOpInLaunch_created.
  cbn [opsBefore focused opsAfter insertionBlock nextId freshId parentOp fst snd].
  set (before := (opsBefore focus ++ probes) ++ [compile_launch]) in *.
  set (s1 := replaceValues
               (compilationResultPairs (before ++ [launch_func] ++ opsAfter focus)
                                       (OpResult (S c) 0 stringTensor))) in *.
  assert (Hbelow : idsBelow (S (S (S c))) (map (mapOperands s1) before)).
  { apply idsBelow_map. unfold before. apply Forall_app. split.
    - eapply idsBelow_weaken; [|apply (idsBelow_before focus _ compile_op Hfresh)].
      + change (opId compile_op) with c. lia.
      + unfold compile_op, c, probes. simpl. rewrite shapeProbes_length. reflexivity.
    - constructor; [|constructor]. simpl. lia. }
  set (assert_op := mkOperation (S (S (S c))) kTPUCompileSucceededAssertOp
                                [OpResult (S c) 0 stringTensor] [] [] []) in *.
  rewrite (removeOp_last _ assert_op Hbelow).
  set (assert_launch := launchAround (S (S (S (S c)))) assert_op compilation_device) in *.
  destruct (1 <? to_int cores)%Z eqn:Hcores.
  { apply Z.ltb_lt in Hcores.
    rewrite BuildParallelExecuteOp_undefined; [discriminate|exact Hcores|].
    reflexivity. }
  apply Z.ltb_ge in Hcores. rewrite Hprogram.
  unfold BuildExecuteOp, createOperation.
  cbn [opsBefore focused opsAfter insertionBlock nextId freshId parentOp fst snd].
  rewrite mapOperands_getResults.
  assert (Eops : getOperands (mapOperands s1 launch_func) = map s1 (getOperands launch_func))
    by (destruct launch_func; reflexivity).
  assert (Etys : getResultTypes (mapOperands s1 launch_func) = getResultTypes launch_func)
    by (destruct launch_func; reflexivity).
  rewrite Eops, Etys.
  set (execute_op := mkOperation (S (S (S (S (S (S c)))))) kTPUExecuteOp
                                 (map s1 (getOperands launch_func)
                                  ++ [OpResult (S c) 1 stringTensor])
                                 (getResultTypes launch_func) [] []) in *.
  assert (Hbelow2 : idsBelow (opId execute_op)
                             (map (mapOperands s1) before ++ [assert_launch])).
  { apply Forall_app. split.
    - eapply idsBelow_weaken; [|exact Hbelow]. simpl. lia.
    - constructor; [|constructor]. simpl. lia. }
  unfold AssignDevicesToReplicatedExecute, assigned.
  destruct (asReplicate (parentOp focus)) as [replicate|].
  - destruct (fronts execution_devices) as [replicate_devices|] eqn:Hfronts;
      [|discriminate].
    rewrite WrapOpInLaunch_created. cbn [insertionBlock nextId].
    rewrite (removeOp_last _ execute_op Hbelow2).
    intros H. inversion H; subst focus'; clear H.
    exists replicas, cores, compilation_device, execution_devices, xla, metadata, txt_module.
    exists (GetDeviceAliasForLogicalCore 0).
    exists (Some (setAttr replicate kDevicesAttr
                          (DictionaryAttr
                             [(GetDeviceAliasForLogicalCore 0,
                               ArrayAttr (map StringAttr replicate_devices))]))).
    repeat split; try eassumption; try reflexivity.
    + exists replicate_devices. repeat split; auto.
    + rewrite replaceAllUsesWithAll_subst. unfold rewritten, substFocus, eraseFocused.
      cbn [opsBefore focused opsAfter freshId parentOp withBuilder withParent
           insertionBlock nextId].
      rewrite <- app_assoc. reflexivity.
  - destruct (hd_error execution_devices) as [row|] eqn:Hrow; [|discriminate].
    destruct (hd_error row) as [device|] eqn:Hdev; [|discriminate].
    rewrite WrapOpInLaunch_created. cbn [insertionBlock nextId].
    rewrite (removeOp_last _ execute_op Hbelow2).
    intros H. inversion H; subst focus'; clear H.
    exists replicas, cores, compilation_device, execution_devices, xla, metadata, txt_module.
    exists device, (parentOp focus). repeat split; try eassumption; try reflexivity.
    + exists row. repeat split; auto.
    + rewrite replaceAllUsesWithAll_subst. unfold rewritten, substFocus, eraseFocused.
      cbn [opsBefore focused opsAfter freshId parentOp withBuilder withParent
           insertionBlock nextId].
      rewrite <- app_assoc. reflexivity.
Qed.

End RewriteSingle.

Section RewriteClaims.
Context {C : Collaborators} {P : Serializers}.

Lemma getResults_length (op : Operation) : List.length (getResults op) = getNumResults op.
Proof.
  unfold getResults, getNumResults. generalize 0 as start.
  induction (getResultTypes op) as [|t ts IH]; intros start; simpl; [reflexivity|].
  f_equal. apply IH.
Qed.

(** C3 (confirmed).  A compile node that [BuildCompileOp] has built: its
    operands are the results of one [tf.Shape] probe for each operand of the
    launch whose recorded shape is not fully defined, in operand order, and
    of nothing else; [NumDynamicShapes] is the number of those probes; and
    its results are two string tensors, the status and the program key.  The
    node sits with its terminator in the wrapper that is returned, and the
    probes are in the block. *)
Theorem compile_node_operands (fuel : nat) (parentModule : list Operation -> ModuleOp)
        (launch_func : Operation) (replicas cores : Z) (compilation_device : string)
        (xla : option DeviceAssignmentProto) (builder builder' : OpBuilder)
        (launch : Operation) :
  BuildCompileOp fuel parentModule launch_func replicas cores compilation_device xla builder
  = Some (inr launch, builder') ->
  exists compile_op return_op probes,
    opName launch = kLaunchOp
    /\ getRegions launch = [[compile_op; return_op]]
    /\ opName compile_op = kTPUCompileMlirOp
    /\ Forall2 (fun operand probe =>
                  opName probe = kShapeOp /\ getOperands probe = [operand]
                  /\ getResults probe
                     = [OpResult (opId probe) 0 (RankedTensorType [(-1)%Z] "i64")])
               (filter dynamicShape (getOperands launch_func)) probes
    /\ getOperands compile_op = flat_map getResults probes
    /\ List.length (getOperands compile_op)
       = List.length (filter dynamicShape (getOperands launch_func))
    /\ getAttr compile_op "NumDynamicShapes"
       = Some (IntegerAttr (Z.of_nat (List.length probes)))
    /\ getResultTypes compile_op = [stringTensor; stringTensor]
    /\ getNumResults launch = 2
    /\ (forall probe, In probe probes -> In probe (insertionBlock builder')).
Proof.
  intros H. apply BuildCompileOp_built in H.
  destruct H as (metadata & txt_module & _ & H). cbv zeta in H. destruct H as (-> & ->).
  set (probes := shapeProbes (nextId builder)
                             (filter dynamicShape (getOperands launch_func))).
  eexists. eexists. exists probes. split; [reflexivity|]. split; [reflexivity|].
  split; [reflexivity|]. split; [apply shapeProbes_probe|].
  split; [reflexivity|]. split; [apply shapeProbes_results|].
  split.
  { unfold compileOperation, getAttr. simpl. unfold probes.
    rewrite shapeProbes_results, shapeProbes_length. reflexivity. }
  split; [reflexivity|]. split; [reflexivity|].
  intros probe Hp. cbn [insertionBlock]. apply in_or_app. left.
  unfold removeOp. apply filter_In. split.
  - apply in_or_app. right. apply in_or_app. left. exact Hp.
  - apply shapeProbes_ids in Hp. unfold compileOperation. cbn [opId].
    unfold probes. rewrite shapeProbes_length. apply negb_true_iff. apply Nat.eqb_neq. lia.
Qed.

(** *** Counting what a rewrite created *)

Lemma countIn_shapeProbes (name : string) (operands : list Value) :
  String.eqb kShapeOp name = false ->
  forall next, countIn name (shapeProbes next operands) = 0.
Proof.
  intros H. unfold countIn.
  induction operands as [|v rest IH]; intros next; simpl; [reflexivity|].
  unfold isa. cbn [opName]. rewrite H. simpl. apply IH.
Qed.

Lemma combine_results_fst (a b : nat) (types : list mlirType) :
  forall start p,
    In p (combine (resultsFrom a start types) (resultsFrom b start types)) ->
    exists i t, start <= i /\ fst p = OpResult a i t.
Proof.
  induction types as [|u types IH]; simpl; intros start p H; [destruct H|].
  destruct H as [<-|H].
  - exists start, u. auto.
  - apply IH in H. destruct H as (i & t & Hi & E). exists i, t. split; [lia|exact E].
Qed.

(** The results of the launch become the results of the execute wrapper. *)
Lemma replaceValues_results (a b : nat) (types : list mlirType) :
  a <> b ->
  forall start i t,
    nth_error types i = Some t ->
    replaceValues (combine (resultsFrom a start types) (resultsFrom b start types))
                  (OpResult a (start + i) t)
    = OpResult b (start + i) t.
Proof.
  intros Hab. induction types as [|u types IH]; intros start i t Ht.
  - destruct i; discriminate.
  - simpl. unfold replaceValue at 1. destruct i as [|i]; simpl in Ht.
    + inversion Ht; subst u. rewrite Nat.add_0_r.
      destruct (Value_eq_dec (OpResult a start t) (OpResult a start t)); [|congruence].
      apply replaceValues_other. intros p Hp E.
      apply combine_results_fst in Hp. destruct Hp as (k & w & _ & Hk).
      rewrite E in Hk. inversion Hk. congruence.
    + destruct (Value_eq_dec (OpResult a (start + S i) t) (OpResult a start u)) as [E|E].
      * inversion E. lia.
      * replace (start + S i) with (S start + i) by lia. apply IH. exact Ht.
Qed.

(** A value stays or becomes a result of the wrapper. *)
Lemma replaceValues_results_image (a b : nat) (types : list mlirType) :
  a <> b ->
  forall start v,
    replaceValues (combine (resultsFrom a start types) (resultsFrom b start types)) v = v
    \/ exists i t,
        replaceValues (combine (resultsFrom a start types) (resultsFrom b start types)) v
        = OpResult b i t.
Proof.
  intros Hab. induction types as [|u types IH]; intros start v; simpl; [left; reflexivity|].
  unfold replaceValue. destruct (Value_eq_dec v (OpResult a start u)) as [E|E].
  - right. exists start, u. apply replaceValues_other. intros p Hp Ep.
    apply combine_results_fst in Hp. destruct Hp as (k & w & _ & Hk).
    rewrite Ep in Hk. inversion Hk. congruence.
  - apply IH.
Qed.

Lemma replaceValues_results_other (a b : nat) (types : list mlirType) (v : Value) :
  (forall i t, v <> OpResult a i t) ->
  forall start,
    replaceValues (combine (resultsFrom a start types) (resultsFrom b start types)) v = v.
Proof.
  intros Hv start. apply replaceValues_other. intros p Hp E.
  apply combine_results_fst in Hp. destruct Hp as (k & w & _ & Hk).
  rewrite E in Hk. apply (Hv k w). exact Hk.
Qed.

(** *** The parts of [rewritten] *)

Section Parts.
Variables (focus : BlockFocus) (launch_func : Operation).
Variables (compilation_device txt_metadata txt_module device : string).

Definition newProbes : list Operation :=
  shapeProbes (freshId focus) (filter dynamicShape (getOperands launch_func)).
Definition newCompileId : nat := freshId focus + List.length newProbes.
Definition newCompileOp : Operation :=
  compileOperation newCompileId (flat_map getResults newProbes) txt_metadata txt_module.
Definition newCompileLaunch : Operation :=
  launchAround (S newCompileId) newCompileOp compilation_device.
Definition compileStatus : Value := OpResult (S newCompileId) 0 stringTensor.
Definition compileProgram : Value := OpResult (S newCompileId) 1 stringTensor.

(** The substitution of the loop over the compilation results. *)
Definition resolveSubst : Value -> Value :=
  replaceValues
    (compilationResultPairs
       (((opsBefore focus ++ newProbes) ++ [newCompileLaunch])
        ++ [launch_func] ++ opsAfter focus)
       compileStatus).

Definition newAssertLaunch : Operation :=
  launchAround (S (S (S (S newCompileId))))
               (mkOperation (S (S (S newCompileId))) kTPUCompileSucceededAssertOp
                            [compileStatus] [] [] [])
               compilation_device.
Definition newExecuteOp : Operation :=
  mkOperation (S (S (S (S (S (S newCompileId)))))) kTPUExecuteOp
              (map resolveSubst (getOperands launch_func) ++ [compileProgram])
              (getResultTypes launch_func) [] [].
Definition newExecuteLaunch : Operation :=
  launchAround (S (S (S (S (S (S (S newCompileId))))))) newExecuteOp device.

(** The substitution of [launch_func.replaceAllUsesWith(launch_op)]. *)
Definition remapSubst : Value -> Value :=
  replaceValues (combine (getResults launch_func) (getResults newExecuteLaunch)).

(** What the rewrite does to a value in use, and what it adds to the
    block. *)
Definition rewriteSubst (v : Value) : Value := remapSubst (resolveSubst v).
Definition createdOps : list Operation :=
  map (mapOperands remapSubst)
      (map (mapOperands resolveSubst) (newProbes ++ [newCompileLaunch])
       ++ [newAssertLaunch; newExecuteLaunch]).

Lemma rewritten_parts (parent' : option Operation) :
  rewritten focus launch_func compilation_device txt_metadata txt_module device parent'
  = mkFocus (S (S (S (S (S (S (S (S (S newCompileId))))))))) parent'
            (map (mapOperands rewriteSubst) (opsBefore focus) ++ createdOps)
            None
            (map (mapOperands rewriteSubst) (opsAfter focus)).
Proof.
  unfold rewritten. cbv zeta.
  fold newProbes. fold newCompileId. fold newCompileOp. fold newCompileLaunch.
  fold compileStatus. fold compileProgram. fold resolveSubst. fold newAssertLaunch.
  fold newExecuteOp. fold newExecuteLaunch. fold remapSubst.
  unfold createdOps. f_equal.
  - rewrite <- app_assoc, !map_app, <- !app_assoc. f_equal.
    rewrite map_map. apply map_ext. intros op. rewrite mapOperands_compose. reflexivity.
  - rewrite map_map. apply map_ext. intros op. rewrite mapOperands_compose. reflexivity.
Qed.

(** One compile node, one assert and one execute node are created, and no
    launch of a function and no compilation result. *)
Lemma createdOps_counts :
  countIn kTPUCompileMlirOp createdOps = 1
  /\ countIn kTPUCompileSucceededAssertOp createdOps = 1
  /\ countIn kTPUExecuteOp createdOps = 1
  /\ countIn kLaunchFuncOp createdOps = 0
  /\ countIn kTPUCompilationResultOp createdOps = 0.
Proof.
  unfold createdOps.
  repeat split;
    rewrite countIn_mapOperands, countIn_app, countIn_mapOperands, countIn_app;
    unfold newProbes; rewrite countIn_shapeProbes by reflexivity; reflexivity.
Qed.

(** The execute node has the result types of the launch, and so has its
    wrapper, which carries the device. *)
Lemma newExecuteLaunch_created :
  In (mapOperands remapSubst newExecuteLaunch) createdOps
  /\ opName (mapOperands remapSubst newExecuteLaunch) = kLaunchOp
  /\ getAttr (mapOperands remapSubst newExecuteLaunch) kDeviceAttr = Some (StringAttr device)
  /\ getResultTypes (mapOperands remapSubst newExecuteLaunch) = getResultTypes launch_func
  /\ exists execute_op return_op,
      getRegions (mapOperands remapSubst newExecuteLaunch) = [[execute_op; return_op]]
      /\ opName execute_op = kTPUExecuteOp
      /\ getResultTypes execute_op = getResultTypes launch_func
      /\ getNumResults execute_op = getNumResults launch_func
      /\ opName return_op = kReturnOp.
Proof.
  split.
  - unfold createdOps. apply in_map. apply in_or_app. right. simpl. auto.
  - repeat split. eexists. eexists. repeat split.
Qed.

Definition finalCompileLaunch : Operation :=
  mapOperands remapSubst (mapOperands resolveSubst newCompileLaunch).

Lemma newCompileLaunch_created :
  In finalCompileLaunch createdOps
  /\ opName finalCompileLaunch = kLaunchOp
  /\ getAttr finalCompileLaunch kDeviceAttr = Some (StringAttr compilation_device)
  /\ getResult finalCompileLaunch 0 = Some compileStatus
  /\ getNumResults finalCompileLaunch = 2
  /\ countOps kTPUCompileMlirOp finalCompileLaunch = 1.
Proof.
  unfold finalCompileLaunch. split.
  - unfold createdOps. apply in_map. apply in_or_app. left.
    apply in_map. apply in_or_app. right. simpl. auto.
  - repeat split.
Qed.

Hypothesis launch_is_older : opId launch_func < freshId focus.

(** Every use of result [i] of the launch becomes a use of result [i] of
    the execute wrapper, provided no compilation result of the block has the
    identity of the launch. *)
Lemma rewriteSubst_results (i : nat) (v : Value) :
  (forall op, In op (blockOps focus) -> isa kTPUCompilationResultOp op = true ->
              opId op <> opId launch_func) ->
  focused focus = Some launch_func ->
  getResult launch_func i = Some v ->
  getResult (mapOperands remapSubst newExecuteLaunch) i = Some (rewriteSubst v)
  /\ exists t, v = OpResult (opId launch_func) i t
               /\ rewriteSubst v = OpResult (opId newExecuteLaunch) i t.
Proof.
  intros Huniq Hf Hv. rewrite getResult_spec in Hv.
  destruct (nth_error (getResultTypes launch_func) i) as [t|] eqn:Ht; [|discriminate].
  simpl in Hv. inversion Hv; subst v. clear Hv.
  assert (E1 : resolveSubst (OpResult (opId launch_func) i t)
               = OpResult (opId launch_func) i t).
  { apply replaceValues_other. intros p Hp E.
    assert (X : exists q, In q (compilationResultPairs
                                  (((opsBefore focus ++ newProbes) ++ [newCompileLaunch])
                                   ++ [launch_func] ++ opsAfter focus) compileStatus)
                          /\ fst q = OpResult (opId launch_func) i t) by eauto.
    apply compilationResultPairs_fst in X. destruct X as (op & Hop & Hi & Hr).
    apply getResult_owner in Hr. destruct Hr as (u & Hu). injection Hu as Hid _ _.
    rewrite <- !app_assoc in Hop. apply in_app_or in Hop. destruct Hop as [Hop|Hop].
    - apply (Huniq op); [|exact Hi|congruence]. unfold blockOps. apply in_or_app. auto.
    - apply in_app_or in Hop. destruct Hop as [Hop|Hop].
      + apply shapeProbes_ids in Hop. lia.
      + destruct Hop as [<-|Hop]; [simpl in Hid; unfold newCompileId in Hid; lia|].
        apply (Huniq op); [|exact Hi|congruence].
        unfold blockOps. rewrite Hf. apply in_or_app. auto. }
  assert (E2 : remapSubst (OpResult (opId launch_func) i t)
               = OpResult (opId newExecuteLaunch) i t).
  { unfold remapSubst, getResults.
    change (getResultTypes newExecuteLaunch) with (getResultTypes launch_func).
    assert (Hne : opId launch_func <> opId newExecuteLaunch)
      by (simpl; unfold newCompileId; lia).
    exact (replaceValues_results (opId launch_func) (opId newExecuteLaunch)
                                 (getResultTypes launch_func) Hne 0 i t Ht). }
  unfold rewriteSubst. rewrite E1, E2. split.
  - rewrite getResult_spec. rewrite mapOperands_opId.
    change (getResultTypes (mapOperands remapSubst newExecuteLaunch))
      with (getResultTypes launch_func).
    rewrite Ht. reflexivity.
  - exists t. auto.
Qed.

(** Every use of the output of a compilation result of the block becomes a
    use of the status result of the compile wrapper. *)
Lemma rewriteSubst_compilation_result (op : Operation) (output : Value) :
  focused focus = Some launch_func ->
  In op (blockOps focus) ->
  isa kTPUCompilationResultOp op = true ->
  getResult op 0 = Some output ->
  rewriteSubst output = compileStatus.
Proof.
  intros Hf Hop Hi Hr. unfold rewriteSubst.
  assert (E1 : resolveSubst output = compileStatus).
  { unfold resolveSubst.
    apply (proj2 (replaceValues_to _ _ (compilationResultPairs_snd _ _))).
    apply compilationResultPairs_fst. exists op. repeat split; auto.
    unfold blockOps in Hop. rewrite Hf in Hop. rewrite <- !app_assoc.
    apply in_app_or in Hop. apply in_or_app. destruct Hop as [Hop|Hop]; [auto|].
    right. apply in_or_app. right. simpl. right. exact Hop. }
  rewrite E1. unfold remapSubst, getResults.
  change (getResultTypes newExecuteLaunch) with (getResultTypes launch_func).
  apply replaceValues_results_other. intros i t E. injection E as Hid _ _.
  unfold newCompileId in Hid. lia.
Qed.

(** No operand of the rewritten block is the output of a compilation
    result of the block. *)
Lemma no_use_of_compilation_result (op : Operation) (output : Value)
      (parent' : option Operation) :
  focused focus = Some launch_func ->
  In op (blockOps focus) ->
  opId op < freshId focus ->
  isa kTPUCompilationResultOp op = true ->
  getResult op 0 = Some output ->
  ~ In output
       (usesIn (blockOps (rewritten focus launch_func compilation_device txt_metadata
                                    txt_module device parent'))).
Proof.
  intros Hf Hop Hid Hi Hr.
  destruct (getResult_owner _ _ _ Hr) as (t & Ht).
  assert (Hfresh : forall n i u, freshId focus <= n -> OpResult n i u <> output).
  { intros n i u Hn E. rewrite Ht in E. inversion E. lia. }
  assert (Hstatus : compileStatus <> output)
    by (apply Hfresh; unfold newCompileId; lia).
  assert (Hpair : exists p, In p (compilationResultPairs
                                    (((opsBefore focus ++ newProbes) ++ [newCompileLaunch])
                                     ++ [launch_func] ++ opsAfter focus) compileStatus)
                            /\ fst p = output).
  { apply compilationResultPairs_fst. exists op. repeat split; auto.
    unfold blockOps in Hop. rewrite Hf in Hop. rewrite <- !app_assoc.
    apply in_app_or in Hop. apply in_or_app. destruct Hop as [Hop|Hop]; [auto|].
    right. apply in_or_app. right. simpl. right. exact Hop. }
  assert (Hresolve : forall v, resolveSubst v <> output).
  { intros v. unfold resolveSubst.
    destruct (replaceValues_status_or_same
                (compilationResultPairs
                   (((opsBefore focus ++ newProbes) ++ [newCompileLaunch])
                    ++ [launch_func] ++ opsAfter focus) compileStatus)
                compileStatus v (compilationResultPairs_snd _ _))
      as [E|(E & Hnot)]; rewrite E; [exact Hstatus|].
    intros Ev. destruct Hpair as (p & Hp & Efst). apply (Hnot p Hp). congruence. }
  assert (Hremap : forall y, y <> output -> remapSubst y <> output).
  { intros y Hy. unfold remapSubst, getResults.
    change (getResultTypes newExecuteLaunch) with (getResultTypes launch_func).
    assert (Hne : opId launch_func <> opId newExecuteLaunch)
      by (simpl; unfold newCompileId; lia).
    destruct (replaceValues_results_image _ _ (getResultTypes launch_func) Hne 0 y)
      as [E|(i & u & E)]; rewrite E; [exact Hy|].
    apply Hfresh. simpl. unfold newCompileId. lia. }
  assert (Hsubst : forall v, rewriteSubst v <> output)
    by (intros v; apply Hremap; apply Hresolve).
  rewrite rewritten_parts. unfold blockOps. cbn [opsBefore focused opsAfter].
  rewrite !usesIn_app, !usesIn_map. unfold createdOps.
  rewrite usesIn_map, usesIn_app, usesIn_map, map_app, map_map.
  intros Hin. repeat (apply in_app_or in Hin; destruct Hin as [Hin|Hin]).
  - apply in_map_iff in Hin. destruct Hin as (v & E & _). apply (Hsubst v E).
  - apply in_map_iff in Hin. destruct Hin as (v & E & _). apply (Hsubst v E).
  - apply in_map_iff in Hin. destruct Hin as (y & E & Hy). revert E. apply Hremap.
    simpl in Hy. rewrite !app_nil_r in Hy.
    destruct Hy as [<-|Hy]; [exact Hstatus|].
    apply in_app_or in Hy. destruct Hy as [Hy|Hy].
    + apply in_app_or in Hy. destruct Hy as [Hy|[<-|[]]].
      * apply in_map_iff in Hy. destruct Hy as (v & <- & _). apply Hresolve.
      * apply Hfresh. unfold newCompileId. lia.
    + unfold getResults in Hy. simpl in Hy.
      assert (X : forall types start, In y (resultsFrom (S (S (S (S (S (S newCompileId))))))
                                                  start types) -> y <> output).
      { induction types as [|u types IH]; simpl; intros start H; [destruct H|].
        destruct H as [<-|H]; [|eapply IH; exact H].
        apply Hfresh. unfold newCompileId. lia. }
      eapply X. exact Hy.
  - destruct Hin.
  - apply in_map_iff in Hin. destruct Hin as (v & E & _). apply (Hsubst v E).
Qed.

End Parts.

(** *** When [Rewrite] succeeds *)

Lemma resolveCompilationResults_runs (compile_op : Operation) (status : Value) :
  getResult compile_op 0 = Some status ->
  forall ops focus,
    (forall op, In op ops -> isa kTPUCompilationResultOp op = true ->
                getResult op 0 <> None) ->
    resolveCompilationResults ops compile_op focus
    = Some (substFocus (replaceValues (compilationResultPairs ops status)) focus).
Proof.
  intros Hs. induction ops as [|op ops IH]; intros focus Hall; simpl.
  - rewrite substFocus_id. reflexivity.
  - destruct (isa kTPUCompilationResultOp op) eqn:Hi.
    + destruct (getResult op 0) as [output|] eqn:Hr.
      * rewrite Hs, IH by (intros o Ho; apply Hall; simpl; auto).
        change (replaceAllUsesWith output status focus)
          with (substFocus (replaceValue output status) focus).
        rewrite substFocus_compose. reflexivity.
      * exfalso. apply (Hall op); simpl; auto.
    + simpl. apply IH. intros o Ho. apply Hall. simpl. auto.
Qed.

(** The closure of a function that may be renamed can be extracted. *)
Lemma EncapsulateFuncAndSerialize_runs (module : ModuleOp) (func : FuncOp) :
  getAttr module kVersionsAttr <> None ->
  lookupFunc (getBody module) (getName func) = Some func ->
  renamingIsSafe (getBody module) func ->
  exists fuel txt_module,
    EncapsulateFuncAndSerialize fuel module func = Some (module, inr txt_module).
Proof.
  intros Hv Hl Hs.
  destruct (encapsulateLoop_closure (getBody module) func Hl Hs)
    as (fuel & cloned & table & Hrun & _).
  exists fuel. unfold EncapsulateFuncAndSerialize, EncapsulateFunc.
  destruct (getAttr module kVersionsAttr) as [versions|]; [|contradiction].
  rewrite Hrun. eexists. reflexivity.
Qed.

(** Every compilation result of the block has its output. *)
Definition compilationResultsHaveOutput (block : list Operation) : Prop :=
  forall op, In op block -> isa kTPUCompilationResultOp op = true -> getResult op 0 <> None.

Lemma Rewrite_runs (fuel : nat) (up : BlockFocus -> ModuleOp) (devices : list ParsedName)
      (focus : BlockFocus) (launch_func : Operation) (replicas cores : Z)
      (compilation_device : string) (execution_devices : list (list string))
      (xla : option DeviceAssignmentProto) (metadata : TPUCompileMetadataProto)
      (func_attr : string) (func : FuncOp) (m : ModuleOp) (txt_module device : string)
      (parent' : option Operation) :
  focused focus = Some launch_func ->
  getAttrOfType dyn_cast_StringAttr launch_func kTPUReplicateAttr <> None ->
  idsBelow (freshId focus) (opsBefore focus) ->
  compilationResultsHaveOutput (blockOps focus) ->
  numReplicasOf (asReplicate (parentOp focus)) = Some replicas ->
  getAttrOfType dyn_cast_IntegerAttr launch_func kNumCoresPerReplicaAttr = Some cores ->
  (to_int cores <= 1)%Z ->
  GetTPUCompilationAndExecutionDevices devices replicas (to_int cores) "" []
  = inr (compilation_device, execution_devices, xla) ->
  SetMetadataProtoFromLaunchFuncOp launch_func replicas (to_int cores) xla emptyMetadata
  = inr metadata ->
  getAttrOfType dyn_cast_FlatSymbolRefAttr launch_func "func" = Some func_attr ->
  lookupFunc (getBody (up (withBefore focus (opsBefore focus ++ newProbes focus launch_func))))
             func_attr = Some func ->
  EncapsulateFuncAndSerialize
    fuel (up (withBefore focus (opsBefore focus ++ newProbes focus launch_func))) func
  = Some (m, inr txt_module) ->
  assigned execution_devices (parentOp focus) device parent' ->
  Rewrite fuel up devices focus
  = Some (success,
          rewritten focus launch_func compilation_device (serialized metadata) txt_module
                    device parent').
Proof.
  intros Hf Hm Hfresh Hout Hreplicas Hattr Hcores Hassignment Hmeta Hfunc Hlookup Henc Hassigned.
  unfold Rewrite. rewrite Hf.
  destruct (getAttrOfType dyn_cast_StringAttr launch_func kTPUReplicateAttr) as [marker|];
    [clear Hm|contradiction].
  rewrite Hreplicas, Hattr, Hassignment.
  unfold BuildCompileOp. rewrite Hmeta.
  destruct (SetMetadataProtoFromLaunchFuncOp_success _ _ _ _ _ Hmeta) as (Hd & _).
  rewrite shapeOpsLoop_run.
  2:{ intros i v Hv. simpl. apply (Forall2_describes_nth _ _ Hd).
      unfold getOperandTypes. rewrite nth_error_map, Hv. reflexivity. }
  rewrite Hfunc. cbn [insertionBlock nextId builderAt].
  fold (newProbes focus launch_func). rewrite Hlookup, Henc.
  unfold createOperation. cbn [insertionBlock nextId fst snd app].
  rewrite WrapOpInLaunch_created. cbn [insertionBlock nextId].
  set (probes := newProbes focus launch_func) in *.
  assert (Elen : List.length (filter dynamicShape (getOperands launch_func))
                 = List.length probes)
    by (unfold probes, newProbes; rewrite shapeProbes_length; reflexivity).
  rewrite Elen. set (c := freshId focus + List.length probes) in *.
  set (compile_op := mkOperation c kTPUCompileMlirOp _ _ _ _).
  assert (Hrm : removeOp (opId compile_op) ((opsBefore focus ++ probes) ++ [compile_op])
                = opsBefore focus ++ probes).
  { apply (removeOp_last _ compile_op). apply idsBelow_before; auto.
    unfold compile_op, c. simpl. rewrite Elen. reflexivity. }
  rewrite Hrm. clear Hrm. cbn [opId compile_op].
  set (compile_launch := launchAround (S c) compile_op compilation_device) in *.
  assert (Hstatus : getResult compile_launch 0 = Some (OpResult (S c) 0 stringTensor))
    by reflexivity.
  assert (Hprogram : getResult compile_launch 1 = Some (OpResult (S c) 1 stringTensor))
    by reflexivity.
  rewrite (resolveCompilationResults_runs _ _ Hstatus).
  2:{ unfold blockOps, withBuilder. cbn [opsBefore focused opsAfter insertionBlock].
      rewrite Hf. intros op Hop Hi. rewrite <- !app_assoc in Hop.
      apply in_app_or in Hop. destruct Hop as [Hop|Hop].
      - apply Hout; auto. unfold blockOps. apply in_or_app. auto.
      - apply in_app_or in Hop. destruct Hop as [Hop|Hop].
        + apply shapeProbes_name in Hop. unfold isa in Hi. rewrite Hop in Hi.
          discriminate.
        + destruct Hop as [<-|Hop]; [discriminate|].
          apply Hout; auto. unfold blockOps. rewrite Hf. apply in_or_app. auto. }
  unfold BuildTPUCompileSucceededAssertOp, blockOps, substFocus, withBuilder, builderAt,
    createOperation.
  cbn [opsBefore focused opsAfter insertionBlock nextId freshId parentOp fst snd].
  rewrite Hstatus, Hf. cbn [option_map]. rewrite WrapOpInLaunch_created.
  cbn [opsBefore focused opsAfter insertionBlock nextId freshId parentOp fst snd].
  set (before := (opsBefore focus ++ probes) ++ [compile_launch]) in *.
  set (s1 := replaceValues
               (compilationResultPairs (before ++ [launch_func] ++ opsAfter focus)
                                       (OpResult (S c) 0 stringTensor))) in *.
  assert (Hbelow : idsBelow (S (S (S c))) (map (mapOperands s1) before)).
  { apply idsBelow_map. unfold before. apply Forall_app. split.
    - eapply idsBelow_weaken; [|apply (idsBelow_before focus _ compile_op Hfresh)].
      + change (opId compile_op) with c. lia.
      + unfold compile_op, c. simpl. rewrite Elen. reflexivity.
    - constructor; [|constructor]. simpl. lia. }
  set (assert_op := mkOperation (S (S (S c))) kTPUCompileSucceededAssertOp
                                [OpResult (S c) 0 stringTensor] [] [] []) in *.
  rewrite (removeOp_last _ assert_op Hbelow).
  set (assert_launch := launchAround (S (S (S (S c)))) assert_op compilation_device) in *.
  apply Z.ltb_ge in Hcores. rewrite Hcores, Hprogram.
  unfold BuildExecuteOp, createOperation.
  cbn [opsBefore focused opsAfter insertionBlock nextId freshId parentOp fst snd].
  rewrite mapOperands_getResults.
  assert (Eops : getOperands (mapOperands s1 launch_func) = map s1 (getOperands launch_func))
    by (destruct launch_func; reflexivity).
  assert (Etys : getResultTypes (mapOperands s1 launch_func) = getResultTypes launch_func)
    by (destruct launch_func; reflexivity).
  rewrite Eops, Etys.
  set (execute_op := mkOperation (S (S (S (S (S (S c)))))) kTPUExecuteOp
                                 (map s1 (getOperands launch_func)
                                  ++ [OpResult (S c) 1 stringTensor])
                                 (getResultTypes launch_func) [] []) in *.
  assert (Hbelow2 : idsBelow (opId execute_op)
                             (map (mapOperands s1) before ++ [assert_launch])).
  { apply Forall_app. split.
    - eapply idsBelow_weaken; [|exact Hbelow]. simpl. lia.
    - constructor; [|constructor]. simpl. lia. }
  unfold AssignDevicesToReplicatedExecute. unfold assigned in Hassigned.
  destruct (asReplicate (parentOp focus)) as [replicate|].
  - destruct Hassigned as (replicate_devices & Hfronts & -> & ->). rewrite Hfronts.
    rewrite WrapOpInLaunch_created. cbn [insertionBlock nextId].
    rewrite (removeOp_last _ execute_op Hbelow2).
    rewrite replaceAllUsesWithAll_subst. unfold rewritten, substFocus, eraseFocused.
    cbn [opsBefore focused opsAfter freshId parentOp withBuilder withParent
         insertionBlock nextId].
    rewrite <- app_assoc. reflexivity.
  - destruct Hassigned as (row & Hrow & Hdev & ->). rewrite Hrow, Hdev.
    rewrite WrapOpInLaunch_created. cbn [insertionBlock nextId].
    rewrite (removeOp_last _ execute_op Hbelow2).
    rewrite replaceAllUsesWithAll_subst. unfold rewritten, substFocus, eraseFocused.
    cbn [opsBefore focused opsAfter freshId parentOp withBuilder withParent
         insertionBlock nextId].
    rewrite <- app_assoc. reflexivity.
Qed.

(** What a launch needs for [Rewrite] to go through: a resolved device
    assignment with a device to execute on, a descriptor that builds, a
    launched function whose closure can be extracted from the module as it
    stands once the probes are in, and compilation results with an output. *)
Definition readyToRewrite (up : BlockFocus -> ModuleOp) (devices : list ParsedName)
           (focus : BlockFocus) (launch_func : Operation) : Prop :=
  let module := up (withBefore focus (opsBefore focus ++ newProbes focus launch_func)) in
  exists replicas cores compilation_device execution_devices xla metadata func_attr func
         device parent',
    numReplicasOf (asReplicate (parentOp focus)) = Some replicas
    /\ getAttrOfType dyn_cast_IntegerAttr launch_func kNumCoresPerReplicaAttr = Some cores
    /\ (to_int cores <= 1)%Z
    /\ GetTPUCompilationAndExecutionDevices devices replicas (to_int cores) "" []
       = inr (compilation_device, execution_devices, xla)
    /\ assigned execution_devices (parentOp focus) device parent'
    /\ SetMetadataProtoFromLaunchFuncOp launch_func replicas (to_int cores) xla
                                        emptyMetadata = inr metadata
    /\ getAttrOfType dyn_cast_FlatSymbolRefAttr launch_func "func" = Some func_attr
    /\ lookupFunc (getBody module) func_attr = Some func
    /\ getAttr module kVersionsAttr <> None
    /\ renamingIsSafe (getBody module) func
    /\ compilationResultsHaveOutput (blockOps focus).

Lemma Rewrite_ready (up : BlockFocus -> ModuleOp) (devices : list ParsedName)
      (focus : BlockFocus) (launch_func : Operation) :
  focused focus = Some launch_func ->
  getAttrOfType dyn_cast_StringAttr launch_func kTPUReplicateAttr <> None ->
  idsBelow (freshId focus) (opsBefore focus) ->
  readyToRewrite up devices focus launch_func ->
  exists fuel focus', Rewrite fuel up devices focus = Some (success, focus').
Proof.
  intros Hf Hm Hfresh H. unfold readyToRewrite in H. cbv zeta in H.
  destruct H as (replicas & cores & cd & ed & xla & metadata & func_attr & func & device
                 & parent' & Hr & Hc & Hle & Ha & Hd & Hmeta & Hfunc & Hl & Hv & Hs & Ho).
  assert (Hl' : lookupFunc
                  (getBody (up (withBefore focus
                                           (opsBefore focus ++ newProbes focus launch_func))))
                  (getName func) = Some func).
  { destruct (lookupFunc_Some _ _ _ Hl) as (_ & <- & _). exact Hl. }
  destruct (EncapsulateFuncAndSerialize_runs _ func Hv Hl' Hs) as (fuel & txt & Henc).
  exists fuel. eexists.
  eapply (Rewrite_runs fuel up devices focus launch_func replicas cores cd ed xla metadata
                       func_attr func _ txt device parent'); eassumption.
Qed.

Lemma blockOps_rewritten_count (name : string) (focus : BlockFocus) (launch_func : Operation)
      (cd tm tmod device : string) (parent' : option Operation) :
  countIn name (blockOps (rewritten focus launch_func cd tm tmod device parent'))
  = countIn name (opsBefore focus ++ opsAfter focus)
    + countIn name (createdOps focus launch_func cd tm tmod device).
Proof.
  rewrite rewritten_parts. unfold blockOps. cbn [opsBefore focused opsAfter].
  rewrite !countIn_app, !countIn_mapOperands. simpl. lia.
Qed.

(** No value becomes a result of the launch when the results of the launch
    are replaced by those of the execute wrapper. *)
Lemma remapSubst_no_result (focus : BlockFocus) (launch_func : Operation)
      (cd tm tmod device : string) (i : nat) (v y : Value) :
  opId launch_func < freshId focus ->
  getResult launch_func i = Some v ->
  remapSubst focus launch_func cd tm tmod device y <> v.
Proof.
  intros Holder Hv.
  assert (Hne : opId launch_func <> opId (newExecuteLaunch focus launch_func cd tm tmod device))
    by (simpl; unfold newCompileId; lia).
  rewrite getResult_spec in Hv.
  destruct (nth_error (getResultTypes launch_func) i) as [t|] eqn:Ht; [|discriminate].
  simpl in Hv. inversion Hv; subst v. clear Hv.
  unfold remapSubst, getResults.
  change (getResultTypes (newExecuteLaunch focus launch_func cd tm tmod device))
    with (getResultTypes launch_func).
  destruct (Value_eq_dec y (OpResult (opId launch_func) i t)) as [E|E].
  - subst y.
    pose proof (replaceValues_results (opId launch_func) _ (getResultTypes launch_func) Hne
                                      0 i t Ht) as X.
    change (0 + i) with i in X. rewrite X. intros Y. inversion Y. congruence.
  - destruct (replaceValues_results_image (opId launch_func) _ (getResultTypes launch_func)
                                          Hne 0 y) as [X|(j & u & X)]; rewrite X.
    + exact E.
    + intros Y. inversion Y. congruence.
Qed.

(** No operand of the rewritten block is a result of the launch. *)
Lemma no_use_of_launch_result (focus : BlockFocus) (launch_func : Operation)
      (cd tm tmod device : string) (parent' : option Operation) (i : nat) (v : Value) :
  opId launch_func < freshId focus ->
  getResult launch_func i = Some v ->
  ~ In v (usesIn (blockOps (rewritten focus launch_func cd tm tmod device parent'))).
Proof.
  intros Holder Hv.
  pose proof (fun y => remapSubst_no_result focus launch_func cd tm tmod device i v y
                                            Holder Hv) as Hremap.
  rewrite rewritten_parts. unfold blockOps. cbn [opsBefore focused opsAfter].
  rewrite !usesIn_app, !usesIn_map. unfold createdOps. rewrite usesIn_map.
  intros Hin. repeat (apply in_app_or in Hin; destruct Hin as [Hin|Hin]).
  - apply in_map_iff in Hin. destruct Hin as (y & E & _). exact (Hremap _ E).
  - apply in_map_iff in Hin. destruct Hin as (y & E & _). exact (Hremap _ E).
  - destruct Hin.
  - apply in_map_iff in Hin. destruct Hin as (y & E & _). exact (Hremap _ E).
Qed.

(** The outputs the loop over the compilation results replaces are those of
    the compilation results of the block the launch was in. *)
Lemma resolveSubst_pairs (focus : BlockFocus) (launch_func : Operation)
      (cd tm tmod : string) (v : Value) :
  focused focus = Some launch_func ->
  (exists p,
      In p (compilationResultPairs
              (((opsBefore focus ++ newProbes focus launch_func)
                ++ [newCompileLaunch focus launch_func cd tm tmod])
               ++ [launch_func] ++ opsAfter focus)
              (compileStatus focus launch_func))
      /\ fst p = v)
  <-> exists op, In op (blockOps focus) /\ isa kTPUCompilationResultOp op = true
                 /\ getResult op 0 = Some v.
Proof.
  intros Hf. rewrite compilationResultPairs_fst. unfold blockOps. rewrite Hf. split.
  - intros (op & Hop & Hi & Hr). exists op. split; [|auto].
    rewrite <- !app_assoc in Hop. apply in_app_or in Hop. destruct Hop as [Hop|Hop].
    + apply in_or_app. auto.
    + apply in_app_or in Hop. destruct Hop as [Hop|Hop].
      * apply shapeProbes_name in Hop. unfold isa in Hi. rewrite Hop in Hi. discriminate.
      * destruct Hop as [<-|Hop]; [discriminate|]. apply in_or_app. auto.
  - intros (op & Hop & Hi & Hr). exists op. split; [|auto].
    rewrite <- !app_assoc. apply in_app_or in Hop. apply in_or_app.
    destruct Hop as [Hop|Hop]; [auto|].
    right. apply in_or_app. right. simpl. right. exact Hop.
Qed.

(** The loop over the compilation results turns the output of a compilation
    result of the block into the status and leaves every other value. *)
Lemma resolveSubst_spec (focus : BlockFocus) (launch_func : Operation)
      (cd tm tmod : string) :
  focused focus = Some launch_func ->
  (forall op output,
      In op (blockOps focus) -> isa kTPUCompilationResultOp op = true ->
      getResult op 0 = Some output ->
      resolveSubst focus launch_func cd tm tmod output = compileStatus focus launch_func)
  /\ (forall v,
         (forall op, In op (blockOps focus) -> isa kTPUCompilationResultOp op = true ->
                     getResult op 0 <> Some v) ->
         resolveSubst focus launch_func cd tm tmod v = v).
Proof.
  intros Hf. split.
  - intros op output Hop Hi Hr. unfold resolveSubst.
    apply (proj2 (replaceValues_to _ _ (compilationResultPairs_snd _ _))).
    apply (resolveSubst_pairs focus launch_func cd tm tmod output Hf). eauto.
  - intros v Hv. unfold resolveSubst. apply replaceValues_other. intros p Hp E.
    assert (X : exists op, In op (blockOps focus) /\ isa kTPUCompilationResultOp op = true
                           /\ getResult op 0 = Some v)
      by (apply (resolveSubst_pairs focus launch_func cd tm tmod v Hf); eauto).
    destruct X as (op & Hop & Hi & Hr). exact (Hv op Hop Hi Hr).
Qed.

(** [launch_func.replaceAllUsesWith(launch_op)] turns result [i] of the
    launch into result [i] of the execute wrapper and leaves every other
    value. *)
Lemma remapSubst_spec (focus : BlockFocus) (launch_func : Operation)
      (cd tm tmod device : string) :
  opId launch_func < freshId focus ->
  (forall i v,
      getResult launch_func i = Some v ->
      getResult (mapOperands (remapSubst focus launch_func cd tm tmod device)
                             (newExecuteLaunch focus launch_func cd tm tmod device)) i
      = Some (remapSubst focus launch_func cd tm tmod device v))
  /\ (forall v,
         (forall i, getResult launch_func i <> Some v) ->
         remapSubst focus launch_func cd tm tmod device v = v).
Proof.
  intros Holder. split.
  - intros i v Hv. rewrite getResult_spec in Hv.
    destruct (nth_error (getResultTypes launch_func) i) as [t|] eqn:Ht; [|discriminate].
    simpl in Hv. inversion Hv; subst v. clear Hv.
    assert (Hne : opId launch_func
                  <> opId (newExecuteLaunch focus launch_func cd tm tmod device))
      by (simpl; unfold newCompileId; lia).
    unfold remapSubst at 2. unfold getResults.
    change (getResultTypes (newExecuteLaunch focus launch_func cd tm tmod device))
      with (getResultTypes launch_func).
    pose proof (replaceValues_results (opId launch_func) _ (getResultTypes launch_func) Hne
                                      0 i t Ht) as X.
    change (0 + i) with i in X. rewrite X. clear X.
    rewrite getResult_spec, mapOperands_opId.
    change (getResultTypes (mapOperands (remapSubst focus launch_func cd tm tmod device)
                                        (newExecuteLaunch focus launch_func cd tm tmod
                                                          device)))
      with (getResultTypes launch_func).
    rewrite Ht. reflexivity.
  - intros v Hv. unfold remapSubst. apply replaceValues_other. intros [x y] Hp E.
    simpl in E. subst x. apply in_combine_l in Hp. apply In_nth_error in Hp.
    destruct Hp as (i & Hi). exact (Hv i Hi).
Qed.

(** The operations a rewrite creates are newer than the block. *)
Lemma createdOps_fresh (focus : BlockFocus) (launch_func : Operation)
      (cd tm tmod device : string) :
  Forall (fun op => freshId focus <= opId op)
         (createdOps focus launch_func cd tm tmod device).
Proof.
  apply Forall_forall. intros o Ho. unfold createdOps in Ho.
  apply in_map_iff in Ho. destruct Ho as (o1 & <- & Ho1). rewrite mapOperands_opId.
  apply in_app_or in Ho1. destruct Ho1 as [H|H].
  - apply in_map_iff in H. destruct H as (o2 & <- & H2). rewrite mapOperands_opId.
    apply in_app_or in H2. destruct H2 as [H2|[<-|[]]].
    + apply shapeProbes_ids in H2. lia.
    + unfold newCompileLaunch, launchAround, newCompileId. simpl. lia.
  - destruct H as [<-|[<-|[]]];
      unfold newAssertLaunch, newExecuteLaunch, launchAround, newCompileId; simpl; lia.
Qed.

(** C2 (confirmed).  A launch on one logical core (attribute
    [num_cores_per_replica] 1) that carries [_tpu_replicate] and has no
    replicate parent, in a block whose operations have identities of their
    own: a successful [Rewrite] adds exactly one compile node, one assert
    and one execute node to the block and no launch, the launch itself is
    gone and no operation of the block has its identity, the execute node
    and its device wrapper have the result types of the launch, and every
    operand that was result [i] of the launch is result [i] of the wrapper:
    the operations that were around the launch are there in the same order,
    each with the operands the substitution gives, which takes result [i] of
    the launch to result [i] of the wrapper and leaves every value that is
    neither a result of the launch nor the output of a compilation result,
    and no operand of the block, nested ones included, is a result of the
    launch any more; and [Rewrite] does succeed, with enough fuel, when the
    launch is ready to be rewritten. *)
Theorem single_core_rewrite (up : BlockFocus -> ModuleOp) (devices : list ParsedName)
        (focus : BlockFocus) (launch_func : Operation) :
  focused focus = Some launch_func ->
  isa kLaunchFuncOp launch_func = true ->
  getAttrOfType dyn_cast_StringAttr launch_func kTPUReplicateAttr <> None ->
  getAttrOfType dyn_cast_IntegerAttr launch_func kNumCoresPerReplicaAttr = Some 1%Z ->
  asReplicate (parentOp focus) = None ->
  idsBelow (freshId focus) (opsBefore focus) ->
  opId launch_func < freshId focus ->
  (forall op, In op (opsBefore focus ++ opsAfter focus) -> opId op <> opId launch_func) ->
  (forall fuel focus',
      Rewrite fuel up devices focus = Some (success, focus') ->
      exists subst created wrapper execute_op return_op,
        focused focus' = None
        /\ opsBefore focus' = map (mapOperands subst) (opsBefore focus) ++ created
        /\ opsAfter focus' = map (mapOperands subst) (opsAfter focus)
        /\ countIn kTPUCompileMlirOp (blockOps focus')
           = countIn kTPUCompileMlirOp (opsBefore focus ++ opsAfter focus) + 1
        /\ countIn kTPUCompileSucceededAssertOp (blockOps focus')
           = countIn kTPUCompileSucceededAssertOp (opsBefore focus ++ opsAfter focus) + 1
        /\ countIn kTPUExecuteOp (blockOps focus')
           = countIn kTPUExecuteOp (opsBefore focus ++ opsAfter focus) + 1
        /\ countIn kLaunchFuncOp (blockOps focus')
           = countIn kLaunchFuncOp (opsBefore focus ++ opsAfter focus)
        /\ In wrapper created
        /\ opName wrapper = kLaunchOp
        /\ getRegions wrapper = [[execute_op; return_op]]
        /\ opName execute_op = kTPUExecuteOp
        /\ getResultTypes execute_op = getResultTypes launch_func
        /\ getNumResults execute_op = getNumResults launch_func
        /\ getResultTypes wrapper = getResultTypes launch_func
        /\ (forall i v, getResult launch_func i = Some v ->
                        getResult wrapper i = Some (subst v))
        /\ (exists kept,
               opsBefore focus' = kept ++ created
               /\ operandsReplaced subst (opsBefore focus) kept)
        /\ operandsReplaced subst (opsAfter focus) (opsAfter focus')
        /\ (forall v,
               (forall i, getResult launch_func i <> Some v) ->
               (forall op, In op (blockOps focus) ->
                           isa kTPUCompilationResultOp op = true ->
                           getResult op 0 <> Some v) ->
               subst v = v)
        /\ (forall i v, getResult launch_func i = Some v ->
                        ~ In v (usesIn (blockOps focus')))
        /\ (forall op, In op (blockOps focus') -> opId op <> opId launch_func))
  /\ (readyToRewrite up devices focus launch_func ->
      exists fuel focus', Rewrite fuel up devices focus = Some (success, focus')).
Proof.
  intros Hf Hisa Hm Hcores Hnone Hfresh Holder Huniq. split.
  - intros fuel focus' Hrun.
    destruct (Rewrite_success fuel up devices focus focus' launch_func Hf Hm Hfresh Hrun)
      as (replicas & cores & cd & ed & xla & metadata & txt & device & parent'
          & _ & _ & _ & _ & _ & _ & ->).
    destruct (createdOps_counts focus launch_func cd (serialized metadata) txt device)
      as (C1 & C2 & C3 & C4 & _).
    destruct (newExecuteLaunch_created focus launch_func cd (serialized metadata) txt device)
      as (W1 & W2 & _ & W4 & execute_op & return_op & W5 & W6 & W7 & W8 & _).
    pose proof (no_use_of_launch_result focus launch_func cd (serialized metadata) txt device
                                        parent') as Hnouse.
    exists (rewriteSubst focus launch_func cd (serialized metadata) txt device).
    exists (createdOps focus launch_func cd (serialized metadata) txt device).
    exists (mapOperands (remapSubst focus launch_func cd (serialized metadata) txt device)
                        (newExecuteLaunch focus launch_func cd (serialized metadata) txt
                                          device)).
    exists execute_op, return_op.
    rewrite !blockOps_rewritten_count, C1, C2, C3, C4.
    rewrite rewritten_parts in *.
    cbn [focused opsBefore opsAfter].
    split; [reflexivity|]. split; [reflexivity|]. split; [reflexivity|].
    split; [lia|]. split; [lia|]. split; [lia|]. split; [lia|].
    split; [exact W1|]. split; [exact W2|]. split; [exact W5|]. split; [exact W6|].
    split; [exact W7|]. split; [exact W8|]. split; [exact W4|].
    split.
    { intros i v Hv.
      apply (rewriteSubst_results focus launch_func cd (serialized metadata) txt device
                                  Holder i v); auto.
      intros op Hop Hi E. unfold blockOps in Hop. rewrite Hf in Hop.
      apply in_app_or in Hop. destruct Hop as [Hop|[<-|Hop]].
      + apply (Huniq op); auto. apply in_or_app. auto.
      + unfold isa in Hisa, Hi. apply String.eqb_eq in Hisa. rewrite Hisa in Hi.
        discriminate.
      + apply (Huniq op); auto. apply in_or_app. auto. }
    split.
    { eexists. split; [reflexivity|]. apply operandsReplaced_map. }
    split; [apply operandsReplaced_map|].
    split.
    { intros v Hlaunch Hresult. unfold rewriteSubst.
      rewrite (proj2 (resolveSubst_spec focus launch_func cd (serialized metadata) txt Hf)
                     v Hresult).
      apply (proj2 (remapSubst_spec focus launch_func cd (serialized metadata) txt device
                                    Holder) v Hlaunch). }
    split; [intros i v Hv; apply (Hnouse i v Holder Hv)|].
    intros op Hop. unfold blockOps in Hop. cbn [opsBefore focused opsAfter] in Hop.
    rewrite <- app_assoc in Hop. apply in_app_or in Hop. destruct Hop as [Hop|Hop].
    + apply in_map_iff in Hop. destruct Hop as (o & <- & Ho). rewrite mapOperands_opId.
      apply (Huniq o). apply in_or_app. auto.
    + apply in_app_or in Hop. destruct Hop as [Hop|Hop].
      * pose proof (createdOps_fresh focus launch_func cd (serialized metadata) txt device)
          as Hnew.
        rewrite Forall_forall in Hnew. specialize (Hnew op Hop). lia.
      * simpl in Hop. apply in_map_iff in Hop. destruct Hop as (o & <- & Ho).
        rewrite mapOperands_opId. apply (Huniq o). apply in_or_app. auto.
  - apply Rewrite_ready; assumption.
Qed.


Lemma fronts_rows (execution_devices : list (list string)) :
  forall devices,
    fronts execution_devices = Some devices ->
    Forall2 (fun row device => hd_error row = Some device) execution_devices devices.
Proof.
  induction execution_devices as [|row rows IH]; simpl; intros devices H.
  - inversion H. constructor.
  - destruct (hd_error row) as [device|] eqn:Hd; [|discriminate].
    destruct (fronts rows) as [rest|]; [|discriminate].
    inversion H. constructor; auto.
Qed.

(** C7 (confirmed).  A launch on one logical core under a replicate with
    [R] replicas, the resolver handing out one row of execution devices per
    replica: a successful [Rewrite] sets the [devices] attribute of the
    replicate to the dictionary that maps the alias of logical core 0 to [R]
    device strings, the first device of each row in row order, and wraps
    the execute node in a launch whose device is that alias; and [Rewrite]
    does succeed, with enough fuel, when the launch is ready to be
    rewritten. *)
Theorem replicated_execute_devices (up : BlockFocus -> ModuleOp) (devices : list ParsedName)
        (focus : BlockFocus) (launch_func replicate : Operation) (replicas : Z) :
  focused focus = Some launch_func ->
  getAttrOfType dyn_cast_StringAttr launch_func kTPUReplicateAttr <> None ->
  getAttrOfType dyn_cast_IntegerAttr launch_func kNumCoresPerReplicaAttr = Some 1%Z ->
  asReplicate (parentOp focus) = Some replicate ->
  numReplicasOf (Some replicate) = Some replicas ->
  idsBelow (freshId focus) (opsBefore focus) ->
  (forall compilation_device execution_devices xla,
      GetTPUCompilationAndExecutionDevices devices replicas 1 "" []
      = inr (compilation_device, execution_devices, xla) ->
      List.length execution_devices = Z.to_nat replicas) ->
  (forall fuel focus',
      Rewrite fuel up devices focus = Some (success, focus') ->
      exists compilation_device execution_devices xla replicate_devices
             wrapper execute_op return_op,
        GetTPUCompilationAndExecutionDevices devices replicas 1 "" []
        = inr (compilation_device, execution_devices, xla)
        /\ parentOp focus'
           = Some (setAttr replicate kDevicesAttr
                           (DictionaryAttr
                              [(GetDeviceAliasForLogicalCore 0,
                                ArrayAttr (map StringAttr replicate_devices))]))
        /\ (forall parent, parentOp focus' = Some parent ->
                           getAttr parent kDevicesAttr
                           = Some (DictionaryAttr
                                     [(GetDeviceAliasForLogicalCore 0,
                                       ArrayAttr (map StringAttr replicate_devices))]))
        /\ List.length replicate_devices = Z.to_nat replicas
        /\ Forall2 (fun row device => hd_error row = Some device)
                   execution_devices replicate_devices
        /\ In wrapper (opsBefore focus')
        /\ opName wrapper = kLaunchOp
        /\ getAttr wrapper kDeviceAttr = Some (StringAttr (GetDeviceAliasForLogicalCore 0))
        /\ getRegions wrapper = [[execute_op; return_op]]
        /\ opName execute_op = kTPUExecuteOp)
  /\ (readyToRewrite up devices focus launch_func ->
      exists fuel focus', Rewrite fuel up devices focus = Some (success, focus')).
Proof.
  intros Hf Hm Hcores Hrep Hn Hfresh Hcontract. split.
  - intros fuel focus' Hrun.
    destruct (Rewrite_success fuel up devices focus focus' launch_func Hf Hm Hfresh Hrun)
      as (replicas' & cores & cd & ed & xla & metadata & txt & device & parent'
          & Hr & Hc & _ & Ha & _ & Hassigned & ->).
    rewrite Hrep in Hr. rewrite Hn in Hr. inversion Hr; subst replicas'. clear Hr.
    rewrite Hcores in Hc. inversion Hc; subst cores. clear Hc.
    change (to_int 1) with 1%Z in Ha.
    unfold assigned in Hassigned. rewrite Hrep in Hassigned.
    destruct Hassigned as (replicate_devices & Hfronts & -> & ->).
    pose proof (fronts_rows _ _ Hfronts) as Hrows.
    destruct (newExecuteLaunch_created focus launch_func cd (serialized metadata) txt
                                       (GetDeviceAliasForLogicalCore 0))
      as (W1 & W2 & W3 & _ & execute_op & return_op & W5 & W6 & _).
    exists cd, ed, xla, replicate_devices.
    exists (mapOperands (remapSubst focus launch_func cd (serialized metadata) txt
                                    (GetDeviceAliasForLogicalCore 0))
                        (newExecuteLaunch focus launch_func cd (serialized metadata) txt
                                          (GetDeviceAliasForLogicalCore 0))).
    exists execute_op, return_op.
    rewrite rewritten_parts. cbn [parentOp opsBefore].
    repeat split; try eassumption; try reflexivity.
    + intros parent E. inversion E. reflexivity.
    + rewrite <- (Forall2_length Hrows). apply (Hcontract cd ed xla Ha).
    + apply in_or_app. right. exact W1.
  - apply Rewrite_ready; assumption.
Qed.

(** *** The compilation results *)

(** The number of operations named [name] under [op]. *)
Definition countNested (name : string) (op : Operation) : nat :=
  list_sum (map (countIn name) (getRegions op)).

Lemma eraseCompilationResults_none (op : Operation) :
  countNested kTPUCompilationResultOp (eraseCompilationResults op) = 0.
Proof.
  induction op as [id name operands types attrs regions IH] using Operation_nested_ind.
  unfold countNested. simpl. rewrite map_map.
  induction IH as [|block regions Hblock _ IHregions]; simpl; [reflexivity|].
  rewrite IHregions, Nat.add_0_r. clear IHregions.
  unfold countIn, eraseBlock.
  induction Hblock as [|o block Ho _ IHblock]; simpl; [reflexivity|].
  destruct (isa kTPUCompilationResultOp o) eqn:Hi; simpl; [exact IHblock|].
  rewrite IHblock, Nat.add_0_r.
  assert (E : isa kTPUCompilationResultOp (eraseCompilationResults o) = false)
    by (destruct o; exact Hi).
  destruct (eraseCompilationResults o) as [id' name' operands' types' attrs' regions'] eqn:Eo.
  simpl. simpl in E. unfold isa in E. simpl in E. unfold isa. simpl. rewrite E.
  unfold countNested in Ho. simpl in Ho. exact Ho.
Qed.

(** C10 (confirmed).  On a successful [Rewrite] of a launch that carries
    [_tpu_replicate]: for every [TF::TPUCompilationResultOp] of the block of
    the launch, whatever its attributes, every operand that was its output
    is the status result (result 0) of the wrapper of the compile node, and
    no operand of the block is the output any more; [Rewrite] does succeed,
    with enough fuel, when the launch is ready to be rewritten; and after a
    pass that succeeded no [TF::TPUCompilationResultOp] is left anywhere in
    the module. *)
Theorem compilation_results_resolved (up : BlockFocus -> ModuleOp)
        (devices : list ParsedName) :
  (forall fuel focus focus' launch_func,
      focused focus = Some launch_func ->
      getAttrOfType dyn_cast_StringAttr launch_func kTPUReplicateAttr <> None ->
      idsBelow (freshId focus) (blockOps focus) ->
      Rewrite fuel up devices focus = Some (success, focus') ->
      exists subst created wrapper status,
        opsBefore focus' = map (mapOperands subst) (opsBefore focus) ++ created
        /\ opsAfter focus' = map (mapOperands subst) (opsAfter focus)
        /\ In wrapper created
        /\ opName wrapper = kLaunchOp
        /\ countOps kTPUCompileMlirOp wrapper = 1
        /\ getResult wrapper 0 = Some status
        /\ forall op output,
            In op (blockOps focus) ->
            isa kTPUCompilationResultOp op = true ->
            getResult op 0 = Some output ->
            subst output = status /\ ~ In output (usesIn (blockOps focus')))
  /\ (forall focus launch_func,
         focused focus = Some launch_func ->
         getAttrOfType dyn_cast_StringAttr launch_func kTPUReplicateAttr <> None ->
         idsBelow (freshId focus) (blockOps focus) ->
         readyToRewrite up devices focus launch_func ->
         exists fuel focus', Rewrite fuel up devices focus = Some (success, focus'))
  /\ (forall fuel module module',
         runOnModule fuel module = Some (passSucceeded, module') ->
         countNested kTPUCompilationResultOp module' = 0).
Proof.
  split; [|split].
  - intros fuel focus focus' launch_func Hf Hm Hids Hrun.
    assert (Hbefore : idsBelow (freshId focus) (opsBefore focus)).
    { unfold blockOps in Hids. apply Forall_app in Hids. apply Hids. }
    assert (Holder : opId launch_func < freshId focus).
    { unfold idsBelow in Hids. rewrite Forall_forall in Hids. apply Hids.
      unfold blockOps. rewrite Hf. apply in_or_app. right. simpl. auto. }
    destruct (Rewrite_success fuel up devices focus focus' launch_func Hf Hm Hbefore Hrun)
      as (replicas & cores & cd & ed & xla & metadata & txt & device & parent'
          & _ & _ & _ & _ & _ & _ & ->).
    destruct (newCompileLaunch_created focus launch_func cd (serialized metadata) txt device)
      as (L1 & L2 & _ & L4 & _ & L6).
    exists (rewriteSubst focus launch_func cd (serialized metadata) txt device).
    exists (createdOps focus launch_func cd (serialized metadata) txt device).
    exists (finalCompileLaunch focus launch_func cd (serialized metadata) txt device).
    exists (compileStatus focus launch_func).
    rewrite rewritten_parts. cbn [opsBefore opsAfter].
    repeat split; auto.
    + eapply rewriteSubst_compilation_result; eauto.
    + rewrite <- rewritten_parts.
      eapply no_use_of_compilation_result; eauto.
      unfold idsBelow in Hids. rewrite Forall_forall in Hids. apply Hids. assumption.
  - intros focus launch_func Hf Hm Hids Hready.
    apply (Rewrite_ready up devices focus launch_func Hf Hm); [|exact Hready].
    unfold blockOps in Hids. apply Forall_app in Hids. apply Hids.
  - intros fuel module module'. unfold runOnModule.
    destruct (GetDevicesFromOp module) as [ds|]; [|discriminate].
    destruct (walkNested fuel _ ds module _) as [[[[|d] m] fresh]|]; try discriminate.
    intros H. inversion H. apply eraseCompilationResults_none.
Qed.

(** C1 (the code departs from the claim).  A launch on more than one
    logical core: the compile node [BuildCompileOp] builds, and so its
    wrapper, has two results whatever the number of cores, not one program
    per core; [BuildParallelExecuteOp] reads result [1 + core_id] for every
    core, which does not exist from the second core on; so it has no
    outcome, and [Rewrite] never returns success. *)
Theorem parallel_execute_program_per_core (fuel : nat) (up : BlockFocus -> ModuleOp)
        (devices : list ParsedName) (focus : BlockFocus) (launch_func : Operation)
        (cores : Z) :
  focused focus = Some launch_func ->
  getAttrOfType dyn_cast_StringAttr launch_func kTPUReplicateAttr <> None ->
  getAttrOfType dyn_cast_IntegerAttr launch_func kNumCoresPerReplicaAttr = Some cores ->
  (1 < to_int cores)%Z ->
  idsBelow (freshId focus) (opsBefore focus) ->
  (forall parentModule replicas compilation_device xla builder launch builder',
      BuildCompileOp fuel parentModule launch_func replicas (to_int cores)
                     compilation_device xla builder = Some (inr launch, builder') ->
      getNumResults launch = 2
      /\ getResult launch 2 = None
      /\ BuildParallelExecuteOp (to_int cores) launch launch_func builder' = None)
  /\ (forall focus', Rewrite fuel up devices focus <> Some (success, focus')).
Proof.
  intros Hf Hm Hc Hcores Hfresh. split.
  - intros parentModule replicas cd xla builder launch builder' H.
    apply BuildCompileOp_built in H. destruct H as (metadata & txt & _ & H).
    cbv zeta in H. destruct H as (-> & _).
    repeat split. apply BuildParallelExecuteOp_undefined; [exact Hcores|reflexivity].
  - intros focus' Hrun.
    destruct (Rewrite_success fuel up devices focus focus' launch_func Hf Hm Hfresh Hrun)
      as (replicas & cores' & cd & ed & xla & metadata & txt & device & parent'
          & _ & Hc' & Hle & _).
    rewrite Hc in Hc'. inversion Hc'; subst cores'. lia.
Qed.

End RewriteClaims.

Section RewriteWitnesses.
#[local] Existing Instance Example.collaborators.
#[local] Existing Instance Example.serializers.

Lemma idsBelow_example (parent : option Operation) (launch : Operation) :
  opId launch = 4 ->
  idsBelow (freshId (Example.focus_on parent launch))
           (blockOps (Example.focus_on parent launch)).
Proof.
  intros E. unfold idsBelow, blockOps, Example.focus_on. simpl.
  constructor; [simpl; lia|]. constructor; [rewrite E; lia|].
  constructor; [simpl; lia|]. constructor.
Qed.

Lemma readyToRewrite_example (parent : option Operation) (device : string)
      (parent' : option Operation) (replicas : Z) :
  numReplicasOf (asReplicate parent) = Some replicas ->
  (0 < replicas)%Z ->
  assigned (Example.execution_devices (Z.to_nat replicas) 1) parent device parent' ->
  readyToRewrite Example.up Example.devices (Example.focus_on parent Example.launch1)
                 Example.launch1.
Proof.
  intros Hr Hpos Ha. unfold readyToRewrite. cbv zeta.
  exists replicas, 1%Z, "/CPU:0", (Example.execution_devices (Z.to_nat replicas) 1), None.
  eexists. exists "tpu_func", (Example.func 6 "tpu_func" [Example.call 7 "helper"]).
  exists device, parent'.
  split; [exact Hr|]. split; [reflexivity|]. split; [vm_compute; discriminate|].
  split.
  { change (to_int 1) with 1%Z. simpl.
    destruct (replicas <=? 0)%Z eqn:E; [apply Z.leb_le in E; lia|reflexivity]. }
  split; [exact Ha|]. split; [reflexivity|]. split; [reflexivity|].
  split; [reflexivity|]. split; [discriminate|].
  split; [apply example_renamingIsSafe|].
  intros op Hop Hi.
  unfold blockOps in Hop. simpl in Hop.
  destruct Hop as [<-|[<-|[<-|[]]]]; try discriminate.
Qed.

Lemma compile_node_operands_witness :
  exists launch builder',
    BuildCompileOp 10
                   (fun before =>
                      Example.up (withBefore (Example.focus_on None Example.launch1) before))
                   Example.launch1 1 1 "/CPU:0" None
                   (builderAt (Example.focus_on None Example.launch1))
    = Some (inr launch, builder')
    /\ exists compile_op return_op probes,
        getRegions launch = [[compile_op; return_op]]
        /\ opName compile_op = kTPUCompileMlirOp
        /\ getOperands compile_op = flat_map getResults probes
        /\ List.length probes = 1
        /\ getAttr compile_op "NumDynamicShapes" = Some (IntegerAttr 1)
        /\ getResultTypes compile_op = [stringTensor; stringTensor].
Proof.
  assert (Hrun : exists launch builder',
             BuildCompileOp 10
                (fun before =>
                   Example.up (withBefore (Example.focus_on None Example.launch1) before))
                Example.launch1 1 1 "/CPU:0" None
                (builderAt (Example.focus_on None Example.launch1))
             = Some (inr launch, builder'))
    by (eexists; eexists; vm_compute; reflexivity).
  destruct Hrun as (launch & builder' & Hrun).
  exists launch, builder'. split; [exact Hrun|].
  destruct (compile_node_operands _ _ _ _ _ _ _ _ _ _ Hrun)
    as (compile_op & return_op & probes & _ & H2 & H3 & H4 & H5 & _ & H7 & H8 & _).
  exists compile_op, return_op, probes.
  assert (Hlen : List.length probes = 1) by (rewrite <- (Forall2_length H4); reflexivity).
  rewrite Hlen in H7. repeat split; assumption.
Defined.

Lemma single_core_rewrite_witness :
  exists focus',
    Rewrite 10 Example.up Example.devices (Example.focus_on None Example.launch1)
    = Some (success, focus')
    /\ focused focus' = None
    /\ countIn kTPUCompileMlirOp (blockOps focus') = 1
    /\ countIn kTPUCompileSucceededAssertOp (blockOps focus') = 1
    /\ countIn kTPUExecuteOp (blockOps focus') = 1
    /\ countIn kLaunchFuncOp (blockOps focus') = 0
    /\ ~ In (OpResult 4 0 Example.i1) (usesIn (blockOps focus'))
    /\ (forall op, In op (blockOps focus') -> opId op <> 4)
    /\ exists subst wrapper,
        In wrapper (opsBefore focus')
        /\ getResultTypes wrapper = [Example.i1]
        /\ getResult wrapper 0 = Some (subst (OpResult 4 0 Example.i1))
        /\ opsAfter focus' = map (mapOperands subst) Example.after_launch
        /\ operandsReplaced subst Example.after_launch (opsAfter focus')
        /\ subst (BlockArgument 0 Example.i1) = BlockArgument 0 Example.i1
        /\ exists fuel focus'',
            Rewrite fuel Example.up Example.devices (Example.focus_on None Example.launch1)
            = Some (success, focus'').
Proof.
  assert (Hrun : exists focus',
             Rewrite 10 Example.up Example.devices (Example.focus_on None Example.launch1)
             = Some (success, focus'))
    by (eexists; vm_compute; reflexivity).
  destruct Hrun as (focus' & Hrun). exists focus'. split; [exact Hrun|].
  pose proof (idsBelow_example None Example.launch1 eq_refl) as Hids.
  assert (Hbefore : idsBelow (freshId (Example.focus_on None Example.launch1))
                             (opsBefore (Example.focus_on None Example.launch1))).
  { unfold blockOps in Hids. apply Forall_app in Hids. apply Hids. }
  assert (Huniq : forall op,
             In op (opsBefore (Example.focus_on None Example.launch1)
                    ++ opsAfter (Example.focus_on None Example.launch1)) ->
             opId op <> opId Example.launch1).
  { intros op [<-|[<-|[]]]; discriminate. }
  destruct (single_core_rewrite (C := Example.collaborators) (P := Example.serializers)
              Example.up Example.devices
              (Example.focus_on None Example.launch1) Example.launch1
              eq_refl eq_refl ltac:(discriminate) eq_refl eq_refl Hbefore
              ltac:(vm_compute; lia) Huniq) as (HA & HB).
  destruct (HA 10 focus' Hrun)
    as (subst & created & wrapper & execute_op & return_op & A1 & A2 & A3 & A4 & A5 & A6
        & A7 & A8 & _ & _ & _ & _ & _ & A14 & A15 & _ & A17 & A18 & A19 & A20).
  split; [exact A1|]. split; [exact A4|]. split; [exact A5|]. split; [exact A6|].
  split; [exact A7|].
  split; [exact (A19 0 (OpResult 4 0 Example.i1) eq_refl)|].
  split; [exact A20|].
  exists subst, wrapper.
  split; [rewrite A2; apply in_or_app; right; exact A8|].
  split; [exact A14|].
  split; [exact (A15 0 (OpResult 4 0 Example.i1) eq_refl)|].
  split; [exact A3|].
  split; [exact A17|].
  split.
  { apply A18.
    - intros [|[|i]] E; vm_compute in E; discriminate.
    - intros op [<-|[<-|[<-|[]]]] Hi E; vm_compute in Hi, E; discriminate. }
  apply HB. apply (readyToRewrite_example None "/TPU:0:0" None 1 eq_refl);
    [lia|]. exists ["/TPU:0:0"]. repeat split.
Defined.

Lemma replicated_execute_devices_witness :
  exists focus' parent replicate_devices,
    Rewrite 10 Example.up Example.devices
            (Example.focus_on (Some Example.replicate2) Example.launch1)
    = Some (success, focus')
    /\ parentOp focus' = Some parent
    /\ getAttr parent kDevicesAttr
       = Some (DictionaryAttr
                 [("TPU_REPLICATED_CORE_0", ArrayAttr (map StringAttr replicate_devices))])
    /\ List.length replicate_devices = 2
    /\ Forall2 (fun row device => hd_error row = Some device)
               [["/TPU:0:0"]; ["/TPU:1:0"]] replicate_devices.
Proof.
  assert (Hrun : exists focus',
             Rewrite 10 Example.up Example.devices
                     (Example.focus_on (Some Example.replicate2) Example.launch1)
             = Some (success, focus'))
    by (eexists; vm_compute; reflexivity).
  destruct Hrun as (focus' & Hrun).
  pose proof (idsBelow_example (Some Example.replicate2) Example.launch1 eq_refl) as Hids.
  assert (Hbefore : idsBelow
                      (freshId (Example.focus_on (Some Example.replicate2) Example.launch1))
                      (opsBefore (Example.focus_on (Some Example.replicate2)
                                                   Example.launch1))).
  { unfold blockOps in Hids. apply Forall_app in Hids. apply Hids. }
  assert (Hcontract : forall compilation_device execution_devices xla,
             GetTPUCompilationAndExecutionDevices Example.devices 2 1 "" []
             = inr (compilation_device, execution_devices, xla) ->
             List.length execution_devices = Z.to_nat 2).
  { intros cd ed xla H. vm_compute in H. inversion H. reflexivity. }
  destruct (replicated_execute_devices
              (C := Example.collaborators) (P := Example.serializers)
              Example.up Example.devices
              (Example.focus_on (Some Example.replicate2) Example.launch1)
              Example.launch1 Example.replicate2 2
              eq_refl ltac:(discriminate) eq_refl eq_refl eq_refl Hbefore Hcontract)
    as (HA & _).
  destruct (HA 10 focus' Hrun)
    as (cd & ed & xla & replicate_devices & wrapper & execute_op & return_op
        & A1 & A2 & A3 & A4 & A5 & _).
  vm_compute in A1. inversion A1; subst cd ed xla.
  exists focus'. eexists. exists replicate_devices.
  split; [exact Hrun|]. split; [exact A2|]. split; [apply (A3 _ A2)|].
  split; [exact A4|exact A5].
Defined.

Lemma compilation_results_resolved_witness :
  (exists focus' subst,
      Rewrite 10 Example.up Example.devices (Example.focus_on None Example.launch1)
      = Some (success, focus')
      /\ opsAfter focus' = map (mapOperands subst) Example.after_launch
      /\ (exists wrapper,
             In wrapper (opsBefore focus')
             /\ getResult wrapper 0 = Some (subst (OpResult 3 0 stringTensor)))
      /\ ~ In (OpResult 3 0 stringTensor) (usesIn (blockOps focus')))
  /\ (exists module',
         runOnModule 20 (Example.module_of
                           (blockOps (Example.focus_on None Example.launch1)))
         = Some (passSucceeded, module')
         /\ countNested kTPUCompilationResultOp module' = 0).
Proof.
  destruct (compilation_results_resolved
              (C := Example.collaborators) (P := Example.serializers)
              Example.up Example.devices) as (HA & _ & HC).
  split.
  - assert (Hrun : exists focus',
               Rewrite 10 Example.up Example.devices (Example.focus_on None Example.launch1)
               = Some (success, focus'))
      by (eexists; vm_compute; reflexivity).
    destruct Hrun as (focus' & Hrun).
    destruct (HA 10 (Example.focus_on None Example.launch1) focus' Example.launch1
                 eq_refl ltac:(discriminate)
                 (idsBelow_example None Example.launch1 eq_refl) Hrun)
      as (subst & created & wrapper & status & A1 & A2 & A3 & _ & _ & A6 & A7).
    destruct (A7 (Example.compilation_result 3 "other") (OpResult 3 0 stringTensor))
      as (B1 & B2); [simpl; auto|reflexivity|reflexivity|].
    exists focus', subst. split; [exact Hrun|]. split; [exact A2|]. split; [|exact B2].
    exists wrapper. split; [rewrite A1; apply in_or_app; auto|]. rewrite B1. exact A6.
  - assert (Hrun : exists module',
               runOnModule 20 (Example.module_of
                                 (blockOps (Example.focus_on None Example.launch1)))
               = Some (passSucceeded, module'))
      by (eexists; vm_compute; reflexivity).
    destruct Hrun as (module' & Hrun). exists module'. split; [exact Hrun|].
    apply (HC 20 _ _ Hrun).
Defined.

Lemma parallel_execute_program_per_core_witness :
  (exists launch builder',
      BuildCompileOp 10
                     (fun before =>
                        Example.up (withBefore (Example.focus_on None Example.launch2)
                                               before))
                     Example.launch2 1 2 "/CPU:0" None
                     (builderAt (Example.focus_on None Example.launch2))
      = Some (inr launch, builder')
      /\ getNumResults launch = 2
      /\ getResult launch 2 = None
      /\ BuildParallelExecuteOp 2 launch Example.launch2 builder' = None)
  /\ Rewrite 10 Example.up Example.devices (Example.focus_on None Example.launch2) = None.
Proof.
  pose proof (idsBelow_example None Example.launch2 eq_refl) as Hids.
  assert (Hbefore : idsBelow (freshId (Example.focus_on None Example.launch2))
                             (opsBefore (Example.focus_on None Example.launch2))).
  { unfold blockOps in Hids. apply Forall_app in Hids. apply Hids. }
  destruct (parallel_execute_program_per_core
              (C := Example.collaborators) (P := Example.serializers)
              10 Example.up Example.devices (Example.focus_on None Example.launch2)
              Example.launch2 2 eq_refl ltac:(discriminate) eq_refl
              ltac:(vm_compute; reflexivity) Hbefore) as (HA & _).
  split; [|vm_compute; reflexivity].
  assert (Hrun : exists launch builder',
             BuildCompileOp 10
                (fun before =>
                   Example.up (withBefore (Example.focus_on None Example.launch2) before))
                Example.launch2 1 2 "/CPU:0" None
                (builderAt (Example.focus_on None Example.launch2))
             = Some (inr launch, builder'))
    by (eexists; eexists; vm_compute; reflexivity).
  destruct Hrun as (launch & builder' & Hrun). exists launch, builder'.
  split; [exact Hrun|]. apply (HA _ _ _ _ _ _ _ Hrun).
Defined.

End RewriteWitnesses.

(** * Further properties *)

(** ** The descriptor, field by field *)

Section DescriptorFields.
Context {C : Collaborators}.

(** An element of an array attribute that is a string which [parse] accepts
    as [p]. *)
Definition parsesTo {A : Type} (parse : string -> option A) (a : Attribute) (p : A) : Prop :=
  exists s, a = StringAttr s /\ parse s = Some p.

(** The diagnostic of the element [a] at [index] of the array attribute
    [name], when [a] is not a string or does not parse to a [target]. *)
Definition elementDiagnostic (op : Operation) (name : string) (index : nat) (a : Attribute)
           (target : string) : Diagnostic :=
  match dyn_cast_StringAttr a with
  | None => emitOpError (opId op) (formatv kBadStringArrayElementMsg [ArgStr name; ArgNat index])
  | Some s =>
      emitOpError (opId op)
                  (formatv kBadArrayElementMsg [ArgStr name; ArgNat index; ArgStr s; ArgStr target])
  end.

Definition rejects {A : Type} (parse : string -> option A) (a : Attribute) : Prop :=
  forall s, a = StringAttr s -> parse s = None.

Definition withPaddingMaps (m : TPUCompileMetadataProto) (l : list PaddingMap) :=
  mkMetadata (num_replicas m) (num_cores_per_replica m) (step_marker_location m)
             l (device_assignment m) (args m) (retvals m).

Definition withArgs (m : TPUCompileMetadataProto) (l : list Arg) :=
  mkMetadata (num_replicas m) (num_cores_per_replica m) (step_marker_location m)
             (padding_maps m) (device_assignment m) l (retvals m).

Definition withRetvals (m : TPUCompileMetadataProto) (l : list Retval) :=
  mkMetadata (num_replicas m) (num_cores_per_replica m) (step_marker_location m)
             (padding_maps m) (device_assignment m) (args m) l.

Lemma SetOpSharding_parses (op : Operation) (a : Attribute) (name : string) (index : nat)
      (sharding : OpSharding) :
  SetOpSharding op a name index = inr sharding <-> parsesTo OpSharding_ParseFromString a sharding.
Proof.
  unfold SetOpSharding, parsesTo. split.
  - destruct a as [s| | | |]; simpl; try discriminate.
    destruct (OpSharding_ParseFromString s) as [p|] eqn:Hp; [|discriminate].
    intros H. inversion H. subst. exists s. auto.
  - intros (s & -> & Hp). simpl. rewrite Hp. reflexivity.
Qed.

Lemma SetOpSharding_rejects (op : Operation) (a : Attribute) (name : string) (index : nat) :
  rejects OpSharding_ParseFromString a ->
  SetOpSharding op a name index = inl (elementDiagnostic op name index a "xla::OpSharding").
Proof.
  unfold SetOpSharding, elementDiagnostic, rejects. intros Hr.
  destruct a as [s| | | |]; simpl; try reflexivity.
  rewrite (Hr s eq_refl). reflexivity.
Qed.

(** *** The padding maps *)

Lemma paddingMapLoop_parsed (op : Operation) (padding_map : list Attribute) :
  forall index metadata metadata',
    paddingMapLoop op padding_map index metadata = inr metadata'
    <-> exists parsed,
        Forall2 (parsesTo PaddingMap_ParseFromString) padding_map parsed
        /\ metadata' = withPaddingMaps metadata (padding_maps metadata ++ parsed).
Proof.
  induction padding_map as [|a rest IH]; simpl; intros index metadata metadata'.
  - split.
    + intros H. inversion H. subst. exists []. split; [constructor|].
      rewrite app_nil_r. destruct metadata'. reflexivity.
    + intros (parsed & Hf & ->). inversion Hf. rewrite app_nil_r.
      destruct metadata. reflexivity.
  - split.
    + destruct a as [s| | | |]; simpl; try discriminate.
      destruct (PaddingMap_ParseFromString s) as [p|] eqn:Hp; [|discriminate].
      intros H. apply IH in H. destruct H as (parsed & Hf & ->).
      exists (p :: parsed). split.
      * constructor; [exists s; auto|exact Hf].
      * unfold withPaddingMaps. simpl. rewrite <- app_assoc. reflexivity.
    + intros (parsed & Hf & ->). inversion Hf as [|a' p rest' parsed' (s & -> & Hp) Hrest]; subst.
      simpl. rewrite Hp. apply IH. exists parsed'. split; [exact Hrest|].
      unfold withPaddingMaps. simpl. rewrite <- app_assoc. reflexivity.
Qed.

Lemma paddingMapLoop_rejected (op : Operation) :
  forall (padding_map : list Attribute) index metadata i a,
    nth_error padding_map i = Some a ->
    rejects PaddingMap_ParseFromString a ->
    (forall j b, j < i -> nth_error padding_map j = Some b ->
                 exists p, parsesTo PaddingMap_ParseFromString b p) ->
    paddingMapLoop op padding_map index metadata
    = inl (elementDiagnostic op kPaddingMapAttr (index + i) a "tpu::PaddingMap").
Proof.
  induction padding_map as [|b rest IH]; intros index metadata i a Hn Hr Hbefore.
  - destruct i; discriminate.
  - destruct i as [|i]; simpl in Hn.
    + inversion Hn; subst b. simpl. rewrite Nat.add_0_r. unfold elementDiagnostic.
      destruct a as [s| | | |]; simpl; try reflexivity.
      rewrite (Hr s eq_refl). reflexivity.
    + destruct (Hbefore 0 b) as (p & s & -> & Hp); [lia|reflexivity|].
      simpl. rewrite Hp. rewrite (IH (S index) _ i a Hn Hr).
      * replace (S index + i) with (index + S i) by lia. reflexivity.
      * intros j c Hj Hc. apply (Hbefore (S j) c); [lia|exact Hc].
Qed.

(** X1.  [SetMetadataProtoPaddingMap]: without an array attribute
    [padding_map] the step fails with the missing-attribute message; it
    succeeds exactly when every element is a string that parses, and then
    appends the parsed maps in the order of the attribute and changes nothing
    else of the descriptor; otherwise the diagnostic is that of the first
    element that is not a string or does not parse, with its index. *)
Theorem padding_maps_in_order (op : Operation) (metadata : TPUCompileMetadataProto) :
  (getAttrOfType dyn_cast_ArrayAttr op kPaddingMapAttr = None ->
   SetMetadataProtoPaddingMap op metadata
   = inl (emitOpError (opId op) (CreateMissingAttributeMsg kPaddingMapAttr)))
  /\ (forall padding_map,
         getAttrOfType dyn_cast_ArrayAttr op kPaddingMapAttr = Some padding_map ->
         (forall metadata',
             SetMetadataProtoPaddingMap op metadata = inr metadata'
             <-> exists parsed,
                 Forall2 (parsesTo PaddingMap_ParseFromString) padding_map parsed
                 /\ metadata' = withPaddingMaps metadata (padding_maps metadata ++ parsed))
         /\ (forall i a,
                nth_error padding_map i = Some a ->
                (forall j b, j < i -> nth_error padding_map j = Some b ->
                             exists p, parsesTo PaddingMap_ParseFromString b p) ->
                (dyn_cast_StringAttr a = None ->
                 SetMetadataProtoPaddingMap op metadata
                 = inl (emitOpError (opId op)
                          (formatv kBadStringArrayElementMsg
                                   [ArgStr kPaddingMapAttr; ArgNat i])))
                /\ (forall s,
                       a = StringAttr s -> PaddingMap_ParseFromString s = None ->
                       SetMetadataProtoPaddingMap op metadata
                       = inl (emitOpError (opId op)
                                (formatv kBadArrayElementMsg
                                         [ArgStr kPaddingMapAttr; ArgNat i; ArgStr s;
                                          ArgStr "tpu::PaddingMap"]))))).
Proof.
  unfold SetMetadataProtoPaddingMap. split.
  - intros ->. reflexivity.
  - intros padding_map ->. split.
    + intros metadata'. apply paddingMapLoop_parsed.
    + intros i a Hn Hbefore. split.
      * intros Hcast.
        rewrite (paddingMapLoop_rejected op padding_map 0 metadata i a Hn); auto.
        -- unfold elementDiagnostic. rewrite Hcast. reflexivity.
        -- intros s ->. discriminate.
      * intros s -> Hp.
        rewrite (paddingMapLoop_rejected op padding_map 0 metadata i _ Hn); auto.
        intros s' Hs. inversion Hs. subst. exact Hp.
Qed.

(** *** The result descriptors *)

Lemma retvalsLoop_parsed (op : Operation) (output_shardings : list Attribute) :
  forall index metadata metadata',
    retvalsLoop op output_shardings index metadata = inr metadata'
    <-> exists parsed,
        Forall2 (parsesTo OpSharding_ParseFromString) output_shardings parsed
        /\ metadata' = withRetvals metadata (retvals metadata ++ map mkRetval parsed).
Proof.
  induction output_shardings as [|a rest IH]; simpl; intros index metadata metadata'.
  - split.
    + intros H. inversion H. subst. exists []. split; [constructor|].
      simpl. rewrite app_nil_r. destruct metadata'. reflexivity.
    + intros (parsed & Hf & ->). inversion Hf. simpl. rewrite app_nil_r.
      destruct metadata. reflexivity.
  - split.
    + destruct (SetOpSharding op a kOutputShardingAttr index) as [d|sharding] eqn:Hs;
        [discriminate|].
      apply SetOpSharding_parses in Hs.
      intros H. apply IH in H. destruct H as (parsed & Hf & ->).
      exists (sharding :: parsed). split; [constructor; assumption|].
      unfold withRetvals. simpl. rewrite <- app_assoc. reflexivity.
    + intros (parsed & Hf & ->). inversion Hf as [|a' p rest' parsed' Hp Hrest]; subst.
      apply (SetOpSharding_parses op a kOutputShardingAttr index) in Hp. rewrite Hp.
      apply IH. exists parsed'. split; [exact Hrest|].
      unfold withRetvals. simpl. rewrite <- app_assoc. reflexivity.
Qed.

Lemma retvalsLoop_rejected (op : Operation) :
  forall (output_shardings : list Attribute) index metadata i a,
    nth_error output_shardings i = Some a ->
    rejects OpSharding_ParseFromString a ->
    (forall j b, j < i -> nth_error output_shardings j = Some b ->
                 exists p, parsesTo OpSharding_ParseFromString b p) ->
    retvalsLoop op output_shardings index metadata
    = inl (elementDiagnostic op kOutputShardingAttr (index + i) a "xla::OpSharding").
Proof.
  induction output_shardings as [|b rest IH]; intros index metadata i a Hn Hr Hbefore.
  - destruct i; discriminate.
  - destruct i as [|i]; simpl in Hn.
    + inversion Hn; subst b. simpl. rewrite Nat.add_0_r.
      rewrite (SetOpSharding_rejects op a _ _ Hr). reflexivity.
    + destruct (Hbefore 0 b) as (p & Hp); [lia|reflexivity|].
      apply (SetOpSharding_parses op b kOutputShardingAttr index) in Hp.
      simpl. rewrite Hp. rewrite (IH (S index) _ i a Hn Hr).
      * replace (S index + i) with (index + S i) by lia. reflexivity.
      * intros j c Hj Hc. apply (Hbefore (S j) c); [lia|exact Hc].
Qed.

(** X2.  [SetMetadataProtoRetvals]: without the array attribute of the
    output shardings the step fails with the missing-attribute message; an
    array whose size is not the number of results fails with the length
    message, whatever its elements are; with the right size the step succeeds
    exactly when every element is a string that parses, and then appends one
    result descriptor per result, holding the shardings in order; otherwise
    the diagnostic is that of the first bad element, with its index. *)
Theorem result_descriptors (op : Operation) (metadata : TPUCompileMetadataProto) :
  (getAttrOfType dyn_cast_ArrayAttr op kOutputShardingAttr = None ->
   SetMetadataProtoRetvals op metadata
   = inl (emitOpError (opId op) (CreateMissingAttributeMsg kOutputShardingAttr)))
  /\ (forall output_shardings,
         getAttrOfType dyn_cast_ArrayAttr op kOutputShardingAttr = Some output_shardings ->
         (List.length output_shardings <> getNumResults op ->
          SetMetadataProtoRetvals op metadata
          = inl (lengthMismatch op kOutputShardingAttr (getNumResults op)
                                (List.length output_shardings)))
         /\ (List.length output_shardings = getNumResults op ->
             (forall metadata',
                 SetMetadataProtoRetvals op metadata = inr metadata'
                 <-> exists parsed,
                     Forall2 (parsesTo OpSharding_ParseFromString) output_shardings parsed
                     /\ metadata'
                        = withRetvals metadata (retvals metadata ++ map mkRetval parsed))
             /\ (forall i a,
                    nth_error output_shardings i = Some a ->
                    (forall j b, j < i -> nth_error output_shardings j = Some b ->
                                 exists p, parsesTo OpSharding_ParseFromString b p) ->
                    (dyn_cast_StringAttr a = None ->
                     SetMetadataProtoRetvals op metadata
                     = inl (emitOpError (opId op)
                              (formatv kBadStringArrayElementMsg
                                       [ArgStr kOutputShardingAttr; ArgNat i])))
                    /\ (forall s,
                           a = StringAttr s -> OpSharding_ParseFromString s = None ->
                           SetMetadataProtoRetvals op metadata
                           = inl (emitOpError (opId op)
                                    (formatv kBadArrayElementMsg
                                             [ArgStr kOutputShardingAttr; ArgNat i; ArgStr s;
                                              ArgStr "xla::OpSharding"])))))).
Proof.
  unfold SetMetadataProtoRetvals. split.
  - intros ->. reflexivity.
  - intros output_shardings ->. split.
    + intros Hne. apply Nat.eqb_neq in Hne. rewrite Hne. reflexivity.
    + intros Hl. rewrite Hl, Nat.eqb_refl. simpl. split.
      * intros metadata'. apply retvalsLoop_parsed.
      * intros i a Hn Hbefore. split.
        -- intros Hcast.
           rewrite (retvalsLoop_rejected op output_shardings 0 metadata i a Hn); auto.
           ++ unfold elementDiagnostic. rewrite Hcast. reflexivity.
           ++ intros s ->. discriminate.
        -- intros s -> Hp.
           rewrite (retvalsLoop_rejected op output_shardings 0 metadata i _ Hn); auto.
           intros s' Hs. inversion Hs. subst. exact Hp.
Qed.

(** *** The shardings of the arguments *)

Lemma nth_StringAttr (l : list Attribute) (i : nat) (s : string) :
  nth i l (ArrayAttr []) = StringAttr s -> nth_error l i = Some (StringAttr s).
Proof.
  intros H. destruct (nth_error l i) as [a|] eqn:Hn.
  - rewrite (nth_error_nth _ _ _ Hn) in H. congruence.
  - apply nth_error_None in Hn. rewrite (nth_overflow _ _ Hn) in H. discriminate.
Qed.

Lemma argsLoop_shardings (op : Operation) (input_shardings : list Attribute)
      (operand_types : list mlirType) :
  forall index metadata metadata',
    argsLoop op input_shardings operand_types index metadata = inr metadata' ->
    exists added,
      metadata' = withArgs metadata (args metadata ++ added)
      /\ List.length added = List.length operand_types
      /\ forall i a, nth_error added i = Some a ->
                     parsesTo OpSharding_ParseFromString
                              (nth (index + i) input_shardings (ArrayAttr []))
                              (arg_sharding a).
Proof.
  induction operand_types as [|t rest IH]; simpl; intros index metadata metadata' H.
  - inversion H. subst. exists []. rewrite app_nil_r. split; [destruct metadata'; reflexivity|].
    split; [reflexivity|]. intros [|i] a Hn; discriminate.
  - destruct (ConvertToDataType t) as [msg|dtype] eqn:Hc; [discriminate|].
    destruct (SetOpSharding op (nth index input_shardings (ArrayAttr []))
                            kInputShardingAttr index) as [d|sharding] eqn:Hs; [discriminate|].
    apply SetOpSharding_parses in Hs.
    apply IH in H. destruct H as (added & -> & Hl & Hsh).
    exists (mkArg dtype (argKind dtype) (argShape t) sharding :: added).
    split; [unfold withArgs; simpl; rewrite <- app_assoc; reflexivity|].
    split; [simpl; congruence|].
    intros [|i] a Hn; simpl in Hn.
    + inversion Hn. subst. simpl. rewrite Nat.add_0_r. exact Hs.
    + replace (index + S i) with (S index + i) by lia. apply Hsh. exact Hn.
Qed.

Lemma argsLoop_sharding_rejected (op : Operation) (input_shardings : list Attribute) :
  forall (operand_types : list mlirType) index metadata i,
    i < List.length operand_types ->
    rejects OpSharding_ParseFromString (nth (index + i) input_shardings (ArrayAttr [])) ->
    (forall j u, j <= i -> nth_error operand_types j = Some u ->
                 exists dtype, ConvertToDataType u = inr dtype) ->
    (forall j, j < i ->
               exists sharding,
                 parsesTo OpSharding_ParseFromString
                          (nth (index + j) input_shardings (ArrayAttr [])) sharding) ->
    argsLoop op input_shardings operand_types index metadata
    = inl (elementDiagnostic op kInputShardingAttr (index + i)
                             (nth (index + i) input_shardings (ArrayAttr []))
                             "xla::OpSharding").
Proof.
  induction operand_types as [|u rest IH]; intros index metadata i Hi Hr Htypes Hbefore.
  - simpl in Hi. lia.
  - simpl. destruct (Htypes 0 u) as (dtype & Hd); [lia|reflexivity|]. rewrite Hd.
    destruct i as [|i].
    + rewrite Nat.add_0_r in *. rewrite (SetOpSharding_rejects op _ _ _ Hr). reflexivity.
    + destruct (Hbefore 0) as (sharding & Hs); [lia|].
      rewrite Nat.add_0_r in Hs.
      apply (SetOpSharding_parses op _ kInputShardingAttr index) in Hs. rewrite Hs.
      replace (index + S i) with (S index + i) in * by lia.
      apply IH.
      * simpl in Hi. lia.
      * exact Hr.
      * intros j v Hj Hv. apply (Htypes (S j) v); [lia|exact Hv].
      * intros j Hj. replace (S index + j) with (index + S j) by lia.
        apply Hbefore. lia.
Qed.

(** X3.  [SetMetadataProtoArgs] and the input shardings: without the array
    attribute the step fails with the missing-attribute message; when it
    succeeds, the sharding recorded for operand [i] is the parse of element
    [i] of the attribute, which is a string; and when the operand types up
    to [i] convert and the elements before [i] parse, an element [i] that is
    not a string or does not parse fails the step with its index. *)
Theorem argument_shardings (op : Operation) (metadata : TPUCompileMetadataProto) :
  (getAttrOfType dyn_cast_ArrayAttr op kInputShardingAttr = None ->
   SetMetadataProtoArgs op metadata
   = inl (emitOpError (opId op) (CreateMissingAttributeMsg kInputShardingAttr)))
  /\ (forall input_shardings,
         getAttrOfType dyn_cast_ArrayAttr op kInputShardingAttr = Some input_shardings ->
         (forall metadata',
             SetMetadataProtoArgs op metadata = inr metadata' ->
             exists added,
               metadata' = withArgs metadata (args metadata ++ added)
               /\ List.length added = getNumOperands op
               /\ forall i a, nth_error added i = Some a ->
                              exists s, nth_error input_shardings i = Some (StringAttr s)
                                        /\ OpSharding_ParseFromString s
                                           = Some (arg_sharding a))
         /\ (forall i a,
                List.length input_shardings = getNumOperands op ->
                nth_error input_shardings i = Some a ->
                (forall j u, j <= i -> nth_error (getOperandTypes op) j = Some u ->
                             exists dtype, ConvertToDataType u = inr dtype) ->
                (forall j b, j < i -> nth_error input_shardings j = Some b ->
                             exists p, parsesTo OpSharding_ParseFromString b p) ->
                (dyn_cast_StringAttr a = None ->
                 SetMetadataProtoArgs op metadata
                 = inl (emitOpError (opId op)
                          (formatv kBadStringArrayElementMsg
                                   [ArgStr kInputShardingAttr; ArgNat i])))
                /\ (forall s,
                       a = StringAttr s -> OpSharding_ParseFromString s = None ->
                       SetMetadataProtoArgs op metadata
                       = inl (emitOpError (opId op)
                                (formatv kBadArrayElementMsg
                                         [ArgStr kInputShardingAttr; ArgNat i; ArgStr s;
                                          ArgStr "xla::OpSharding"]))))).
Proof.
  unfold SetMetadataProtoArgs. split.
  - intros ->. reflexivity.
  - intros input_shardings ->. split.
    + intros metadata'.
      destruct (negb (List.length input_shardings =? getNumOperands op)); [discriminate|].
      intros H. apply argsLoop_shardings in H. destruct H as (added & Hm & Hl & Hsh).
      exists added. split; [exact Hm|]. split.
      * rewrite Hl. unfold getOperandTypes, getNumOperands. apply length_map.
      * intros i a Hn. destruct (Hsh i a Hn) as (s & Hs & Hp). simpl in Hs.
        exists s. split; [apply nth_StringAttr; exact Hs|exact Hp].
    + intros i a Hl Hn Htypes Hbefore. rewrite Hl, Nat.eqb_refl. simpl.
      assert (Hi : i < List.length (getOperandTypes op)).
      { unfold getOperandTypes. rewrite length_map. fold (getNumOperands op).
        rewrite <- Hl. apply nth_error_Some. congruence. }
      assert (Hnth : nth (0 + i) input_shardings (ArrayAttr []) = a).
      { simpl. apply nth_error_nth. exact Hn. }
      assert (Hprefix : forall j, j < i ->
                 exists sharding,
                   parsesTo OpSharding_ParseFromString
                            (nth (0 + j) input_shardings (ArrayAttr [])) sharding).
      { intros j Hj. simpl.
        destruct (nth_error input_shardings j) as [b|] eqn:Hb.
        - rewrite (nth_error_nth _ _ _ Hb). apply (Hbefore j b Hj Hb).
        - apply nth_error_None in Hb.
          assert (i < List.length input_shardings) by (apply nth_error_Some; congruence).
          lia. }
      split.
      * intros Hcast.
        rewrite (argsLoop_sharding_rejected op input_shardings (getOperandTypes op) 0
                                            metadata i Hi); auto.
        -- rewrite Hnth. unfold elementDiagnostic. rewrite Hcast. reflexivity.
        -- rewrite Hnth. intros s ->. discriminate.
      * intros s -> Hp.
        rewrite (argsLoop_sharding_rejected op input_shardings (getOperandTypes op) 0
                                            metadata i Hi); auto.
        -- rewrite Hnth. reflexivity.
        -- rewrite Hnth. intros s' Hs. inversion Hs. subst. exact Hp.
Qed.

(** *** The descriptor of a launch *)

Lemma StepMarkerLocation_set (op : Operation) (metadata metadata' : TPUCompileMetadataProto) :
  SetMetadataProtoStepMarkerLocation op metadata = inr metadata' ->
  exists value,
    getAttrOfType dyn_cast_StringAttr op kStepMarkerLocationAttr = Some value
    /\ metadata' = set_step_marker_location metadata (step_marker_location metadata')
    /\ if String.eqb value "" then step_marker_location metadata' = STEP_MARK_AT_ENTRY
       else StepMarkerLocation_Parse value = Some (step_marker_location metadata').
Proof.
  unfold SetMetadataProtoStepMarkerLocation.
  destruct (getAttrOfType dyn_cast_StringAttr op kStepMarkerLocationAttr) as [v|];
    [|discriminate].
  intros H. exists v. split; [reflexivity|].
  destruct (String.eqb v "").
  - inversion H. subst. auto.
  - destruct (StepMarkerLocation_Parse v) as [location|]; [|discriminate].
    inversion H. subst. auto.
Qed.

Lemma descriptor_header (op : Operation) (replicas cores : Z)
      (xla : option DeviceAssignmentProto) (metadata : TPUCompileMetadataProto) :
  SetMetadataProtoFromLaunchFuncOp op replicas cores xla emptyMetadata = inr metadata ->
  num_replicas metadata = replicas
  /\ num_cores_per_replica metadata = cores
  /\ device_assignment metadata = xla.
Proof.
  unfold SetMetadataProtoFromLaunchFuncOp, andThen.
  destruct (SetMetadataProtoStepMarkerLocation op _) as [d|m1] eqn:H1; [discriminate|].
  destruct (SetMetadataProtoPaddingMap op m1) as [d|m2] eqn:H2; [discriminate|].
  set (m3 := match xla with Some d => set_device_assignment m2 d | None => m2 end).
  destruct (SetMetadataProtoArgs op m3) as [d|m4] eqn:H4; [discriminate|].
  intros H5.
  apply StepMarkerLocation_set in H1. destruct H1 as (value & _ & Hm1 & _).
  unfold SetMetadataProtoPaddingMap in H2.
  destruct (getAttrOfType dyn_cast_ArrayAttr op kPaddingMapAttr) as [padding_map|];
    [|discriminate].
  apply paddingMapLoop_parsed in H2. destruct H2 as (parsed & _ & Hm2).
  unfold SetMetadataProtoArgs in H4.
  destruct (getAttrOfType dyn_cast_ArrayAttr op kInputShardingAttr) as [input_shardings|];
    [|discriminate].
  destruct (negb (List.length input_shardings =? getNumOperands op)); [discriminate|].
  apply argsLoop_shardings in H4. destruct H4 as (added & Hm4 & _).
  unfold SetMetadataProtoRetvals in H5.
  destruct (getAttrOfType dyn_cast_ArrayAttr op kOutputShardingAttr) as [output_shardings|];
    [|discriminate].
  destruct (negb (List.length output_shardings =? getNumResults op)); [discriminate|].
  apply retvalsLoop_parsed in H5. destruct H5 as (shardings & _ & Hm5).
  rewrite Hm5, Hm4. unfold m3. rewrite Hm2, Hm1.
  destruct xla; simpl; repeat split; reflexivity.
Qed.

(** X4.  The descriptor [SetMetadataProtoFromLaunchFuncOp] builds from an
    empty message holds the replica and core counts it was given, the device
    assignment exactly when one was given, the step marker location of the
    attribute ([STEP_MARK_AT_ENTRY] for the empty string), the parsed padding
    maps in order and the parsed output shardings in order. *)
Theorem descriptor_of_launch (op : Operation) (replicas cores : Z)
        (xla : option DeviceAssignmentProto) (metadata : TPUCompileMetadataProto) :
  SetMetadataProtoFromLaunchFuncOp op replicas cores xla emptyMetadata = inr metadata ->
  num_replicas metadata = replicas
  /\ num_cores_per_replica metadata = cores
  /\ device_assignment metadata = xla
  /\ (exists value,
         getAttrOfType dyn_cast_StringAttr op kStepMarkerLocationAttr = Some value
         /\ if String.eqb value "" then step_marker_location metadata = STEP_MARK_AT_ENTRY
            else StepMarkerLocation_Parse value = Some (step_marker_location metadata))
  /\ (exists padding_map,
         getAttrOfType dyn_cast_ArrayAttr op kPaddingMapAttr = Some padding_map
         /\ Forall2 (parsesTo PaddingMap_ParseFromString) padding_map (padding_maps metadata))
  /\ (exists output_shardings,
         getAttrOfType dyn_cast_ArrayAttr op kOutputShardingAttr = Some output_shardings
         /\ Forall2 (parsesTo OpSharding_ParseFromString) output_shardings
                    (map retval_sharding (retvals metadata))).
Proof.
  unfold SetMetadataProtoFromLaunchFuncOp, andThen.
  destruct (SetMetadataProtoStepMarkerLocation op _) as [d|m1] eqn:H1; [discriminate|].
  destruct (SetMetadataProtoPaddingMap op m1) as [d|m2] eqn:H2; [discriminate|].
  set (m3 := match xla with Some d => set_device_assignment m2 d | None => m2 end).
  destruct (SetMetadataProtoArgs op m3) as [d|m4] eqn:H4; [discriminate|].
  intros H5.
  apply StepMarkerLocation_set in H1. destruct H1 as (value & Hvalue & Hm1 & Hlocation).
  unfold SetMetadataProtoPaddingMap in H2.
  destruct (getAttrOfType dyn_cast_ArrayAttr op kPaddingMapAttr) as [padding_map|];
    [|discriminate].
  apply paddingMapLoop_parsed in H2. destruct H2 as (parsed & Hparsed & Hm2).
  unfold SetMetadataProtoArgs in H4.
  destruct (getAttrOfType dyn_cast_ArrayAttr op kInputShardingAttr) as [input_shardings|];
    [|discriminate].
  destruct (negb (List.length input_shardings =? getNumOperands op)); [discriminate|].
  apply argsLoop_shardings in H4. destruct H4 as (added & Hm4 & _).
  unfold SetMetadataProtoRetvals in H5.
  destruct (getAttrOfType dyn_cast_ArrayAttr op kOutputShardingAttr) as [output_shardings|];
    [|discriminate].
  destruct (negb (List.length output_shardings =? getNumResults op)); [discriminate|].
  apply retvalsLoop_parsed in H5. destruct H5 as (shardings & Hshardings & Hm5).
  assert (H3 : num_replicas m3 = replicas /\ num_cores_per_replica m3 = cores
               /\ device_assignment m3 = xla
               /\ step_marker_location m3 = step_marker_location m1
               /\ padding_maps m3 = parsed /\ retvals m3 = []).
  { unfold m3. rewrite Hm2, Hm1. destruct xla; simpl; repeat split; reflexivity. }
  destruct H3 as (Hr & Hc & Hx & Hl & Hp & Hv).
  rewrite Hm5, Hm4. simpl. rewrite Hv. simpl.
  split; [exact Hr|]. split; [exact Hc|]. split; [exact Hx|].
  split; [exists value; rewrite Hl; auto|].
  split; [exists padding_map; rewrite Hp; auto|].
  exists output_shardings. split; [reflexivity|].
  rewrite map_map. simpl. rewrite map_id. exact Hshardings.
Qed.

(** *** The order of the diagnostics *)

(** Two outcomes of a step that differ at most in the descriptor. *)
Definition sameOutcome (a b : Populated) : Prop :=
  match a, b with
  | inl d, inl d' => d = d'
  | inr _, inr _ => True
  | _, _ => False
  end.

Lemma StepMarkerLocation_sameOutcome (op : Operation) (m m' : TPUCompileMetadataProto) :
  sameOutcome (SetMetadataProtoStepMarkerLocation op m) (SetMetadataProtoStepMarkerLocation op m').
Proof.
  unfold SetMetadataProtoStepMarkerLocation.
  destruct (getAttrOfType dyn_cast_StringAttr op kStepMarkerLocationAttr) as [v|]; simpl; auto.
  destruct (String.eqb v ""); simpl; auto.
  destruct (StepMarkerLocation_Parse v); simpl; auto.
Qed.

Lemma PaddingMap_sameOutcome (op : Operation) (m m' : TPUCompileMetadataProto) :
  sameOutcome (SetMetadataProtoPaddingMap op m) (SetMetadataProtoPaddingMap op m').
Proof.
  unfold SetMetadataProtoPaddingMap.
  destruct (getAttrOfType dyn_cast_ArrayAttr op kPaddingMapAttr) as [l|]; simpl; auto.
  generalize 0. revert m m'.
  induction l as [|a rest IH]; simpl; intros m m' index; auto.
  destruct (dyn_cast_StringAttr a) as [s|]; simpl; auto.
  destruct (PaddingMap_ParseFromString s); simpl; auto.
Qed.

Lemma Args_sameOutcome (op : Operation) (m m' : TPUCompileMetadataProto) :
  sameOutcome (SetMetadataProtoArgs op m) (SetMetadataProtoArgs op m').
Proof.
  unfold SetMetadataProtoArgs.
  destruct (getAttrOfType dyn_cast_ArrayAttr op kInputShardingAttr) as [l|]; simpl; auto.
  destruct (negb (List.length l =? getNumOperands op)); simpl; auto.
  generalize 0. revert m m'.
  induction (getOperandTypes op) as [|t rest IH]; simpl; intros m m' index; auto.
  destruct (ConvertToDataType t); simpl; auto.
  destruct (SetOpSharding op (nth index l (ArrayAttr [])) kInputShardingAttr index);
    simpl; auto.
Qed.

Lemma Retvals_sameOutcome (op : Operation) (m m' : TPUCompileMetadataProto) :
  sameOutcome (SetMetadataProtoRetvals op m) (SetMetadataProtoRetvals op m').
Proof.
  unfold SetMetadataProtoRetvals.
  destruct (getAttrOfType dyn_cast_ArrayAttr op kOutputShardingAttr) as [l|]; simpl; auto.
  destruct (negb (List.length l =? getNumResults op)); simpl; auto.
  generalize 0. revert m m'.
  induction l as [|a rest IH]; simpl; intros m m' index; auto.
  destruct (SetOpSharding op a kOutputShardingAttr index); simpl; auto.
Qed.

(** A step that, on its own, accepts the launch or refuses it with [d]. *)
Definition accepts (step : Operation -> TPUCompileMetadataProto -> Populated)
           (op : Operation) : Prop :=
  exists metadata, step op emptyMetadata = inr metadata.

Definition refusesWith (step : Operation -> TPUCompileMetadataProto -> Populated)
           (op : Operation) (d : Diagnostic) : Prop :=
  step op emptyMetadata = inl d.

Lemma sameOutcome_refused (a b : Populated) (d : Diagnostic) :
  sameOutcome a b -> a = inl d -> b = inl d.
Proof. intros H ->. destruct b; simpl in H; [congruence|contradiction]. Qed.

Lemma sameOutcome_accepted (a b : Populated) (m : TPUCompileMetadataProto) :
  sameOutcome a b -> a = inr m -> exists m', b = inr m'.
Proof. intros H ->. destruct b; simpl in H; [contradiction|eauto]. Qed.

(** X5.  Whether a step of the descriptor build accepts a launch, and the
    diagnostic with which it refuses one, do not depend on the descriptor
    built so far; so the build fails with the diagnostic of the first of the
    step marker, the padding map, the arguments and the results that refuses
    the launch, and succeeds when none does. *)
Theorem descriptor_first_refusal (op : Operation) (replicas cores : Z)
        (xla : option DeviceAssignmentProto) (metadata : TPUCompileMetadataProto) :
  let build := SetMetadataProtoFromLaunchFuncOp op replicas cores xla metadata in
  (forall d, refusesWith SetMetadataProtoStepMarkerLocation op d -> build = inl d)
  /\ (accepts SetMetadataProtoStepMarkerLocation op ->
      (forall d, refusesWith SetMetadataProtoPaddingMap op d -> build = inl d)
      /\ (accepts SetMetadataProtoPaddingMap op ->
          (forall d, refusesWith SetMetadataProtoArgs op d -> build = inl d)
          /\ (accepts SetMetadataProtoArgs op ->
              (forall d, refusesWith SetMetadataProtoRetvals op d -> build = inl d)
              /\ (accepts SetMetadataProtoRetvals op ->
                  exists metadata', build = inr metadata')))).
Proof.
  unfold accepts, refusesWith, SetMetadataProtoFromLaunchFuncOp, andThen. simpl.
  set (m0 := set_num_cores_per_replica (set_num_replicas metadata replicas) cores).
  split.
  { intros d H.
    rewrite (sameOutcome_refused _ _ d (StepMarkerLocation_sameOutcome op _ m0) H).
    reflexivity. }
  intros (a1 & H1).
  destruct (sameOutcome_accepted _ _ a1 (StepMarkerLocation_sameOutcome op _ m0) H1)
    as (m1 & ->).
  split.
  { intros d H.
    rewrite (sameOutcome_refused _ _ d (PaddingMap_sameOutcome op _ m1) H). reflexivity. }
  intros (a2 & H2).
  destruct (sameOutcome_accepted _ _ a2 (PaddingMap_sameOutcome op _ m1) H2) as (m2 & ->).
  set (m3 := match xla with Some d => set_device_assignment m2 d | None => m2 end).
  split.
  { intros d H.
    rewrite (sameOutcome_refused _ _ d (Args_sameOutcome op _ m3) H). reflexivity. }
  intros (a4 & H4).
  destruct (sameOutcome_accepted _ _ a4 (Args_sameOutcome op _ m3) H4) as (m4 & ->).
  split.
  { intros d H.
    rewrite (sameOutcome_refused _ _ d (Retvals_sameOutcome op _ m4) H). reflexivity. }
  intros (a5 & H5).
  apply (sameOutcome_accepted _ _ a5 (Retvals_sameOutcome op _ m4) H5).
Qed.

End DescriptorFields.

(** A marked launch of [tpu_func] on one core with the given padding maps
    and shardings. *)
Definition launch_with (padding inputs outputs : list Attribute) : Operation :=
  mkOperation 4 kLaunchFuncOp Example.operands2 [Example.i1]
    [(kTPUReplicateAttr, StringAttr "cluster0");
     (kNumCoresPerReplicaAttr, IntegerAttr 1);
     (kStepMarkerLocationAttr, StringAttr "STEP_MARK_NONE");
     (kPaddingMapAttr, ArrayAttr padding);
     (@kInputShardingAttr Example.collaborators, ArrayAttr inputs);
     (@kOutputShardingAttr Example.collaborators, ArrayAttr outputs);
     ("func", FlatSymbolRefAttr "tpu_func")] [].

Section DescriptorFieldWitnesses.
#[local] Existing Instance Example.collaborators.

Lemma padding_maps_in_order_witness :
  SetMetadataProtoPaddingMap Example.launch_unmarked emptyMetadata
  = inl (emitOpError 4 (CreateMissingAttributeMsg kPaddingMapAttr))
  /\ SetMetadataProtoPaddingMap (launch_with [StringAttr "p0"; StringAttr "p1"] [] [])
                                emptyMetadata
     = inr (withPaddingMaps emptyMetadata ["p0"; "p1"])
  /\ SetMetadataProtoPaddingMap (launch_with [StringAttr "p0"; IntegerAttr 7; StringAttr "?"]
                                             [] [])
                                emptyMetadata
     = inl (emitOpError 4 (formatv kBadStringArrayElementMsg
                                   [ArgStr kPaddingMapAttr; ArgNat 1]))
  /\ SetMetadataProtoPaddingMap (launch_with [StringAttr "p0"; StringAttr "?"] [] [])
                                emptyMetadata
     = inl (emitOpError 4 (formatv kBadArrayElementMsg
                                   [ArgStr kPaddingMapAttr; ArgNat 1; ArgStr "?";
                                    ArgStr "tpu::PaddingMap"])).
Proof.
  assert (Hfirst : forall rest j b,
             j < 1 -> nth_error (StringAttr "p0" :: rest) j = Some b ->
             exists p, parsesTo PaddingMap_ParseFromString b p).
  { intros rest j b Hj Hb. destruct j as [|j]; [|lia]. inversion Hb. subst b.
    exists "p0", "p0". split; reflexivity. }
  split; [|split; [|split]].
  - exact (proj1 (padding_maps_in_order Example.launch_unmarked emptyMetadata) eq_refl).
  - apply (proj1 (proj2 (padding_maps_in_order
                           (launch_with [StringAttr "p0"; StringAttr "p1"] [] [])
                           emptyMetadata)
                        [StringAttr "p0"; StringAttr "p1"] eq_refl)).
    exists ["p0"; "p1"]. split; [|reflexivity].
    repeat constructor; eexists; split; reflexivity.
  - exact (proj1 (proj2 (proj2 (padding_maps_in_order
                                  (launch_with [StringAttr "p0"; IntegerAttr 7; StringAttr "?"]
                                               [] [])
                                  emptyMetadata)
                               [StringAttr "p0"; IntegerAttr 7; StringAttr "?"] eq_refl)
                        1 (IntegerAttr 7) eq_refl (Hfirst _)) eq_refl).
  - exact (proj2 (proj2 (proj2 (padding_maps_in_order
                                  (launch_with [StringAttr "p0"; StringAttr "?"] [] [])
                                  emptyMetadata)
                               [StringAttr "p0"; StringAttr "?"] eq_refl)
                        1 (StringAttr "?") eq_refl (Hfirst _)) "?" eq_refl eq_refl).
Defined.

Lemma result_descriptors_witness :
  SetMetadataProtoRetvals Example.launch_unmarked emptyMetadata
  = inl (emitOpError 4 (CreateMissingAttributeMsg kOutputShardingAttr))
  /\ SetMetadataProtoRetvals (launch_with [] [] [IntegerAttr 7; StringAttr "c"]) emptyMetadata
     = inl (lengthMismatch (launch_with [] [] [IntegerAttr 7; StringAttr "c"])
                           kOutputShardingAttr 1 2)
  /\ SetMetadataProtoRetvals (launch_with [] [] [StringAttr "c"]) emptyMetadata
     = inr (withRetvals emptyMetadata [mkRetval "c"])
  /\ SetMetadataProtoRetvals (launch_with [] [] [StringAttr "?"]) emptyMetadata
     = inl (emitOpError 4 (formatv kBadArrayElementMsg
                                   [ArgStr kOutputShardingAttr; ArgNat 0; ArgStr "?";
                                    ArgStr "xla::OpSharding"])).
Proof.
  split; [|split; [|split]].
  - exact (proj1 (result_descriptors Example.launch_unmarked emptyMetadata) eq_refl).
  - refine (proj1 (proj2 (result_descriptors (C := Example.collaborators)
                            (launch_with [] [] [IntegerAttr 7; StringAttr "c"]) emptyMetadata)
                         [IntegerAttr 7; StringAttr "c"] eq_refl) _).
    vm_compute. discriminate.
  - apply (proj1 (proj2 (proj2 (result_descriptors (C := Example.collaborators) (launch_with [] [] [StringAttr "c"])
                                                   emptyMetadata)
                               [StringAttr "c"] eq_refl) eq_refl)).
    exists ["c"]. split; [|reflexivity].
    repeat constructor; eexists; split; reflexivity.
  - refine (proj2 (proj2 (proj2 (proj2 (result_descriptors (C := Example.collaborators) (launch_with [] [] [StringAttr "?"])
                                                           emptyMetadata)
                                       [StringAttr "?"] eq_refl) eq_refl)
                         0 (StringAttr "?") eq_refl _) "?" eq_refl eq_refl).
    intros j b Hj. lia.
Defined.

Lemma argument_shardings_witness :
  (exists metadata,
      SetMetadataProtoArgs (launch_with [] [StringAttr "a"; StringAttr "b"] []) emptyMetadata
      = inr metadata
      /\ exists added, metadata = withArgs emptyMetadata ([] ++ added)
                       /\ List.length added = 2)
  /\ SetMetadataProtoArgs (launch_with [] [StringAttr "a"; IntegerAttr 7] []) emptyMetadata
     = inl (emitOpError 4 (formatv kBadStringArrayElementMsg
                                   [ArgStr kInputShardingAttr; ArgNat 1])).
Proof.
  split.
  - eexists. split; [reflexivity|].
    destruct (proj1 (proj2 (argument_shardings (C := Example.collaborators)
                              (launch_with [] [StringAttr "a"; StringAttr "b"] [])
                              emptyMetadata)
                           [StringAttr "a"; StringAttr "b"] eq_refl) _ eq_refl)
      as (added & Hm & Hl & _).
    exists added. split; [exact Hm|exact Hl].
  - refine (proj1 (proj2 (proj2 (argument_shardings (C := Example.collaborators)
                                   (launch_with [] [StringAttr "a"; IntegerAttr 7] [])
                                   emptyMetadata)
                                [StringAttr "a"; IntegerAttr 7] eq_refl)
                         1 (IntegerAttr 7) eq_refl eq_refl _ _) eq_refl).
    + intros j u Hj Hu. destruct j as [|[|j]]; [| |lia]; inversion Hu; subst u;
        eexists; reflexivity.
    + intros j b Hj Hb. destruct j as [|j]; [|lia]. inversion Hb. subst b.
      exists "a", "a". split; reflexivity.
Defined.

Lemma descriptor_of_launch_witness :
  exists metadata,
    SetMetadataProtoFromLaunchFuncOp (C := Example.collaborators)
      (launch_with [StringAttr "p0"] [StringAttr "a"; StringAttr "b"] [StringAttr "c"])
      2 3 (Some tt) emptyMetadata = inr metadata
    /\ num_replicas metadata = 2%Z
    /\ num_cores_per_replica metadata = 3%Z
    /\ device_assignment metadata = Some tt.
Proof.
  eexists. split; [reflexivity|].
  destruct (descriptor_of_launch (C := Example.collaborators)
              (launch_with [StringAttr "p0"] [StringAttr "a"; StringAttr "b"] [StringAttr "c"])
              2 3 (Some tt) _ eq_refl) as (Hr & Hc & Hx & _).
  exact (conj Hr (conj Hc Hx)).
Defined.

Lemma descriptor_first_refusal_witness :
  SetMetadataProtoFromLaunchFuncOp Example.launch_unmarked 1 1 None emptyMetadata
  = inl (emitOpError 4 (CreateMissingAttributeMsg kStepMarkerLocationAttr))
  /\ SetMetadataProtoFromLaunchFuncOp (launch_with [IntegerAttr 7] [] [StringAttr "?"])
                                      1 1 None emptyMetadata
     = inl (emitOpError 4 (formatv kBadStringArrayElementMsg
                                   [ArgStr kPaddingMapAttr; ArgNat 0])).
Proof.
  split.
  - exact (proj1 (descriptor_first_refusal (C := Example.collaborators) Example.launch_unmarked 1 1 None emptyMetadata)
                 _ eq_refl).
  - refine (proj1 (proj2 (descriptor_first_refusal (C := Example.collaborators)
                            (launch_with [IntegerAttr 7] [] [StringAttr "?"])
                            1 1 None emptyMetadata) _) _ eq_refl).
    eexists. reflexivity.
Defined.

End DescriptorFieldWitnesses.

(** ** The node builders, one by one *)

Section BuilderProperties.
Context {C : Collaborators} {P : Serializers}.

Lemma removeOp_split (before after : list Operation) (op : Operation) :
  NoDup (map opId (before ++ op :: after)) ->
  removeOp (opId op) (before ++ op :: after) = before ++ after.
Proof.
  intros Hnd. rewrite map_app in Hnd. simpl in Hnd.
  pose proof (NoDup_remove_2 _ _ _ Hnd) as Hnot.
  unfold removeOp. rewrite filter_app. simpl. rewrite Nat.eqb_refl. simpl.
  fold (removeOp (opId op) before). fold (removeOp (opId op) after).
  rewrite !removeOp_absent; [reflexivity| |].
  - apply Forall_forall. intros o Ho E. apply Hnot. rewrite <- E.
    apply in_or_app. right. apply in_map. exact Ho.
  - apply Forall_forall. intros o Ho E. apply Hnot. rewrite <- E.
    apply in_or_app. left. apply in_map. exact Ho.
Qed.

Lemma countOps_launchAround (name : string) (id : nat) (op : Operation) (device : string) :
  countOps name (launchAround id op device)
  = (if String.eqb kLaunchOp name then 1 else 0) + countOps name op
    + (if String.eqb kReturnOp name then 1 else 0).
Proof.
  unfold launchAround. cbn [countOps getRegions map list_sum]. unfold isa.
  cbn [opName list_sum fold_right].
  destruct (String.eqb kLaunchOp name), (String.eqb kReturnOp name); lia.
Qed.

(** X6.  [WrapOpInLaunch] moves the operation: the launch it returns has
    no operands, the result types of the operation and the device as its only
    attribute; its body is the operation followed by a return of the results
    of the operation; in the block the operation is gone, the other
    operations keep their order and the launch comes last; and two operations
    were created, a launch and a return. *)
Theorem wrap_moves_operation (builder : OpBuilder) (op : Operation) (device : string) :
  NoDup (map opId (insertionBlock builder)) ->
  In op (insertionBlock builder) ->
  forall launch builder',
    WrapOpInLaunch builder op device = (launch, builder') ->
    (opName launch = kLaunchOp /\ opId launch = nextId builder
     /\ getOperands launch = [] /\ getResultTypes launch = getResultTypes op
     /\ getAttrs launch = [(kDeviceAttr, StringAttr device)])
    /\ (exists terminator,
           getRegions launch = [[op; terminator]]
           /\ opName terminator = kReturnOp
           /\ getOperands terminator = getResults op
           /\ getNumResults terminator = 0)
    /\ (exists before after,
           insertionBlock builder = before ++ op :: after
           /\ insertionBlock builder' = before ++ after ++ [launch])
    /\ nextId builder' = 2 + nextId builder
    /\ forall name,
        countIn name (insertionBlock builder')
        = countIn name (insertionBlock builder)
          + (if String.eqb kLaunchOp name then 1 else 0)
          + (if String.eqb kReturnOp name then 1 else 0).
Proof.
  intros Hnd Hin launch builder' H. rewrite WrapOpInLaunch_created in H.
  inversion H as [[Hl Hb]]. clear H.
  destruct (in_split _ _ Hin) as (before & after & Hsplit).
  rewrite Hsplit in Hnd.
  assert (Hblock : removeOp (opId op) (insertionBlock builder)
                   ++ [launchAround (nextId builder) op device]
                   = before ++ after ++ [launchAround (nextId builder) op device]).
  { rewrite Hsplit, (removeOp_split _ _ _ Hnd), <- app_assoc. reflexivity. }
  split; [repeat split; reflexivity|].
  split; [eexists; repeat split; reflexivity|].
  split; [exists before, after; split; [exact Hsplit|exact Hblock]|].
  split; [reflexivity|].
  intros name. cbn [insertionBlock]. rewrite Hblock, Hsplit.
  assert (Hc : forall o l, countIn name (o :: l) = countOps name o + countIn name l)
    by reflexivity.
  rewrite !countIn_app, !Hc, countOps_launchAround.
  change (countIn name []) with 0. lia.
Qed.

(** *** [BuildCompileOp] step by step *)

(** The probes [BuildCompileOp] inserts and the builder after them. *)
Definition probesFor (launch_func : Operation) (builder : OpBuilder) : list Operation :=
  shapeProbes (nextId builder) (filter dynamicShape (getOperands launch_func)).

Definition afterProbes (launch_func : Operation) (builder : OpBuilder) : OpBuilder :=
  mkBuilder (nextId builder + List.length (probesFor launch_func builder))
            (insertionBlock builder ++ probesFor launch_func builder).

Definition noFuncAttribute (launch_func : Operation) : Diagnostic :=
  emitOpError (opId launch_func) (formatv "does not have `func` attribute" []).

(** Once the descriptor is built, the probes are inserted before anything
    else is looked at. *)
Lemma BuildCompileOp_run (fuel : nat) (parentModule : list Operation -> ModuleOp)
      (launch_func : Operation) (replicas cores : Z) (compilation_device : string)
      (xla : option DeviceAssignmentProto) (builder : OpBuilder)
      (metadata : TPUCompileMetadataProto) :
  SetMetadataProtoFromLaunchFuncOp launch_func replicas cores xla emptyMetadata
  = inr metadata ->
  BuildCompileOp fuel parentModule launch_func replicas cores compilation_device xla builder
  = let builder1 := afterProbes launch_func builder in
    match getAttrOfType dyn_cast_FlatSymbolRefAttr launch_func "func" with
    | None => Some (inl (noFuncAttribute launch_func), builder1)
    | Some func_attr =>
        let module := parentModule (insertionBlock builder1) in
        match lookupFunc (getBody module) func_attr with
        | None => None
        | Some func =>
            match EncapsulateFunc fuel module func with
            | None => None
            | Some (_, inl d) => Some (inl d, builder1)
            | Some (_, inr module_for_func) =>
                let compile_op :=
                  compileOperation (nextId builder1)
                                   (flat_map getResults (probesFor launch_func builder))
                                   (serialized metadata) (printModule module_for_func) in
                Some (inr (launchAround (S (nextId builder1)) compile_op compilation_device),
                      mkBuilder (S (S (S (nextId builder1))))
                                (removeOp (nextId builder1)
                                          (insertionBlock builder1 ++ [compile_op])
                                 ++ [launchAround (S (nextId builder1)) compile_op
                                                  compilation_device]))
            end
        end
    end.
Proof.
  intros Hm. unfold BuildCompileOp. rewrite Hm.
  destruct (SetMetadataProtoFromLaunchFuncOp_success _ _ _ _ _ Hm) as (Hd & _).
  rewrite shapeOpsLoop_run.
  2:{ intros i v Hv. simpl. apply (Forall2_describes_nth _ _ Hd).
      unfold getOperandTypes. rewrite nth_error_map, Hv. reflexivity. }
  cbv zeta. unfold afterProbes, probesFor. rewrite shapeProbes_length.
  destruct (getAttrOfType dyn_cast_FlatSymbolRefAttr launch_func "func") as [func_attr|];
    [|reflexivity].
  cbn [insertionBlock nextId].
  destruct (lookupFunc _ func_attr) as [func|]; [|reflexivity].
  unfold EncapsulateFuncAndSerialize.
  destruct (EncapsulateFunc fuel _ func) as [[m [d|module_for_func]]|]; try reflexivity.
Qed.

Lemma EncapsulateFunc_refused (fuel : nat) (module module' : ModuleOp) (func : FuncOp)
      (d : Diagnostic) :
  EncapsulateFunc fuel module func = Some (module', inl d)
  <-> getAttr module kVersionsAttr = None /\ module' = module
      /\ d = emitError (opId module) (CreateMissingAttributeMsg kVersionsAttr).
Proof.
  unfold EncapsulateFunc. destruct (getAttr module kVersionsAttr) as [versions|].
  - split.
    + destruct (encapsulateLoop fuel _ func [func] _); discriminate.
    + intros (H & _). discriminate.
  - split.
    + intros H. inversion H. auto.
    + intros (_ & -> & ->). reflexivity.
Qed.

(** X7.  The ways [BuildCompileOp] returns no operation.  When the
    descriptor cannot be built it returns with the diagnostic of the
    descriptor and a block it has not touched.  Otherwise the shape ops of
    the operands of dynamic shape are already in the block when it finds that
    the launch has no symbol attribute [func], or that the module around the
    launch has no [tf.versions] attribute; it then returns with that
    diagnostic and leaves those shape ops behind.  There is no other way, and
    no fuel is needed to get there. *)
Theorem compile_op_refusals (fuel : nat) (parentModule : list Operation -> ModuleOp)
        (launch_func : Operation) (replicas cores : Z) (compilation_device : string)
        (xla : option DeviceAssignmentProto) (builder builder' : OpBuilder)
        (d : Diagnostic) :
  let module := parentModule (insertionBlock (afterProbes launch_func builder)) in
  BuildCompileOp fuel parentModule launch_func replicas cores compilation_device xla builder
  = Some (inl d, builder')
  <-> (SetMetadataProtoFromLaunchFuncOp launch_func replicas cores xla emptyMetadata = inl d
       /\ builder' = builder)
      \/ ((exists metadata,
              SetMetadataProtoFromLaunchFuncOp launch_func replicas cores xla emptyMetadata
              = inr metadata)
          /\ builder' = afterProbes launch_func builder
          /\ ((getAttrOfType dyn_cast_FlatSymbolRefAttr launch_func "func" = None
               /\ d = noFuncAttribute launch_func)
              \/ (exists func_attr func,
                     getAttrOfType dyn_cast_FlatSymbolRefAttr launch_func "func"
                     = Some func_attr
                     /\ lookupFunc (getBody module) func_attr = Some func
                     /\ getAttr module kVersionsAttr = None
                     /\ d = emitError (opId module)
                                      (CreateMissingAttributeMsg kVersionsAttr)))).
Proof.
  cbv zeta.
  destruct (SetMetadataProtoFromLaunchFuncOp launch_func replicas cores xla emptyMetadata)
    as [d0|metadata] eqn:Hm.
  - unfold BuildCompileOp. rewrite Hm. split.
    + intros H. inversion H. left. auto.
    + intros [(H & ->)|((m & H) & _)]; [|discriminate]. inversion H. reflexivity.
  - rewrite (BuildCompileOp_run _ _ _ _ _ _ _ _ _ Hm). cbv zeta.
    destruct (getAttrOfType dyn_cast_FlatSymbolRefAttr launch_func "func") as [func_attr|].
    + destruct (lookupFunc _ func_attr) as [func|] eqn:Hf.
      * destruct (EncapsulateFunc fuel _ func) as [[m [d1|module_for_func]]|] eqn:He.
        -- apply EncapsulateFunc_refused in He. destruct He as (Hv & _ & Hd). split.
           ++ intros H. inversion H. subst. right. split; [eauto|]. split; [reflexivity|].
              right. exists func_attr, func. auto.
           ++ intros [(H & _)|(_ & -> & [(H & _)|(a & f & Ha & _ & _ & ->)])];
                try discriminate.
              rewrite Hd. reflexivity.
        -- split; [discriminate|].
           intros [(H & _)|(_ & _ & [(H & _)|(a & f & Ha & Hf' & Hv & _)])];
             try discriminate.
           inversion Ha. subst a. rewrite Hf in Hf'. inversion Hf'. subst f.
           assert (Hr : EncapsulateFunc fuel
                          (parentModule (insertionBlock (afterProbes launch_func builder)))
                          func
                        = Some (parentModule
                                  (insertionBlock (afterProbes launch_func builder)),
                                inl (emitError
                                       (opId (parentModule
                                                (insertionBlock
                                                   (afterProbes launch_func builder))))
                                       (CreateMissingAttributeMsg kVersionsAttr))))
             by (apply EncapsulateFunc_refused; auto).
           rewrite He in Hr. discriminate.
        -- split; [discriminate|].
           intros [(H & _)|(_ & _ & [(H & _)|(a & f & Ha & Hf' & Hv & _)])];
             try discriminate.
           inversion Ha. subst a. rewrite Hf in Hf'. inversion Hf'. subst f.
           unfold EncapsulateFunc in He. rewrite Hv in He. discriminate.
      * split; [discriminate|].
        intros [(H & _)|(_ & _ & [(H & _)|(a & f & Ha & Hf' & _)])]; try discriminate.
        inversion Ha. subst a. rewrite Hf in Hf'. discriminate.
    + split.
      * intros H. inversion H. subst. right. split; [eauto|]. split; [reflexivity|].
        left. auto.
      * intros [(H & _)|(_ & -> & [(_ & ->)|(a & f & Ha & _)])]; try discriminate.
        reflexivity.
Qed.

(** The shape ops a refusal leaves behind are all there is: nothing of the
    block is removed and no compile node is added. *)
Lemma afterProbes_block (launch_func : Operation) (builder : OpBuilder) :
  insertionBlock (afterProbes launch_func builder)
  = insertionBlock builder ++ probesFor launch_func builder
  /\ Forall (fun probe => opName probe = kShapeOp) (probesFor launch_func builder)
  /\ List.length (probesFor launch_func builder)
     = List.length (filter dynamicShape (getOperands launch_func)).
Proof.
  split; [reflexivity|]. split; [|apply shapeProbes_length].
  apply Forall_forall. intros probe Hp. eapply shapeProbes_name. exact Hp.
Qed.

(** X8.  The compile node [BuildCompileOp] returns, inside its launch on
    the compilation device: the attribute [metadata] is the descriptor of the
    launch, as its debug string when the flag [tpu_compile_metadata_debug] is
    set and serialized otherwise; the attribute [mlir_module] is the printed
    module that the closure extractor built for the function that the
    attribute [func] names in the module around the launch. *)
Theorem compile_op_attributes (fuel : nat) (parentModule : list Operation -> ModuleOp)
        (launch_func : Operation) (replicas cores : Z) (compilation_device : string)
        (xla : option DeviceAssignmentProto) (builder builder' : OpBuilder)
        (launch : Operation) :
  BuildCompileOp fuel parentModule launch_func replicas cores compilation_device xla builder
  = Some (inr launch, builder') ->
  let module := parentModule (insertionBlock (afterProbes launch_func builder)) in
  exists metadata func_attr func module_for_func compile_op terminator,
    SetMetadataProtoFromLaunchFuncOp launch_func replicas cores xla emptyMetadata
    = inr metadata
    /\ getAttrOfType dyn_cast_FlatSymbolRefAttr launch_func "func" = Some func_attr
    /\ lookupFunc (getBody module) func_attr = Some func
    /\ EncapsulateFunc fuel module func = Some (module, inr module_for_func)
    /\ getRegions launch = [[compile_op; terminator]]
    /\ getAttr launch kDeviceAttr = Some (StringAttr compilation_device)
    /\ opName compile_op = kTPUCompileMlirOp
    /\ getAttr compile_op "metadata"
       = Some (StringAttr (if tpu_compile_metadata_debug then DebugString metadata
                           else SerializeToString metadata))
    /\ getAttr compile_op "mlir_module" = Some (StringAttr (printModule module_for_func)).
Proof.
  intros H. cbv zeta.
  destruct (SetMetadataProtoFromLaunchFuncOp launch_func replicas cores xla emptyMetadata)
    as [d0|metadata] eqn:Hm.
  { unfold BuildCompileOp in H. rewrite Hm in H. discriminate. }
  rewrite (BuildCompileOp_run _ _ _ _ _ _ _ _ _ Hm) in H. cbv zeta in H.
  destruct (getAttrOfType dyn_cast_FlatSymbolRefAttr launch_func "func") as [func_attr|];
    [|discriminate].
  destruct (lookupFunc _ func_attr) as [func|] eqn:Hf; [|discriminate].
  destruct (EncapsulateFunc fuel _ func) as [[m [d1|module_for_func]]|] eqn:He;
    try discriminate.
  assert (Hsame : m = parentModule (insertionBlock (afterProbes launch_func builder))).
  { unfold EncapsulateFunc in He.
    destruct (getAttr _ kVersionsAttr); [|discriminate].
    destruct (encapsulateLoop fuel _ func [func] _); [|discriminate].
    inversion He. reflexivity. }
  subst m. inversion H as [[Hl Hb]].
  exists metadata, func_attr, func, module_for_func. eexists. eexists.
  repeat split; try reflexivity; assumption.
Qed.

(** *** [BuildParallelExecuteOp] on a compile operation with enough results *)

(** The block built for one logical core from [next] on: the execute node on
    [inputs] and [program], wrapped in a launch without a device, and the
    return of the results of that launch. *)
Definition executeRegion (launch_func : Operation) (inputs : list Value) (program : Value)
           (next : nat) : list Operation :=
  let execute :=
    mkOperation next kTPUExecuteOp (inputs ++ [program]) (getResultTypes launch_func) [] [] in
  let launch := launchAround (S next) execute "" in
  [launch; mkOperation (S (S (S next))) kReturnOp (getResults launch) [] [] []].

Lemma parallelRegionsLoop_step (compile_op launch_func : Operation)
      (input_list : list (list Value)) (remaining core_id next : nat)
      (regions : list (list Operation)) (inputs : list Value) (program : Value) :
  nth_error input_list core_id = Some inputs ->
  getResult compile_op (1 + core_id) = Some program ->
  parallelRegionsLoop (S remaining) core_id compile_op launch_func input_list next regions
  = parallelRegionsLoop remaining (S core_id) compile_op launch_func input_list (4 + next)
                        (regions ++ [executeRegion launch_func inputs program next]).
Proof.
  intros Hi Hp. cbn [parallelRegionsLoop]. rewrite Hi, Hp.
  unfold BuildExecuteOp, createOperation, WrapOpInLaunch, removeOp.
  cbn [nextId insertionBlock opId app filter]. rewrite Nat.eqb_refl. reflexivity.
Qed.

Lemma parallelRegionsLoop_built (compile_op launch_func : Operation)
      (input_list : list (list Value)) :
  forall remaining core_id next regions,
    (forall k, k < remaining ->
               (exists inputs, nth_error input_list (core_id + k) = Some inputs)
               /\ exists program, getResult compile_op (1 + (core_id + k)) = Some program) ->
    exists built,
      parallelRegionsLoop remaining core_id compile_op launch_func input_list next regions
      = Some (regions ++ built, 4 * remaining + next)
      /\ List.length built = remaining
      /\ forall k inputs program,
          nth_error input_list (core_id + k) = Some inputs ->
          getResult compile_op (1 + (core_id + k)) = Some program ->
          k < remaining ->
          nth_error built k = Some (executeRegion launch_func inputs program (4 * k + next)).
Proof.
  induction remaining as [|remaining IH]; intros core_id next regions H.
  - exists []. rewrite app_nil_r. split; [reflexivity|]. split; [reflexivity|].
    intros k inputs program _ _ Hk. lia.
  - destruct (H 0) as ((inputs & Hi) & (program & Hp)); [lia|].
    rewrite Nat.add_0_r in Hi, Hp.
    rewrite (parallelRegionsLoop_step _ _ _ _ _ _ _ _ _ Hi Hp).
    destruct (IH (S core_id) (4 + next)
                 (regions ++ [executeRegion launch_func inputs program next]))
      as (built & Hrun & Hlen & Hnth).
    { intros k Hk. replace (S core_id + k) with (core_id + S k) by lia. apply H. lia. }
    exists (executeRegion launch_func inputs program next :: built).
    split; [rewrite Hrun, <- app_assoc; f_equal; f_equal; lia|].
    split; [simpl; congruence|].
    intros k inputs' program' Hi' Hp' Hk. destruct k as [|k].
    + rewrite Nat.add_0_r in Hi', Hp'. simpl.
      replace inputs' with inputs by congruence. replace program' with program by congruence.
      reflexivity.
    + simpl. replace (S (k + S (k + S (k + S (k + 0))) + next)) with (4 * k + (4 + next))
        by lia.
      apply Hnth; [| |lia]; replace (S core_id + k) with (core_id + S k) by lia; assumption.
Qed.

(** X9.  [BuildParallelExecuteOp] for [cores] logical cores, given one input
    list per core and a compile operation that has a result [1 + core_id] for
    every core: it appends to the block one [tf_device.parallel_execute]
    operation without operands, whose result types are those of the launch
    repeated once per core and which has one region per core; region
    [core_id] holds the execute node on the inputs of that core followed by
    result [1 + core_id] of the compile operation, wrapped in a launch
    without a device, and the return of the results of that launch.  With a
    number of input lists other than [cores] there is no defined outcome. *)
Theorem parallel_execute_regions (cores : Z) (compile_op launch_func : Operation)
        (builder : OpBuilder) :
  let input_list := ExtractInputsForLogicalDevices cores launch_func in
  (List.length input_list <> Z.to_nat cores ->
   BuildParallelExecuteOp cores compile_op launch_func builder = None)
  /\ (List.length input_list = Z.to_nat cores ->
      (forall core_id, core_id < Z.to_nat cores ->
                       exists program, getResult compile_op (1 + core_id) = Some program) ->
      exists op builder',
        BuildParallelExecuteOp cores compile_op launch_func builder = Some (op, builder')
        /\ opName op = kParallelExecuteOp
        /\ opId op = nextId builder
        /\ getOperands op = []
        /\ getResultTypes op
           = List.concat (repeat (getResultTypes launch_func) (Z.to_nat cores))
        /\ List.length (getRegions op) = Z.to_nat cores
        /\ insertionBlock builder' = insertionBlock builder ++ [op]
        /\ nextId builder' = 4 * Z.to_nat cores + S (nextId builder)
        /\ forall core_id inputs program,
            nth_error input_list core_id = Some inputs ->
            getResult compile_op (1 + core_id) = Some program ->
            nth_error (getRegions op) core_id
            = Some (executeRegion launch_func inputs program
                                  (4 * core_id + S (nextId builder)))).
Proof.
  cbv zeta. unfold BuildParallelExecuteOp. split.
  - intros Hne. apply Nat.eqb_neq in Hne. rewrite Hne. reflexivity.
  - intros Hlen Hresults. rewrite Hlen, Nat.eqb_refl. cbn [negb].
    destruct (parallelRegionsLoop_built compile_op launch_func
                (ExtractInputsForLogicalDevices cores launch_func)
                (Z.to_nat cores) 0 (S (nextId builder)) [])
      as (built & Hrun & Hbuilt & Hnth).
    { intros k Hk. simpl. split; [|apply Hresults; exact Hk].
      destruct (nth_error (ExtractInputsForLogicalDevices cores launch_func) k) eqn:E;
        [eauto|]. apply nth_error_None in E. lia. }
    rewrite Hrun. eexists. eexists. split; [reflexivity|].
    cbn [opName opId getOperands getResultTypes getRegions insertionBlock nextId app].
    repeat split; try reflexivity; try exact Hbuilt.
    intros core_id inputs program Hi Hp. apply (Hnth core_id inputs program Hi Hp).
    rewrite <- Hlen. apply nth_error_Some. congruence.
Qed.

(** *** [RemapOutputsOfParallelExecute] *)

Lemma combine_zip_fst (a b : nat) (types : list mlirType) :
  forall types' start p,
    In p (combine (resultsFrom a start types) (resultsFrom b start types')) ->
    exists i t, start <= i /\ fst p = OpResult a i t.
Proof.
  induction types as [|u types IH]; simpl; intros types' start p H; [destruct H|].
  destruct types' as [|u' types']; simpl in H; [destruct H|].
  destruct H as [<-|H].
  - exists start, u. auto.
  - apply IH in H. destruct H as (i & t & Hi & E). exists i, t. split; [lia|exact E].
Qed.

Lemma replaceValues_zip (a b : nat) (types : list mlirType) :
  a <> b ->
  forall types' start i t,
    nth_error types i = Some t ->
    replaceValues (combine (resultsFrom a start types) (resultsFrom b start types'))
                  (OpResult a (start + i) t)
    = match nth_error types' i with
      | Some t' => OpResult b (start + i) t'
      | None => OpResult a (start + i) t
      end.
Proof.
  intros Hab. induction types as [|u types IH]; intros types' start i t Ht.
  - destruct i; discriminate.
  - destruct types' as [|u' types'].
    + simpl. destruct i; reflexivity.
    + simpl. unfold replaceValue at 1. destruct i as [|i]; simpl in Ht.
      * inversion Ht; subst u. rewrite Nat.add_0_r.
        destruct (Value_eq_dec (OpResult a start t) (OpResult a start t)); [|congruence].
        simpl. apply replaceValues_other. intros p Hp E.
        apply combine_zip_fst in Hp. destruct Hp as (k & w & _ & Hk).
        rewrite E in Hk. inversion Hk. congruence.
      * destruct (Value_eq_dec (OpResult a (start + S i) t) (OpResult a start u)) as [E|E].
        -- inversion E. lia.
        -- replace (start + S i) with (S start + i) by lia.
           exact (IH types' (S start) i t Ht).
Qed.

Lemma nth_error_concat_repeat (A : Type) (l : list A) (n i : nat) (x : A) :
  0 < n -> nth_error l i = Some x -> nth_error (List.concat (repeat l n)) i = Some x.
Proof.
  intros Hn Hx. destruct n as [|n]; [lia|]. simpl.
  rewrite nth_error_app1; [exact Hx|]. apply nth_error_Some. congruence.
Qed.

(** X10.  [RemapOutputsOfParallelExecute] replaces by position: every use of
    result [i] of the launch becomes a use of result [i] of the operation
    given, a result of the launch with no counterpart keeps its uses, and no
    other value is touched.  The block holds the same operations in the same
    order, each with the operands the replacement gives, and no operand of
    the block, nested ones included, is a result of the launch that has a
    counterpart.  When the result types of the operation are those of the
    launch repeated for one or more cores, every result of the launch is
    replaced by the result of the same number and type, so that only the
    results of the first core are used. *)
Theorem remap_by_position (launch_func op : Operation) (focus : BlockFocus) :
  opId launch_func <> opId op ->
  exists subst,
    RemapOutputsOfParallelExecute launch_func op focus = substFocus subst focus
    /\ (forall i v w,
           getResult launch_func i = Some v -> getResult op i = Some w -> subst v = w)
    /\ (forall i v,
           getResult launch_func i = Some v -> getResult op i = None -> subst v = v)
    /\ (forall v, (forall i, getResult launch_func i <> Some v) -> subst v = v)
    /\ (forall cores i t,
           0 < cores ->
           getResultTypes op = List.concat (repeat (getResultTypes launch_func) cores) ->
           nth_error (getResultTypes launch_func) i = Some t ->
           subst (OpResult (opId launch_func) i t) = OpResult (opId op) i t)
    /\ operandsReplaced subst (blockOps focus)
                        (blockOps (RemapOutputsOfParallelExecute launch_func op focus))
    /\ (forall i v w,
           getResult launch_func i = Some v -> getResult op i = Some w ->
           ~ In v (usesIn (blockOps (RemapOutputsOfParallelExecute launch_func op focus)))).
Proof.
  intros Hne.
  exists (replaceValues (combine (getResults launch_func) (getResults op))).
  assert (Hzip : forall i t,
             nth_error (getResultTypes launch_func) i = Some t ->
             replaceValues (combine (getResults launch_func) (getResults op))
                           (OpResult (opId launch_func) i t)
             = match nth_error (getResultTypes op) i with
               | Some t' => OpResult (opId op) i t'
               | None => OpResult (opId launch_func) i t
               end).
  { intros i t Ht.
    exact (replaceValues_zip (opId launch_func) (opId op) (getResultTypes launch_func) Hne
                             (getResultTypes op) 0 i t Ht). }
  assert (Hother : forall v,
             (forall i, getResult launch_func i <> Some v) ->
             replaceValues (combine (getResults launch_func) (getResults op)) v = v).
  { intros v Hv. apply replaceValues_other. intros [x y] Hp E. simpl in E. subst x.
    apply in_combine_l in Hp. apply In_nth_error in Hp. destruct Hp as (i & Hi).
    apply (Hv i). exact Hi. }
  assert (Hrun : RemapOutputsOfParallelExecute launch_func op focus
                 = substFocus (replaceValues (combine (getResults launch_func)
                                                      (getResults op))) focus)
    by apply replaceAllUsesWithAll_subst.
  split; [exact Hrun|]. split; [|split; [|split; [|split; [|split]]]].
  - intros i v w Hv Hw. rewrite getResult_spec in Hv, Hw.
    destruct (nth_error (getResultTypes launch_func) i) as [t|] eqn:Ht; [|discriminate].
    destruct (nth_error (getResultTypes op) i) as [t'|] eqn:Ht'; [|discriminate].
    simpl in Hv, Hw. inversion Hv. inversion Hw. rewrite (Hzip i t Ht), Ht'. reflexivity.
  - intros i v Hv Hw. rewrite getResult_spec in Hv, Hw.
    destruct (nth_error (getResultTypes launch_func) i) as [t|] eqn:Ht; [|discriminate].
    destruct (nth_error (getResultTypes op) i) as [t'|] eqn:Ht'; [discriminate|].
    simpl in Hv. inversion Hv. rewrite (Hzip i t Ht), Ht'. reflexivity.
  - exact Hother.
  - intros cores i t Hc Ht' Ht.
    rewrite (Hzip i t Ht), Ht', (nth_error_concat_repeat _ _ cores i t Hc Ht). reflexivity.
  - rewrite Hrun, blockOps_substFocus. apply operandsReplaced_map.
  - intros i v w Hv Hw. rewrite Hrun, blockOps_substFocus, usesIn_map.
    intros Hin. apply in_map_iff in Hin. destruct Hin as (y & E & _).
    rewrite getResult_spec in Hv, Hw.
    destruct (nth_error (getResultTypes launch_func) i) as [t|] eqn:Ht; [|discriminate].
    destruct (nth_error (getResultTypes op) i) as [t'|] eqn:Ht'; [|discriminate].
    simpl in Hv. injection Hv as Ev. subst v. clear Hw.
    destruct (in_dec Value_eq_dec y (getResults launch_func)) as [Hy|Hy].
    + apply In_nth_error in Hy. destruct Hy as (j & Hj).
      change (nth_error (getResults launch_func) j) with (getResult launch_func j) in Hj.
      rewrite getResult_spec in Hj.
      destruct (nth_error (getResultTypes launch_func) j) as [u|] eqn:Hu; [|discriminate].
      simpl in Hj. injection Hj as Ey. subst y.
      rewrite (Hzip j u Hu) in E.
      destruct (nth_error (getResultTypes op) j) as [u'|] eqn:Hu'.
      * inversion E. congruence.
      * inversion E. subst j. congruence.
    + rewrite Hother in E.
      * subst y. apply Hy. apply (nth_error_In _ i).
        change (nth_error (getResults launch_func) i) with (getResult launch_func i).
        rewrite getResult_spec, Ht. reflexivity.
      * intros j Hj. apply Hy. apply (nth_error_In _ j). exact Hj.
Qed.

End BuilderProperties.

(** A marked launch that lacks the attribute [func], a module without the
    [tf.versions] attribute, and a compile operation with a program for each
    of two cores. *)
Definition launch_without_func : Operation :=
  mkOperation 4 kLaunchFuncOp Example.operands2 [Example.i1]
    [(kTPUReplicateAttr, StringAttr "cluster0");
     (kNumCoresPerReplicaAttr, IntegerAttr 1);
     (kStepMarkerLocationAttr, StringAttr "");
     (kPaddingMapAttr, ArrayAttr []);
     (@kInputShardingAttr Example.collaborators, ArrayAttr [StringAttr "a"; StringAttr "b"]);
     (@kOutputShardingAttr Example.collaborators, ArrayAttr [StringAttr "c"])] [].

Definition module_without_versions (main_body : list Operation) : ModuleOp :=
  mkOperation 1 kModuleOp [] [] [] [Example.func 2 "main" main_body :: Example.callees].

Definition compile_for_two_cores : Operation :=
  mkOperation 30 kLaunchOp [] [stringTensor; stringTensor; stringTensor] [] [].

Section BuilderWitnesses.
#[local] Existing Instance Example.collaborators.
#[local] Existing Instance Example.serializers.

Lemma wrap_moves_operation_witness :
  exists before after,
    [Example.some_op 5 []; Example.some_op 6 []; Example.some_op 7 []]
    = before ++ Example.some_op 6 [] :: after
    /\ insertionBlock
         (snd (WrapOpInLaunch (mkBuilder 20 [Example.some_op 5 []; Example.some_op 6 [];
                                             Example.some_op 7 []])
                              (Example.some_op 6 []) "/CPU:0"))
       = before ++ after ++ [launchAround 20 (Example.some_op 6 []) "/CPU:0"].
Proof.
  assert (Hnd : NoDup (map opId [Example.some_op 5 []; Example.some_op 6 [];
                                 Example.some_op 7 []])).
  { simpl. repeat constructor; simpl; intuition lia. }
  exact (proj1 (proj2 (proj2
           (wrap_moves_operation
              (mkBuilder 20 [Example.some_op 5 []; Example.some_op 6 []; Example.some_op 7 []])
              (Example.some_op 6 []) "/CPU:0" Hnd (or_intror (or_introl eq_refl))
              _ _ eq_refl)))).
Defined.

Lemma compile_op_refusals_witness :
  BuildCompileOp 0 Example.module_of launch_without_func 1 1 "/CPU:0" None (mkBuilder 20 [])
  = Some (inl (noFuncAttribute launch_without_func),
          afterProbes launch_without_func (mkBuilder 20 []))
  /\ BuildCompileOp 0 module_without_versions Example.launch1 1 1 "/CPU:0" None
                    (mkBuilder 20 [])
     = Some (inl (emitError 1 (CreateMissingAttributeMsg kVersionsAttr)),
             afterProbes Example.launch1 (mkBuilder 20 []))
  /\ List.length (insertionBlock (afterProbes Example.launch1 (mkBuilder 20 []))) = 1.
Proof.
  split; [|split; [|reflexivity]].
  - pose proof (compile_op_refusals (C := Example.collaborators) (P := Example.serializers)
                  0 Example.module_of launch_without_func 1 1 "/CPU:0" None
                  (mkBuilder 20 []) (afterProbes launch_without_func (mkBuilder 20 []))
                  (noFuncAttribute launch_without_func)) as H.
    cbv zeta in H. apply H. right.
    split; [eexists; reflexivity|]. split; [reflexivity|]. left. split; reflexivity.
  - pose proof (compile_op_refusals (C := Example.collaborators) (P := Example.serializers)
                  0 module_without_versions Example.launch1 1 1 "/CPU:0" None
                  (mkBuilder 20 []) (afterProbes Example.launch1 (mkBuilder 20 []))
                  (emitError 1 (CreateMissingAttributeMsg kVersionsAttr))) as H.
    cbv zeta in H. apply H. right.
    split; [eexists; reflexivity|]. split; [reflexivity|]. right.
    exists "tpu_func", (Example.func 6 "tpu_func" [Example.call 7 "helper"]).
    repeat split.
Defined.

Lemma compile_op_attributes_witness :
  exists launch builder' compile_op terminator,
    BuildCompileOp 10 Example.module_of Example.launch1 1 1 "/CPU:0" None (mkBuilder 20 [])
    = Some (inr launch, builder')
    /\ getRegions launch = [[compile_op; terminator]]
    /\ getAttr launch kDeviceAttr = Some (StringAttr "/CPU:0")
    /\ getAttr compile_op "metadata" = Some (StringAttr "metadata")
    /\ getAttr compile_op "mlir_module" = Some (StringAttr "main,helper").
Proof.
  assert (Hrun : exists launch builder',
             BuildCompileOp 10 Example.module_of Example.launch1 1 1 "/CPU:0" None
                            (mkBuilder 20 [])
             = Some (inr launch, builder'))
    by (eexists; eexists; vm_compute; reflexivity).
  destruct Hrun as (launch & builder' & Hrun).
  destruct (compile_op_attributes (C := Example.collaborators) (P := Example.serializers)
              _ _ _ _ _ _ _ _ _ _ Hrun)
    as (metadata & func_attr & func & module_for_func & compile_op & terminator
        & _ & Hattr & Hfunc & Hclosure & Hregions & Hdevice & _ & Hmetadata & Hmodule).
  exists launch, builder', compile_op, terminator.
  split; [exact Hrun|]. split; [exact Hregions|]. split; [exact Hdevice|].
  split; [exact Hmetadata|].
  rewrite Hmodule. inversion Hattr. subst func_attr.
  vm_compute in Hfunc. inversion Hfunc. subst func.
  vm_compute in Hclosure. inversion Hclosure. reflexivity.
Defined.

Lemma parallel_execute_regions_witness :
  exists op builder',
    BuildParallelExecuteOp 2 compile_for_two_cores Example.launch2 (mkBuilder 40 [])
    = Some (op, builder')
    /\ List.length (getRegions op) = 2
    /\ getResultTypes op = [Example.i1; Example.i1]
    /\ nth_error (getRegions op) 1
       = Some (executeRegion Example.launch2 Example.operands2
                             (OpResult 30 2 stringTensor) 45).
Proof.
  destruct (proj2 (parallel_execute_regions (C := Example.collaborators)
                     2 compile_for_two_cores Example.launch2 (mkBuilder 40 [])) eq_refl)
    as (op & builder' & Hrun & _ & _ & _ & Htypes & Hregions & _ & _ & Hregion).
  { intros core_id Hcore. destruct core_id as [|[|core_id]]; [| |simpl in Hcore; lia];
      eexists; reflexivity. }
  exists op, builder'. split; [exact Hrun|]. split; [exact Hregions|].
  split; [exact Htypes|].
  exact (Hregion 1 Example.operands2 (OpResult 30 2 stringTensor) eq_refl eq_refl).
Defined.

Lemma remap_by_position_witness :
  exists subst,
    RemapOutputsOfParallelExecute
      Example.launch1
      (mkOperation 50 kParallelExecuteOp [] [Example.i1; Example.i1] [] [])
      (Example.focus_on None Example.launch1)
    = substFocus subst (Example.focus_on None Example.launch1)
    /\ subst (OpResult 4 0 Example.i1) = OpResult 50 0 Example.i1
    /\ operandsReplaced
         subst (blockOps (Example.focus_on None Example.launch1))
         (blockOps (RemapOutputsOfParallelExecute
                      Example.launch1
                      (mkOperation 50 kParallelExecuteOp [] [Example.i1; Example.i1] [] [])
                      (Example.focus_on None Example.launch1)))
    /\ ~ In (OpResult 4 0 Example.i1)
            (usesIn (blockOps (RemapOutputsOfParallelExecute
                                 Example.launch1
                                 (mkOperation 50 kParallelExecuteOp []
                                              [Example.i1; Example.i1] [] [])
                                 (Example.focus_on None Example.launch1)))).
Proof.
  destruct (remap_by_position
              Example.launch1
              (mkOperation 50 kParallelExecuteOp [] [Example.i1; Example.i1] [] [])
              (Example.focus_on None Example.launch1))
    as (subst & Hsubst & _ & _ & _ & Hfirst & Hblock & Hnouse); [simpl; lia|].
  exists subst. split; [exact Hsubst|].
  split; [exact (Hfirst 2 0 Example.i1 ltac:(lia) eq_refl eq_refl)|].
  split; [exact Hblock|].
  exact (Hnouse 0 (OpResult 4 0 Example.i1) (OpResult 50 0 Example.i1) eq_refl eq_refl).
Defined.

End BuilderWitnesses.

(** ** [Rewrite]: the block it leaves *)

Section RewriteProperties.
Context {C : Collaborators} {P : Serializers}.

Lemma shapeProbes_mapOperands (f : Value -> Value) (operands : list Value) :
  forall next,
    Forall2 (fun operand probe => opName probe = kShapeOp /\ getOperands probe = [f operand])
            operands (map (mapOperands f) (shapeProbes next operands)).
Proof.
  induction operands as [|v rest IH]; simpl; intros next; constructor; auto.
Qed.

(** A value that no result of the launch is stays as it is when the results
    of the launch are replaced. *)
Lemma remapSubst_other (focus : BlockFocus) (launch_func : Operation)
      (cd tm tmod device : string) (v : Value) :
  (forall i t, v <> OpResult (opId launch_func) i t) ->
  remapSubst focus launch_func cd tm tmod device v = v.
Proof.
  intros Hv. unfold remapSubst, getResults.
  change (getResultTypes (newExecuteLaunch focus launch_func cd tm tmod device))
    with (getResultTypes launch_func).
  apply replaceValues_results_other. exact Hv.
Qed.

Lemma resultsFrom_owner (owner : nat) (types : list mlirType) :
  forall start v, In v (resultsFrom owner start types) -> exists i t, v = OpResult owner i t.
Proof.
  induction types as [|u types IH]; simpl; intros start v H; [destruct H|].
  destruct H as [<-|H]; [eauto|]. eapply IH. exact H.
Qed.

(** X11.  The block after a successful [Rewrite] of a marked launch: where
    the launch was there are, in this order, one shape op for each operand of
    dynamic shape, the compile node in a launch on the compilation device,
    the assert in a launch on the same device and the execute node in a
    launch.  The assert has no results and its one operand is the status
    (result 0 of the compile launch); the operands of the execute node are
    the operands of the launch, as the rewrite leaves the values in use,
    followed by the program (result 1 of the compile launch).  What the
    rewrite does to a value in use is fixed: the output of a compilation
    result of the block becomes the status, any other value that is result
    [i] of the launch becomes result [i] of the execute launch, and every
    other value stays; the operations that were around the launch are there
    in the same order with the operands this gives.  Without a replicate
    around the launch the execute node is put on the first execution device
    of the first replica and the parent operation stays as it is. *)
Theorem rewritten_block_layout (fuel : nat) (up : BlockFocus -> ModuleOp)
        (devices : list ParsedName) (focus focus' : BlockFocus) (launch_func : Operation) :
  focused focus = Some launch_func ->
  getAttrOfType dyn_cast_StringAttr launch_func kTPUReplicateAttr <> None ->
  idsBelow (freshId focus) (opsBefore focus) ->
  opId launch_func < freshId focus ->
  Rewrite fuel up devices focus = Some (success, focus') ->
  exists subst probes compile_launch assert_launch execute_launch
         replicas cores compilation_device execution_devices xla status program,
    opsBefore focus'
    = map (mapOperands subst) (opsBefore focus)
      ++ probes ++ [compile_launch; assert_launch; execute_launch]
    /\ Forall2 (fun operand probe =>
                  opName probe = kShapeOp /\ getOperands probe = [subst operand])
               (filter dynamicShape (getOperands launch_func)) probes
    /\ numReplicasOf (asReplicate (parentOp focus)) = Some replicas
    /\ getAttrOfType dyn_cast_IntegerAttr launch_func kNumCoresPerReplicaAttr = Some cores
    /\ GetTPUCompilationAndExecutionDevices devices replicas (to_int cores) "" []
       = inr (compilation_device, execution_devices, xla)
    /\ getResult compile_launch 0 = Some status
    /\ getResult compile_launch 1 = Some program
    /\ getAttr compile_launch kDeviceAttr = Some (StringAttr compilation_device)
    /\ getAttr assert_launch kDeviceAttr = Some (StringAttr compilation_device)
    /\ getResultTypes assert_launch = []
    /\ (exists assert_op terminator,
           getRegions assert_launch = [[assert_op; terminator]]
           /\ opName assert_op = kTPUCompileSucceededAssertOp
           /\ getOperands assert_op = [status]
           /\ getResultTypes assert_op = [])
    /\ (exists execute_op terminator,
           getRegions execute_launch = [[execute_op; terminator]]
           /\ opName execute_op = kTPUExecuteOp
           /\ getOperands execute_op = map subst (getOperands launch_func) ++ [program]
           /\ opName terminator = kReturnOp
           /\ getOperands terminator = getResults execute_op)
    /\ (asReplicate (parentOp focus) = None ->
        parentOp focus' = parentOp focus
        /\ exists row device,
            hd_error execution_devices = Some row
            /\ hd_error row = Some device
            /\ getAttr execute_launch kDeviceAttr = Some (StringAttr device))
    /\ (forall op output,
           In op (blockOps focus) -> isa kTPUCompilationResultOp op = true ->
           getResult op 0 = Some output ->
           subst output = status)
    /\ (forall i v,
           getResult launch_func i = Some v ->
           (forall op, In op (blockOps focus) -> isa kTPUCompilationResultOp op = true ->
                       getResult op 0 <> Some v) ->
           getResult execute_launch i = Some (subst v))
    /\ (forall v,
           (forall i, getResult launch_func i <> Some v) ->
           (forall op, In op (blockOps focus) -> isa kTPUCompilationResultOp op = true ->
                       getResult op 0 <> Some v) ->
           subst v = v)
    /\ (exists kept,
           opsBefore focus' = kept ++ probes ++ [compile_launch; assert_launch; execute_launch]
           /\ operandsReplaced subst (opsBefore focus) kept)
    /\ operandsReplaced subst (opsAfter focus) (opsAfter focus')
    /\ focused focus' = None.
Proof.
  intros Hf Hm Hfresh Holder Hrun.
  destruct (Rewrite_success fuel up devices focus focus' launch_func Hf Hm Hfresh Hrun)
    as (replicas & cores & cd & ed & xla & metadata & txt & device & parent'
        & Hr & Hc & _ & Ha & _ & Hassigned & ->).
  set (tm := serialized metadata).
  assert (Hstatus : remapSubst focus launch_func cd tm txt device
                               (compileStatus focus launch_func)
                    = compileStatus focus launch_func).
  { apply remapSubst_other. intros i t E. injection E as Hid _ _.
    unfold newCompileId in Hid. lia. }
  assert (Hprogram : remapSubst focus launch_func cd tm txt device
                                (compileProgram focus launch_func)
                     = compileProgram focus launch_func).
  { apply remapSubst_other. intros i t E. injection E as Hid _ _.
    unfold newCompileId in Hid. lia. }
  destruct (resolveSubst_spec focus launch_func cd tm txt Hf) as (Hresolve & Hresolve').
  destruct (remapSubst_spec focus launch_func cd tm txt device Holder) as (Hremap & Hremap').
  assert (Hcreated : createdOps focus launch_func cd tm txt device
                     = map (mapOperands (rewriteSubst focus launch_func cd tm txt device))
                           (newProbes focus launch_func)
                       ++ [finalCompileLaunch focus launch_func cd tm txt device;
                           mapOperands (remapSubst focus launch_func cd tm txt device)
                                       (newAssertLaunch focus launch_func cd);
                           mapOperands (remapSubst focus launch_func cd tm txt device)
                                       (newExecuteLaunch focus launch_func cd tm txt device)]).
  { unfold createdOps, finalCompileLaunch.
    rewrite (map_app (mapOperands (remapSubst focus launch_func cd tm txt device))).
    rewrite map_map, map_app. cbn [map]. rewrite <- app_assoc. cbn [app]. f_equal.
    apply map_ext. intros op. rewrite mapOperands_compose. reflexivity. }
  exists (rewriteSubst focus launch_func cd tm txt device).
  exists (map (mapOperands (rewriteSubst focus launch_func cd tm txt device))
              (newProbes focus launch_func)).
  exists (finalCompileLaunch focus launch_func cd tm txt device).
  exists (mapOperands (remapSubst focus launch_func cd tm txt device)
                      (newAssertLaunch focus launch_func cd)).
  exists (mapOperands (remapSubst focus launch_func cd tm txt device)
                      (newExecuteLaunch focus launch_func cd tm txt device)).
  exists replicas, cores, cd, ed, xla.
  exists (compileStatus focus launch_func), (compileProgram focus launch_func).
  rewrite rewritten_parts. cbn [opsBefore opsAfter focused parentOp]. rewrite Hcreated.
  split; [reflexivity|].
  split; [apply shapeProbes_mapOperands|].
  split; [exact Hr|]. split; [exact Hc|]. split; [exact Ha|].
  split; [reflexivity|]. split; [reflexivity|]. split; [reflexivity|].
  split; [reflexivity|]. split; [reflexivity|].
  split.
  { eexists. eexists. split; [reflexivity|]. split; [reflexivity|].
    split; [|reflexivity]. cbn [getOperands map]. rewrite Hstatus. reflexivity. }
  split.
  { eexists. eexists. split; [reflexivity|]. split; [reflexivity|].
    split; [|split; [reflexivity|]].
    - cbn [getOperands newExecuteOp]. rewrite map_app, map_map. cbn [map].
      rewrite Hprogram. reflexivity.
    - rewrite mapOperands_getResults. cbn [mapOperands getOperands].
      rewrite <- (map_id (getResults _)) at 2. apply map_ext_in.
      intros v Hv. apply remapSubst_other. intros i t E.
      apply resultsFrom_owner in Hv. destruct Hv as (j & u & Hv). rewrite Hv in E.
      injection E as Hid _ _. cbn [opId newExecuteOp] in Hid.
      unfold newCompileId in Hid. lia. }
  split.
  { intros Hnone. unfold assigned in Hassigned. rewrite Hnone in Hassigned.
    destruct Hassigned as (row & Hrow & Hdevice & ->).
    split; [reflexivity|]. exists row, device. auto. }
  split.
  { intros op output Hop Hi Ho. unfold rewriteSubst.
    rewrite (Hresolve op output Hop Hi Ho). exact Hstatus. }
  split.
  { intros i v Hv Hno. unfold rewriteSubst. rewrite (Hresolve' v Hno).
    apply Hremap. exact Hv. }
  split.
  { intros v Hlaunch Hno. unfold rewriteSubst. rewrite (Hresolve' v Hno).
    apply Hremap'. exact Hlaunch. }
  split.
  { eexists. split; [reflexivity|]. apply operandsReplaced_map. }
  split; [apply operandsReplaced_map|reflexivity].
Qed.

(** *** The replicate around the launch *)

Lemma lookupAttr_removeAttr_other (name key : string) (attrs : list NamedAttribute) :
  name <> key -> lookupAttr name (removeAttr key attrs) = lookupAttr name attrs.
Proof.
  intros Hne. induction attrs as [|[n a] rest IH]; simpl; [reflexivity|].
  destruct (String.eqb n key) eqn:Ek.
  - apply String.eqb_eq in Ek. subst n.
    assert (En : String.eqb key name = false) by (apply String.eqb_neq; congruence).
    rewrite En. exact IH.
  - simpl. destruct (String.eqb n name); [reflexivity|exact IH].
Qed.

Lemma removeAttr_none (key : string) (attrs : list NamedAttribute) :
  filter (fun na => String.eqb (fst na) key) (removeAttr key attrs) = [].
Proof.
  induction attrs as [|[n a] rest IH]; simpl; [reflexivity|].
  destruct (String.eqb n key) eqn:Ek; [exact IH|]. simpl. rewrite Ek. exact IH.
Qed.

Lemma getAttr_setAttr_other (op : Operation) (key name : string) (value : Attribute) :
  name <> key -> getAttr (setAttr op key value) name = getAttr op name.
Proof.
  intros Hne. unfold getAttr, setAttr. simpl.
  assert (En : String.eqb key name = false) by (apply String.eqb_neq; congruence).
  rewrite En. apply lookupAttr_removeAttr_other. exact Hne.
Qed.

(** X12.  A successful [Rewrite] under a replicate changes nothing of the
    replicate but its attribute [devices]: the replicate keeps its identity
    and its name, every other attribute reads as before, the number of
    replicas in particular, and there is one attribute [devices], whether or
    not the replicate had one before. *)
Theorem replicate_keeps_attributes (fuel : nat) (up : BlockFocus -> ModuleOp)
        (devices : list ParsedName) (focus focus' : BlockFocus)
        (launch_func replicate : Operation) :
  focused focus = Some launch_func ->
  getAttrOfType dyn_cast_StringAttr launch_func kTPUReplicateAttr <> None ->
  idsBelow (freshId focus) (opsBefore focus) ->
  asReplicate (parentOp focus) = Some replicate ->
  Rewrite fuel up devices focus = Some (success, focus') ->
  exists replicate',
    parentOp focus' = Some replicate'
    /\ asReplicate (parentOp focus') = Some replicate'
    /\ opId replicate' = opId replicate
    /\ opName replicate' = opName replicate
    /\ (forall name, name <> kDevicesAttr -> getAttr replicate' name = getAttr replicate name)
    /\ numReplicasOf (Some replicate') = numReplicasOf (Some replicate)
    /\ List.length (filter (fun na => String.eqb (fst na) kDevicesAttr) (getAttrs replicate'))
       = 1.
Proof.
  intros Hf Hm Hfresh Hrep Hrun.
  destruct (Rewrite_success fuel up devices focus focus' launch_func Hf Hm Hfresh Hrun)
    as (replicas & cores & cd & ed & xla & metadata & txt & device & parent'
        & _ & _ & _ & _ & _ & Hassigned & ->).
  unfold assigned in Hassigned. rewrite Hrep in Hassigned.
  destruct Hassigned as (replicate_devices & _ & -> & ->).
  eexists. rewrite rewritten_parts. cbn [parentOp]. split; [reflexivity|].
  assert (Hname : isa kReplicateOp replicate = true).
  { unfold asReplicate in Hrep. destruct (parentOp focus) as [p|]; [|discriminate].
    destruct (isa kReplicateOp p) eqn:E; [|discriminate]. inversion Hrep. subst. exact E. }
  split.
  { unfold asReplicate, isa, setAttr. cbn [opName]. fold (isa kReplicateOp replicate).
    rewrite Hname. reflexivity. }
  split; [reflexivity|]. split; [reflexivity|].
  split; [intros name Hne; apply getAttr_setAttr_other; exact Hne|].
  split.
  { unfold numReplicasOf, getAttrOfType. rewrite getAttr_setAttr_other; [reflexivity|].
    discriminate. }
  unfold setAttr. cbn [getAttrs filter fst]. rewrite String.eqb_refl, removeAttr_none.
  reflexivity.
Qed.

(** *** When [Rewrite] fails *)

Lemma BuildCompileOp_refused (fuel : nat) (parentModule : list Operation -> ModuleOp)
      (launch_func : Operation) (replicas cores : Z) (compilation_device : string)
      (xla : option DeviceAssignmentProto) (builder builder' : OpBuilder) (d : Diagnostic) :
  BuildCompileOp fuel parentModule launch_func replicas cores compilation_device xla builder
  = Some (inl d, builder') ->
  (builder' = builder
   /\ SetMetadataProtoFromLaunchFuncOp launch_func replicas cores xla emptyMetadata = inl d)
  \/ (builder' = afterProbes launch_func builder
      /\ (d = noFuncAttribute launch_func
          \/ exists module,
              d = emitError (opId module) (CreateMissingAttributeMsg kVersionsAttr))).
Proof.
  destruct (SetMetadataProtoFromLaunchFuncOp launch_func replicas cores xla emptyMetadata)
    as [d0|metadata] eqn:Hm.
  - unfold BuildCompileOp. rewrite Hm. intros H. inversion H. left. auto.
  - rewrite (BuildCompileOp_run _ _ _ _ _ _ _ _ _ Hm). cbv zeta.
    destruct (getAttrOfType dyn_cast_FlatSymbolRefAttr launch_func "func") as [func_attr|].
    + destruct (lookupFunc _ func_attr) as [func|]; [|discriminate].
      destruct (EncapsulateFunc fuel _ func) as [[m [d1|module_for_func]]|] eqn:He;
        try discriminate.
      apply EncapsulateFunc_refused in He. destruct He as (_ & _ & ->).
      intros H. inversion H. right. split; [reflexivity|]. right. eauto.
    + intros H. inversion H. right. split; [reflexivity|]. left. reflexivity.
Qed.

Definition missingCores (launch_func : Operation) : Diagnostic :=
  emitOpError (opId launch_func) (CreateMissingAttributeMsg kNumCoresPerReplicaAttr).

Definition noDevices (launch_func : Operation) (error_message : string) : Diagnostic :=
  emitError (opId launch_func)
            (formatv "error in fetching TPU compilation/execution devices: {0}"
                     [ArgStr error_message]).

Lemma Rewrite_failed (fuel : nat) (up : BlockFocus -> ModuleOp) (devices : list ParsedName)
      (focus focus' : BlockFocus) (launch_func : Operation) (d : Diagnostic) :
  focused focus = Some launch_func ->
  Rewrite fuel up devices focus = Some (failure d, focus') ->
  focus' = focus
  \/ (focus' = withBuilder focus (afterProbes launch_func (builderAt focus))
      /\ (d = noFuncAttribute launch_func
          \/ exists module,
              d = emitError (opId module) (CreateMissingAttributeMsg kVersionsAttr))).
Proof.
  intros Hf. unfold Rewrite. rewrite Hf.
  destruct (getAttrOfType dyn_cast_StringAttr launch_func kTPUReplicateAttr) as [marker|];
    [|discriminate].
  destruct (numReplicasOf (asReplicate (parentOp focus))) as [replicas|]; [|discriminate].
  destruct (getAttrOfType dyn_cast_IntegerAttr launch_func kNumCoresPerReplicaAttr)
    as [cores|].
  2:{ intros H. inversion H. left. reflexivity. }
  destruct (GetTPUCompilationAndExecutionDevices devices replicas (to_int cores) "" [])
    as [message|[[compilation_device execution_devices] xla]].
  { intros H. inversion H. left. reflexivity. }
  destruct (BuildCompileOp _ _ _ _ _ _ _ _) as [[[d0|compile_launch] builder1]|] eqn:Hb;
    try discriminate.
  - intros H. inversion H. subst d0.
    apply BuildCompileOp_refused in Hb. destruct Hb as [(-> & _)|(-> & Hd)].
    + left. apply withBuilder_builderAt.
    + right. split; [reflexivity|exact Hd].
  - destruct (resolveCompilationResults _ compile_launch _) as [focus2|]; [|discriminate].
    destruct (BuildTPUCompileSucceededAssertOp _ _ _) as [builder2|]; [|discriminate].
    cbn [focused withBuilder].
    destruct (focused focus2) as [launch2|]; [|discriminate].
    destruct (1 <? to_int cores)%Z.
    + destruct (BuildParallelExecuteOp _ _ _ _) as [[execute_op builder3]|]; discriminate.
    + destruct (getResult compile_launch 1) as [program|]; [|discriminate].
      destruct (BuildExecuteOp _ _ _) as [execute_op builder3].
      destruct (AssignDevicesToReplicatedExecute _ _ _ _) as [[[launch_op r] builder4]|];
        discriminate.
Qed.

(** X13.  The failures of [Rewrite] on a marked launch.  Without an integer
    attribute [num_cores_per_replica], or when the devices cannot be
    resolved, it fails with the diagnostic of that and the block is as it
    was.  Whenever [Rewrite] fails, the launch is still in focus, with the
    operations after it and the parent as they were, and the operations
    before it are those there were, followed by nothing or by the shape ops
    of the operands of dynamic shape; shape ops stay behind only when the
    failure is the missing [func] attribute or the missing [tf.versions]
    attribute of the module. *)
Theorem failed_rewrite_keeps_block (fuel : nat) (up : BlockFocus -> ModuleOp)
        (devices : list ParsedName) (focus : BlockFocus) (launch_func : Operation) :
  focused focus = Some launch_func ->
  getAttrOfType dyn_cast_StringAttr launch_func kTPUReplicateAttr <> None ->
  (forall replicas,
      numReplicasOf (asReplicate (parentOp focus)) = Some replicas ->
      (getAttrOfType dyn_cast_IntegerAttr launch_func kNumCoresPerReplicaAttr = None ->
       Rewrite fuel up devices focus = Some (failure (missingCores launch_func), focus))
      /\ (forall cores error_message,
             getAttrOfType dyn_cast_IntegerAttr launch_func kNumCoresPerReplicaAttr
             = Some cores ->
             GetTPUCompilationAndExecutionDevices devices replicas (to_int cores) "" []
             = inl error_message ->
             Rewrite fuel up devices focus
             = Some (failure (noDevices launch_func error_message), focus)))
  /\ (forall d focus',
         Rewrite fuel up devices focus = Some (failure d, focus') ->
         focused focus' = Some launch_func
         /\ opsAfter focus' = opsAfter focus
         /\ parentOp focus' = parentOp focus
         /\ exists probes,
             opsBefore focus' = opsBefore focus ++ probes
             /\ freshId focus' = freshId focus + List.length probes
             /\ Forall (fun probe => opName probe = kShapeOp) probes
             /\ Forall2 (fun operand probe => getOperands probe = [operand])
                        (firstn (List.length probes)
                                (filter dynamicShape (getOperands launch_func)))
                        probes
             /\ (probes <> [] ->
                 d = noFuncAttribute launch_func
                 \/ exists module,
                     d = emitError (opId module) (CreateMissingAttributeMsg kVersionsAttr))).
Proof.
  intros Hf Hm. split.
  - intros replicas Hr. unfold Rewrite. rewrite Hf.
    destruct (getAttrOfType dyn_cast_StringAttr launch_func kTPUReplicateAttr) as [marker|];
      [|contradiction].
    rewrite Hr. split.
    + intros ->. reflexivity.
    + intros cores error_message -> ->. reflexivity.
  - intros d focus' Hrun.
    destruct (Rewrite_failed fuel up devices focus focus' launch_func d Hf Hrun)
      as [->|(-> & Hd)].
    + split; [exact Hf|]. split; [reflexivity|]. split; [reflexivity|].
      exists []. rewrite app_nil_r, Nat.add_0_r.
      split; [reflexivity|]. split; [reflexivity|]. split; [constructor|].
      split; [constructor|]. intros Hne. contradiction.
    + cbn [withBuilder focused opsAfter parentOp opsBefore freshId afterProbes builderAt
           insertionBlock nextId].
      split; [exact Hf|]. split; [reflexivity|]. split; [reflexivity|].
      exists (probesFor launch_func (builderAt focus)).
      split; [reflexivity|]. split; [reflexivity|].
      destruct (afterProbes_block launch_func (builderAt focus)) as (_ & Hnames & Hlen).
      split; [exact Hnames|]. split; [|intros _; exact Hd].
      rewrite Hlen, firstn_all. unfold probesFor.
      eapply Forall2_impl; [|apply shapeProbes_probe].
      intros operand probe (_ & H & _). exact H.
Qed.

(** *** Fresh identities *)

Lemma createdOps_ids (focus : BlockFocus) (launch_func : Operation)
      (cd tm tmod device : string) :
  Forall (fun op => freshId focus <= opId op < 9 + newCompileId focus launch_func)
         (createdOps focus launch_func cd tm tmod device).
Proof.
  apply Forall_forall. intros o Ho. unfold createdOps in Ho.
  apply in_map_iff in Ho. destruct Ho as (o1 & <- & Ho1). rewrite mapOperands_opId.
  apply in_app_or in Ho1. destruct Ho1 as [H|H].
  - apply in_map_iff in H. destruct H as (o2 & <- & H2). rewrite mapOperands_opId.
    apply in_app_or in H2. destruct H2 as [H2|[<-|[]]].
    + apply shapeProbes_ids in H2. unfold newCompileId, newProbes.
      rewrite shapeProbes_length. lia.
    + unfold newCompileLaunch, launchAround, newCompileId. simpl. lia.
  - destruct H as [<-|[<-|[]]];
      unfold newAssertLaunch, newExecuteLaunch, launchAround, newCompileId; simpl; lia.
Qed.

(** [Rewrite] keeps the identities of the block in order: when every
    operation of the block is older than the next fresh identity before the
    call, the same holds after it, whatever the outcome, and the next fresh
    identity never goes down. *)
Lemma Rewrite_keeps_idsBelow (fuel : nat) (up : BlockFocus -> ModuleOp)
        (devices : list ParsedName) (focus focus' : BlockFocus) (r : LogicalResult) :
  idsBelow (freshId focus) (blockOps focus) ->
  Rewrite fuel up devices focus = Some (r, focus') ->
  freshId focus <= freshId focus' /\ idsBelow (freshId focus') (blockOps focus').
Proof.
  intros Hids Hrun.
  destruct (focused focus) as [launch_func|] eqn:Hf.
  2:{ unfold Rewrite in Hrun. rewrite Hf in Hrun. discriminate. }
  assert (Hbefore : idsBelow (freshId focus) (opsBefore focus)).
  { unfold blockOps in Hids. apply Forall_app in Hids. apply Hids. }
  assert (Hafter : idsBelow (freshId focus) (opsAfter focus)).
  { unfold blockOps in Hids. apply Forall_app in Hids. destruct Hids as (_ & H).
    apply Forall_app in H. apply H. }
  destruct r as [|d].
  - destruct (getAttrOfType dyn_cast_StringAttr launch_func kTPUReplicateAttr)
      as [marker|] eqn:Hm.
    + assert (Hm' : getAttrOfType dyn_cast_StringAttr launch_func kTPUReplicateAttr <> None)
        by congruence.
      destruct (Rewrite_success fuel up devices focus focus' launch_func Hf Hm' Hbefore Hrun)
        as (replicas & cores & cd & ed & xla & metadata & txt & device & parent'
            & _ & _ & _ & _ & _ & _ & ->).
      rewrite rewritten_parts. unfold blockOps. cbn [freshId opsBefore focused opsAfter].
      split; [unfold newCompileId; lia|].
      apply Forall_app. split; [apply Forall_app; split|].
      * apply idsBelow_map. eapply idsBelow_weaken; [|exact Hbefore].
        unfold newCompileId. lia.
      * eapply Forall_impl; [|apply createdOps_ids]. simpl. intros o Ho. lia.
      * simpl. apply idsBelow_map. eapply idsBelow_weaken; [|exact Hafter].
        unfold newCompileId. lia.
    + unfold Rewrite in Hrun. rewrite Hf, Hm in Hrun. inversion Hrun. subst focus'.
      split; [lia|exact Hids].
  - destruct (Rewrite_failed fuel up devices focus focus' launch_func d Hf Hrun)
      as [->|(-> & _)]; [split; [lia|exact Hids]|].
    unfold blockOps.
    cbn [withBuilder focused opsAfter parentOp opsBefore freshId afterProbes builderAt
         insertionBlock nextId].
    split; [lia|]. rewrite Hf.
    apply Forall_app. split; [apply Forall_app; split|].
    + eapply idsBelow_weaken; [|exact Hbefore]. lia.
    + apply Forall_forall. intros o Ho. unfold probesFor in Ho.
      apply shapeProbes_ids in Ho. unfold probesFor. rewrite shapeProbes_length.
      cbn [nextId builderAt] in *. lia.
    + unfold blockOps in Hids. rewrite Hf in Hids. apply Forall_app in Hids.
      destruct Hids as (_ & H). eapply idsBelow_weaken; [|exact H]. lia.
Qed.

(** *** The descriptor in the compile node *)

(** X14.  After a successful [Rewrite] the compile node carries, as its
    attribute [metadata], the descriptor of the launch (as its debug string
    under the flag, serialized otherwise), and that descriptor holds the
    number of replicas of the replicate around the launch, 1 when there is
    none, the number of cores of the launch, and the device assignment of
    the resolver, which was asked with these two numbers. *)
Theorem compile_node_describes_launch (fuel : nat) (up : BlockFocus -> ModuleOp)
        (devices : list ParsedName) (focus focus' : BlockFocus) (launch_func : Operation) :
  focused focus = Some launch_func ->
  getAttrOfType dyn_cast_StringAttr launch_func kTPUReplicateAttr <> None ->
  idsBelow (freshId focus) (opsBefore focus) ->
  Rewrite fuel up devices focus = Some (success, focus') ->
  exists compile_launch compile_op terminator metadata replicas cores
         compilation_device execution_devices,
    In compile_launch (opsBefore focus')
    /\ getRegions compile_launch = [[compile_op; terminator]]
    /\ opName compile_op = kTPUCompileMlirOp
    /\ getAttr compile_op "metadata"
       = Some (StringAttr (if tpu_compile_metadata_debug then DebugString metadata
                           else SerializeToString metadata))
    /\ SetMetadataProtoFromLaunchFuncOp launch_func replicas (to_int cores)
                                        (device_assignment metadata) emptyMetadata
       = inr metadata
    /\ GetTPUCompilationAndExecutionDevices devices replicas (to_int cores) "" []
       = inr (compilation_device, execution_devices, device_assignment metadata)
    /\ getAttrOfType dyn_cast_IntegerAttr launch_func kNumCoresPerReplicaAttr = Some cores
    /\ num_cores_per_replica metadata = to_int cores
    /\ num_replicas metadata = replicas
    /\ match asReplicate (parentOp focus) with
       | Some replicate =>
           exists n, getAttrOfType dyn_cast_IntegerAttr replicate "n" = Some n
                     /\ replicas = to_int n
       | None => replicas = 1%Z
       end.
Proof.
  intros Hf Hm Hfresh Hrun.
  destruct (Rewrite_success fuel up devices focus focus' launch_func Hf Hm Hfresh Hrun)
    as (replicas & cores & cd & ed & xla & metadata & txt & device & parent'
        & Hr & Hc & _ & Ha & Hmeta & _ & ->).
  destruct (descriptor_header _ _ _ _ _ Hmeta) as (Hreplicas & Hcores & Hxla).
  destruct (newCompileLaunch_created focus launch_func cd (serialized metadata) txt device)
    as (Hin & _).
  exists (finalCompileLaunch focus launch_func cd (serialized metadata) txt device).
  eexists. eexists. exists metadata, replicas, cores, cd, ed.
  rewrite rewritten_parts. cbn [opsBefore]. rewrite Hxla.
  split; [apply in_or_app; right; exact Hin|].
  split; [reflexivity|]. split; [reflexivity|]. split; [reflexivity|].
  split; [exact Hmeta|]. split; [exact Ha|]. split; [exact Hc|].
  split; [exact Hcores|]. split; [exact Hreplicas|].
  unfold numReplicasOf in Hr. destruct (asReplicate (parentOp focus)) as [replicate|].
  - destruct (getAttrOfType dyn_cast_IntegerAttr replicate "n") as [n|]; [|discriminate].
    simpl in Hr. inversion Hr. exists n. auto.
  - inversion Hr. reflexivity.
Qed.

(** *** The device of the execute node *)

Lemma fronts_undefined (execution_devices : list (list string)) :
  fronts execution_devices = None <-> In [] execution_devices.
Proof.
  induction execution_devices as [|row rows IH]; simpl.
  - split; [discriminate|intros []].
  - destruct row as [|device row]; simpl.
    + split; [auto|reflexivity].
    + destruct (fronts rows) as [devices|].
      * split; [discriminate|]. intros [H|H]; [discriminate|].
        apply IH in H. discriminate.
      * split; [|reflexivity]. intros _. right. apply IH. reflexivity.
Qed.

(** X15.  [AssignDevicesToReplicatedExecute] takes the front of rows of
    execution devices, and has a defined outcome exactly when each row it
    takes the front of has one: under a replicate no row may be empty (no row
    at all is fine, the replicate then gets an empty list of devices);
    without a replicate there must be a first row and it must not be empty. *)
Theorem execute_device_needs_a_row (execution_devices : list (list string))
        (replicate : option Operation) (execute_op : Operation) (builder : OpBuilder) :
  AssignDevicesToReplicatedExecute execution_devices replicate execute_op builder = None
  <-> match replicate with
      | Some _ => In [] execution_devices
      | None => execution_devices = [] \/ hd_error execution_devices = Some []
      end.
Proof.
  unfold AssignDevicesToReplicatedExecute. destruct replicate as [replicate|].
  - rewrite <- fronts_undefined.
    destruct (fronts execution_devices) as [devices|].
    + unfold WrapOpInLaunch. split; discriminate.
    + split; reflexivity.
  - destruct execution_devices as [|row rows]; simpl.
    + split; auto.
    + destruct row as [|device row]; simpl.
      * split; auto.
      * unfold WrapOpInLaunch. split; [discriminate|].
        intros [H|H]; discriminate.
Qed.

End RewriteProperties.

Section RewritePropertyWitnesses.
#[local] Existing Instance Example.collaborators.
#[local] Existing Instance Example.serializers.

Lemma idsBelow_before_example (parent : option Operation) (launch : Operation) :
  idsBelow (freshId (Example.focus_on parent launch))
           (opsBefore (Example.focus_on parent launch)).
Proof. constructor; [simpl; lia|constructor]. Qed.

Lemma rewritten_block_layout_witness :
  exists (focus' : BlockFocus) (subst : Value -> Value) (probes : list Operation)
         (compile_launch assert_launch execute_launch : Operation) (status : Value),
    Rewrite 10 Example.up Example.devices (Example.focus_on None Example.launch1)
    = Some (success, focus')
    /\ List.length probes = 1
    /\ List.length (opsBefore focus') = 1 + List.length probes + 3
    /\ In execute_launch (opsBefore focus')
    /\ getAttr compile_launch kDeviceAttr = getAttr assert_launch kDeviceAttr
    /\ parentOp focus' = None
    /\ getResult compile_launch 0 = Some status
    /\ subst (OpResult 3 0 stringTensor) = status
    /\ getResult execute_launch 0 = Some (subst (OpResult 4 0 Example.i1))
    /\ subst (BlockArgument 1 Example.dynamic) = BlockArgument 1 Example.dynamic
    /\ operandsReplaced subst Example.after_launch (opsAfter focus').
Proof.
  assert (Hrun : exists focus',
             Rewrite 10 Example.up Example.devices (Example.focus_on None Example.launch1)
             = Some (success, focus'))
    by (eexists; vm_compute; reflexivity).
  destruct Hrun as (focus' & Hrun).
  destruct (rewritten_block_layout (C := Example.collaborators) (P := Example.serializers)
              10 Example.up Example.devices (Example.focus_on None Example.launch1) focus'
              Example.launch1 eq_refl ltac:(discriminate)
              (idsBelow_before_example None Example.launch1) ltac:(vm_compute; lia) Hrun)
    as (subst & probes & compile_launch & assert_launch & execute_launch & replicas & cores
        & cd & ed & xla & status & program & Hbefore & Hprobes & _ & _ & _ & Hstatus & _
        & Hcompile & Hassert & _ & _ & _ & Hdevice & Hresolved & Hremapped & Hother & _
        & Hafter & _).
  exists focus', subst, probes, compile_launch, assert_launch, execute_launch, status.
  split; [exact Hrun|].
  split; [rewrite <- (Forall2_length Hprobes); reflexivity|].
  split; [rewrite Hbefore, !length_app, length_map; simpl; lia|].
  split; [rewrite Hbefore; apply in_or_app; right; apply in_or_app; right; simpl; auto|].
  split; [rewrite Hcompile, Hassert; reflexivity|].
  split; [exact (proj1 (Hdevice eq_refl))|].
  split; [exact Hstatus|].
  split.
  { apply (Hresolved (Example.compilation_result 3 "other")); [left|..]; reflexivity. }
  split.
  { apply Hremapped; [reflexivity|].
    intros op [<-|[<-|[<-|[]]]] Hi E; vm_compute in Hi, E; discriminate. }
  split.
  { apply Hother.
    - intros [|[|i]] E; vm_compute in E; discriminate.
    - intros op [<-|[<-|[<-|[]]]] Hi E; vm_compute in Hi, E; discriminate. }
  exact Hafter.
Defined.

Lemma replicate_keeps_attributes_witness :
  exists focus' replicate',
    Rewrite 10 Example.up Example.devices
            (Example.focus_on (Some Example.replicate2) Example.launch1)
    = Some (success, focus')
    /\ parentOp focus' = Some replicate'
    /\ numReplicasOf (Some replicate') = Some 2%Z.
Proof.
  assert (Hrun : exists focus',
             Rewrite 10 Example.up Example.devices
                     (Example.focus_on (Some Example.replicate2) Example.launch1)
             = Some (success, focus'))
    by (eexists; vm_compute; reflexivity).
  destruct Hrun as (focus' & Hrun).
  destruct (replicate_keeps_attributes (C := Example.collaborators)
              (P := Example.serializers)
              10 Example.up Example.devices
              (Example.focus_on (Some Example.replicate2) Example.launch1) focus'
              Example.launch1 Example.replicate2 eq_refl ltac:(discriminate)
              (idsBelow_before_example _ Example.launch1) eq_refl Hrun)
    as (replicate' & Hparent & _ & _ & _ & _ & Hn & _).
  exists focus', replicate'. split; [exact Hrun|]. split; [exact Hparent|].
  rewrite Hn. reflexivity.
Defined.

Lemma failed_rewrite_keeps_block_witness :
  exists (focus' : BlockFocus) (probes : list Operation),
    Rewrite 0 Example.up Example.devices (Example.focus_on None launch_without_func)
    = Some (failure (noFuncAttribute launch_without_func), focus')
    /\ focused focus' = Some launch_without_func
    /\ opsAfter focus' = Example.after_launch
    /\ opsBefore focus' = Example.before_launch ++ probes
    /\ Forall (fun probe => opName probe = kShapeOp) probes.
Proof.
  assert (Hrun : exists focus',
             Rewrite 0 Example.up Example.devices
                     (Example.focus_on None launch_without_func)
             = Some (failure (noFuncAttribute launch_without_func), focus'))
    by (eexists; vm_compute; reflexivity).
  destruct Hrun as (focus' & Hrun).
  destruct (proj2 (failed_rewrite_keeps_block (C := Example.collaborators)
                     (P := Example.serializers)
                     0 Example.up Example.devices
                     (Example.focus_on None launch_without_func) launch_without_func
                     eq_refl ltac:(discriminate)) _ focus' Hrun)
    as (Hfocused & Hafter & _ & probes & Hbefore & _ & Hnames & _).
  exists focus', probes. repeat split; assumption.
Defined.

Lemma compile_node_describes_launch_witness :
  exists focus' metadata,
    Rewrite 10 Example.up Example.devices
            (Example.focus_on (Some Example.replicate2) Example.launch1)
    = Some (success, focus')
    /\ num_replicas metadata = 2%Z
    /\ num_cores_per_replica metadata = 1%Z
    /\ SetMetadataProtoFromLaunchFuncOp Example.launch1 2 1 (device_assignment metadata)
                                        emptyMetadata
       = inr metadata.
Proof.
  assert (Hrun : exists focus',
             Rewrite 10 Example.up Example.devices
                     (Example.focus_on (Some Example.replicate2) Example.launch1)
             = Some (success, focus'))
    by (eexists; vm_compute; reflexivity).
  destruct Hrun as (focus' & Hrun).
  destruct (compile_node_describes_launch (C := Example.collaborators)
              (P := Example.serializers)
              10 Example.up Example.devices
              (Example.focus_on (Some Example.replicate2) Example.launch1) focus'
              Example.launch1 eq_refl ltac:(discriminate)
              (idsBelow_before_example _ Example.launch1) Hrun)
    as (compile_launch & compile_op & terminator & metadata & replicas & cores & cd & ed
        & _ & _ & _ & _ & Hmeta & Ha & Hc & Hcores & Hreplicas & Hn).
  simpl in Hn. destruct Hn as (n & Hn & ->). inversion Hn. subst n.
  inversion Hc. subst cores.
  change (to_int 2) with 2%Z in *. change (to_int 1) with 1%Z in *.
  exists focus', metadata. split; [exact Hrun|]. split; [exact Hreplicas|].
  split; [exact Hcores|exact Hmeta].
Defined.

End RewritePropertyWitnesses.

(** ** The pass on a module *)

Section PassProperties.
Context {C : Collaborators} {P : Serializers}.

(** A launch the pass is to rewrite: a [tf_device.launch_func] with a string
    attribute [_tpu_replicate]. *)
Definition markedLaunch (op : Operation) : bool :=
  isa kLaunchFuncOp op
  && match getAttrOfType dyn_cast_StringAttr op kTPUReplicateAttr with
     | Some _ => true
     | None => false
     end.

(** Neither [op] nor an operation nested in it is such a launch. *)
Fixpoint noMarkedLaunch (op : Operation) : bool :=
  negb (markedLaunch op) && forallb (forallb noMarkedLaunch) (getRegions op).

(** Fuel that lets the walk get through [op]: one unit for each operation
    and each block. *)
Fixpoint walkFuel (op : Operation) : nat :=
  S (list_sum (map (fun block => S (list_sum (map walkFuel block))) (getRegions op))).

(** The loop of [walkNested] over the regions of an operation. *)
Fixpoint regionsLoop (fuel : nat) (up : nat -> Operation -> ModuleOp)
         (devices : list ParsedName) (done todo : list (list Operation))
         (op : Operation) (fresh : nat) : option (WalkResult * Operation * nat) :=
  match todo with
  | [] => Some (advance, withRegions op done, fresh)
  | block :: todo' =>
      let regionsWith (inner : BlockFocus) :=
        withRegions (parentOr op inner) (done ++ [blockOps inner] ++ todo') in
      match walkBlock fuel (fun inner => up (freshId inner) (regionsWith inner))
                      devices (mkFocus fresh (Some op) [] None block) with
      | None => None
      | Some (interrupt d, inner) => Some (interrupt d, regionsWith inner, freshId inner)
      | Some (advance, inner) =>
          regionsLoop fuel up devices (done ++ [blockOps inner]) todo' (parentOr op inner)
                      (freshId inner)
      end
  end.

Lemma regionsLoop_inner (fuel : nat) (up : nat -> Operation -> ModuleOp)
      (devices : list ParsedName) :
  forall todo done op fresh,
    (fix inner (done todo : list (list Operation)) (op : Operation) (fresh : nat)
       : option (WalkResult * Operation * nat) :=
       match todo with
       | [] => Some (advance, withRegions op done, fresh)
       | block :: todo' =>
           let regionsWith (focus : BlockFocus) :=
             withRegions (parentOr op focus) (done ++ [blockOps focus] ++ todo') in
           match walkBlock fuel (fun focus => up (freshId focus) (regionsWith focus))
                           devices (mkFocus fresh (Some op) [] None block) with
           | None => None
           | Some (interrupt d, focus) =>
               Some (interrupt d, regionsWith focus, freshId focus)
           | Some (advance, focus) =>
               inner (done ++ [blockOps focus]) todo' (parentOr op focus) (freshId focus)
           end
       end) done todo op fresh
    = regionsLoop fuel up devices done todo op fresh.
Proof.
  induction todo as [|block todo IH]; intros done op fresh; [reflexivity|].
  cbn [regionsLoop]. cbv zeta.
  destruct (walkBlock fuel _ devices (mkFocus fresh (Some op) [] None block))
    as [[[|d] focus]|]; try reflexivity.
  apply IH.
Qed.

Lemma walkNested_regions (fuel : nat) (up : nat -> Operation -> ModuleOp)
      (devices : list ParsedName) (op : Operation) (fresh : nat) :
  walkNested (S fuel) up devices op fresh
  = regionsLoop fuel up devices [] (getRegions op) op fresh.
Proof. exact (regionsLoop_inner fuel up devices (getRegions op) [] op fresh). Qed.

Lemma walkBlock_step (fuel : nat) (up : BlockFocus -> ModuleOp) (devices : list ParsedName)
      (fresh : nat) (parent : option Operation) (before : list Operation)
      (current : option Operation) (op : Operation) (rest : list Operation) :
  walkBlock (S fuel) up devices (mkFocus fresh parent before current (op :: rest))
  = match walkNested fuel
                     (fun fresh op => up (mkFocus fresh parent before (Some op) rest))
                     devices op fresh with
    | None => None
    | Some (interrupt d, op, fresh) =>
        Some (interrupt d, mkFocus fresh parent before (Some op) rest)
    | Some (advance, op, fresh) =>
        if isa kLaunchFuncOp op then
          match Rewrite fuel up devices (mkFocus fresh parent before (Some op) rest) with
          | None => None
          | Some (failure d, focus) => Some (interrupt d, focus)
          | Some (success, focus) => walkBlock fuel up devices (advancePast focus)
          end
        else walkBlock fuel up devices
                       (advancePast (mkFocus fresh parent before (Some op) rest))
    end.
Proof. reflexivity. Qed.

Lemma Rewrite_unmarked (fuel : nat) (up : BlockFocus -> ModuleOp) (devices : list ParsedName)
      (focus : BlockFocus) (op : Operation) :
  focused focus = Some op ->
  markedLaunch op = false ->
  isa kLaunchFuncOp op = true ->
  Rewrite fuel up devices focus = Some (success, focus).
Proof.
  intros Hf Hm Hi. unfold Rewrite. rewrite Hf. unfold markedLaunch in Hm. rewrite Hi in Hm.
  destruct (getAttrOfType dyn_cast_StringAttr op kTPUReplicateAttr); [discriminate|].
  reflexivity.
Qed.

(** The walk passes over operations that hold no marked launch and leaves
    them as they are. *)
Definition walkedOver (op : Operation) : Prop :=
  noMarkedLaunch op = true ->
  forall fuel up devices fresh,
    walkFuel op <= fuel ->
    walkNested fuel up devices op fresh = Some (advance, op, fresh).

Lemma walkBlock_unmarked (block : list Operation) :
  Forall walkedOver block ->
  forallb noMarkedLaunch block = true ->
  forall fuel up devices fresh parent before,
    S (list_sum (map walkFuel block)) <= fuel ->
    walkBlock fuel up devices (mkFocus fresh parent before None block)
    = Some (advance, mkFocus fresh parent (before ++ block) None []).
Proof.
  induction 1 as [|op rest Hop _ IH]; intros Hall fuel up devices fresh parent before Hfuel.
  - destruct fuel as [|fuel]; [lia|]. rewrite app_nil_r. reflexivity.
  - simpl in Hall. apply andb_true_iff in Hall. destruct Hall as (Hun & Hrest).
    destruct fuel as [|fuel]; [lia|]. simpl in Hfuel.
    assert (Hpos : 1 <= walkFuel op) by (destruct op; simpl; lia).
    rewrite walkBlock_step, (Hop Hun) by lia.
    assert (Hnext : walkBlock fuel up devices
                              (advancePast (mkFocus fresh parent before (Some op) rest))
                    = Some (advance, mkFocus fresh parent (before ++ op :: rest) None [])).
    { unfold advancePast. cbn [freshId parentOp opsBefore focused opsAfter].
      rewrite IH by (auto; lia). rewrite <- app_assoc. reflexivity. }
    destruct (isa kLaunchFuncOp op) eqn:Hi; [|exact Hnext].
    rewrite (Rewrite_unmarked fuel up devices
                              (mkFocus fresh parent before (Some op) rest) op eq_refl);
      [exact Hnext| |exact Hi].
    destruct op as [id name operands types attrs regions]. simpl in Hun.
    apply andb_true_iff in Hun. destruct Hun as (Hun & _).
    apply negb_true_iff in Hun. exact Hun.
Qed.

Lemma regionsLoop_unmarked (fuel : nat) (devices : list ParsedName) :
  forall todo,
    Forall (Forall walkedOver) todo ->
    forallb (forallb noMarkedLaunch) todo = true ->
    list_sum (map (fun block => S (list_sum (map walkFuel block))) todo) <= fuel ->
    forall up done op fresh,
      regionsLoop fuel up devices done todo op fresh
      = Some (advance, withRegions op (done ++ todo), fresh).
Proof.
  induction 1 as [|block todo Hblock _ IH]; intros Hall Hfuel up done op fresh.
  - rewrite app_nil_r. reflexivity.
  - simpl in Hall. apply andb_true_iff in Hall. destruct Hall as (Hun & Hrest).
    simpl in Hfuel. cbn [regionsLoop].
    rewrite (walkBlock_unmarked block Hblock Hun) by lia.
    unfold blockOps, parentOr. cbn [freshId parentOp opsBefore focused opsAfter app].
    rewrite !app_nil_r, IH by (auto; lia). rewrite <- app_assoc. reflexivity.
Qed.

Lemma walkNested_unmarked (op : Operation) : walkedOver op.
Proof.
  induction op as [id name operands types attrs regions IH] using Operation_nested_ind.
  intros Hun fuel up devices fresh Hfuel.
  destruct fuel as [|fuel]; [simpl in Hfuel; lia|].
  simpl in Hun. apply andb_true_iff in Hun. destruct Hun as (_ & Hun).
  rewrite walkNested_regions. cbn [getRegions].
  rewrite (regionsLoop_unmarked fuel devices regions IH Hun).
  - reflexivity.
  - simpl in Hfuel. lia.
Qed.

(** X16.  [runOnModule] on a module without a marked launch.  When the
    devices of the module cannot be read the pass signals failure and the
    module is as it was.  Otherwise, provided no operation of the module is a
    launch that carries [_tpu_replicate], the pass succeeds and changes
    nothing but what its second walk does: the module it leaves is the module
    with its compilation results erased. *)
Theorem pass_without_marked_launch (module : ModuleOp) :
  (GetDevicesFromOp module = None ->
   forall fuel, runOnModule fuel module = Some (signalPassFailure, module))
  /\ (GetDevicesFromOp module <> None ->
      noMarkedLaunch module = true ->
      forall fuel,
        walkFuel module <= fuel ->
        runOnModule fuel module = Some (passSucceeded, eraseCompilationResults module)).
Proof.
  unfold runOnModule. split.
  - intros -> fuel. reflexivity.
  - intros Hd Hun fuel Hfuel.
    destruct (GetDevicesFromOp module) as [devices|]; [|contradiction].
    rewrite (walkNested_unmarked module Hun) by exact Hfuel. reflexivity.
Qed.

(** *** The first failure *)

Lemma BuildCompileOp_refused_any_fuel (fuel fuel' : nat)
      (parentModule : list Operation -> ModuleOp)
      (launch_func : Operation) (replicas cores : Z) (compilation_device : string)
      (xla : option DeviceAssignmentProto) (builder builder' : OpBuilder) (d : Diagnostic) :
  BuildCompileOp fuel parentModule launch_func replicas cores compilation_device xla builder
  = Some (inl d, builder') ->
  BuildCompileOp fuel' parentModule launch_func replicas cores compilation_device xla builder
  = Some (inl d, builder').
Proof.
  destruct (SetMetadataProtoFromLaunchFuncOp launch_func replicas cores xla emptyMetadata)
    as [d0|metadata] eqn:Hm.
  - unfold BuildCompileOp. rewrite Hm. auto.
  - rewrite !(BuildCompileOp_run _ _ _ _ _ _ _ _ _ Hm). cbv zeta.
    destruct (getAttrOfType dyn_cast_FlatSymbolRefAttr launch_func "func") as [func_attr|];
      [|auto].
    destruct (lookupFunc _ func_attr) as [func|]; [|auto].
    destruct (EncapsulateFunc fuel _ func) as [[m [d1|module_for_func]]|] eqn:He;
      try discriminate.
    apply EncapsulateFunc_refused in He. destruct He as (Hv & -> & ->).
    intros H. inversion H. subst.
    rewrite (proj2 (EncapsulateFunc_refused fuel' _ _ func _)
                   (conj Hv (conj eq_refl eq_refl))).
    reflexivity.
Qed.

(** A failure of [Rewrite] does not depend on the fuel. *)
Lemma Rewrite_failure_any_fuel (fuel fuel' : nat) (up : BlockFocus -> ModuleOp)
      (devices : list ParsedName) (focus focus' : BlockFocus) (d : Diagnostic) :
  Rewrite fuel up devices focus = Some (failure d, focus') ->
  Rewrite fuel' up devices focus = Some (failure d, focus').
Proof.
  unfold Rewrite.
  destruct (focused focus) as [launch_func|]; [|discriminate].
  destruct (getAttrOfType dyn_cast_StringAttr launch_func kTPUReplicateAttr) as [marker|];
    [|discriminate].
  destruct (numReplicasOf (asReplicate (parentOp focus))) as [replicas|]; [|discriminate].
  destruct (getAttrOfType dyn_cast_IntegerAttr launch_func kNumCoresPerReplicaAttr)
    as [cores|]; [|auto].
  destruct (GetTPUCompilationAndExecutionDevices devices replicas (to_int cores) "" [])
    as [message|[[compilation_device execution_devices] xla]]; [auto|].
  destruct (BuildCompileOp fuel _ _ _ _ _ _ _) as [[[d0|compile_launch] builder1]|] eqn:Hb;
    try discriminate.
  - rewrite (BuildCompileOp_refused_any_fuel fuel fuel' _ _ _ _ _ _ _ _ _ Hb). auto.
  - destruct (resolveCompilationResults _ compile_launch _) as [focus2|]; [|discriminate].
    destruct (BuildTPUCompileSucceededAssertOp _ _ _) as [builder2|]; [|discriminate].
    cbn [focused withBuilder].
    destruct (focused focus2) as [launch2|]; [|discriminate].
    destruct (1 <? to_int cores)%Z.
    + destruct (BuildParallelExecuteOp _ _ _ _) as [[execute_op builder3]|]; discriminate.
    + destruct (getResult compile_launch 1) as [program|]; [|discriminate].
      destruct (BuildExecuteOp _ _ _) as [execute_op builder3].
      destruct (AssignDevicesToReplicatedExecute _ _ _ _) as [[[launch_op r] builder4]|];
        discriminate.
Qed.

Lemma walkNested_over_regions (op : Operation) :
  forallb (forallb noMarkedLaunch) (getRegions op) = true ->
  forall fuel up devices fresh,
    walkFuel op <= fuel ->
    walkNested fuel up devices op fresh = Some (advance, op, fresh).
Proof.
  intros Hun fuel up devices fresh Hfuel.
  destruct op as [id name operands types attrs regions].
  destruct fuel as [|fuel]; [simpl in Hfuel; lia|].
  rewrite walkNested_regions. cbn [getRegions] in *.
  rewrite (regionsLoop_unmarked fuel devices regions).
  - reflexivity.
  - apply Forall_forall. intros block _. apply Forall_forall. intros o _.
    apply walkNested_unmarked.
  - exact Hun.
  - simpl in Hfuel. lia.
Qed.

(** X17.  The walk stops at the first launch whose rewrite fails.  In a
    block where the operations before a launch hold no marked launch and
    [Rewrite] fails on the launch, the walk of the block is interrupted with
    the diagnostic of that failure; it leaves the block as the failed
    [Rewrite] left it, with the launch still in place and the operations
    after the launch as they were, not visited. *)
Theorem walk_stops_at_first_failure (prefix rest : list Operation) (launch_func : Operation)
        (d : Diagnostic) (up : BlockFocus -> ModuleOp) (devices : list ParsedName)
        (fresh : nat) (parent : option Operation) :
  forallb noMarkedLaunch prefix = true ->
  forallb (forallb noMarkedLaunch) (getRegions launch_func) = true ->
  isa kLaunchFuncOp launch_func = true ->
  forall before focus' fuel0,
    Rewrite fuel0 up devices (mkFocus fresh parent (before ++ prefix) (Some launch_func) rest)
    = Some (failure d, focus') ->
    forall fuel,
      S (list_sum (map walkFuel (prefix ++ [launch_func]))) <= fuel ->
      walkBlock fuel up devices (mkFocus fresh parent before None (prefix ++ launch_func :: rest))
      = Some (interrupt d, focus')
      /\ focused focus' = Some launch_func
      /\ opsAfter focus' = rest.
Proof.
  intros Hprefix Hnested Hisa.
  induction prefix as [|op prefix IH]; intros before focus' fuel0 Hfail fuel Hfuel.
  - rewrite app_nil_r in Hfail. simpl in Hfuel. destruct fuel as [|fuel]; [lia|].
    cbn [app]. rewrite walkBlock_step, (walkNested_over_regions _ Hnested) by lia.
    rewrite Hisa, (Rewrite_failure_any_fuel fuel0 fuel _ _ _ _ _ Hfail).
    split; [reflexivity|].
    destruct (Rewrite_failed fuel0 up devices
                             (mkFocus fresh parent before (Some launch_func) rest)
                             focus' launch_func d eq_refl Hfail)
      as [->|(-> & _)]; split; reflexivity.
  - simpl in Hprefix. apply andb_true_iff in Hprefix. destruct Hprefix as (Hop & Hprefix).
    simpl in Hfuel. destruct fuel as [|fuel]; [lia|].
    assert (Hpos : 1 <= walkFuel op) by (destruct op; simpl; lia).
    cbn [app]. rewrite walkBlock_step, (walkNested_unmarked op Hop) by lia.
    assert (Hnext : walkBlock fuel up devices
                              (advancePast (mkFocus fresh parent before (Some op)
                                                    (prefix ++ launch_func :: rest)))
                    = Some (interrupt d, focus')
                    /\ focused focus' = Some launch_func /\ opsAfter focus' = rest).
    { unfold advancePast. cbn [freshId parentOp opsBefore focused opsAfter].
      apply (IH Hprefix (before ++ [op]) focus' fuel0); [|lia].
      rewrite <- app_assoc. exact Hfail. }
    destruct (isa kLaunchFuncOp op) eqn:Hi; [|exact Hnext].
    rewrite (Rewrite_unmarked fuel up devices
                              (mkFocus fresh parent before (Some op)
                                       (prefix ++ launch_func :: rest)) op eq_refl);
      [exact Hnext| |exact Hi].
    destruct op as [id name operands types attrs regions]. simpl in Hop.
    apply andb_true_iff in Hop. destruct Hop as (Hop & _).
    apply negb_true_iff in Hop. exact Hop.
Qed.

(** *** The walk and one marked launch *)

Lemma encapsulateLoop_more_fuel (body : list Operation) (entry : FuncOp) :
  forall fuel referenced table result,
    encapsulateLoop fuel body entry referenced table = Some result ->
    forall fuel', fuel <= fuel' ->
                  encapsulateLoop fuel' body entry referenced table = Some result.
Proof.
  induction fuel as [|fuel IH]; intros referenced table result H fuel' Hle; [discriminate|].
  destruct fuel' as [|fuel']; [lia|]. simpl in *.
  destruct referenced as [|func referenced]; [exact H|].
  destruct (SymbolTable_lookupFunc table (getName func)); apply (IH _ _ _ H); lia.
Qed.

Lemma EncapsulateFunc_more_fuel (fuel fuel' : nat) (module : ModuleOp) (func : FuncOp)
      (result : ModuleOp * (Diagnostic + ModuleOp)) :
  EncapsulateFunc fuel module func = Some result ->
  fuel <= fuel' ->
  EncapsulateFunc fuel' module func = Some result.
Proof.
  unfold EncapsulateFunc. destruct (getAttr module kVersionsAttr); [|auto].
  destruct (encapsulateLoop fuel _ func [func] _) as [table|] eqn:H; [|discriminate].
  intros Hr Hle. rewrite (encapsulateLoop_more_fuel _ _ _ _ _ _ H fuel' Hle). exact Hr.
Qed.

Lemma BuildCompileOp_more_fuel (fuel fuel' : nat) (parentModule : list Operation -> ModuleOp)
      (launch_func : Operation) (replicas cores : Z) (compilation_device : string)
      (xla : option DeviceAssignmentProto) (builder : OpBuilder)
      (result : (Diagnostic + Operation) * OpBuilder) :
  BuildCompileOp fuel parentModule launch_func replicas cores compilation_device xla builder
  = Some result ->
  fuel <= fuel' ->
  BuildCompileOp fuel' parentModule launch_func replicas cores compilation_device xla builder
  = Some result.
Proof.
  intros H Hle.
  destruct (SetMetadataProtoFromLaunchFuncOp launch_func replicas cores xla emptyMetadata)
    as [d0|metadata] eqn:Hm.
  - unfold BuildCompileOp in *. rewrite Hm in *. exact H.
  - rewrite (BuildCompileOp_run fuel _ _ _ _ _ _ _ _ Hm) in H.
    rewrite (BuildCompileOp_run fuel' _ _ _ _ _ _ _ _ Hm). cbv zeta in *.
    destruct (getAttrOfType dyn_cast_FlatSymbolRefAttr launch_func "func") as [func_attr|];
      [|exact H].
    destruct (lookupFunc _ func_attr) as [func|]; [|exact H].
    destruct (EncapsulateFunc fuel _ func) as [closure|] eqn:He; [|discriminate].
    rewrite (EncapsulateFunc_more_fuel fuel fuel' _ _ _ He Hle). exact H.
Qed.

(** An outcome of [Rewrite] is its outcome with any more fuel. *)
Lemma Rewrite_more_fuel (fuel fuel' : nat) (up : BlockFocus -> ModuleOp)
      (devices : list ParsedName) (focus : BlockFocus)
      (result : LogicalResult * BlockFocus) :
  Rewrite fuel up devices focus = Some result ->
  fuel <= fuel' ->
  Rewrite fuel' up devices focus = Some result.
Proof.
  unfold Rewrite. intros H Hle.
  destruct (focused focus) as [launch_func|]; [|discriminate].
  destruct (getAttrOfType dyn_cast_StringAttr launch_func kTPUReplicateAttr) as [marker|];
    [|exact H].
  destruct (numReplicasOf (asReplicate (parentOp focus))) as [replicas|]; [|discriminate].
  destruct (getAttrOfType dyn_cast_IntegerAttr launch_func kNumCoresPerReplicaAttr)
    as [cores|]; [|exact H].
  destruct (GetTPUCompilationAndExecutionDevices devices replicas (to_int cores) "" [])
    as [message|[[compilation_device execution_devices] xla]]; [exact H|].
  destruct (BuildCompileOp fuel _ _ _ _ _ _ _) as [built|] eqn:Hb; [|discriminate].
  rewrite (BuildCompileOp_more_fuel fuel fuel' _ _ _ _ _ _ _ _ Hb Hle). exact H.
Qed.

Lemma noMarkedLaunch_mapOperands (f : Value -> Value) (op : Operation) :
  noMarkedLaunch (mapOperands f op) = noMarkedLaunch op.
Proof.
  induction op as [id name operands types attrs regions IH] using Operation_nested_ind.
  simpl. f_equal. induction IH as [|block regions Hblock _ IHregions]; simpl; [reflexivity|].
  rewrite IHregions. f_equal.
  induction Hblock as [|o block Ho _ IHblock]; simpl; [reflexivity|].
  rewrite Ho, IHblock. reflexivity.
Qed.

Lemma noMarkedLaunch_map (f : Value -> Value) (block : list Operation) :
  forallb noMarkedLaunch (map (mapOperands f) block) = forallb noMarkedLaunch block.
Proof.
  induction block as [|o block IH]; simpl; [reflexivity|].
  rewrite noMarkedLaunch_mapOperands, IH. reflexivity.
Qed.

Lemma walkFuel_mapOperands (f : Value -> Value) (op : Operation) :
  walkFuel (mapOperands f op) = walkFuel op.
Proof.
  induction op as [id name operands types attrs regions IH] using Operation_nested_ind.
  simpl. f_equal. induction IH as [|block regions Hblock _ IHregions]; simpl; [reflexivity|].
  rewrite IHregions. f_equal. f_equal.
  induction Hblock as [|o block Ho _ IHblock]; simpl; [reflexivity|].
  rewrite Ho, IHblock. reflexivity.
Qed.

(** The walk around one marked launch.  In a block whose other operations
    hold no marked launch, the walk does to the block what [Rewrite] does at
    the launch, and nothing else. *)
Lemma walkBlock_rewrites_launch (prefix suffix : list Operation)
        (launch_func : Operation) (up : BlockFocus -> ModuleOp) (devices : list ParsedName)
        (fresh : nat) (parent : option Operation) :
  forallb noMarkedLaunch prefix = true ->
  forallb noMarkedLaunch suffix = true ->
  forallb (forallb noMarkedLaunch) (getRegions launch_func) = true ->
  isa kLaunchFuncOp launch_func = true ->
  getAttrOfType dyn_cast_StringAttr launch_func kTPUReplicateAttr <> None ->
  forall before focus' fuel0,
    idsBelow fresh (before ++ prefix) ->
    Rewrite fuel0 up devices
            (mkFocus fresh parent (before ++ prefix) (Some launch_func) suffix)
    = Some (success, focus') ->
    forall fuel,
      fuel0 + S (list_sum (map walkFuel (prefix ++ launch_func :: suffix))) <= fuel ->
      walkBlock fuel up devices
                (mkFocus fresh parent before None (prefix ++ launch_func :: suffix))
      = Some (advance,
              mkFocus (freshId focus') (parentOp focus')
                      (opsBefore focus' ++ opsAfter focus') None []).
Proof.
  intros Hprefix Hsuffix Hnested Hisa Hm.
  induction prefix as [|op prefix IH]; intros before focus' fuel0 Hids Hrun fuel Hfuel.
  - rewrite app_nil_r in Hrun, Hids. simpl in Hfuel. destruct fuel as [|fuel]; [lia|].
    assert (Hpos : 1 <= walkFuel launch_func) by (destruct launch_func; simpl; lia).
    cbn [app]. rewrite walkBlock_step, (walkNested_over_regions _ Hnested) by lia.
    rewrite Hisa, (Rewrite_more_fuel fuel0 fuel _ _ _ _ Hrun) by lia.
    destruct (Rewrite_success fuel0 up devices
                              (mkFocus fresh parent before (Some launch_func) suffix)
                              focus' launch_func eq_refl Hm Hids Hrun)
      as (replicas & cores & cd & ed & xla & metadata & txt & device & parent'
          & _ & _ & _ & _ & _ & _ & ->).
    rewrite rewritten_parts. unfold advancePast.
    cbn [freshId parentOp opsBefore focused opsAfter]. rewrite app_nil_r.
    apply walkBlock_unmarked.
    + apply Forall_forall. intros o _. apply walkNested_unmarked.
    + rewrite noMarkedLaunch_map. exact Hsuffix.
    + rewrite map_map.
      rewrite (map_ext _ walkFuel) by (intros o; apply walkFuel_mapOperands). lia.
  - simpl in Hprefix. apply andb_true_iff in Hprefix. destruct Hprefix as (Hop & Hprefix).
    simpl in Hfuel. destruct fuel as [|fuel]; [lia|].
    assert (Hpos : 1 <= walkFuel op) by (destruct op; simpl; lia).
    cbn [app]. rewrite walkBlock_step, (walkNested_unmarked op Hop) by lia.
    assert (Hnext : walkBlock fuel up devices
                              (advancePast (mkFocus fresh parent before (Some op)
                                                    (prefix ++ launch_func :: suffix)))
                    = Some (advance,
                            mkFocus (freshId focus') (parentOp focus')
                                    (opsBefore focus' ++ opsAfter focus') None [])).
    { unfold advancePast. cbn [freshId parentOp opsBefore focused opsAfter].
      apply (IH Hprefix (before ++ [op]) focus' fuel0); [| |lia];
        rewrite <- app_assoc; assumption. }
    destruct (isa kLaunchFuncOp op) eqn:Hi; [|exact Hnext].
    rewrite (Rewrite_unmarked fuel up devices
                              (mkFocus fresh parent before (Some op)
                                       (prefix ++ launch_func :: suffix)) op eq_refl);
      [exact Hnext| |exact Hi].
    destruct op as [id name operands types attrs regions]. simpl in Hop.
    apply andb_true_iff in Hop. destruct Hop as (Hop & _).
    apply negb_true_iff in Hop. exact Hop.
Qed.

(** *** The second walk *)

(** The compilation results under [op] hold no operations themselves. *)
Fixpoint leafCompilationResults (op : Operation) : bool :=
  forallb (forallb (fun o =>
                      (if isa kTPUCompilationResultOp o
                       then match getRegions o with [] => true | _ => false end
                       else true)
                      && leafCompilationResults o))
          (getRegions op).

Lemma countOps_nested (name : string) (op : Operation) :
  countOps name op = (if isa name op then 1 else 0) + countNested name op.
Proof. destruct op. reflexivity. Qed.

Lemma eraseCompilationResults_isa (name : string) (op : Operation) :
  isa name (eraseCompilationResults op) = isa name op.
Proof. destruct op. reflexivity. Qed.

Lemma eraseCompilationResults_same (op : Operation) :
  countNested kTPUCompilationResultOp op = 0 -> eraseCompilationResults op = op.
Proof.
  induction op as [id name operands types attrs regions IH] using Operation_nested_ind.
  unfold countNested. simpl. intros Hn. unfold withRegions. simpl. f_equal.
  induction IH as [|block regions Hblock _ IHregions]; simpl; [reflexivity|].
  simpl in Hn. f_equal; [|apply IHregions; lia].
  assert (Hb : countIn kTPUCompilationResultOp block = 0) by lia. clear Hn IHregions.
  unfold eraseBlock. induction Hblock as [|o block Ho _ IHblock]; simpl; [reflexivity|].
  unfold countIn in Hb. simpl in Hb. rewrite countOps_nested in Hb.
  destruct (isa kTPUCompilationResultOp o); [lia|]. simpl.
  f_equal; [apply Ho; lia|apply IHblock; unfold countIn; lia].
Qed.

Lemma eraseCompilationResults_others (name : string) (op : Operation) :
  String.eqb kTPUCompilationResultOp name = false ->
  leafCompilationResults op = true ->
  countNested name (eraseCompilationResults op) = countNested name op.
Proof.
  intros Hname.
  induction op as [id n operands types attrs regions IH] using Operation_nested_ind.
  unfold countNested. simpl. intros Hleaf. rewrite map_map.
  induction IH as [|block regions Hblock _ IHregions]; simpl; [reflexivity|].
  simpl in Hleaf. apply andb_true_iff in Hleaf. destruct Hleaf as (Hb & Hrest).
  rewrite IHregions by exact Hrest. f_equal. clear IHregions Hrest.
  unfold countIn, eraseBlock.
  induction Hblock as [|o block Ho _ IHblock]; simpl; [reflexivity|].
  simpl in Hb. apply andb_true_iff in Hb. destruct Hb as (Ho' & Hb).
  apply andb_true_iff in Ho'. destruct Ho' as (Hleaf & Hnested).
  rewrite (countOps_nested name o).
  destruct (isa kTPUCompilationResultOp o) eqn:Hi; simpl.
  - rewrite IHblock by exact Hb.
    assert (Hn : isa name o = false).
    { unfold isa in *. apply String.eqb_eq in Hi. rewrite Hi. exact Hname. }
    rewrite Hn. unfold countNested. destruct (getRegions o); [reflexivity|discriminate].
  - rewrite IHblock by exact Hb.
    rewrite countOps_nested, eraseCompilationResults_isa, (Ho Hnested). reflexivity.
Qed.

(** X18.  The second walk of the pass, [eraseCompilationResults]: applied
    twice it does what it does once; it leaves an operation without
    compilation results under it as it is; and when the compilation results
    hold no operations themselves, the operations of every other name are
    as many after it as before. *)
Theorem erase_only_compilation_results (op : Operation) :
  eraseCompilationResults (eraseCompilationResults op) = eraseCompilationResults op
  /\ (countNested kTPUCompilationResultOp op = 0 -> eraseCompilationResults op = op)
  /\ (leafCompilationResults op = true ->
      forall name,
        name <> kTPUCompilationResultOp ->
        countNested name (eraseCompilationResults op) = countNested name op).
Proof.
  split; [|split].
  - apply eraseCompilationResults_same. apply eraseCompilationResults_none.
  - apply eraseCompilationResults_same.
  - intros Hleaf name Hname. apply eraseCompilationResults_others; [|exact Hleaf].
    apply String.eqb_neq. congruence.
Qed.

End PassProperties.

Section PassWitnesses.
#[local] Existing Instance Example.collaborators.
#[local] Existing Instance Example.serializers.

Lemma pass_without_marked_launch_witness :
  runOnModule 40 (Example.module_of [Example.launch_unmarked;
                                      Example.compilation_result 3 "other"])
  = Some (passSucceeded, Example.module_of [Example.launch_unmarked]).
Proof.
  exact (proj2 (pass_without_marked_launch (C := Example.collaborators)
                  (P := Example.serializers)
                  (Example.module_of [Example.launch_unmarked;
                                      Example.compilation_result 3 "other"]))
               ltac:(discriminate) eq_refl 40 ltac:(vm_compute; lia)).
Defined.

Lemma walk_stops_at_first_failure_witness :
  exists focus',
    walkBlock 10 Example.up Example.devices
              (mkFocus 20 None [] None
                       [Example.some_op 3 []; launch_without_func;
                        Example.compilation_result 5 "cluster0"])
    = Some (interrupt (noFuncAttribute launch_without_func), focus')
    /\ focused focus' = Some launch_without_func
    /\ opsAfter focus' = [Example.compilation_result 5 "cluster0"].
Proof.
  assert (Hfail : exists focus',
             Rewrite 0 Example.up Example.devices
                     (mkFocus 20 None ([] ++ [Example.some_op 3 []])
                              (Some launch_without_func)
                              [Example.compilation_result 5 "cluster0"])
             = Some (failure (noFuncAttribute launch_without_func), focus'))
    by (eexists; vm_compute; reflexivity).
  destruct Hfail as (focus' & Hfail). exists focus'.
  exact (walk_stops_at_first_failure (C := Example.collaborators) (P := Example.serializers)
           [Example.some_op 3 []] [Example.compilation_result 5 "cluster0"]
           launch_without_func (noFuncAttribute launch_without_func)
           Example.up Example.devices 20 None eq_refl eq_refl eq_refl
           [] focus' 0 Hfail 10 ltac:(vm_compute; lia)).
Defined.

Lemma erase_only_compilation_results_witness :
  countNested "tf.SomeOp"
              (eraseCompilationResults
                 (Example.module_of [Example.compilation_result 3 "other";
                                     Example.some_op 5 []]))
  = 1.
Proof.
  rewrite (proj2 (proj2 (erase_only_compilation_results
                           (Example.module_of [Example.compilation_result 3 "other";
                                               Example.some_op 5 []])))
                 eq_refl "tf.SomeOp" ltac:(discriminate)).
  reflexivity.
Defined.

End PassWitnesses.

(** ** The pass on a module with one marked launch *)

Section PassOnOneLaunch.
Context {C : Collaborators} {P : Serializers}.

(** The walk of a block in which one operation changes under the walk of
    its regions and the others hold no marked launch. *)
Lemma walkBlock_one_changed (prefix suffix : list Operation) (op op' : Operation)
      (up : BlockFocus -> ModuleOp) (devices : list ParsedName)
      (fresh fresh' : nat) (parent : option Operation) (bound : nat) :
  forallb noMarkedLaunch prefix = true ->
  forallb noMarkedLaunch suffix = true ->
  isa kLaunchFuncOp op' = false ->
  forall before,
    (forall fuel,
        bound <= fuel ->
        walkNested fuel
                   (fun fresh op => up (mkFocus fresh parent (before ++ prefix) (Some op) suffix))
                   devices op fresh
        = Some (advance, op', fresh')) ->
    forall fuel,
      bound + 2 + list_sum (map walkFuel prefix) + list_sum (map walkFuel suffix) <= fuel ->
      walkBlock fuel up devices (mkFocus fresh parent before None (prefix ++ op :: suffix))
      = Some (advance, mkFocus fresh' parent (before ++ prefix ++ op' :: suffix) None []).
Proof.
  intros Hprefix Hsuffix Hisa.
  induction prefix as [|o prefix IH]; intros before Hwalk fuel Hfuel.
  - rewrite app_nil_r in Hwalk. simpl in Hfuel. destruct fuel as [|fuel]; [lia|].
    cbn [app]. rewrite walkBlock_step, Hwalk by lia. rewrite Hisa.
    unfold advancePast. cbn [freshId parentOp opsBefore focused opsAfter].
    rewrite walkBlock_unmarked.
    + rewrite <- app_assoc. reflexivity.
    + apply Forall_forall. intros x _. apply walkNested_unmarked.
    + exact Hsuffix.
    + lia.
  - simpl in Hprefix. apply andb_true_iff in Hprefix. destruct Hprefix as (Ho & Hprefix).
    simpl in Hfuel. destruct fuel as [|fuel]; [lia|].
    assert (Hpos : 1 <= walkFuel o) by (destruct o; simpl; lia).
    cbn [app]. rewrite walkBlock_step, (walkNested_unmarked o Ho) by lia.
    assert (Hnext : walkBlock fuel up devices
                              (advancePast (mkFocus fresh parent before (Some o)
                                                    (prefix ++ op :: suffix)))
                    = Some (advance,
                            mkFocus fresh' parent (before ++ o :: prefix ++ op' :: suffix)
                                    None [])).
    { unfold advancePast. cbn [freshId parentOp opsBefore focused opsAfter].
      rewrite (IH Hprefix (before ++ [o])).
      - rewrite <- app_assoc. reflexivity.
      - intros f Hf. rewrite <- app_assoc. apply Hwalk. exact Hf.
      - lia. }
    destruct (isa kLaunchFuncOp o) eqn:Hi; [|exact Hnext].
    rewrite (Rewrite_unmarked fuel up devices
                              (mkFocus fresh parent before (Some o) (prefix ++ op :: suffix))
                              o eq_refl);
      [exact Hnext| |exact Hi].
    destruct o as [id name operands types attrs regions]. simpl in Ho.
    apply andb_true_iff in Ho. destruct Ho as (Ho & _).
    apply negb_true_iff in Ho. exact Ho.
Qed.

(** The module around the block in focus: the block is the body of [func],
    which stands between [funcs_before] and [funcs_after] in the body of
    [module]. *)
Definition moduleWith (module : ModuleOp) (funcs_before : list Operation) (func : Operation)
           (funcs_after : list Operation) (focus : BlockFocus) : ModuleOp :=
  withRegions module
              [funcs_before ++ withRegions (parentOr func focus) [blockOps focus] :: funcs_after].

Lemma Rewrite_parent (fuel : nat) (up : BlockFocus -> ModuleOp) (devices : list ParsedName)
      (focus focus' : BlockFocus) (launch_func : Operation) :
  focused focus = Some launch_func ->
  getAttrOfType dyn_cast_StringAttr launch_func kTPUReplicateAttr <> None ->
  idsBelow (freshId focus) (opsBefore focus) ->
  asReplicate (parentOp focus) = None ->
  Rewrite fuel up devices focus = Some (success, focus') ->
  parentOp focus' = parentOp focus /\ focused focus' = None.
Proof.
  intros Hf Hm Hids Hnone Hrun.
  destruct (Rewrite_success fuel up devices focus focus' launch_func Hf Hm Hids Hrun)
    as (replicas & cores & cd & ed & xla & metadata & txt & device & parent'
        & _ & _ & _ & _ & _ & Hassigned & ->).
  unfold assigned in Hassigned. rewrite Hnone in Hassigned.
  destruct Hassigned as (row & _ & _ & ->). rewrite rewritten_parts. split; reflexivity.
Qed.

(** The walk of a function whose body holds one marked launch. *)
Lemma walkNested_func (func launch_func : Operation) (prefix suffix : list Operation)
      (up : nat -> Operation -> ModuleOp) (devices : list ParsedName) (fresh : nat)
      (focus' : BlockFocus) (fuel0 : nat) :
  getRegions func = [prefix ++ launch_func :: suffix] ->
  isa kReplicateOp func = false ->
  forallb noMarkedLaunch prefix = true ->
  forallb noMarkedLaunch suffix = true ->
  forallb (forallb noMarkedLaunch) (getRegions launch_func) = true ->
  isa kLaunchFuncOp launch_func = true ->
  getAttrOfType dyn_cast_StringAttr launch_func kTPUReplicateAttr <> None ->
  idsBelow fresh prefix ->
  Rewrite fuel0
          (fun focus => up (freshId focus) (withRegions (parentOr func focus) [blockOps focus]))
          devices (mkFocus fresh (Some func) prefix (Some launch_func) suffix)
  = Some (success, focus') ->
  forall fuel,
    fuel0 + 2 + list_sum (map walkFuel (prefix ++ launch_func :: suffix)) <= fuel ->
    walkNested fuel up devices func fresh
    = Some (advance, withRegions func [opsBefore focus' ++ opsAfter focus'], freshId focus').
Proof.
  intros Hregions Hrep Hprefix Hsuffix Hnested Hisa Hm Hids Hrun fuel Hfuel.
  destruct fuel as [|fuel]; [lia|].
  rewrite walkNested_regions, Hregions. cbn [regionsLoop].
  pose proof (walkBlock_rewrites_launch
                prefix suffix launch_func
                (fun focus =>
                   up (freshId focus) (withRegions (parentOr func focus) [blockOps focus]))
                devices fresh (Some func) Hprefix Hsuffix Hnested Hisa Hm
                [] focus' fuel0 Hids Hrun fuel ltac:(lia)) as Hwalk.
  cbn [app] in Hwalk.
  change (walkBlock fuel
            (fun inner : BlockFocus =>
               up (freshId inner)
                  (withRegions (parentOr func inner) ([] ++ [blockOps inner] ++ [])))
            devices (mkFocus fresh (Some func) [] None (prefix ++ launch_func :: suffix)))
    with (walkBlock fuel
            (fun focus : BlockFocus =>
               up (freshId focus) (withRegions (parentOr func focus) [blockOps focus]))
            devices (mkFocus fresh (Some func) [] None (prefix ++ launch_func :: suffix))).
  rewrite Hwalk. cbn [regionsLoop].
  assert (Hnone : asReplicate (Some func) = None) by (simpl; rewrite Hrep; reflexivity).
  destruct (Rewrite_parent fuel0 _ devices
                           (mkFocus fresh (Some func) prefix (Some launch_func) suffix)
                           focus' launch_func eq_refl Hm Hids Hnone Hrun) as (Hparent & _).
  unfold parentOr, blockOps.
  cbn [freshId parentOp opsBefore focused opsAfter app]. rewrite Hparent.
  cbn [parentOp]. rewrite !app_nil_r. reflexivity.
Qed.

Lemma maxOpId_own (op : Operation) : opId op <= maxOpId op.
Proof. destruct op. simpl. lia. Qed.

Lemma maxOpId_nested (op : Operation) (block : list Operation) (o : Operation) :
  In block (getRegions op) -> In o block -> maxOpId o <= maxOpId op.
Proof.
  destruct op as [id name operands types attrs regions]. simpl. intros Hb Ho.
  assert (Hblock : maxOpId o <= fold_right (fun o m => Nat.max (maxOpId o) m) 0 block).
  { clear Hb. induction block as [|x block IH]; [destruct Ho|].
    simpl. destruct Ho as [->|Ho]; [lia|]. specialize (IH Ho). lia. }
  assert (Hregions :
            fold_right (fun o m => Nat.max (maxOpId o) m) 0 block
            <= fold_right (fun block m =>
                             Nat.max (fold_right (fun o m => Nat.max (maxOpId o) m) 0 block) m)
                          0 regions).
  { clear Ho Hblock. induction regions as [|b regions IH]; [destruct Hb|].
    simpl. destruct Hb as [->|Hb]; [lia|]. specialize (IH Hb). lia. }
  lia.
Qed.

(** X19.  The pass on a module with one marked launch.  When one function
    of the module holds, in its body, one launch that carries
    [_tpu_replicate], no other operation of the module is such a launch, and
    [Rewrite] succeeds on that launch in the module as it stands, then the
    pass succeeds, and the module it leaves is the module with the body of
    that function as [Rewrite] left it and with the compilation results
    erased; every other function is as it was but for its compilation
    results. *)
Theorem pass_rewrites_single_launch (module func launch_func : Operation)
        (funcs_before funcs_after prefix suffix : list Operation)
        (devices : list ParsedName) (focus' : BlockFocus) (fuel0 : nat) :
  GetDevicesFromOp module = Some devices ->
  getRegions module = [funcs_before ++ func :: funcs_after] ->
  getRegions func = [prefix ++ launch_func :: suffix] ->
  isa kLaunchFuncOp func = false ->
  isa kReplicateOp func = false ->
  forallb noMarkedLaunch (funcs_before ++ funcs_after) = true ->
  forallb noMarkedLaunch (prefix ++ suffix) = true ->
  forallb (forallb noMarkedLaunch) (getRegions launch_func) = true ->
  isa kLaunchFuncOp launch_func = true ->
  getAttrOfType dyn_cast_StringAttr launch_func kTPUReplicateAttr <> None ->
  Rewrite fuel0 (moduleWith module funcs_before func funcs_after) devices
          (mkFocus (S (maxOpId module)) (Some func) prefix (Some launch_func) suffix)
  = Some (success, focus') ->
  forall fuel,
    fuel0 + 5 + walkFuel module <= fuel ->
    runOnModule fuel module
    = Some (passSucceeded,
            eraseCompilationResults
              (withRegions module
                           [funcs_before
                            ++ withRegions func [opsBefore focus' ++ opsAfter focus']
                            :: funcs_after])).
Proof.
  intros Hdevices Hmodule Hfunc Hnot Hrep Hfuncs Hbody Hnested Hisa Hm Hrun fuel Hfuel.
  rewrite forallb_app in Hfuncs, Hbody.
  apply andb_true_iff in Hfuncs. destruct Hfuncs as (Hfb & Hfa).
  apply andb_true_iff in Hbody. destruct Hbody as (Hprefix & Hsuffix).
  assert (Hfunc_in : In func (funcs_before ++ func :: funcs_after))
    by (apply in_or_app; right; left; reflexivity).
  assert (Hids : idsBelow (S (maxOpId module)) prefix).
  { apply Forall_forall. intros o Ho.
    pose proof (maxOpId_own o) as H1.
    assert (H2 : maxOpId o <= maxOpId func).
    { apply (maxOpId_nested func (prefix ++ launch_func :: suffix));
        [rewrite Hfunc; left; reflexivity|apply in_or_app; left; exact Ho]. }
    assert (H3 : maxOpId func <= maxOpId module).
    { apply (maxOpId_nested module (funcs_before ++ func :: funcs_after));
        [rewrite Hmodule; left; reflexivity|exact Hfunc_in]. }
    lia. }
  assert (Hweight : walkFuel module
                    = S (S (list_sum (map walkFuel funcs_before)
                            + (walkFuel func + list_sum (map walkFuel funcs_after))) + 0)).
  { destruct module as [id name operands types attrs regions]. simpl in Hmodule.
    subst regions. simpl. rewrite map_app, list_sum_app. reflexivity. }
  assert (Hweight' : walkFuel func
                     = S (S (list_sum (map walkFuel (prefix ++ launch_func :: suffix))) + 0)).
  { destruct func as [id name operands types attrs regions]. simpl in Hfunc.
    subst regions. reflexivity. }
  unfold runOnModule. rewrite Hdevices.
  destruct fuel as [|fuel]; [lia|].
  rewrite walkNested_regions, Hmodule. cbn [regionsLoop].
  rewrite (walkBlock_one_changed
             funcs_before funcs_after func
             (withRegions func [opsBefore focus' ++ opsAfter focus'])
             _ devices (S (maxOpId module)) (freshId focus') (Some module)
             (fuel0 + 2 + list_sum (map walkFuel (prefix ++ launch_func :: suffix)))
             Hfb Hfa).
  - cbn [regionsLoop]. unfold parentOr, blockOps.
    cbn [freshId parentOp opsBefore focused opsAfter app]. rewrite !app_nil_r.
    reflexivity.
  - destruct func. exact Hnot.
  - intros f Hf.
    apply (walkNested_func func launch_func prefix suffix _ devices (S (maxOpId module))
                           focus' fuel0 Hfunc Hrep Hprefix Hsuffix Hnested Hisa Hm Hids);
      [exact Hrun|exact Hf].
  - lia.
Qed.

End PassOnOneLaunch.

Section PassOnOneLaunchWitness.
#[local] Existing Instance Example.collaborators.
#[local] Existing Instance Example.serializers.

Lemma pass_rewrites_single_launch_witness :
  exists focus',
    Rewrite 10
            (moduleWith (Example.module_of
                           (Example.before_launch ++ Example.launch1 :: Example.after_launch))
                        []
                        (Example.func 2 "main"
                           (Example.before_launch ++ Example.launch1 :: Example.after_launch))
                        Example.callees)
            Example.devices
            (mkFocus 10
                     (Some (Example.func 2 "main"
                              (Example.before_launch ++ Example.launch1
                               :: Example.after_launch)))
                     Example.before_launch (Some Example.launch1) Example.after_launch)
    = Some (success, focus')
    /\ runOnModule 40 (Example.module_of
                         (Example.before_launch ++ Example.launch1 :: Example.after_launch))
       = Some (passSucceeded,
               eraseCompilationResults
                 (Example.module_of (opsBefore focus' ++ opsAfter focus'))).
Proof.
  assert (Hrun : exists focus',
             Rewrite 10
                     (moduleWith (Example.module_of
                                    (Example.before_launch ++ Example.launch1
                                     :: Example.after_launch))
                                 []
                                 (Example.func 2 "main"
                                    (Example.before_launch ++ Example.launch1
                                     :: Example.after_launch))
                                 Example.callees)
                     Example.devices
                     (mkFocus 10
                              (Some (Example.func 2 "main"
                                       (Example.before_launch ++ Example.launch1
                                        :: Example.after_launch)))
                              Example.before_launch (Some Example.launch1)
                              Example.after_launch)
             = Some (success, focus'))
    by (eexists; vm_compute; reflexivity).
  destruct Hrun as (focus' & Hrun). exists focus'. split; [exact Hrun|].
  exact (pass_rewrites_single_launch (C := Example.collaborators) (P := Example.serializers)
           (Example.module_of
              (Example.before_launch ++ Example.launch1 :: Example.after_launch))
           (Example.func 2 "main"
              (Example.before_launch ++ Example.launch1 :: Example.after_launch))
           Example.launch1 [] Example.callees Example.before_launch Example.after_launch
           Example.devices focus' 10 eq_refl eq_refl eq_refl eq_refl eq_refl eq_refl eq_refl
           eq_refl eq_refl ltac:(discriminate) Hrun 40 ltac:(vm_compute; lia)).
Defined.

End PassOnOneLaunchWitness.

(** ** The closure extractor, for any entry *)

Section ClosureSoundness.

(** A function up to its symbol name. *)
Inductive renamedFrom (h : FuncOp) : FuncOp -> Prop :=
| renamed_same : renamedFrom h h
| renamed_set (f : FuncOp) (name : string) : renamedFrom h f -> renamedFrom h (setName f name).

Lemma renamedFrom_same_function (h f : FuncOp) :
  renamedFrom h f ->
  opId f = opId h /\ opName f = opName h /\ getOperands f = getOperands h
  /\ getResultTypes f = getResultTypes h /\ getRegions f = getRegions h
  /\ forall name, name <> kSymNameAttr -> getAttr f name = getAttr h name.
Proof.
  induction 1 as [|f name _ (H1 & H2 & H3 & H4 & H5 & H6)].
  - repeat split; reflexivity.
  - repeat split; try assumption.
    intros n Hn. unfold setName. rewrite getAttr_setAttr_other by exact Hn. apply H6. exact Hn.
Qed.

Lemma cloneFor_renamed (entry func : FuncOp) : renamedFrom func (cloneFor entry func).
Proof.
  unfold cloneFor. destruct (String.eqb (getName func) (getName entry)).
  - apply renamed_set. apply renamed_same.
  - apply renamed_same.
Qed.

Lemma SymbolTable_insert_symbols (table : SymbolTable) (symbol : Operation) :
  exists inserted,
    symbols (SymbolTable_insert table symbol) = symbols table ++ [inserted]
    /\ renamedFrom symbol inserted.
Proof.
  unfold SymbolTable_insert. destruct (hasSymbol (symbols table) (getName symbol)).
  - destruct (uniqueName _ _ _ _) as [name counter]. eexists. split; [reflexivity|].
    apply renamed_set. apply renamed_same.
  - eexists. split; [reflexivity|]. apply renamed_same.
Qed.

Lemma renamedFrom_trans (g h f : FuncOp) : renamedFrom g h -> renamedFrom h f -> renamedFrom g f.
Proof. intros Hgh Hhf. induction Hhf; [exact Hgh|]. apply renamed_set. assumption. Qed.

Variable body : list Operation.
Variable entry : FuncOp.

Lemma encapsulateLoop_grows :
  forall fuel referenced table table',
    encapsulateLoop fuel body entry referenced table = Some table' ->
    exists more, symbols table' = symbols table ++ more.
Proof.
  induction fuel as [|fuel IH]; intros referenced table table' H; [discriminate|].
  simpl in H. destruct referenced as [|func referenced].
  - inversion H. exists []. rewrite app_nil_r. reflexivity.
  - destruct (SymbolTable_lookupFunc table (getName func)).
    + apply (IH _ _ _ H).
    + apply IH in H. destruct H as (more & H).
      destruct (SymbolTable_insert_symbols table (cloneFor entry func))
        as (inserted & Hi & _).
      rewrite Hi, <- app_assoc in H. eauto.
Qed.

(** What the loop puts into the table is a function that the entry
    reaches, up to its name. *)
Lemma encapsulateLoop_sound :
  forall fuel referenced table table',
    (forall g, In g referenced -> reachable body entry g) ->
    (forall f, In f (symbols table) ->
               exists h, reachable body entry h /\ renamedFrom h f) ->
    encapsulateLoop fuel body entry referenced table = Some table' ->
    forall f, In f (symbols table') -> exists h, reachable body entry h /\ renamedFrom h f.
Proof.
  induction fuel as [|fuel IH]; intros referenced table table' Href Htable H; [discriminate|].
  simpl in H. destruct referenced as [|func referenced].
  - inversion H. subst. exact Htable.
  - destruct (SymbolTable_lookupFunc table (getName func)).
    + apply (IH _ _ _ (fun g Hg => Href g (or_intror Hg)) Htable H).
    + apply (IH (pushReferenced body (getSymbolUses func) referenced)
                 (SymbolTable_insert table (cloneFor entry func)) table'); [| |exact H].
      * intros g Hg. apply pushReferenced_In in Hg.
        destruct Hg as [Hg|(s & Hs & Hl)]; [apply Href; right; exact Hg|].
        apply (reachable_use body entry func g s); [apply Href; left; reflexivity| |];
          assumption.
      * intros f Hf.
        destruct (SymbolTable_insert_symbols table (cloneFor entry func))
          as (inserted & Hi & Hr).
        rewrite Hi in Hf. apply in_app_or in Hf. destruct Hf as [Hf|[<-|[]]].
        -- apply Htable. exact Hf.
        -- exists func. split; [apply Href; left; reflexivity|].
           apply (renamedFrom_trans _ _ _ (cloneFor_renamed entry func) Hr).
Qed.

End ClosureSoundness.

(** X20.  What [EncapsulateFuncAndSerialize] extracts for any entry
    function, safe to rename or not: whenever it returns a module, the source
    module is as it was, the new module has the [tf.versions] attribute of
    the source, its first function is the entry under the name "main", and
    every function in it is a function of the source that the entry reaches
    through symbol uses, the same but for its symbol name; no other function
    is ever cloned. *)
Theorem closure_holds_reachable_only (fuel : nat) (module module' : ModuleOp)
        (entry : FuncOp) (module_for_func : ModuleOp) :
  EncapsulateFunc fuel module entry = Some (module', inr module_for_func) ->
  module' = module
  /\ getAttr module_for_func kVersionsAttr = getAttr module kVersionsAttr
  /\ (exists rest, getBody module_for_func = setName entry "main" :: rest)
  /\ forall f,
      In f (getBody module_for_func) ->
      exists h,
        reachable (getBody module) entry h
        /\ renamedFrom h f
        /\ getRegions f = getRegions h
        /\ forall name, name <> kSymNameAttr -> getAttr f name = getAttr h name.
Proof.
  unfold EncapsulateFunc.
  destruct (getAttr module kVersionsAttr) as [versions|] eqn:Hv; [|discriminate].
  destruct (encapsulateLoop fuel (getBody module) entry [entry] (mkSymbolTable [] 0))
    as [table|] eqn:Hrun; [|discriminate].
  intros H. inversion H. subst module' module_for_func. clear H.
  split; [reflexivity|]. split; [reflexivity|]. split.
  - destruct fuel as [|fuel]; [discriminate|]. simpl in Hrun.
    unfold SymbolTable_insert, cloneFor in Hrun. simpl in Hrun.
    rewrite String.eqb_refl in Hrun.
    apply encapsulateLoop_grows in Hrun. destruct Hrun as (more & Hrun).
    exists more. unfold newModule, getBody. simpl. rewrite Hrun. reflexivity.
  - intros f Hf. unfold newModule, getBody in Hf. simpl in Hf.
    destruct (encapsulateLoop_sound (getBody module) entry fuel [entry] (mkSymbolTable [] 0)
                                    table) with (f := f) as (h & Hh & Hr); auto.
    + intros g [<-|[]]. apply reachable_entry.
    + intros x [].
    + exists h. destruct (renamedFrom_same_function h f Hr) as (_ & _ & _ & _ & H5 & H6).
      auto.
Qed.

Section ClosureSoundnessWitness.

Lemma closure_holds_reachable_only_witness :
  exists module_for_func rest,
    EncapsulateFunc 10 Example.main_taken Example.main_taken_entry
    = Some (Example.main_taken, inr module_for_func)
    /\ getBody module_for_func = setName Example.main_taken_entry "main" :: rest.
Proof.
  assert (Hrun : exists module_for_func,
             EncapsulateFunc 10 Example.main_taken Example.main_taken_entry
             = Some (Example.main_taken, inr module_for_func))
    by (eexists; vm_compute; reflexivity).
  destruct Hrun as (module_for_func & Hrun).
  destruct (closure_holds_reachable_only 10 Example.main_taken Example.main_taken
                                         Example.main_taken_entry module_for_func Hrun)
    as (_ & _ & (rest & Hrest) & _).
  exists module_for_func, rest. split; [exact Hrun|exact Hrest].
Defined.

End ClosureSoundnessWitness.
